(* ===== verification/_CoqProject ===== *)
-Q . S2P
Prelude.v
RustStd.v
HttpApi.v
Plain.v
ContentCoding.v
AcceptGrammar.v
Range.v
RangeGrammar.v
Etag.v
EtagGrammar.v
Stream.v
Entity.v
Multipart.v
Chunker.v
ChunkSizes.v
Platform.v
File.v
Dir.v
Gzip.v
Body.v
Streaming.v
StreamingBody.v
Writing.v
ChunkedAcceptance.v
Serving.v
ServingSpec.v
ServingProps.v
ServingTypes.v
Framing.v
SameBytes.v
Preconditions.v
FuzzTargets.v
EntityAcceptance.v
FileServing.v
Download.v
Revalidate.v
ServeFile.v
ServeDir.v
DirListing.v
DirServer.v
DirClients.v
Negotiation.v
Bench.v
UnitTests.v
