(* ===== verification/Prelude.v ===== *)
(** * http-serve: a verification development

    http-serve (src/src/) is a Rust crate that answers HTTP GET and HEAD
    requests: for an [Entity], a resource with random access to its bytes, it
    evaluates conditional headers and byte ranges; for a body that is generated
    on the fly, it provides a writer connected to the response through a pipe,
    with optional gzip compression.  This library is a shallow embedding of the
    crate: each function of the source is a Rocq function of the same name, on
    which the theorems are proved.

    ** How Rust is rendered

    - An expression that can panic has type [outcome]: a value ([Ret]) or a
      panic with its reason ([Panic]).  [OutOfFuel] marks a loop that was not
      given enough turns; as it is a [Panic], every theorem that excludes panics
      proves that the loops end.  [Result] is [result], [Option] is [option].
    - A [u64], [u32], [u16] or [usize] is a [Z] in its range.  [+] and [-] are
      [u64_add], [usize_sub], ...: whether they panic or wrap is a parameter
      ([overflow_checks] of [Build]), as are [debug_assert!] and the width of
      [usize]; the theorems hold for every build profile unless they say
      otherwise.
    - Strings and byte slices are lists of [byte].  [&mut self] is state
      passing.  The [Arc<Mutex<_>>] of the pipe is explicit shared state, and
      its two owners interleave by a step relation.
    - A [dyn Stream] is the sequence of its answers to [poll_next].
    - Code that is not in the repository is a class of operations with a class
      of laws, which state what that code documents: [Http], [HttpDate], [Buf]
      (HttpApi), [Wakers] and [Allocator] (Chunker), [Unix] and [Windows]
      (Platform), [UnixDirs] (Dir), [GzEncoders] and [GzCodec] (Gzip),
      [FuzzHttp] (FuzzTargets), [OpenFile] (ServeFile), [NixDirs] and [WebCrates]
      (ServeDir).  Each class has a concrete instance in the library, for which
      its laws are proved and on which the witnesses of the theorems are
      evaluated.

    ** The files and the code they model

    - Prelude: outcomes, results, machine integers, generic lemmas, tactics.
    - RustStd: what the crate uses of [core] and [std]: [&str] methods, integer
      parsing and formatting, [SystemTime], [io::Error].
    - HttpApi, Plain: the interfaces of the crates [http], [httpdate] and
      [bytes], and a small model of them.
    - ContentCoding: [parse_qvalue] and [should_gzip] (lib.rs); AcceptGrammar:
      the grammar of the headers it understands.
    - Range: [ResolvedRanges::parse] (range.rs); RangeGrammar: the grammar of
      the headers it takes for byte ranges, and what it makes of them.
    - Etag: [weak_eq], [strong_eq], the [List] iterator, [none_match] and
      [any_match] (etag.rs); EtagGrammar: the grammar of the lists they accept.
    - Stream: the interface of a polled stream; [ExactLenStream] (body.rs).
    - Entity: the trait [Entity] (lib.rs) and its documented contract
      ([EntityLaws], of one entity); the part of it that says nothing of the
      data ([EntityFrame]); [unsafe_fmt_ascii_val!].
    - Multipart: [MultipartStream] (serving.rs), with its [state] counter, the
      stream of the present part and what remains of the body.
    - Chunker: [Writer], [Reader] and the state they share (chunker.rs);
      ChunkSizes: the sizes of the pieces that pass between them.
    - Platform: [read_at], [file_info], [filetime_to_systemtime] (platform.rs).
    - File: [ChunkedReadFile] (file.rs) and that it keeps the contract of
      [Entity] as long as the file does not change ([file_laws]).
    - Dir: [FsDir], [Node], [validate_path] (dir.rs).
    - Gzip: [BodyWriter] (gzip.rs); what an encoder has put into the pipe and
      what its decoder makes of that ([GzCodec]).
    - Body: [Body] and [BodyStream] (body.rs).
    - Streaming: [streaming_body] and its builder (lib.rs).  StreamingBody: the
      writer it hands out and the response's body as one system, whose steps are
      the calls of the handler and the polls of the client.  Writing: programs
      of [write_all] and [flush] on such a writer, and what they add up to.
    - Serving: [serve], [serve_inner], [prepare_multipart],
      [parse_modified_hdrs] (serving.rs).
    - ServingSpec: what [serve] promises, as an abstract [answer], and the proof
      that it keeps it: [serve_shape] of any [EntityFrame], [serve_is] of an
      entity that keeps the whole contract.  ServingProps: the properties of
      [serve].  ServingTypes: the bytes of its header values.  Framing: lengths,
      announced and real, whatever the entity's streams do, and how long a
      response can get.  SameBytes: what of a request [serve] looks at.
      Preconditions: [serve] against RFC 7232.  FileServing: [serve] on files.
      Download, Revalidate: a client that resumes and a cache that revalidates,
      over several requests.
    - FuzzTargets: the programs of fuzz/fuzz_targets/.  ServeFile, ServeDir: the
      request handlers of examples/serve_file.rs and examples/serve_dir.rs;
      DirListing: the page the latter writes; DirServer: what it answers;
      DirClients: the clients of Download and Revalidate in front of it;
      Negotiation: what its responses say of the choice between a file and its
      gzipped copy.
    - UnitTests: the tests in the modules of src/src/, as programs.
      EntityAcceptance: tests/entity-acceptance.rs, as lists of exchanges.
      ChunkedAcceptance: the handler of tests/chunked-acceptance.rs, with any
      commands and polls.  Bench: the request handlers of benches/.

    A request goes through Etag, Range and the dates of HttpApi in Serving; the
    response's Body polls an ExactLenStream or a MultipartStream around the
    entity's streams, or the Reader of a pipe that a BodyWriter fills.  These
    all implement [Pollable]; those that announce a length implement [Sized],
    whose laws say that polling up to the end or the first error never panics
    and that the announced length is the truth, and compose from ExactLenStream
    to Body.

    ** What is proved

    - [serve]: a refinement (the response, every header field and body byte
      included, is that of the abstract answer), and from it, for an entity with
      dates from 1970 to 9999: no panics but one, the [Content-Length] is the
      length of the body, HEAD is like GET, single and multiple ranges,
      [If-Range], the conditional headers as in RFC 7232 but for three
      exceptions, round trips of the entity tag and the date, that downloads of
      files over several requests never mix versions of the file and that a cache
      that revalidates never keeps a stale one, that every header value is made
      of visible characters or is the entity's own, and that the answer is a
      function of the bytes of six header fields.  For an entity whose streams do
      what they like, that the lengths announced still hold or the body fails,
      and how much longer than the entity a response can be.
    - Bodies: what a multipart body consists of and that it has exactly its
      announced length, with a loop that ends in every state; the size hint of
      a body; ExactLenStream's handling of streams of the wrong length.
    - The pipe: first in, first out; no lost wake-up; everything accepted is
      delivered; progress of the writer; the sizes of the chunks; what the
      reader sees after [abort].
    - Streaming responses: a refinement of the pipe through the encoder, and
      from it that what the client decodes is what the handler wrote, for every
      order of a task's commands and the client's polls.
    - Headers: [Range], [Accept-Encoding] and entity tag lists are understood as
      a grammar says, on every input; [Accept-Encoding] is decided by the
      preferences it states; where the parsers can panic is characterised.
    - Files and directories: ranges are read completely however short the reads
      are, and up to the end of a file that has become shorter; entity tags are
      valid and change with the file; only paths whose text stays within the
      directory are opened (links are followed), and which file is chosen.  A client that resumes a download from
      the directory server, or a cache that revalidates its copy, never mixes a
      file with its gzipped copy or takes one for the other, whatever
      [Accept-Encoding] each request has (by a simulation by [serve] on the files
      that can be chosen), and a cache that goes by [Vary] is right about a 200.
    - The programs around the crate: what the examples answer, errors and
      panics included, and that a directory listing, read by a parser of its own,
      has exactly the links it should; that the fuzz targets find nothing but the one overflow [serve] is
      proved to have; that the unit tests and the acceptance tests of [serve]
      pass wherever the system and the crates below behave as documented, and
      that every benchmark is served what it is meant to load.

    ** Fuel

    [multipart_poll] takes two turns of its loop: the end of a part's stream is
    the only thing that is not an answer, and the next state gives one or starts
    a part, whose stream answers.  [validate_segments] gets one turn more than
    the path has bytes, and consumes a byte per turn.  [items_fuel] does the same
    for an entity tag list.  [fmt_fuel] is the binary length of the number.
    [write_all] is given (by [body_write_all]) two turns more than there are bytes: a turn writes one,
    or fails for good, or makes the body one that fails.  [read_rows] reads a
    row, which is not empty, per turn.  [drain], [poll_until] and [poll_all],
    which poll a stream repeatedly, end when the stream does; the theorems that
    use them say that some fuel suffices, or hold for any.

    ** What is not modelled

    - [Vec] and [BytesMut] capacities that are only hints, and running out of
      memory; only the capacity [chunker::Writer] computes with is modelled.
    - Poisoning of the pipe's mutex: no method panics while it holds it.
    - The bodies of third-party crates (http, httpdate, bytes, futures, flate2,
      tokio, libc, winapi, nix, htmlescape, mime_guess): their laws are what
      they document, such as that a decoder inverts its encoder.
      [spawn_blocking] and [block_in_place] are transparent.  A stream made by
      [futures::stream::unfold] is not polled again after its end.
    - Files that change while they are served, other than by being truncated:
      the contract of [Entity] does not hold for them.
    - The [main] of the examples, which accepts connections, and what carries
      the requests of the acceptance tests and benchmarks (hyper, tokio,
      reqwest, criterion): their handlers are given what was sent, and clients
      what was answered.  In ChunkedAcceptance and Bench, as in StreamingBody,
      nothing is proved of how far an encoder gets: of a compressed body only
      that a handler that finishes has delivered, and that one that aborts, if
      that returns, has ended the body with its error.

    ** Where it can grow

    [parse_http_date] is a parameter; the header dates of the conditional
    requests could be given a grammar too. *)

From Stdlib Require Export ZArith Lia.
From Stdlib.Strings Require Export Byte.
From stdpp Require Export base list numbers option strings relations.

#[export] Set Default Goal Selector "!".

Open Scope Z_scope.

(** ** Outcomes of Rust code

    A Rust expression either produces a value or panics.  [OutOfFuel] is not a
    panic: a model of a Rust [loop] answers it when it runs out of fuel, so a
    theorem that excludes panics shows that the loop ends. *)

Inductive panic_reason :=
  | ArithmeticOverflow
  | IndexOutOfBounds
  | UnwrapFailed
  | AssertFailed
  | ProcessAborted
  | OutOfFuel.

Inductive outcome (A : Type) :=
  | Ret (a : A)
  | Panic (why : panic_reason).
Arguments Ret {A} a.
Arguments Panic {A} why.

#[export] Instance outcome_ret : MRet outcome := @Ret.
#[export] Instance outcome_bind : MBind outcome := λ A B f m,
  match m with Ret a => f a | Panic w => Panic w end.
#[export] Instance outcome_fmap : FMap outcome := λ A B f m,
  match m with Ret a => Ret (f a) | Panic w => Panic w end.

Lemma bind_Ret_inv {A B} (m : outcome A) (f : A → outcome B) (b : B) :
  (m ≫= f) = Ret b → ∃ a, m = Ret a ∧ f a = Ret b.
Proof. destruct m; simpl; [eauto | discriminate]. Qed.

Lemma bind_Panic_inv {A B} (m : outcome A) (f : A → outcome B) w :
  (m ≫= f) = Panic w → m = Panic w ∨ ∃ a, m = Ret a ∧ f a = Panic w.
Proof. destruct m; simpl; intros; [eauto | left; congruence]. Qed.

Lemma bind_Ret_l {A B} (a : A) (f : A → outcome B) : (Ret a ≫= f) = f a.
Proof. reflexivity. Qed.

Lemma bind_assoc {A B C} (m : outcome A) (f : A → outcome B) (g : B → outcome C) :
  ((m ≫= f) ≫= g) = (m ≫= λ a, f a ≫= g).
Proof. by destruct m. Qed.

(** [Result<T, E>]. *)
Inductive result (A E : Type) :=
  | Ok (a : A)
  | Err (e : E).
Arguments Ok {A E} a.
Arguments Err {A E} e.

Definition is_ok {A E} (r : result A E) : bool :=
  match r with Ok _ => true | Err _ => false end.

(** [result.unwrap()] and [result.unwrap_err()]. *)
Definition unwrap_ok {A E} (r : result A E) : outcome A :=
  match r with Ok a => Ret a | Err _ => Panic UnwrapFailed end.
Definition unwrap_err {A E} (r : result A E) : outcome E :=
  match r with Ok _ => Panic UnwrapFailed | Err e => Ret e end.

(** Rust's [opt.ok_or(e)]. *)
Definition ok_or {A E} (o : option A) (e : E) : result A E :=
  match o with Some a => Ok a | None => Err e end.

(** The [?] operator of a function returning [Result<_, E>], inside code that
    can panic. *)
Definition and_then {A B E} (m : result A E) (f : A → result B E) : result B E :=
  match m with Ok a => f a | Err e => Err e end.

(** ** Machine integers

    A [uN] is a [Z] in [0, 2^N).  The build profile decides what an
    out-of-range [+], [-] or [*] does: with overflow checks (the debug and
    test profiles) it panics, without them (the release profile) it wraps.
    [usize_max] is the target's [usize::MAX]; [as_u64] (lib.rs) statically
    asserts it is at most [u64::MAX], which is the field [usize_fits].
    [debug_assertions] says whether [debug_assert!] checks its condition. *)

Definition U64_MAX : Z := 18446744073709551615.
Definition U32_MAX : Z := 4294967295.
Definition U16_MAX : Z := 65535.
Definition I64_MAX : Z := 9223372036854775807.

Class Build := {
  overflow_checks : bool;
  debug_assertions : bool;
  usize_max : Z;
  usize_fits : (U16_MAX <=? usize_max) && (usize_max <=? U64_MAX) = true
}.

(** The two profiles on a 64-bit target. *)
Definition debug_build : Build :=
  {| overflow_checks := true; debug_assertions := true; usize_max := U64_MAX; usize_fits := eq_refl |}.
Definition release_build : Build :=
  {| overflow_checks := false; debug_assertions := false; usize_max := U64_MAX; usize_fits := eq_refl |}.

Section arith.
Context `{Build}.

(** The value of an operation whose mathematical result is [z], at a type
    whose maximum is [max]. *)
Definition arith (max z : Z) : outcome Z :=
  if (0 <=? z) && (z <=? max) then Ret z
  else if overflow_checks then Panic ArithmeticOverflow
  else Ret (z mod (max + 1)).

Definition u64_add (a b : Z) : outcome Z := arith U64_MAX (a + b).
Definition u64_sub (a b : Z) : outcome Z := arith U64_MAX (a - b).
Definition u16_mul (a b : Z) : outcome Z := arith U16_MAX (a * b).
Definition usize_add (a b : Z) : outcome Z := arith usize_max (a + b).
Definition usize_sub (a b : Z) : outcome Z := arith usize_max (a - b).

(** [assert!] and [debug_assert!]. *)
Definition assert_ (c : bool) : outcome unit :=
  if c then Ret tt else Panic AssertFailed.
Definition debug_assert (c : bool) : outcome unit :=
  if debug_assertions && negb c then Panic AssertFailed else Ret tt.

Lemma debug_assert_true c : c = true → debug_assert c = Ret tt.
Proof. intros ->. unfold debug_assert. by rewrite andb_false_r. Qed.

Lemma arith_ok max z : 0 <= z <= max → arith max z = Ret z.
Proof.
  intros Hz. unfold arith.
  by rewrite (proj2 (Z.leb_le 0 z)), (proj2 (Z.leb_le z max)) by lia.
Qed.

Lemma arith_checked max z :
  overflow_checks = true → ¬ (0 <= z <= max) →
  arith max z = Panic ArithmeticOverflow.
Proof.
  intros Hc Hz. unfold arith. rewrite Hc.
  destruct (0 <=? z) eqn:?, (z <=? max) eqn:?; simpl; done || lia.
Qed.

Lemma arith_wrapping max z :
  overflow_checks = false → 0 <= max → arith max z = Ret (z mod (max + 1)).
Proof.
  intros Hc Hm. unfold arith. rewrite Hc.
  destruct (0 <=? z) eqn:?, (z <=? max) eqn:?; simpl; try done.
  rewrite Z.mod_small; [done | lia].
Qed.

Lemma u64_add_ok a b : 0 <= a + b <= U64_MAX → u64_add a b = Ret (a + b).
Proof. apply arith_ok. Qed.
Lemma u64_sub_ok a b : 0 <= a - b <= U64_MAX → u64_sub a b = Ret (a - b).
Proof. apply arith_ok. Qed.
Lemma u16_mul_ok a b : 0 <= a * b <= U16_MAX → u16_mul a b = Ret (a * b).
Proof. apply arith_ok. Qed.
Lemma usize_add_ok a b : 0 <= a + b <= usize_max → usize_add a b = Ret (a + b).
Proof. apply arith_ok. Qed.
Lemma usize_sub_ok a b : 0 <= a - b <= usize_max → usize_sub a b = Ret (a - b).
Proof. apply arith_ok. Qed.

Lemma u64_add_range a b c : u64_add a b = Ret c → 0 <= c <= U64_MAX.
Proof.
  unfold u64_add, arith.
  destruct ((0 <=? a + b) && (a + b <=? U64_MAX)) eqn:Hr.
  - intros [= <-]. apply andb_prop in Hr as [H1 H2]. by rewrite Z.leb_le in H1, H2.
  - destruct overflow_checks; [done|]. intros [= <-].
    pose proof (Z.mod_pos_bound (a + b) (U64_MAX + 1) ltac:(done)). lia.
Qed.

Lemma u64_add_panic a b w :
  0 <= a → 0 <= b → u64_add a b = Panic w →
  overflow_checks = true ∧ w = ArithmeticOverflow ∧ U64_MAX < a + b.
Proof.
  intros Ha Hb. unfold u64_add, arith.
  destruct (Z.leb_spec 0 (a + b)), (Z.leb_spec (a + b) U64_MAX); simpl; try lia; try done.
  destruct overflow_checks; [|done]. intros [= <-]. done.
Qed.

Lemma usize_max_bounds : U16_MAX <= usize_max <= U64_MAX.
Proof.
  pose proof usize_fits as Hf. apply andb_prop in Hf as [H1 H2].
  by rewrite Z.leb_le in H1, H2.
Qed.
End arith.

(** [checked_add], [checked_sub] on [u64]. *)
Definition checked_add (a b : Z) : option Z :=
  if a + b <=? U64_MAX then Some (a + b) else None.
Definition checked_sub (a b : Z) : option Z :=
  if b <=? a then Some (a - b) else None.

Lemma checked_add_Some a b c :
  checked_add a b = Some c ↔ a + b <= U64_MAX ∧ c = a + b.
Proof.
  unfold checked_add. destruct (Z.leb_spec (a + b) U64_MAX); split.
  - intros [= <-]. lia.
  - by intros [_ ->].
  - discriminate.
  - lia.
Qed.

Lemma checked_sub_Some a b c : checked_sub a b = Some c ↔ b <= a ∧ c = a - b.
Proof.
  unfold checked_sub. destruct (Z.leb_spec b a); split.
  - intros [= <-]. lia.
  - by intros [_ ->].
  - discriminate.
  - lia.
Qed.

Lemma checked_sub_None a b : checked_sub a b = None ↔ a < b.
Proof. unfold checked_sub. destruct (Z.leb_spec b a); split; done || lia. Qed.

(** ** Byte strings

    [&[u8]], [Vec<u8>] and [&str] are lists of bytes. *)

Abbreviation byte := Byte.byte.
Abbreviation bytes := (list Byte.byte).

#[export] Instance byte_eq_decision : EqDecision byte := Byte.byte_eq_dec.

(** A byte string literal. *)
Definition bs (s : string) : bytes := String.list_byte_of_string s.

Definition code (x : byte) : Z := Z.of_N (Byte.to_N x).

Definition DQUOTE : byte := x22.
Definition quoted (s : bytes) : bytes := [DQUOTE] ++ s ++ [DQUOTE].
Definition CRLF : bytes := [x0d; x0a].

(** [s.len()] as the integer Rust gives. *)
Definition len (s : bytes) : Z := Z.of_nat (length s).
Arguments len : simpl never.

Lemma len_nil : len [] = 0.
Proof. reflexivity. Qed.
Lemma len_cons x s : len (x :: s) = 1 + len s.
Proof. unfold len. simpl. lia. Qed.
Lemma len_app s t : len (s ++ t) = len s + len t.
Proof. unfold len. rewrite length_app. lia. Qed.
Lemma len_nonneg s : 0 <= len s.
Proof. unfold len. lia. Qed.
Lemma len_0_inv s : len s = 0 → s = [].
Proof. destruct s; [done | rewrite len_cons; pose proof (len_nonneg s); lia]. Qed.

(** [s[start..end_]]. *)
Definition slice (s : bytes) (start end_ : Z) : bytes :=
  take (Z.to_nat (end_ - start)) (drop (Z.to_nat start) s).

Lemma len_slice s a e : 0 <= a <= e → e <= len s → len (slice s a e) = e - a.
Proof.
  unfold len, slice. intros. rewrite length_take, length_drop. lia.
Qed.

Lemma slice_full s : slice s 0 (len s) = s.
Proof.
  unfold slice, len. rewrite Z.sub_0_r, Nat2Z.id. simpl. apply take_ge. lia.
Qed.

Lemma slice_empty s a : slice s a a = [].
Proof. unfold slice. by rewrite Z.sub_diag. Qed.

Lemma slice_app s a m e :
  0 <= a <= m → m <= e → slice s a m ++ slice s m e = slice s a e.
Proof.
  intros. unfold slice.
  replace (Z.to_nat (e - a)) with (Z.to_nat (m - a) + Z.to_nat (e - m))%nat by lia.
  rewrite <- take_take_drop, drop_drop.
  by replace (Z.to_nat a + Z.to_nat (m - a))%nat with (Z.to_nat m) by lia.
Qed.

(** The sum of a list of integers. *)
Definition sum_Z : list Z → Z := foldr Z.add 0.

Lemma sum_Z_cons x l : sum_Z (x :: l) = x + sum_Z l.
Proof. reflexivity. Qed.

Lemma sum_Z_app l k : sum_Z (l ++ k) = sum_Z l + sum_Z k.
Proof. induction l; simpl; lia. Qed.

Lemma len_concat ls : len (concat ls) = sum_Z (len <$> ls).
Proof. induction ls; csimpl; [done | rewrite len_app; simpl; lia]. Qed.

(** ** Automation *)

Create HintDb serve.
Create Rewrite HintDb len.
#[export] Hint Resolve len_nonneg : serve.
#[export] Hint Rewrite len_nil len_cons len_app : len.

Ltac len_simpl := autorewrite with len in *.

(** Inverts the binds of a hypothesis about an [outcome]. *)
Ltac outcome_inv :=
  repeat match goal with
  | H : (_ ≫= _) = Ret _ |- _ =>
      let a := fresh "a" in let Ha := fresh "Hm" in
      apply bind_Ret_inv in H as (a & Ha & H)
  | H : Ret _ = Ret _ |- _ => injection H as H; subst
  | H : Panic _ = Ret _ |- _ => discriminate H
  | H : Ret _ = Panic _ |- _ => discriminate H
  end.

(** Case analysis on the innermost [match] or [if] of the goal. *)
Ltac case_goal :=
  match goal with
  | |- context [match ?x with _ => _ end] =>
      lazymatch x with
      | context [match _ with _ => _ end] => fail
      | _ => destruct x eqn:?
      end
  end.

(** The same in a hypothesis. *)
Ltac case_hyp H :=
  match type of H with
  | context [match ?x with _ => _ end] =>
      lazymatch x with
      | context [match _ with _ => _ end] => fail
      | _ => destruct x eqn:?
      end
  end.

(** Turns boolean comparisons of the context into propositions. *)
Ltac zbool :=
  repeat match goal with
  | H : (_ <=? _) = true |- _ => apply Z.leb_le in H
  | H : (_ <=? _) = false |- _ => apply Z.leb_gt in H
  | H : (_ <? _) = true |- _ => apply Z.ltb_lt in H
  | H : (_ <? _) = false |- _ => apply Z.ltb_ge in H
  | H : (_ =? _) = true |- _ => apply Z.eqb_eq in H
  | H : (_ =? _) = false |- _ => apply Z.eqb_neq in H
  | H : (_ && _) = true |- _ => apply andb_prop in H as [? ?]
  | H : (_ && _) = false |- _ => apply andb_false_iff in H
  | H : negb _ = true |- _ => apply negb_true_iff in H
  | H : negb _ = false |- _ => apply negb_false_iff in H
  | H : bool_decide _ = true |- _ => apply bool_decide_eq_true in H
  | H : bool_decide _ = false |- _ => apply bool_decide_eq_false in H
  end.

(** Proves a closed decidable proposition by evaluating it. *)
Ltac by_compute := apply (bool_decide_unpack _); vm_compute; exact I.
