(* ===== verification/RustStd.v ===== *)
(** * The part of Rust's standard library the crate uses

    [&str] methods (on ASCII text, as byte lists), integer parsing
    ([FromStr]), integer formatting ([{}] and [{:x}]), [SystemTime]. *)

From S2P Require Import Prelude.

(** ** Searching and splitting *)

(** [s.find(c)] and [iter().position(|b| b == c)]. *)
Fixpoint find (c : byte) (s : bytes) : option nat :=
  match s with
  | [] => None
  | x :: s' => if decide (x = c) then Some O else S <$> find c s'
  end.

(** [s.split(c)]: never empty. *)
Fixpoint split (c : byte) (s : bytes) : list bytes :=
  match s with
  | [] => [[]]
  | x :: s' =>
      if decide (x = c) then [] :: split c s'
      else match split c s' with
           | [] => [[x]]
           | h :: t => (x :: h) :: t
           end
  end.

(** The inverse of [split]: elements separated by [c]. *)
Fixpoint join (c : byte) (ls : list bytes) : bytes :=
  match ls with
  | [] => []
  | [s] => s
  | s :: ls' => s ++ c :: join c ls'
  end.

(** [s.split_once(c)]. *)
Definition split_once (c : byte) (s : bytes) : option (bytes * bytes) :=
  match find c s with
  | Some i => Some (take i s, drop (S i) s)
  | None => None
  end.

(** [s.strip_prefix(p)]. *)
Fixpoint strip_prefix (p s : bytes) : option bytes :=
  match p, s with
  | [], _ => Some s
  | x :: p', y :: s' => if decide (x = y) then strip_prefix p' s' else None
  | _ :: _, [] => None
  end.

(** [s.starts_with(p)]. *)
Definition starts_with (p s : bytes) : bool :=
  match strip_prefix p s with Some _ => true | None => false end.

(** [s.trim_start_matches(f)], [s.trim_end_matches(f)]. *)
Fixpoint trim_start_matches (f : byte → bool) (s : bytes) : bytes :=
  match s with
  | [] => []
  | x :: s' => if f x then trim_start_matches f s' else s
  end.

Definition trim_end_matches (f : byte → bool) (s : bytes) : bytes :=
  reverse (trim_start_matches f (reverse s)).

(** The characters of [OWS = *( SP / HTAB )]: the patterns [[' ', '\t']]. *)
Definition is_ows (x : byte) : bool := bool_decide (x ∈ [x20; x09]).

(** [char::is_whitespace] on an ASCII character. *)
Definition is_whitespace (x : byte) : bool :=
  bool_decide (x ∈ [x09; x0a; x0b; x0c; x0d; x20]).

(** [s.trim()] of an ASCII string. *)
Definition trim (s : bytes) : bytes :=
  trim_end_matches is_whitespace (trim_start_matches is_whitespace s).

Lemma find_Some c s i :
  find c s = Some i ↔ ∃ p q, s = p ++ c :: q ∧ c ∉ p ∧ i = length p.
Proof.
  revert i. induction s as [|x s IH]; intros i; simpl.
  { split; [discriminate | intros (p & q & Hs & _); by destruct p]. }
  destruct (decide (x = c)) as [->|Hne].
  - split.
    + intros [= <-]. exists [], s. repeat split. apply not_elem_of_nil.
    + intros (p & q & Hs & Hp & ->). destruct p as [|y p]; [done|].
      simplify_eq/=. set_solver.
  - split.
    + destruct (find c s) as [j|] eqn:Hf; [|discriminate]. intros [= <-].
      destruct (proj1 (IH j) eq_refl) as (p & q & -> & Hp & ->).
      exists (x :: p), q. repeat split. set_solver.
    + intros (p & q & Hs & Hp & ->). destruct p as [|y p]; simplify_eq/=.
      assert (find c (p ++ c :: q) = Some (length p)) as ->; [|done].
      apply IH. exists p, q. repeat split. set_solver.
Qed.

Lemma find_None c s : find c s = None ↔ c ∉ s.
Proof.
  induction s as [|x s IH]; simpl.
  { split; [intros _; apply not_elem_of_nil | done]. }
  destruct (decide (x = c)); [set_solver|].
  destruct (find c s); simpl; split; try discriminate; set_solver.
Qed.

Lemma find_app c p q : c ∉ p → find c (p ++ c :: q) = Some (length p).
Proof. intros. apply find_Some. by exists p, q. Qed.

Lemma split_once_app c p q : c ∉ p → split_once c (p ++ c :: q) = Some (p, q).
Proof.
  intros Hp. unfold split_once. rewrite find_app by done.
  rewrite take_app_length. replace (S (length p)) with (length p + 1)%nat by lia.
  by rewrite drop_app_add.
Qed.

Lemma split_once_None c s : c ∉ s → split_once c s = None.
Proof. intros Hs. unfold split_once. by rewrite (proj2 (find_None c s) Hs). Qed.

(** ** [split] and [join] are inverse *)

Lemma split_nonempty c s : split c s ≠ [].
Proof.
  destruct s as [|x s]; simpl; [done|]. destruct (decide (x = c)); [done|].
  by destruct (split c s).
Qed.

Lemma length_split c s : (length (split c s) <= S (length s))%nat.
Proof.
  induction s as [|x s IH]; [done|]. simpl. case_decide; simpl; [lia|].
  destruct (split c s); simpl in *; lia.
Qed.

Lemma split_no_sep c s : c ∉ s → split c s = [s].
Proof.
  induction s as [|x s IH]; simpl; [done|]. intros Hs.
  apply not_elem_of_cons in Hs as [Hx Hs].
  rewrite decide_False by done. by rewrite IH.
Qed.

Lemma split_app c s t : c ∉ s → split c (s ++ c :: t) = s :: split c t.
Proof.
  induction s as [|x s IH]; simpl; intros Hs.
  { by rewrite decide_True. }
  apply not_elem_of_cons in Hs as [Hx Hs].
  rewrite decide_False by done. by rewrite IH.
Qed.

Lemma split_join c ls : ls ≠ [] → Forall (λ s, c ∉ s) ls → split c (join c ls) = ls.
Proof.
  intros Hne Hall. induction Hall as [|s ls Hs Hall IH]; [done|].
  destruct ls as [|s' ls]; simpl; [by apply split_no_sep|].
  rewrite split_app by done. f_equal. by apply IH.
Qed.

Lemma split_cons_sep c x s :
  x ≠ c → ∃ h t, split c s = h :: t ∧ split c (x :: s) = (x :: h) :: t.
Proof.
  intros Hx. simpl. rewrite decide_False by done.
  pose proof (split_nonempty c s). destruct (split c s) as [|h t]; [done|]. eauto.
Qed.

Lemma join_split c s : join c (split c s) = s.
Proof.
  induction s as [|x s IH]; [done|]. destruct (decide (x = c)) as [->|Hx].
  - simpl. rewrite decide_True by done. pose proof (split_nonempty c s).
    rewrite <- IH at 2. by destruct (split c s).
  - destruct (split_cons_sep c x s Hx) as (h & t & Hs & ->).
    rewrite Hs in IH. rewrite <- IH. by destruct t.
Qed.

Lemma split_all_no_sep c s : Forall (λ t, c ∉ t) (split c s).
Proof.
  induction s as [|x s IH]; simpl.
  { repeat constructor. apply not_elem_of_nil. }
  destruct (decide (x = c)) as [->|Hx].
  - constructor; [apply not_elem_of_nil | done].
  - destruct (split c s) as [|h t]; inversion IH; subst;
      repeat constructor; try done; apply not_elem_of_cons; split; try done.
    apply not_elem_of_nil.
Qed.

Lemma split_elem_of c s t x : t ∈ split c s → x ∈ t → x ∈ s.
Proof.
  revert t. induction s as [|y s IH]; intros t; simpl.
  { intros ->%list_elem_of_singleton. done. }
  destruct (decide (y = c)) as [->|Hy].
  - intros [->|Ht]%elem_of_cons; [by intros ?%elem_of_nil|]. intros. right. eauto.
  - pose proof (split_nonempty c s). destruct (split c s) as [|h l] eqn:E; [done|].
    intros [->|Ht]%elem_of_cons.
    + intros [->|Hx]%elem_of_cons; [by left|]. right. apply (IH h); [by left|done].
    + intros. right. apply (IH t); [by right|done].
Qed.

(** ** Prefixes and trimming *)

Lemma strip_prefix_Some p s r : strip_prefix p s = Some r ↔ s = p ++ r.
Proof.
  revert s. induction p as [|x p IH]; intros s; simpl.
  { split; [by intros [= ->] | by intros ->]. }
  destruct s as [|y s]; [done|]. destruct (decide (x = y)) as [->|Hne].
  - rewrite IH. split; [by intros -> | by intros [= ->]].
  - split; [discriminate | intros [= ? _]; done].
Qed.

Lemma strip_prefix_app p r : strip_prefix p (p ++ r) = Some r.
Proof. by apply strip_prefix_Some. Qed.

Lemma starts_with_true p s : starts_with p s = true ↔ ∃ r, s = p ++ r.
Proof.
  unfold starts_with. destruct (strip_prefix p s) as [r|] eqn:E.
  - apply strip_prefix_Some in E. split; eauto.
  - split; [discriminate|]. intros [r Hr%strip_prefix_Some]. congruence.
Qed.

Lemma starts_with_app p r : starts_with p (p ++ r) = true.
Proof. apply starts_with_true. eauto. Qed.

Lemma trim_start_no f s :
  match s with [] => True | x :: _ => f x = false end → trim_start_matches f s = s.
Proof. destruct s as [|x s]; simpl; [done|]. by intros ->. Qed.

Lemma trim_start_app f w s :
  Forall (λ x, f x = true) w → trim_start_matches f (w ++ s) = trim_start_matches f s.
Proof. induction 1 as [|x w Hx _ IH]; simpl; [done|]. by rewrite Hx. Qed.

Lemma trim_start_inv f s : ∃ w, s = w ++ trim_start_matches f s ∧ forallb f w = true.
Proof.
  induction s as [|x s (w & Hs & Hw)]; [by exists []|]. simpl. destruct (f x) eqn:Hx.
  - exists (x :: w). simpl. rewrite Hx, Hw. split; [by f_equal|done].
  - by exists [].
Qed.

Lemma forallb_Forall_true f (s : bytes) : forallb f s = true ↔ Forall (λ x, f x = true) s.
Proof. rewrite forallb_forall, Forall_forall. by setoid_rewrite list_elem_of_In. Qed.

(** A string without whitespace is unchanged by [trim]; so is one padded with
    spaces on the left. *)
Lemma trim_none s : Forall (λ x, is_whitespace x = false) s → trim s = s.
Proof.
  intros Hs. unfold trim, trim_end_matches.
  rewrite (trim_start_no _ s) by (by destruct Hs).
  rewrite trim_start_no, reverse_involutive; [done|].
  apply Forall_reverse in Hs. by destruct Hs.
Qed.

Lemma trim_app_l w s :
  Forall (λ x, is_whitespace x = true) w → trim (w ++ s) = trim s.
Proof. intros Hw. unfold trim. by rewrite trim_start_app. Qed.

(** [e] is [c], which neither starts nor ends with whitespace, between
    whitespace. *)
Definition padded (e c : bytes) : Prop :=
  ∃ w1 w2, e = w1 ++ c ++ w2 ∧
    Forall (λ x, is_whitespace x = true) w1 ∧ Forall (λ x, is_whitespace x = true) w2 ∧
    (∀ x, head c = Some x ∨ last c = Some x → is_whitespace x = false).

Lemma trim_start_head f s x : head (trim_start_matches f s) = Some x → f x = false.
Proof.
  induction s as [|y s IH]; simpl; [done|]. destruct (f y) eqn:Hy; [done|]. by intros [= <-].
Qed.

Lemma trim_iff e c : trim e = c ↔ padded e c.
Proof.
  unfold trim, trim_end_matches. split.
  - intros <-. destruct (trim_start_inv is_whitespace e) as (w1 & He & Hw1).
    set (s := trim_start_matches is_whitespace e) in *.
    destruct (trim_start_inv is_whitespace (reverse s)) as (w2 & Hs & Hw2).
    set (r := trim_start_matches is_whitespace (reverse s)) in *.
    assert (s = reverse r ++ reverse w2) as Hsr
      by (by rewrite <- reverse_app, <- Hs, reverse_involutive).
    exists w1, (reverse w2). rewrite <- Hsr. split_and!; [done|by apply forallb_Forall_true| |].
    + by apply Forall_reverse, forallb_Forall_true.
    + intros x [Hx|Hx].
      * apply (trim_start_head is_whitespace e). fold s. rewrite Hsr. by destruct (reverse r).
      * rewrite last_reverse in Hx. by apply (trim_start_head is_whitespace (reverse s)).
  - intros (w1 & w2 & -> & Hw1 & Hw2 & Hc). rewrite trim_start_app by done. destruct c as [|x c].
    + simpl. rewrite <- (app_nil_r w2), trim_start_app by done. done.
    + rewrite (trim_start_no _ ((x :: c) ++ w2)) by (simpl; apply Hc; by left).
      rewrite reverse_app, trim_start_app by by apply Forall_reverse. rewrite trim_start_no.
      * by rewrite reverse_involutive.
      * pose proof (last_reverse (reverse (x :: c))) as Hl. rewrite reverse_involutive in Hl.
        destruct (reverse (x :: c)) as [|y r]; [done|]. apply Hc. by right.
Qed.

(** ** Parsing and printing integers *)

Definition digit_val (x : byte) : option Z :=
  if (48 <=? code x) && (code x <=? 57) then Some (code x - 48) else None.

Definition is_digit (x : byte) : bool := (48 <=? code x) && (code x <=? 57).

(** The loop of [from_str_radix(_, 10)]: [checked_mul] then [checked_add] at
    the type whose maximum is [max]. *)
Fixpoint parse_digits (max acc : Z) (s : bytes) : option Z :=
  match s with
  | [] => Some acc
  | x :: s' =>
      match digit_val x with
      | None => None
      | Some d =>
          if acc * 10 <=? max then
            if acc * 10 + d <=? max then parse_digits max (acc * 10 + d) s' else None
          else None
      end
  end.

(** [uN::from_str]: the empty string and a lone sign are errors, one leading
    [+] is accepted. *)
Definition from_str (max : Z) (s : bytes) : option Z :=
  match s with
  | [] => None
  | x :: s' =>
      if decide (x = x2b) then
        match s' with [] => None | _ => parse_digits max 0 s' end
      else parse_digits max 0 s
  end.

Definition u64_from_str : bytes → option Z := from_str U64_MAX.
Definition u16_from_str : bytes → option Z := from_str U16_MAX.

(** The value of a digit string, most significant digit first. *)
Definition dec_val (acc : Z) (s : bytes) : Z :=
  foldl (λ a x, a * 10 + (code x - 48)) acc s.

Lemma code_range x : 0 <= code x <= 255.
Proof.
  unfold code. pose proof (Byte.to_N_bounded x). lia.
Qed.

Lemma code_inj x y : code x = code y → x = y.
Proof.
  unfold code. intros H%N2Z.inj.
  pose proof (Byte.of_to_N x). pose proof (Byte.of_to_N y). congruence.
Qed.

Lemma dec_val_app acc s t : dec_val acc (s ++ t) = dec_val (dec_val acc s) t.
Proof. apply foldl_app. Qed.

Lemma dec_val_ge acc s : 0 <= acc → forallb is_digit s = true → acc <= dec_val acc s.
Proof.
  unfold dec_val, is_digit. revert acc.
  induction s as [|x s IH]; intros acc Hacc Hs; simpl in *; [lia|].
  apply andb_prop in Hs as [Hx Hs]. zbool.
  transitivity (acc * 10 + (code x - 48)); [lia|]. apply IH; [lia|done].
Qed.

Lemma dec_val_bound s :
  forallb is_digit s = true → 0 <= dec_val 0 s < 10 ^ len s.
Proof.
  induction s as [|x s IH] using rev_ind; [done|].
  rewrite forallb_app. intros [Hs Hx]%andb_prop. specialize (IH Hs).
  simpl in Hx. unfold is_digit in Hx. zbool.
  rewrite dec_val_app, len_app, Z.pow_add_r by auto with serve.
  change (dec_val (dec_val 0 s) [x]) with (dec_val 0 s * 10 + (code x - 48)).
  change (10 ^ len [x]) with 10. lia.
Qed.

Lemma digits_not_elem c s : forallb is_digit s = true → is_digit c = false → c ∉ s.
Proof.
  intros Hs Hc Hin. rewrite forallb_forall in Hs.
  rewrite (Hs c) in Hc; [done|]. by apply list_elem_of_In.
Qed.

(** The checked loop computes the value when it fits and fails otherwise. *)
Lemma parse_digits_spec max acc s :
  0 <= acc <= max →
  parse_digits max acc s =
    if forallb is_digit s && (dec_val acc s <=? max) then Some (dec_val acc s) else None.
Proof.
  revert acc. induction s as [|x s IH]; intros acc Hacc; simpl.
  { by rewrite (proj2 (Z.leb_le acc max)) by lia. }
  change (digit_val x) with (if is_digit x then Some (code x - 48) else None).
  destruct (is_digit x) eqn:Hd; simpl; [|done].
  unfold is_digit in Hd. zbool. set (a := acc * 10 + (code x - 48)).
  destruct (forallb is_digit s) eqn:Hs; simpl.
  - assert (a <= dec_val a s) as Hge by (apply dec_val_ge; [lia|done]).
    change (dec_val acc (x :: s)) with (dec_val a s).
    destruct (Z.leb_spec (acc * 10) max); [destruct (Z.leb_spec a max)|].
    + by rewrite IH, ?Hs by lia.
    + by rewrite (proj2 (Z.leb_gt (dec_val a s) max)) by lia.
    + by rewrite (proj2 (Z.leb_gt (dec_val a s) max)) by lia.
  - destruct (acc * 10 <=? max); [|done].
    destruct (Z.leb_spec a max); [|done]. by rewrite IH, ?Hs by lia.
Qed.

#[global] Arguments parse_digits : simpl never.
#[global] Arguments dec_val : simpl never.

Lemma from_str_range max s v : 0 <= max → from_str max s = Some v → 0 <= v <= max.
Proof.
  intros Hmax. destruct s as [|x s]; simpl; [done|].
  destruct (decide (x = x2b)) as [->|_]; [destruct s as [|y s]; [done|]|];
    rewrite parse_digits_spec by lia; intros H; case_hyp H; try done; zbool;
    injection H as <-; (split; [by apply dec_val_ge|done]).
Qed.

(** A non-empty digit string parses to its value if it fits. *)
Lemma from_str_digits max s :
  0 <= max → s ≠ [] → forallb is_digit s = true →
  from_str max s = if dec_val 0 s <=? max then Some (dec_val 0 s) else None.
Proof.
  intros Hmax Hne Hs. destruct s as [|x s]; [done|]. unfold from_str.
  rewrite decide_False.
  - rewrite parse_digits_spec by lia. by rewrite Hs.
  - intros ->. by simpl in Hs.
Qed.

(** What [from_str] accepts: digits, optionally preceded by one [+]. *)
Lemma from_str_Some_inv max s v :
  0 <= max → from_str max s = Some v →
  ∃ ds, (s = ds ∨ s = x2b :: ds) ∧ ds ≠ [] ∧ forallb is_digit ds = true ∧
        v = dec_val 0 ds.
Proof.
  intros Hmax. destruct s as [|x s]; simpl; [done|].
  destruct (decide (x = x2b)) as [->|Hx].
  - destruct s as [|y s]; [done|]. rewrite parse_digits_spec by lia.
    intros H. case_hyp H; [|done]. zbool. injection H as <-.
    exists (y :: s). by repeat split; [right|..].
  - rewrite parse_digits_spec by lia.
    intros H. case_hyp H; [|done]. zbool. injection H as <-.
    exists (x :: s). by repeat split; [left|..].
Qed.

(** [{}] and [{:x}] on unsigned integers: repeated division, least significant
    digit last.  The fuel is the number of binary digits, which bounds the
    number of digits in any larger base. *)
Definition digit_char (d : Z) : byte :=
  nth (Z.to_nat d) (bs "0123456789abcdef") x00.

Fixpoint fmt_loop (base : Z) (fuel : nat) (n : Z) (acc : bytes) : bytes :=
  match fuel with
  | O => acc
  | S fuel' =>
      if n <? base then digit_char n :: acc
      else fmt_loop base fuel' (n / base) (digit_char (n mod base) :: acc)
  end.

Definition fmt_fuel (n : Z) : nat := S (Z.to_nat (Z.log2 n)).
Definition fmt_radix (base n : Z) : bytes := fmt_loop base (fmt_fuel n) n [].

Definition fmt_dec : Z → bytes := fmt_radix 10.
Definition fmt_hex : Z → bytes := fmt_radix 16.

(** The value of a digit in base at most 16, and of a digit string. *)
Definition digit_value (x : byte) : Z :=
  if code x <=? 57 then code x - 48 else code x - 87.

Definition radix_val (base acc : Z) (s : bytes) : Z :=
  foldl (λ a x, a * base + digit_value x) acc s.

Definition is_hex_digit (x : byte) : bool :=
  is_digit x || ((97 <=? code x) && (code x <=? 102)).

(** The characters of the digit table, checked one by one. *)
Lemma digit_char_spec d :
  0 <= d < 16 →
  digit_value (digit_char d) = d ∧ is_hex_digit (digit_char d) = true ∧
  (d < 10 → is_digit (digit_char d) = true).
Proof.
  intros Hd.
  assert (d = 0 ∨ d = 1 ∨ d = 2 ∨ d = 3 ∨ d = 4 ∨ d = 5 ∨ d = 6 ∨ d = 7 ∨
          d = 8 ∨ d = 9 ∨ d = 10 ∨ d = 11 ∨ d = 12 ∨ d = 13 ∨ d = 14 ∨ d = 15)
    as Hcases by lia.
  repeat destruct Hcases as [->|Hcases]; try subst d;
    (repeat split; try done; lia).
Qed.

(** What the division loop produces from [n]: a non-empty string of digits of
    value [n], as short as the magnitude of [n] allows. *)
Record fmt_result (base n : Z) (ds : bytes) : Prop := {
  fr_nonempty : ds ≠ [];
  fr_value : ∀ acc, radix_val base acc ds = acc * base ^ len ds + n;
  fr_hex : forallb is_hex_digit ds = true;
  fr_dec : base = 10 → forallb is_digit ds = true;
  fr_length : ∀ k, 1 <= k → n < base ^ k → len ds <= k
}.

Lemma fmt_result_digit base n :
  2 <= base <= 16 → 0 <= n < base → fmt_result base n [digit_char n].
Proof.
  intros Hb Hn. destruct (digit_char_spec n) as (Hv & Hh & Hd); [lia|].
  split; [done| | | |].
  - intros acc. unfold radix_val, len. simpl. rewrite Hv. lia.
  - simpl. by rewrite Hh.
  - intros ->. simpl. rewrite Hd by lia. done.
  - unfold len. simpl. lia.
Qed.

Lemma fmt_result_snoc base n ds :
  2 <= base <= 16 → base <= n → fmt_result base (n / base) ds →
  fmt_result base n (ds ++ [digit_char (n mod base)]).
Proof.
  intros Hb Hn [Hne Hval Hhex Hdec Hlen].
  pose proof (Z.mod_pos_bound n base ltac:(lia)) as Hm.
  destruct (digit_char_spec (n mod base)) as (Hv & Hh & Hd); [lia|].
  split.
  - by destruct ds.
  - intros acc. unfold radix_val in *. rewrite foldl_app, Hval. simpl.
    rewrite Hv, len_app, Z.pow_add_r by auto with serve.
    change (len [digit_char (n mod base)]) with 1. rewrite Z.pow_1_r.
    pose proof (Z.div_mod n base ltac:(lia)). lia.
  - rewrite forallb_app, Hhex. simpl. by rewrite Hh.
  - intros ->. rewrite forallb_app, Hdec by done. simpl. by rewrite Hd by lia.
  - intros k Hk Hnk. rewrite len_app. change (len [digit_char (n mod base)]) with 1.
    destruct (Z.eq_dec k 1) as [->|Hk1]; [lia|].
    assert (len ds <= k - 1); [|lia]. apply Hlen; [lia|].
    apply Z.div_lt_upper_bound; [lia|].
    by rewrite <- Z.pow_succ_r, Z.sub_1_r, Z.succ_pred by lia.
Qed.

Lemma fmt_loop_spec base fuel n acc :
  2 <= base <= 16 → 0 <= n < 2 ^ Z.of_nat fuel → (0 < fuel)%nat →
  ∃ ds, fmt_loop base fuel n acc = ds ++ acc ∧ fmt_result base n ds.
Proof.
  intros Hb. revert n acc. induction fuel as [|fuel IH]; intros n acc Hn Hf; [lia|].
  simpl. destruct (Z.ltb_spec n base).
  { exists [digit_char n]. split; [done|]. apply fmt_result_digit; lia. }
  assert (0 <= n / base < 2 ^ Z.of_nat fuel) as Hdiv.
  { split; [apply Z.div_pos; lia|]. apply Z.div_lt_upper_bound; [lia|].
    rewrite Nat2Z.inj_succ, Z.pow_succ_r in Hn by lia. nia. }
  assert (0 < fuel)%nat as Hf'.
  { destruct fuel; [|lia]. simpl in Hn. lia. }
  destruct (IH (n / base) (digit_char (n mod base) :: acc) Hdiv Hf') as (ds & -> & Hds).
  exists (ds ++ [digit_char (n mod base)]). split; [by rewrite <- app_assoc|].
  by apply fmt_result_snoc.
Qed.

Lemma fmt_radix_spec base n :
  2 <= base <= 16 → 0 <= n → fmt_result base n (fmt_radix base n).
Proof.
  intros Hb Hn. unfold fmt_radix, fmt_fuel.
  destruct (fmt_loop_spec base (S (Z.to_nat (Z.log2 n))) n []) as (ds & -> & Hds).
  - done.
  - rewrite Nat2Z.inj_succ, Z2Nat.id by apply Z.log2_nonneg.
    destruct (Z.eq_dec n 0) as [->|]; [done|]. pose proof (Z.log2_spec n). lia.
  - lia.
  - by rewrite app_nil_r.
Qed.

Lemma fmt_radix_inj base n m :
  2 <= base <= 16 → 0 <= n → 0 <= m → fmt_radix base n = fmt_radix base m → n = m.
Proof.
  intros Hb Hn Hm Heq.
  pose proof (fr_value _ _ _ (fmt_radix_spec base n Hb Hn) 0) as H1.
  pose proof (fr_value _ _ _ (fmt_radix_spec base m Hb Hm) 0) as H2.
  rewrite Heq in H1. lia.
Qed.

Lemma fmt_dec_digits n : 0 <= n → forallb is_digit (fmt_dec n) = true.
Proof. intros. by apply (fr_dec 10 n); [apply fmt_radix_spec|]. Qed.

Lemma fmt_dec_nonempty n : 0 <= n → fmt_dec n ≠ [].
Proof. intros. by apply (fr_nonempty 10 n), fmt_radix_spec. Qed.

(** [u64::MAX] has 20 decimal digits and 16 hexadecimal ones, [u32::MAX] 8. *)
Lemma fmt_dec_len n : 0 <= n <= U64_MAX → len (fmt_dec n) <= 20.
Proof.
  intros Hn. apply (fr_length 10 n); [apply fmt_radix_spec; lia|lia|].
  unfold U64_MAX in Hn. lia.
Qed.

Lemma fmt_hex_len n k : 0 <= n < 16 ^ k → 1 <= k → len (fmt_hex n) <= k.
Proof. intros Hn Hk. apply (fr_length 16 n); [apply fmt_radix_spec; lia|lia|lia]. Qed.

Lemma radix_dec_val acc s :
  forallb is_digit s = true → radix_val 10 acc s = dec_val acc s.
Proof.
  unfold radix_val, dec_val. revert acc. induction s as [|x s IH]; intros acc Hs; [done|].
  simpl in *. apply andb_prop in Hs as [Hx Hs]. unfold is_digit in Hx. zbool.
  unfold digit_value at 2. rewrite (proj2 (Z.leb_le (code x) 57)) by done. auto.
Qed.

Lemma dec_val_fmt n : 0 <= n → dec_val 0 (fmt_dec n) = n.
Proof.
  intros Hn. rewrite <- radix_dec_val by auto using fmt_dec_digits.
  by rewrite (fr_value 10 n _ (fmt_radix_spec 10 n ltac:(lia) Hn)).
Qed.

(** A smaller number has no more digits. *)
Lemma fmt_dec_len_le m n : 0 <= m <= n → len (fmt_dec m) <= len (fmt_dec n).
Proof.
  intros Hm. assert (0 <= n) as Hn by lia.
  pose proof (dec_val_bound _ (fmt_dec_digits n Hn)) as Hv. rewrite dec_val_fmt in Hv by done.
  apply (fr_length 10 m); [apply fmt_radix_spec; lia| |lia].
  pose proof (fmt_dec_nonempty n Hn) as Hne. pose proof (len_nonneg (fmt_dec n)).
  destruct (Z.eq_dec (len (fmt_dec n)) 0) as [Hz|]; [|lia]. by apply len_0_inv in Hz.
Qed.

(** Printing then parsing an integer gives it back, if it fits. *)
Lemma from_str_fmt_dec max n :
  0 <= n → 0 <= max → from_str max (fmt_dec n) = if n <=? max then Some n else None.
Proof.
  intros Hn Hmax.
  rewrite from_str_digits by auto using fmt_dec_digits, fmt_dec_nonempty.
  by rewrite dec_val_fmt.
Qed.

(** ** Time

    A [SystemTime] is a number of nanoseconds relative to [UNIX_EPOCH]; a
    [Duration] the same, non-negative. *)

Definition SystemTime := Z.
Definition Duration := Z.
Definition NANOS_PER_SEC : Z := 1000000000.

(** [t.duration_since(UNIX_EPOCH)]: an error before the epoch. *)
Definition duration_since_epoch (t : SystemTime) : option Duration :=
  if 0 <=? t then Some t else None.
Definition as_secs (d : Duration) : Z := d / NANOS_PER_SEC.
Definition subsec_nanos (d : Duration) : Z := d mod NANOS_PER_SEC.
(** [Duration::new(secs, nanos)]. *)
Definition duration_new (secs nanos : Z) : Duration := secs * NANOS_PER_SEC + nanos.

(** ** I/O errors: [std::io::Error] with its kind and message *)

Inductive ErrorKind :=
  | NotFound
  | InvalidInput
  | UnexpectedEof
  | BrokenPipe
  | WriteZero
  | Interrupted
  | Other
  | OsError (code : Z).

#[export] Instance ErrorKind_eq_decision : EqDecision ErrorKind.
Proof. solve_decision. Defined.

Record io_error := IoError { kind : ErrorKind; message : bytes }.

#[export] Instance io_error_eq_decision : EqDecision io_error.
Proof. solve_decision. Defined.

Definition write_zero : io_error := IoError WriteZero (bs "failed to write whole buffer").

(** [io::Write::write_all], of a writer that is in a state of [S]. *)
Fixpoint write_all {S} (write : bytes → S → outcome (result Z io_error * S)) (fuel : nat)
    (data : bytes) (s : S) : outcome (result unit io_error * S) :=
  match data with
  | [] => Ret (Ok tt, s)
  | _ =>
      match fuel with
      | O => Panic OutOfFuel
      | Datatypes.S fuel =>
          '(r, s) ← write data s;
          match r with
          | Ok n =>
              if n =? 0 then Ret (Err write_zero, s)
              else if n <=? len data then write_all write fuel (drop (Z.to_nat n) data) s
              else Panic IndexOutOfBounds
          | Err e =>
              if decide (kind e = Interrupted) then write_all write fuel data s else Ret (Err e, s)
          end
      end
  end.

Lemma write_all_S {S} (write : bytes → S → outcome (result Z io_error * S)) fuel data s :
  data ≠ [] →
  write_all write (Datatypes.S fuel) data s =
    '(r, s) ← write data s;
    match r with
    | Ok n =>
        if n =? 0 then Ret (Err write_zero, s)
        else if n <=? len data then write_all write fuel (drop (Z.to_nat n) data) s
        else Panic IndexOutOfBounds
    | Err e => if decide (kind e = Interrupted) then write_all write fuel data s else Ret (Err e, s)
    end.
Proof. by destruct data. Qed.

(** ** Strings from the operating system *)

(** [s.rfind(c)]. *)
Definition rfind (c : byte) (s : bytes) : option nat :=
  (λ i, length s - S i)%nat <$> find c (reverse s).

(** The order of [[u8]]. *)
Fixpoint bytes_leb (s t : bytes) : bool :=
  match s, t with
  | [], _ => true
  | _ :: _, [] => false
  | x :: s', y :: t' => if decide (x = y) then bytes_leb s' t' else code x <? code y
  end.

Definition code_within (lo hi : Z) (x : byte) : bool := (lo <=? code x) && (code x <=? hi).

(** A byte that continues a character. *)
Definition is_continuation : byte → bool := code_within 128 191.

(** [str::from_utf8(s).is_ok()]. *)
Fixpoint valid_utf8 (s : bytes) : bool :=
  match s with
  | [] => true
  | a :: s =>
      if code_within 0 127 a then valid_utf8 s
      else match s with
      | b :: s' =>
          if code_within 194 223 a then is_continuation b && valid_utf8 s'
          else match s' with
          | c :: s' =>
              if code_within 224 239 a then
                (if code a =? 224 then code_within 160 191 b
                 else if code a =? 237 then code_within 128 159 b else is_continuation b)
                && is_continuation c && valid_utf8 s'
              else match s' with
              | d :: s' =>
                  code_within 240 244 a &&
                  (if code a =? 240 then code_within 144 191 b
                   else if code a =? 244 then code_within 128 143 b else is_continuation b)
                  && is_continuation c && is_continuation d && valid_utf8 s'
              | [] => false
              end
          | [] => false
          end
      | [] => false
      end
  end.

(** [&s[n..]], of a string. *)
Definition str_from (n : nat) (s : bytes) : outcome bytes :=
  if (n <=? length s)%nat &&
     match drop n s with x :: _ => negb (is_continuation x) | [] => true end
  then Ret (drop n s) else Panic IndexOutOfBounds.

#[export] Instance bytes_le_total : Total (λ s t, bytes_leb s t = true).
Proof.
  intros s. induction s as [|x s IH]; intros [|y t]; simpl; auto.
  destruct (decide (x = y)) as [->|Hne].
  - rewrite decide_True by done. apply IH.
  - rewrite (decide_False (P:=y = x)) by congruence.
    assert (code x ≠ code y) by (intros ?%code_inj; done).
    rewrite !Z.ltb_lt. lia.
Qed.

#[export] Instance bytes_le_trans : Transitive (λ s t, bytes_leb s t = true).
Proof.
  intros s. induction s as [|x s IH]; intros [|y t] [|z u]; simpl; try done.
  destruct (decide (x = y)) as [->|Hxy], (decide (y = z)) as [->|Hyz].
  - rewrite ?decide_True by done. apply IH.
  - by rewrite ?(decide_False (P:=y = z)) by done.
  - by rewrite ?(decide_False (P:=x = z)) by done.
  - rewrite !Z.ltb_lt. intros. destruct (decide (x = z)) as [->|]; [lia|]. apply Z.ltb_lt. lia.
Qed.

#[global] Arguments fmt_radix : simpl never.
#[global] Arguments fmt_dec : simpl never.
#[global] Arguments fmt_hex : simpl never.
#[global] Arguments trim : simpl never.
#[global] Arguments strip_prefix : simpl never.
#[global] Arguments starts_with : simpl never.

Example fmt_dec_ex : fmt_dec U64_MAX = bs "18446744073709551615".
Proof. reflexivity. Qed.
Example fmt_hex_ex : fmt_hex 48879 = bs "beef".
Proof. reflexivity. Qed.
Example trim_ex : trim (bs "  a b ") = bs "a b".
Proof. reflexivity. Qed.
Example split_ex : split x2c (bs "a,,b") = [bs "a"; []; bs "b"].
Proof. reflexivity. Qed.
Example valid_utf8_ex :
  (valid_utf8 [xc3; xa9], valid_utf8 [xe2; x82; xac], valid_utf8 [xf0; x9f; x8e; x89],
   valid_utf8 [xc0; x80], valid_utf8 [xed; xa0; x80], valid_utf8 [xf4; x90; x80; x80], valid_utf8 [xc3])
  = (true, true, true, false, false, false, false).
Proof. reflexivity. Qed.
Example rfind_ex : rfind x2e (bs "/a.b/c.txt") = Some 6%nat.
Proof. reflexivity. Qed.
