(* ===== verification/HttpApi.v ===== *)
(** * Interfaces of the crates http-serve is built on

    The code of the [http], [httpdate] and [bytes] crates is not part of this
    repository, so their types and functions are parameters: a class of
    operations ([Http], [HttpDate], [Buf]) and a class of the documented laws
    the crate relies on.  Every component is proved against the laws; [Plain]
    is a small model of them, used to evaluate concrete requests. *)

From S2P Require Import Prelude RustStd.

(** ** The [http] crate *)

Class Http := {
  Method : Type;
  method_eq_dec : EqDecision Method;
  GET : Method;
  HEAD : Method;

  StatusCode : Type;
  as_u16 : StatusCode → Z;
  PARTIAL_CONTENT : StatusCode;
  NOT_MODIFIED : StatusCode;
  BAD_REQUEST : StatusCode;
  METHOD_NOT_ALLOWED : StatusCode;
  PRECONDITION_FAILED : StatusCode;
  PAYLOAD_TOO_LARGE : StatusCode;
  RANGE_NOT_SATISFIABLE : StatusCode;

  HeaderName : Type;
  name_eq_dec : EqDecision HeaderName;
  name_as_str : HeaderName → bytes;
  ACCEPT_ENCODING : HeaderName;
  ACCEPT_RANGES : HeaderName;
  ALLOW : HeaderName;
  CONTENT_ENCODING : HeaderName;
  CONTENT_LENGTH : HeaderName;
  CONTENT_RANGE : HeaderName;
  CONTENT_TYPE : HeaderName;
  DATE : HeaderName;
  ETAG : HeaderName;
  IF_MATCH : HeaderName;
  IF_MODIFIED_SINCE : HeaderName;
  IF_NONE_MATCH : HeaderName;
  IF_RANGE : HeaderName;
  IF_UNMODIFIED_SINCE : HeaderName;
  LAST_MODIFIED : HeaderName;
  RANGE : HeaderName;
  VARY : HeaderName;

  HeaderValue : Type;
  as_bytes : HeaderValue → bytes;
  to_str : HeaderValue → option bytes;
  from_static : bytes → HeaderValue;
  from_maybe_shared_unchecked : bytes → HeaderValue;
  value_try_from : bytes → option HeaderValue;
  value_from_bytes : bytes → option HeaderValue;

  HeaderMap : Type;
  hm_new : HeaderMap;
  hm_get : HeaderMap → HeaderName → option HeaderValue;
  hm_get_all : HeaderMap → HeaderName → list HeaderValue;
  hm_insert : HeaderMap → HeaderName → HeaderValue → HeaderMap;
  hm_append : HeaderMap → HeaderName → HeaderValue → HeaderMap;
  hm_extend : HeaderMap → list (HeaderName * HeaderValue) → HeaderMap;
  hm_iter : HeaderMap → list (HeaderName * HeaderValue);

  Response : Type → Type;
  resp_new : ∀ {B}, B → Response B;
  resp_status : ∀ {B}, Response B → StatusCode;
  resp_headers : ∀ {B}, Response B → HeaderMap;
  resp_body : ∀ {B}, Response B → B;
  resp_set_headers : ∀ {B}, Response B → HeaderMap → Response B;

  (** [http::response::Builder].  [builder_header]'s value is what the
      argument's [TryInto<HeaderValue>] gives; a builder remembers the first
      failure and [body] then returns an error. *)
  Builder : Type;
  builder : Builder;
  builder_header : Builder → HeaderName → option HeaderValue → Builder;
  builder_set_status : Builder → StatusCode → Builder;
  builder_body : ∀ {B}, Builder → B → option (Response B);
  builder_valid : Builder → bool;
  builder_status : Builder → StatusCode;
  builder_headers : Builder → HeaderMap
}.

#[export] Existing Instance method_eq_dec.
#[export] Existing Instance name_eq_dec.

(** What [HeaderValue::to_str] accepts: visible ASCII and tab. *)
Definition visible_ascii (x : byte) : bool :=
  ((32 <=? code x) && (code x <? 127)) || (code x =? 9).

(** What [HeaderValue::from_bytes] accepts. *)
Definition value_byte (x : byte) : bool :=
  ((32 <=? code x) && negb (code x =? 127)) || (code x =? 9).

(** The values of [k] among a list of header fields, in order. *)
Definition values_of `{Http} (k : HeaderName) (l : list (HeaderName * HeaderValue))
    : list HeaderValue :=
  (filter (λ kv : HeaderName * HeaderValue, kv.1 = k) l).*2.

Class HttpLaws `{Http} : Prop := {
  GET_not_HEAD : GET ≠ HEAD;
  status_codes :
    (as_u16 <$> [PARTIAL_CONTENT; NOT_MODIFIED; BAD_REQUEST; METHOD_NOT_ALLOWED;
                 PRECONDITION_FAILED; PAYLOAD_TOO_LARGE; RANGE_NOT_SATISFIABLE])
    = [206; 304; 400; 405; 412; 413; 416];
  name_as_str_inj : ∀ k k', name_as_str k = name_as_str k' → k = k';
  header_names :
    (name_as_str <$> [ACCEPT_ENCODING; ACCEPT_RANGES; ALLOW; CONTENT_ENCODING;
       CONTENT_LENGTH; CONTENT_RANGE; CONTENT_TYPE; DATE; ETAG; IF_MATCH;
       IF_MODIFIED_SINCE; IF_NONE_MATCH; IF_RANGE; IF_UNMODIFIED_SINCE;
       LAST_MODIFIED; RANGE; VARY])
    = (bs <$> ["accept-encoding"; "accept-ranges"; "allow"; "content-encoding";
       "content-length"; "content-range"; "content-type"; "date"; "etag"; "if-match";
       "if-modified-since"; "if-none-match"; "if-range"; "if-unmodified-since";
       "last-modified"; "range"; "vary"]);

  to_str_spec : ∀ v,
    to_str v = if forallb visible_ascii (as_bytes v) then Some (as_bytes v) else None;
  as_bytes_static : ∀ s, forallb visible_ascii s = true → as_bytes (from_static s) = s;
  as_bytes_unchecked : ∀ s, as_bytes (from_maybe_shared_unchecked s) = s;
  value_try_from_ok : ∀ s, forallb visible_ascii s = true →
    ∃ v, value_try_from s = Some v ∧ as_bytes v = s;
  value_from_bytes_ok : ∀ s, forallb value_byte s = true →
    ∃ v, value_from_bytes s = Some v ∧ as_bytes v = s;

  hm_get_head : ∀ m k, hm_get m k = head (hm_get_all m k);
  hm_get_all_new : ∀ k, hm_get_all hm_new k = [];
  hm_get_all_append : ∀ m k v k',
    hm_get_all (hm_append m k v) k' =
      if decide (k = k') then hm_get_all m k' ++ [v] else hm_get_all m k';
  hm_get_all_insert : ∀ m k v k',
    hm_get_all (hm_insert m k v) k' = if decide (k = k') then [v] else hm_get_all m k';
  hm_get_all_extend : ∀ m l k,
    hm_get_all (hm_extend m l) k = hm_get_all m k ++ values_of k l;
  hm_get_all_iter : ∀ m k, hm_get_all m k = values_of k (hm_iter m);

  resp_status_new : ∀ B (x : B), as_u16 (resp_status (resp_new x)) = 200;
  resp_headers_new : ∀ B (x : B), resp_headers (resp_new x) = hm_new;
  resp_body_new : ∀ B (x : B), resp_body (resp_new x) = x;
  resp_status_set : ∀ B (r : Response B) h, resp_status (resp_set_headers r h) = resp_status r;
  resp_headers_set : ∀ B (r : Response B) h, resp_headers (resp_set_headers r h) = h;
  resp_body_set : ∀ B (r : Response B) h, resp_body (resp_set_headers r h) = resp_body r;

  builder_new : builder_valid builder = true ∧ as_u16 (builder_status builder) = 200 ∧
    builder_headers builder = hm_new;
  builder_header_some : ∀ b k v,
    builder_valid (builder_header b k (Some v)) = builder_valid b ∧
    builder_status (builder_header b k (Some v)) = builder_status b ∧
    builder_headers (builder_header b k (Some v)) = hm_append (builder_headers b) k v;
  builder_header_none : ∀ b k, builder_valid (builder_header b k None) = false;
  builder_set_status_spec : ∀ b s,
    builder_valid (builder_set_status b s) = builder_valid b ∧
    builder_status (builder_set_status b s) = s ∧
    builder_headers (builder_set_status b s) = builder_headers b;
  builder_body_valid : ∀ B b (x : B), builder_valid b = true →
    ∃ r, builder_body b x = Some r ∧ resp_status r = builder_status b ∧
         resp_headers r = builder_headers b ∧ resp_body r = x;
  builder_body_invalid : ∀ B b (x : B), builder_valid b = false → builder_body b x = None
}.

(** [unwrap()] of [builder.body(_)]. *)
Definition unwrap {A} (o : option A) : outcome A :=
  match o with Some a => Ret a | None => Panic UnwrapFailed end.

Section lemmas.
Context `{HttpLaws}.

Lemma get_new k : hm_get hm_new k = None.
Proof. by rewrite hm_get_head, hm_get_all_new. Qed.

Lemma get_insert m k v k' :
  hm_get (hm_insert m k v) k' = if decide (k = k') then Some v else hm_get m k'.
Proof. rewrite !hm_get_head, hm_get_all_insert. by case_decide. Qed.

Lemma get_append_ne m k v k' : k ≠ k' → hm_get (hm_append m k v) k' = hm_get m k'.
Proof. intros. rewrite !hm_get_head, hm_get_all_append. by rewrite decide_False. Qed.

Lemma get_bytes m k : as_bytes <$> hm_get m k = head (as_bytes <$> hm_get_all m k).
Proof. rewrite hm_get_head. by destruct (hm_get_all m k). Qed.

Lemma to_str_Some v s :
  to_str v = Some s ↔ as_bytes v = s ∧ forallb visible_ascii s = true.
Proof.
  rewrite to_str_spec. split.
  - case_match; [intros [= <-]; done | done].
  - intros [<- ->]. done.
Qed.

Lemma values_of_none k l : Forall (λ kv : HeaderName * HeaderValue, kv.1 ≠ k) l → values_of k l = [].
Proof.
  unfold values_of. induction 1 as [|kv l Hkv _ IH]; [done|].
  by rewrite filter_cons, decide_False.
Qed.

(** Distinctness of header names reduces to distinctness of their text. *)
Lemma name_ne k k' : name_as_str k ≠ name_as_str k' → k ≠ k'.
Proof. congruence. Qed.
End lemmas.

(** Decides [k ≠ k'] for two of the header name constants. *)
Ltac name_ne :=
  apply name_ne;
  let Hn := fresh in
  pose proof header_names as Hn; cbn [fmap list_fmap] in Hn; injection Hn; intros;
  repeat match goal with E : name_as_str _ = _ |- _ => rewrite !E; clear E end;
  discriminate.

(** ** The [httpdate] crate *)

Class HttpDate := {
  fmt_http_date : SystemTime → bytes;
  parse_http_date : bytes → option SystemTime
}.

(** Times [httpdate] can format: from the epoch to the end of the year 9999. *)
Definition http_date_range (t : SystemTime) : Prop :=
  0 <= t < 253402300800 * NANOS_PER_SEC.

(** [t] without its fraction of a second, all an HTTP date can say. *)
Definition floor_secs (t : SystemTime) : SystemTime := t - t mod NANOS_PER_SEC.

Class HttpDateLaws `{HttpDate} : Prop := {
  parse_fmt_http_date : ∀ t, http_date_range t →
    parse_http_date (fmt_http_date t) = Some (floor_secs t);
  fmt_http_date_ascii : ∀ t, http_date_range t →
    forallb visible_ascii (fmt_http_date t) = true
}.

(** ** [bytes::Buf] and the entity's [Data] type *)

Class Buf (D : Type) := {
  buf_bytes : D → bytes;
  from_vec : bytes → D;
  from_static_slice : bytes → D
}.

Class BufLaws (D : Type) `{Buf D} : Prop := {
  buf_bytes_vec : ∀ v, buf_bytes (from_vec v) = v;
  buf_bytes_static : ∀ v, buf_bytes (from_static_slice v) = v
}.

(** [Buf::remaining]. *)
Definition remaining `{Buf D} (d : D) : Z := len (buf_bytes d).

#[export] Hint Rewrite @buf_bytes_vec @buf_bytes_static using typeclasses eauto : serve.
