(* ===== verification/Plain.v ===== *)
(** * A concrete model of the external interfaces

    Header names and values are byte strings, a header map is the list of its
    fields, a date prints as its number of seconds.  The laws of [HttpApi] hold
    of it, so they are consistent, and concrete requests can be evaluated. *)

From S2P Require Import Prelude RustStd HttpApi.

Record plain_response (B : Type) := PlainResponse {
  pr_status : Z;
  pr_headers : list (bytes * bytes);
  pr_body : B
}.
Arguments PlainResponse {B}.
Arguments pr_status {B}.
Arguments pr_headers {B}.
Arguments pr_body {B}.

Record plain_builder := PlainBuilder {
  pb_valid : bool;
  pb_status : Z;
  pb_headers : list (bytes * bytes)
}.

Definition plain_get_all (m : list (bytes * bytes)) (k : bytes) : list bytes :=
  (filter (λ kv : bytes * bytes, kv.1 = k) m).*2.

Definition plain_header (b : plain_builder) (k : bytes) (v : option bytes) : plain_builder :=
  match v with
  | Some v => PlainBuilder (pb_valid b) (pb_status b) (pb_headers b ++ [(k, v)])
  | None => PlainBuilder false (pb_status b) (pb_headers b)
  end.

#[local] Instance plain_http : Http := {|
  Method := bytes;
  method_eq_dec := _;
  GET := bs "GET";
  HEAD := bs "HEAD";
  StatusCode := Z;
  as_u16 := id;
  PARTIAL_CONTENT := 206;
  NOT_MODIFIED := 304;
  BAD_REQUEST := 400;
  METHOD_NOT_ALLOWED := 405;
  PRECONDITION_FAILED := 412;
  PAYLOAD_TOO_LARGE := 413;
  RANGE_NOT_SATISFIABLE := 416;
  HeaderName := bytes;
  name_eq_dec := _;
  name_as_str := id;
  ACCEPT_ENCODING := bs "accept-encoding";
  ACCEPT_RANGES := bs "accept-ranges";
  ALLOW := bs "allow";
  CONTENT_ENCODING := bs "content-encoding";
  CONTENT_LENGTH := bs "content-length";
  CONTENT_RANGE := bs "content-range";
  CONTENT_TYPE := bs "content-type";
  DATE := bs "date";
  ETAG := bs "etag";
  IF_MATCH := bs "if-match";
  IF_MODIFIED_SINCE := bs "if-modified-since";
  IF_NONE_MATCH := bs "if-none-match";
  IF_RANGE := bs "if-range";
  IF_UNMODIFIED_SINCE := bs "if-unmodified-since";
  LAST_MODIFIED := bs "last-modified";
  RANGE := bs "range";
  VARY := bs "vary";
  HeaderValue := bytes;
  as_bytes := id;
  to_str v := if forallb visible_ascii v then Some v else None;
  from_static := id;
  from_maybe_shared_unchecked := id;
  value_try_from v := if forallb visible_ascii v then Some v else None;
  value_from_bytes v := if forallb value_byte v then Some v else None;
  HeaderMap := list (bytes * bytes);
  hm_new := [];
  hm_get m k := head (plain_get_all m k);
  hm_get_all := plain_get_all;
  hm_insert m k v := filter (λ kv : bytes * bytes, kv.1 ≠ k) m ++ [(k, v)];
  hm_append m k v := m ++ [(k, v)];
  hm_extend m l := m ++ l;
  hm_iter m := m;
  Response := plain_response;
  resp_new _ x := PlainResponse 200 [] x;
  resp_status _ := pr_status;
  resp_headers _ := pr_headers;
  resp_body _ := pr_body;
  resp_set_headers _ r h := PlainResponse (pr_status r) h (pr_body r);
  Builder := plain_builder;
  builder := PlainBuilder true 200 [];
  builder_header := plain_header;
  builder_set_status b s := PlainBuilder (pb_valid b) s (pb_headers b);
  builder_body _ b x :=
    if pb_valid b then Some (PlainResponse (pb_status b) (pb_headers b) x) else None;
  builder_valid := pb_valid;
  builder_status := pb_status;
  builder_headers := pb_headers
|}.

Lemma plain_get_all_app m m' k :
  plain_get_all (m ++ m') k = plain_get_all m k ++ plain_get_all m' k.
Proof. unfold plain_get_all. by rewrite filter_app, fmap_app. Qed.

Lemma plain_get_all_one k v k' :
  plain_get_all [(k, v)] k' = if decide (k = k') then [v] else [].
Proof. unfold plain_get_all. rewrite filter_cons. simpl. by case_decide. Qed.

Lemma plain_get_all_removed m k k' :
  plain_get_all (filter (λ kv : bytes * bytes, kv.1 ≠ k) m) k' =
    if decide (k = k') then [] else plain_get_all m k'.
Proof.
  unfold plain_get_all. rewrite list_filter_filter. case_decide as Hk.
  - subst. induction m as [|[a v] m IH]; [done|].
    rewrite filter_cons, decide_False; [done|]. simpl. by intros [? ?].
  - f_equal. apply list_filter_iff. intros [a v]. simpl. split; [by intros []|].
    intros ->. split; congruence.
Qed.

#[local] Instance plain_http_laws : HttpLaws.
Proof.
  split; try done; try (intros; simpl; case_match; eauto; done).
  - intros m k v k'. simpl. rewrite plain_get_all_app, plain_get_all_one.
    case_decide; [done | by rewrite app_nil_r].
  - intros m k v k'. simpl.
    rewrite plain_get_all_app, plain_get_all_one, plain_get_all_removed.
    case_decide; [done | by rewrite app_nil_r].
  - intros m l k. apply plain_get_all_app.
  - intros B b x Hb. simpl in *. rewrite Hb. eauto.
  - intros B b x Hb. simpl in *. by rewrite Hb.
Qed.

(** A date prints as its seconds since the epoch. *)
#[local] Instance plain_date : HttpDate := {|
  fmt_http_date t := fmt_dec (t / NANOS_PER_SEC);
  parse_http_date s := (λ n, n * NANOS_PER_SEC) <$> u64_from_str s
|}.

Lemma digits_visible s : forallb is_digit s = true → forallb visible_ascii s = true.
Proof.
  rewrite !forallb_forall. intros Hs x Hx. specialize (Hs x Hx).
  unfold is_digit in Hs. zbool. unfold visible_ascii.
  rewrite (proj2 (Z.leb_le 32 _)), (proj2 (Z.ltb_lt _ 127)) by lia. done.
Qed.

#[local] Instance plain_date_laws : HttpDateLaws.
Proof.
  split; intros t [Ht1 Ht2]; unfold NANOS_PER_SEC in *; simpl.
  - assert (0 <= t / NANOS_PER_SEC <= U64_MAX) as Hd.
    { split; [apply Z.div_pos; unfold NANOS_PER_SEC; lia|].
      unfold NANOS_PER_SEC, U64_MAX. pose proof (Z.div_lt_upper_bound t 1000000000 253402300800).
      lia. }
    unfold u64_from_str. rewrite from_str_fmt_dec by (unfold U64_MAX; lia).
    rewrite (proj2 (Z.leb_le _ _)) by lia. simpl. f_equal.
    unfold floor_secs, NANOS_PER_SEC. pose proof (Z.div_mod t 1000000000). lia.
  - apply digits_visible, fmt_dec_digits, Z.div_pos; unfold NANOS_PER_SEC; lia.
Qed.

#[local] Instance plain_buf : Buf bytes :=
  {| buf_bytes := id; from_vec := id; from_static_slice := id |}.
#[local] Instance plain_buf_laws : BufLaws bytes.
Proof. by split. Qed.
