(* ===== verification/ContentCoding.v ===== *)
(** * [Accept-Encoding] negotiation (src/lib.rs)

    [parse_qvalue] and [should_gzip]: whether a response to this request should
    be gzip-encoded. *)

From S2P Require Import Prelude RustStd HttpApi Plain.

(** A client's preferences as data: codings with optional weights. *)
Abbreviation entry := (bytes * option Z)%type.

Section coding.
Context `{Build, Http}.

(** ** Weights *)

(** [parse_qvalue]: a weight in thousandths. *)
Definition parse_qvalue (s : bytes) : outcome (result Z unit) :=
  if decide (s ∈ [bs "1"; bs "1."; bs "1.0"; bs "1.00"; bs "1.000"]) then Ret (Ok 1000)
  else if decide (s ∈ [bs "0"; bs "0."]) then Ret (Ok 0)
  else if negb (starts_with (bs "0.") s) then Ret (Err tt)
  else
    let v := drop 2 s in
    match (match length v with
           | 1%nat => Some 100
           | 2%nat => Some 10
           | 3%nat => Some 1
           | _ => None
           end) with
    | None => Ret (Err tt)
    | Some factor =>
        match u16_from_str v with
        | None => Ret (Err tt)
        | Some v => q ← u16_mul v factor; Ret (Ok q)
        end
    end.

(** ** The header *)

(** The three locals of [should_gzip]. *)
Record prefs := Prefs {
  gzip_q : option Z;
  identity_q : option Z;
  star_q : option Z
}.

Definition no_prefs : prefs := Prefs None None None.

(** One element of the comma-separated list; [None] when its parameter is
    not a weight. *)
Definition parse_coding (qi : bytes) : outcome (option (bytes * Z)) :=
  match split_once x3b qi with
  | None => Ret (Some (trim qi, 1000))
  | Some (c, q) =>
      match strip_prefix (bs "q=") (trim q) with
      | None => Ret None
      | Some q =>
          r ← parse_qvalue q;
          match r with
          | Ok quality => Ret (Some (trim c, quality))
          | Err _ => Ret None
          end
      end
  end.

Definition record_coding (coding : bytes) (quality : Z) (st : prefs) : prefs :=
  if decide (coding = bs "gzip") then Prefs (Some quality) (identity_q st) (star_q st)
  else if decide (coding = bs "identity") then Prefs (gzip_q st) (Some quality) (star_q st)
  else if decide (coding = bs "*") then Prefs (gzip_q st) (identity_q st) (Some quality)
  else st.

(** The loop over the list; [None] is the early [return false]. *)
Fixpoint scan_codings (parts : list bytes) (st : prefs) : outcome (option prefs) :=
  match parts with
  | [] => Ret (Some st)
  | qi :: rest =>
      cq ← parse_coding qi;
      match cq with
      | None => Ret None
      | Some (coding, quality) => scan_codings rest (record_coding coding quality st)
      end
  end.

(** [a.or(b).unwrap_or(d)]. *)
Definition or_unwrap_or (a b : option Z) (d : Z) : Z :=
  match a with
  | Some q => q
  | None => match b with Some q => q | None => d end
  end.

Definition decide_gzip (st : prefs) : bool :=
  let gzip_q' := or_unwrap_or (gzip_q st) (star_q st) 0 in
  let identity_q' := or_unwrap_or (identity_q st) (star_q st) 1 in
  (gzip_q' >? 0) && (gzip_q' >=? identity_q').

Definition should_gzip (headers : HeaderMap) : outcome bool :=
  match hm_get headers ACCEPT_ENCODING with
  | None => Ret false
  | Some v =>
      match to_str v with
      | None => Ret false
      | Some s =>
          st ← scan_codings (split x2c s) no_prefs;
          match st with
          | None => Ret false
          | Some st => Ret (decide_gzip st)
          end
      end
  end.

(** ** Specification *)

(** RFC 7231 section 5.3.1, as quoted above [parse_qvalue], with the value of
    each form in thousandths. *)
Inductive qvalue : bytes → Z → Prop :=
  | qvalue_0 : qvalue (bs "0") 0
  | qvalue_0_frac ds :
      forallb is_digit ds = true → (length ds <= 3)%nat →
      qvalue (bs "0." ++ ds) (dec_val 0 ds * 10 ^ (3 - len ds))
  | qvalue_1 : qvalue (bs "1") 1000
  | qvalue_1_frac ds :
      Forall (λ x, x = x30) ds → (length ds <= 3)%nat → qvalue (bs "1." ++ ds) 1000.

(** The forms accepted beyond the grammar: a sign before one or two digits. *)
Inductive plus_qvalue : bytes → Z → Prop :=
  | plus_qvalue_intro ds :
      forallb is_digit ds = true → (1 <= length ds <= 2)%nat →
      plus_qvalue (bs "0.+" ++ ds) (dec_val 0 ds * 10 ^ (2 - len ds)).

(** The weight of the last entry for [name]. *)
Definition weight (name : bytes) (es : list entry) : option Z :=
  foldl (λ w (e : entry), if decide (e.1 = name) then Some (default 1000 e.2) else w) None es.

Definition prefers_gzip (es : list entry) : bool :=
  let g := or_unwrap_or (weight (bs "gzip") es) (weight (bs "*") es) 0 in
  let i := or_unwrap_or (weight (bs "identity") es) (weight (bs "*") es) 1 in
  (0 <? g) && (i <=? g).

(** Printing: weights with three decimals, elements separated by [", "]. *)
Definition print_weight (q : Z) : bytes :=
  if q =? 1000 then bs "1"
  else bs "0." ++ [digit_char (q / 100); digit_char (q / 10 mod 10); digit_char (q mod 10)].

Definition print_entry (e : entry) : bytes :=
  match e.2 with
  | None => e.1
  | Some q => e.1 ++ bs ";q=" ++ print_weight q
  end.

Definition print_accept_encoding (es : list entry) : bytes :=
  match print_entry <$> es with
  | [] => []
  | p :: ps => join x2c (p :: ((λ s, x20 :: s) <$> ps))
  end.

(** Codings are tokens: visible characters other than the delimiters. *)
Definition token_char (x : byte) : bool :=
  visible_ascii x && negb (is_whitespace x) && bool_decide (x ∉ [x2c; x3b]).

Definition valid_entry (e : entry) : Prop :=
  forallb token_char e.1 = true ∧ match e.2 with Some q => 0 <= q <= 1000 | None => True end.
(** ** Weights: totality and correctness *)

Lemma u16_from_str_short v :
  forallb is_digit v = true → v ≠ [] → (length v <= 3)%nat →
  u16_from_str v = Some (dec_val 0 v).
Proof.
  intros Hd Hne Hl. unfold u16_from_str. rewrite from_str_digits by done.
  pose proof (dec_val_bound v Hd).
  assert (10 ^ len v <= 10 ^ 3) by (apply Z.pow_le_mono_r; unfold len; lia).
  rewrite (proj2 (Z.leb_le _ _)); [done|]. unfold U16_MAX. lia.
Qed.

(** The multiplication by the factor stays within a thousand. *)
Lemma scaled_weight v n k :
  forallb is_digit v = true → len v + n <= 3 → 0 <= n → k = 10 ^ n →
  u16_mul (dec_val 0 v) k = Ret (dec_val 0 v * k) ∧ 0 <= dec_val 0 v * k <= 1000.
Proof.
  intros Hd Hl Hn ->. pose proof (dec_val_bound v Hd).
  assert (10 ^ len v * 10 ^ n <= 1000).
  { rewrite <- Z.pow_add_r by auto with serve.
    change 1000 with (10 ^ 3). by apply Z.pow_le_mono_r. }
  assert (0 < 10 ^ n) by (apply Z.pow_pos_nonneg; lia).
  assert (0 <= dec_val 0 v * 10 ^ n <= 1000) by nia.
  split; [|done]. apply u16_mul_ok. unfold U16_MAX. lia.
Qed.

(** The branch of [parse_qvalue] that computes. *)
Lemma parse_qvalue_frac v :
  v ≠ [] → parse_qvalue (bs "0." ++ v) =
    match (match length v with
           | 1%nat => Some 100 | 2%nat => Some 10 | 3%nat => Some 1 | _ => None end) with
    | None => Ret (Err tt)
    | Some factor => match u16_from_str v with
                     | None => Ret (Err tt)
                     | Some v => q ← u16_mul v factor; Ret (Ok q)
                     end
    end.
Proof.
  intros Hne. unfold parse_qvalue.
  rewrite decide_False
    by (intros Hin; repeat (apply elem_of_cons in Hin as [Hin|Hin]; [done|]);
        by apply elem_of_nil in Hin).
  rewrite decide_False
    by (intros Hin; repeat (apply elem_of_cons in Hin as [Hin|Hin]; [by destruct v|]);
        by apply elem_of_nil in Hin).
  by rewrite starts_with_app.
Qed.

Lemma parse_qvalue_digits v :
  forallb is_digit v = true → v ≠ [] → (length v <= 3)%nat →
  parse_qvalue (bs "0." ++ v) = Ret (Ok (dec_val 0 v * 10 ^ (3 - len v))).
Proof.
  intros Hd Hne Hl. rewrite parse_qvalue_frac by done.
  destruct v as [|x1 [|x2 [|x3 [|]]]]; try done; [..|simpl in Hl; lia];
    cbn [length]; rewrite u16_from_str_short by done.
  - destruct (scaled_weight [x1] 2 100) as [-> _]; done.
  - destruct (scaled_weight [x1; x2] 1 10) as [-> _]; done.
  - destruct (scaled_weight [x1; x2; x3] 0 1) as [-> _]; done.
Qed.

Lemma parse_qvalue_plus v :
  forallb is_digit v = true → v ≠ [] → (length v <= 2)%nat →
  parse_qvalue (bs "0.+" ++ v) = Ret (Ok (dec_val 0 v * 10 ^ (2 - len v))).
Proof.
  intros Hd Hne Hl. change (bs "0.+" ++ v) with (bs "0." ++ (x2b :: v)).
  rewrite parse_qvalue_frac by done.
  assert (u16_from_str (x2b :: v) = u16_from_str v) as ->.
  { unfold u16_from_str at 2. rewrite from_str_digits by done.
    unfold u16_from_str, from_str. rewrite decide_True by done.
    destruct v; [done|]. rewrite parse_digits_spec by done. by rewrite Hd. }
  destruct v as [|x1 [|x2 [|]]]; try done; [..|simpl in Hl; lia];
    cbn [length]; rewrite u16_from_str_short by (simpl; done || lia).
  - destruct (scaled_weight [x1] 1 10) as [-> _]; done.
  - destruct (scaled_weight [x1; x2] 0 1) as [-> _]; done.
Qed.

(** Inversion: only the forms above are accepted. *)
Lemma parse_qvalue_frac_inv v :
  v ≠ [] →
  parse_qvalue (bs "0." ++ v) = Ret (Err tt) ∨
  (forallb is_digit v = true ∧ (length v <= 3)%nat) ∨
  (∃ ds, v = x2b :: ds ∧ ds ≠ [] ∧ forallb is_digit ds = true ∧ (length ds <= 2)%nat).
Proof.
  intros Hne. rewrite parse_qvalue_frac by done.
  destruct (u16_from_str v) as [n|] eqn:Hn; [|left; by repeat case_goal].
  apply from_str_Some_inv in Hn as (ds & Hds & Hdne & Hdig & _); [|done].
  destruct (decide (length v <= 3)%nat) as [Hl|Hl].
  - right. destruct Hds as [->| ->]; [by left|]. right. exists ds. simpl in Hl.
    repeat split; try done. lia.
  - left. destruct v as [|? [|? [|? [|]]]]; simpl in Hl; try lia. done.
Qed.

Lemma parse_qvalue_other s :
  s ∉ [bs "1"; bs "1."; bs "1.0"; bs "1.00"; bs "1.000"] → s ∉ [bs "0"; bs "0."] →
  starts_with (bs "0.") s = false → parse_qvalue s = Ret (Err tt).
Proof.
  intros. unfold parse_qvalue. rewrite !decide_False by done. by rewrite H3.
Qed.

(** The parser's case split on its input. *)
Lemma parse_qvalue_split s :
  (s ∈ [bs "1"; bs "1."; bs "1.0"; bs "1.00"; bs "1.000"] ∧ parse_qvalue s = Ret (Ok 1000)) ∨
  (s ∈ [bs "0"; bs "0."] ∧ parse_qvalue s = Ret (Ok 0)) ∨
  parse_qvalue s = Ret (Err tt) ∨
  (∃ v, s = bs "0." ++ v ∧ v ≠ []).
Proof.
  destruct (decide (s ∈ [bs "1"; bs "1."; bs "1.0"; bs "1.00"; bs "1.000"])) as [H1|H1].
  { left. split; [done|]. unfold parse_qvalue. by rewrite decide_True. }
  right. destruct (decide (s ∈ [bs "0"; bs "0."])) as [H0'|H0'].
  { left. split; [done|]. unfold parse_qvalue. by rewrite decide_False, decide_True. }
  right. destruct (starts_with (bs "0.") s) eqn:Hs.
  - right. apply starts_with_true in Hs as [v ->]. exists v. split; [done|].
    intros ->. apply H0'. by rewrite app_nil_r, !elem_of_cons; right; left.
  - left. by apply parse_qvalue_other.
Qed.

Lemma qvalue_1_forms s :
  s ∈ [bs "1"; bs "1."; bs "1.0"; bs "1.00"; bs "1.000"] ↔ qvalue s 1000 ∧ parse_qvalue s = Ret (Ok 1000) ∧ head s = Some x31.
Proof.
  split.
  - intros Hs. repeat (apply elem_of_cons in Hs as [->|Hs]); [..|by apply elem_of_nil in Hs];
      (split; [|done]).
    + apply qvalue_1.
    + apply (qvalue_1_frac []); [by apply Forall_nil | simpl; lia].
    + apply (qvalue_1_frac [x30]); [by repeat constructor|simpl; lia].
    + apply (qvalue_1_frac [x30; x30]); [by repeat constructor|simpl; lia].
    + apply (qvalue_1_frac [x30; x30; x30]); [by repeat constructor|simpl; lia].
  - intros (Hq & _ & Hh). inversion Hq as [| ds Hd Hl | |ds Hd Hl]; subst; try done.
    + by left.
    + destruct Hd as [|? ds -> Hd]; [by right; left|].
      destruct Hd as [|? ds -> Hd]; [by do 2 right; left|].
      destruct Hd as [|? ds -> Hd]; [by do 3 right; left|].
      destruct Hd as [|? ds -> Hd]; [by do 4 right; left|]. simpl in Hl. lia.
Qed.

Lemma qvalue_accepted s q : qvalue s q → parse_qvalue s = Ret (Ok q).
Proof.
  destruct 1 as [|ds Hd Hl| |ds Hd Hl].
  - done.
  - destruct ds as [|x ds]; [done|]. by apply parse_qvalue_digits.
  - done.
  - destruct (proj1 (qvalue_1_forms (bs "1." ++ ds))) as (_ & Hp & _); [|done].
    destruct Hd as [|? ds -> Hd]; [by right; left|].
    destruct Hd as [|? ds -> Hd]; [by do 2 right; left|].
    destruct Hd as [|? ds -> Hd]; [by do 3 right; left|].
    destruct Hd as [|? ds -> Hd]; [by do 4 right; left|]. simpl in Hl. lia.
Qed.

Lemma plus_qvalue_accepted s q : plus_qvalue s q → parse_qvalue s = Ret (Ok q).
Proof.
  destruct 1 as [ds Hd Hl]. apply parse_qvalue_plus; [done| |lia].
  destruct ds; [simpl in Hl; lia|done].
Qed.

(** Every accepted string is one of the forms. *)
Lemma accepted_form s r :
  parse_qvalue s = r →
  r = Ret (Err tt) ∨ ∃ q, r = Ret (Ok q) ∧ 0 <= q <= 1000 ∧ (qvalue s q ∨ plus_qvalue s q).
Proof.
  intros <-. destruct (parse_qvalue_split s) as [[Hs ->]|[[Hs ->]|[->|(v & -> & Hne)]]].
  - right. exists 1000. repeat split; try lia. left. by apply qvalue_1_forms in Hs as [? _].
  - right. exists 0. repeat split; try lia. left.
    apply elem_of_cons in Hs as [->|Hs]; [apply qvalue_0|].
    apply list_elem_of_singleton in Hs as ->. by apply (qvalue_0_frac []); [|simpl; lia].
  - by left.
  - destruct (parse_qvalue_frac_inv v Hne) as [->|[[Hd Hl]|(ds & -> & Hdne & Hd & Hl)]].
    + by left.
    + right. rewrite parse_qvalue_digits by done. eexists. split; [done|]. split.
      * eapply (scaled_weight v (3 - len v)); [done|lia|unfold len; lia|done].
      * left. by apply qvalue_0_frac.
    + right. change (bs "0." ++ x2b :: ds) with (bs "0.+" ++ ds).
      rewrite parse_qvalue_plus by done. eexists. split; [done|]. split.
      * eapply (scaled_weight ds (2 - len ds)); [done|lia|unfold len; lia|done].
      * right. apply plus_qvalue_intro; [done|]. destruct ds; [done|simpl in *; lia].
Qed.

(** ** The header scan *)

Lemma parse_coding_total qi :
  ∃ o, parse_coding qi = Ret o ∧ ∀ c q, o = Some (c, q) → 0 <= q <= 1000.
Proof.
  unfold parse_coding. destruct (split_once x3b qi) as [[c q]|].
  - destruct (strip_prefix (bs "q=") (trim q)) as [q'|]; [|by eexists].
    destruct (accepted_form q' _ eq_refl) as [->|(n & -> & Hn & _)]; simpl;
      (eexists; split; [done|]); [done|]. by intros ?? [= _ <-].
  - eexists. split; [done|]. intros ?? [= _ <-]. lia.
Qed.

Lemma scan_codings_total parts st : ∃ o, scan_codings parts st = Ret o.
Proof.
  revert st. induction parts as [|qi parts IH]; intros st; simpl; [by eexists|].
  destruct (parse_coding_total qi) as (o & -> & _). simpl.
  destruct o as [[c q]|]; [apply IH | by eexists].
Qed.

(** Where a recorded weight comes from. *)
Lemma scan_codings_source parts st st' :
  scan_codings parts st = Ret (Some st') →
  (∀ q, gzip_q st' = Some q → gzip_q st = Some q ∨
     ∃ p, p ∈ parts ∧ parse_coding p = Ret (Some (bs "gzip", q))) ∧
  (∀ q, star_q st' = Some q → star_q st = Some q ∨
     ∃ p, p ∈ parts ∧ parse_coding p = Ret (Some (bs "*", q))).
Proof.
  revert st. induction parts as [|qi parts IH]; intros st; simpl.
  { intros [= ->]. split; intros q Hq; by left. }
  destruct (parse_coding_total qi) as (o & Hp & _). rewrite Hp. simpl.
  destruct o as [[c n]|]; [|done]. intros Hs. apply IH in Hs as [Hg Hstar].
  unfold record_coding in Hg, Hstar. split; intros q Hq.
  - apply Hg in Hq as [Hq|(p & ? & ?)]; [|by right; exists p; split; [right|]].
    repeat case_decide; simpl in Hq; [|by left..]. injection Hq as ->. subst.
    right. exists qi. split; [by left|done].
  - apply Hstar in Hq as [Hq|(p & ? & ?)]; [|by right; exists p; split; [right|]].
    repeat case_decide; simpl in Hq; [by left|by left| |by left]. injection Hq as ->. subst.
    right. exists qi. split; [by left|done].
Qed.

(** ** Printed headers *)

Lemma print_weight_digits q :
  0 <= q < 1000 →
  let ds := [digit_char (q / 100); digit_char (q / 10 mod 10); digit_char (q mod 10)] in
  forallb is_digit ds = true ∧ dec_val 0 ds = q.
Proof.
  intros Hq. pose proof (Z.mod_pos_bound q 10 ltac:(lia)).
  pose proof (Z.mod_pos_bound (q / 10) 10 ltac:(lia)).
  assert (0 <= q / 100 < 10) by (split; [apply Z.div_pos; lia|apply Z.div_lt_upper_bound; lia]).
  destruct (digit_char_spec (q / 100)) as (Hv1 & _ & Hd1); [lia|].
  destruct (digit_char_spec (q / 10 mod 10)) as (Hv2 & _ & Hd2); [lia|].
  destruct (digit_char_spec (q mod 10)) as (Hv3 & _ & Hd3); [lia|].
  intros ds. assert (forallb is_digit ds = true) as Hds.
  { simpl. rewrite Hd1, Hd2, Hd3 by lia. done. }
  split; [done|]. rewrite <- radix_dec_val by done.
  unfold radix_val. simpl. rewrite Hv1, Hv2, Hv3.
  assert (q / 100 = q / 10 / 10) as -> by (by rewrite Z.div_div by lia).
  pose proof (Z.div_mod q 10). pose proof (Z.div_mod (q / 10) 10). lia.
Qed.

Lemma parse_print_weight q : 0 <= q <= 1000 → parse_qvalue (print_weight q) = Ret (Ok q).
Proof.
  intros Hq. unfold print_weight. destruct (Z.eqb_spec q 1000) as [->|]; [done|].
  destruct (print_weight_digits q) as [Hd Hv]; [lia|].
  rewrite parse_qvalue_digits by done. rewrite Hv.
  change (len [_; _; _]) with 3. do 2 f_equal. lia.
Qed.

Lemma token_facts s :
  forallb token_char s = true →
  Forall (λ x, is_whitespace x = false) s ∧ x2c ∉ s ∧ x3b ∉ s.
Proof.
  induction s as [|x s IH]; simpl.
  { intros _. split; [by constructor|]. split; apply not_elem_of_nil. }
  unfold token_char at 1. intros Hs. zbool.
  destruct IH as (Hw & Hc & Hsc); [done|].
  rewrite !not_elem_of_cons in *. repeat split; try set_solver.
Qed.

Lemma print_weight_token q : 0 <= q <= 1000 → forallb token_char (print_weight q) = true.
Proof.
  intros Hq. unfold print_weight. destruct (Z.eqb_spec q 1000); [done|].
  rewrite forallb_app. apply andb_true_intro. split; [done|].
  assert (∀ d, 0 <= d < 10 → token_char (digit_char d) = true) as Hd.
  { intros d Hd.
    assert (d = 0 ∨ d = 1 ∨ d = 2 ∨ d = 3 ∨ d = 4 ∨ d = 5 ∨ d = 6 ∨ d = 7 ∨ d = 8 ∨ d = 9)
      as Hc by lia.
    by repeat destruct Hc as [->|Hc]; [..|subst d]. }
  simpl. rewrite !Hd; [done|..].
  - apply Z.mod_pos_bound; lia.
  - apply Z.mod_pos_bound; lia.
  - split; [apply Z.div_pos; lia|apply Z.div_lt_upper_bound; lia].
Qed.

Lemma print_entry_facts e : valid_entry e → x2c ∉ print_entry e.
Proof.
  destruct e as [c [q|]]; unfold valid_entry, print_entry; cbn [fst snd]; intros [Hc Hq].
  - apply token_facts in Hc as (_ & Hc & _).
    apply print_weight_token, token_facts in Hq as (_ & Hq & _).
    assert (x2c ∉ bs ";q=") by by_compute. rewrite !elem_of_app. tauto.
  - by apply token_facts in Hc as (_ & ? & _).
Qed.

(** Parsing one printed element gives it back, whitespace before it or not. *)
Lemma parse_print_entry w e :
  w = [] ∨ w = [x20] → valid_entry e →
  parse_coding (w ++ print_entry e) = Ret (Some (e.1, default 1000 e.2)).
Proof.
  intros Hw [Hc Hq]. destruct e as [c oq]; unfold print_entry; cbn [fst snd] in *.
  assert (Forall (λ x, is_whitespace x = true) w ∧ x3b ∉ w) as [Hws Hwc].
  { destruct Hw as [-> | ->]; split; repeat constructor; try set_solver. }
  apply token_facts in Hc as (Hnw & _ & Hsc). unfold parse_coding.
  destruct oq as [q|]; cbn [default].
  - change (c ++ bs ";q=" ++ print_weight q)
      with (c ++ x3b :: (bs "q=" ++ print_weight q)).
    rewrite app_assoc, split_once_app by set_solver.
    apply print_weight_token in Hq as Ht. apply token_facts in Ht as (Hqw & _ & _).
    rewrite trim_none by (apply Forall_app; by split; [repeat constructor|]).
    rewrite strip_prefix_app, parse_print_weight by done. simpl.
    by rewrite trim_app_l, trim_none.
  - rewrite split_once_None by set_solver. by rewrite trim_app_l, trim_none.
Qed.

(** What the loop accumulates, entry by entry. *)
Definition record_entry (st : prefs) (e : entry) : prefs :=
  record_coding e.1 (default 1000 e.2) st.

Lemma scan_printed es ps st :
  Forall valid_entry es →
  Forall2 (λ p e, ∃ w, (w = [] ∨ w = [x20]) ∧ p = w ++ print_entry e) ps es →
  scan_codings ps st = Ret (Some (foldl record_entry st es)).
Proof.
  intros Hv Hps. revert st. induction Hps as [|p e ps es (w & Hw & ->) _ IH]; intros st.
  { done. }
  inversion Hv; subst. simpl. rewrite parse_print_entry by done. simpl. by apply IH.
Qed.

Lemma recorded_weights es :
  foldl record_entry no_prefs es =
    Prefs (weight (bs "gzip") es) (weight (bs "identity") es) (weight (bs "*") es).
Proof.
  induction es as [|e es IH] using rev_ind; [done|].
  unfold weight in *. rewrite !foldl_app, IH. destruct e as [c w].
  unfold record_entry, record_coding. cbn [foldl fst snd].
  repeat case_decide; simpl; subst; done.
Qed.

Lemma print_accept_encoding_cons e es :
  print_accept_encoding (e :: es) =
    join x2c (print_entry e :: ((λ s, x20 :: s) <$> (print_entry <$> es))).
Proof. reflexivity. Qed.

Lemma split_printed es :
  Forall valid_entry es →
  es ≠ [] → ∃ ps, split x2c (print_accept_encoding es) = ps ∧
    Forall2 (λ p e, ∃ w, (w = [] ∨ w = [x20]) ∧ p = w ++ print_entry e) ps es.
Proof.
  intros Hv Hne.
  destruct es as [|e es]; [done|]. rewrite print_accept_encoding_cons. inversion Hv as [|? ? He Hes]; subst.
  exists (print_entry e :: ((λ s, x20 :: s) <$> (print_entry <$> es))). split.
  - apply split_join; [done|]. constructor; [by apply print_entry_facts|].
    rewrite <- list_fmap_compose. apply Forall_fmap. eapply Forall_impl; [done|].
    intros e' He'. simpl. apply not_elem_of_cons. split; [done|].
    by apply print_entry_facts.
  - constructor; [exists []; by split; [left|]|].
    rewrite <- list_fmap_compose. apply Forall2_fmap_l.
    clear. induction es; constructor; [|done]. exists [x20]. by split; [right|].
Qed.

Lemma decide_gzip_weights es :
  decide_gzip (Prefs (weight (bs "gzip") es) (weight (bs "identity") es)
                     (weight (bs "*") es)) = prefers_gzip es.
Proof.
  unfold decide_gzip, prefers_gzip. simpl.
  by rewrite Z.gtb_ltb, Z.geb_leb.
Qed.

Lemma should_gzip_total headers : ∃ b, should_gzip headers = Ret b.
Proof.
  unfold should_gzip. destruct (hm_get headers ACCEPT_ENCODING) as [v|]; [|by eexists].
  destruct (to_str v) as [s|]; [|by eexists].
  destruct (scan_codings_total (split x2c s) no_prefs) as [[o|] ->]; by eexists.
Qed.
End coding.

Section properties.
Context `{Build, Http}.

(** [parse_qvalue] never panics, and accepts exactly the [qvalue]s of
    RFC 7231 section 5.3.1, each with its value in thousandths, and besides
    them ["0.+d"] and ["0.+dd"], because [u16::from_str] takes a sign. *)
Theorem parse_qvalue_grammar (s : bytes) :
  (parse_qvalue s = Ret (Err tt) ∨ ∃ q, parse_qvalue s = Ret (Ok q) ∧ 0 <= q <= 1000) ∧
  ∀ q, parse_qvalue s = Ret (Ok q) ↔ qvalue s q ∨ plus_qvalue s q.
Proof.
  split.
  - destruct (accepted_form s _ eq_refl) as [?|(q & ? & ? & _)]; [by left|]. right. eauto.
  - intros q. split.
    + intros Hq. apply accepted_form in Hq as [?|(q' & Hq & _ & Hform)]; [done|].
      by injection Hq as ->.
    + intros [?|?]; [by apply qvalue_accepted | by apply plus_qvalue_accepted].
Qed.

(** It is a function of the bytes of the first [Accept-Encoding] field. *)
Lemma should_gzip_bytes `{!HttpLaws} a b :
  as_bytes <$> hm_get a ACCEPT_ENCODING = as_bytes <$> hm_get b ACCEPT_ENCODING →
  should_gzip a = should_gzip b.
Proof.
  unfold should_gzip. destruct (hm_get a ACCEPT_ENCODING) as [x|], (hm_get b ACCEPT_ENCODING) as [y|];
    simpl; intros Hv; [|done..]. injection Hv as Hv. by rewrite !to_str_spec, Hv.
Qed.

(** [should_gzip] on a header in printed form decides by the client's
    preferences: gzip's weight (its own, else that of ["*"], else 0) must be
    positive and at least that of the identity coding (else that of ["*"],
    else the least positive weight). *)
Theorem should_gzip_preference (headers : HeaderMap) (v : HeaderValue) (es : list entry) :
  hm_get headers ACCEPT_ENCODING = Some v →
  to_str v = Some (print_accept_encoding es) →
  Forall valid_entry es →
  should_gzip headers = Ret (prefers_gzip es).
Proof.
  intros Hget Hstr Hes. unfold should_gzip. rewrite Hget, Hstr.
  destruct (decide (es = [])) as [->|Hne]; [done|].
  destruct (split_printed es Hes Hne) as (ps & -> & Hps).
  rewrite (scan_printed es) by done. simpl.
  by rewrite recorded_weights, decide_gzip_weights.
Qed.

(** Whatever the headers are, [should_gzip] returns, and it answers
    [true] only if an [Accept-Encoding] header is present in which some
    element names gzip or ["*"] with a positive weight. *)
Theorem should_gzip_only_if_accepted (headers : HeaderMap) :
  ∃ b, should_gzip headers = Ret b ∧
  (b = true →
   ∃ v s p c q, hm_get headers ACCEPT_ENCODING = Some v ∧ to_str v = Some s ∧
     p ∈ split x2c s ∧ parse_coding p = Ret (Some (c, q)) ∧
     (c = bs "gzip" ∨ c = bs "*") ∧ 0 < q).
Proof.
  unfold should_gzip.
  destruct (hm_get headers ACCEPT_ENCODING) as [v|]; [|by exists false].
  destruct (to_str v) as [s|] eqn:Hs; [|by exists false].
  destruct (scan_codings_total (split x2c s) no_prefs) as [o Ho]. rewrite Ho. simpl.
  destruct o as [st|]; [|by exists false].
  eexists. split; [done|]. unfold decide_gzip. intros [Hpos _]%andb_prop.
  apply scan_codings_source in Ho as [Hg Hstar].
  rewrite Z.gtb_ltb in Hpos. zbool. unfold or_unwrap_or in Hpos.
  destruct (gzip_q st) as [q|].
  { destruct (Hg q eq_refl) as [?|(p & ? & ?)]; [done|].
    exists v, s, p, (bs "gzip"), q. by repeat split; [..|left|]. }
  destruct (star_q st) as [q|]; [|lia].
  destruct (Hstar q eq_refl) as [?|(p & ? & ?)]; [done|].
  exists v, s, p, (bs "*"), q. by repeat split; [..|right|].
Qed.
End properties.

Lemma should_gzip_preference_witness :
  let es := [(bs "identity", Some 500); (bs "gzip", None); (bs "*", Some 1)] in
  @should_gzip debug_build plain_http [(bs "accept-encoding", print_accept_encoding es)]
    = Ret (prefers_gzip es) ∧ prefers_gzip es = true ∧
  print_accept_encoding es = bs "identity;q=0.500, gzip, *;q=0.001".
Proof.
  split; [|split; reflexivity].
  apply (@should_gzip_preference debug_build plain_http _
           (print_accept_encoding [(bs "identity", Some 500); (bs "gzip", None); (bs "*", Some 1)])).
  - reflexivity.
  - reflexivity.
  - repeat constructor; simpl; lia.
Defined.
