(* ===== verification/AcceptGrammar.v ===== *)
(** * The language of the [Accept-Encoding] header (src/lib.rs)

    Which header values [should_gzip] understands, as a grammar, and that it
    decides by the preferences they state.  The grammar is that of RFC 7231
    section 5.3.4 with a lenient notion of a coding, any text between the
    separators and the whitespace around it, even none, and with the signed
    weights [parse_qvalue] lets through. *)

From S2P Require Import Prelude RustStd HttpApi Plain ContentCoding.

(** ** The grammar *)

Definition weight_text (q : bytes) (n : Z) : Prop := qvalue q n ∨ plus_qvalue q n.

(** [;] and [,] separate. *)
Inductive coding_element : bytes → entry → Prop :=
  | element_plain e c :
      x2c ∉ e → x3b ∉ e → padded e c → coding_element e (c, None)
  | element_weighted e c f q n :
      x2c ∉ e → x3b ∉ e → padded e c → padded f (bs "q=" ++ q) → weight_text q n →
      coding_element (e ++ x3b :: f) (c, Some n).

Definition accept_encoding (h : bytes) (es : list entry) : Prop :=
  ∃ parts, h = join x2c parts ∧ parts ≠ [] ∧ Forall2 coding_element parts es.

(** ** A reader for it *)

Section reader.
Context `{Build}.

Definition read_weight (q : bytes) : option Z :=
  match parse_qvalue q with Ret (Ok n) => Some n | _ => None end.

Definition read_coding (e : bytes) : option entry :=
  match split_once x3b e with
  | None => Some (trim e, None)
  | Some (c, f) =>
      q ← strip_prefix (bs "q=") (trim f);
      n ← read_weight q;
      Some (trim c, Some n)
  end.

Definition read_accept (h : bytes) : option (list entry) := mapM read_coding (split x2c h).

Lemma read_weight_iff q n : read_weight q = Some n ↔ weight_text q n.
Proof.
  unfold read_weight. split.
  - destruct (accepted_form q _ eq_refl) as [->|(m & -> & _ & Hm)]; [done|]. by intros [= <-].
  - intros [Hq|Hq]; [by rewrite (qvalue_accepted q n)|by rewrite (plus_qvalue_accepted q n)].
Qed.

(** A weight has no comma. *)
Lemma weight_no_comma q n : weight_text q n → x2c ∉ q.
Proof.
  assert (∀ ds, forallb is_digit ds = true → x2c ∉ ds) as Hd by (intros; by apply digits_not_elem).
  intros [[|ds Hds _| |ds Hds _]|[ds Hds _]]; try by_compute;
    rewrite elem_of_app; (intros [Hin|Hin]; [revert Hin; by_compute|]).
  - by apply (Hd ds).
  - rewrite Forall_forall in Hds. by apply Hds in Hin.
  - by apply (Hd ds).
Qed.

Lemma split_once_iff c s p q : split_once c s = Some (p, q) ↔ s = p ++ c :: q ∧ c ∉ p.
Proof.
  split; [|intros [-> Hp]; by apply split_once_app].
  destruct (find c s) as [i|] eqn:Hf.
  - apply find_Some in Hf as (p' & q' & -> & Hp' & _). rewrite split_once_app by done. by intros [= -> ->].
  - apply find_None in Hf. by rewrite split_once_None.
Qed.

Lemma read_coding_iff e x : x2c ∉ e → read_coding e = Some x ↔ coding_element e x.
Proof.
  intros He. unfold read_coding. split.
  - destruct (split_once x3b e) as [[c f]|] eqn:Hs.
    + apply split_once_iff in Hs as [-> Hc]. intros (q & Hq%strip_prefix_Some & (n & Hn & [= <-])%bind_Some)%bind_Some.
      apply (element_weighted c (trim c) f q n); [set_solver|done|by apply trim_iff|by apply trim_iff|by apply read_weight_iff].
    + intros [= <-]. constructor; [done| |by apply trim_iff].
      apply find_None. unfold split_once in Hs. by destruct (find x3b e).
  - intros [e' c Hc Hs Hp|e' c f q n Hc Hs Hp Hf Hn].
    + rewrite split_once_None by done. by apply trim_iff in Hp as ->.
    + rewrite split_once_app by done. apply trim_iff in Hp as ->. apply trim_iff in Hf as ->.
      rewrite strip_prefix_app. cbn [mbind option_bind]. by apply read_weight_iff in Hn as ->.
Qed.

Lemma coding_element_no_comma e x : coding_element e x → x2c ∉ e.
Proof.
  intros [e' c Hc _ _|e' c f q n Hc _ _ (w1 & w2 & -> & Hw1 & Hw2 & _) Hn]; [done|].
  assert (∀ w, Forall (λ y, is_whitespace y = true) w → x2c ∉ w) as Hw.
  { intros w Hall Hin. rewrite Forall_forall in Hall. by apply Hall in Hin. }
  apply weight_no_comma in Hn. apply Hw in Hw1. apply Hw in Hw2.
  assert (x2c ∉ bs "q=") by by_compute. set_solver.
Qed.

Lemma read_accept_iff h es : read_accept h = Some es ↔ accept_encoding h es.
Proof.
  unfold read_accept. split.
  - intros Hm. exists (split x2c h). split; [by rewrite join_split|]. split; [apply split_nonempty|].
    pose proof (split_all_no_sep x2c h) as Hno. apply mapM_Some in Hm. revert Hno.
    induction Hm as [|e x parts es He _ IH]; intros Hno; constructor; apply Forall_cons in Hno as [Hc Hno].
    + by apply read_coding_iff.
    + by apply IH.
  - intros (parts & -> & Hne & Hps). rewrite split_join; [|done|].
    + apply mapM_Some. eapply Forall2_impl; [exact Hps|]. intros e x He.
      apply read_coding_iff; [by eapply coding_element_no_comma|done].
    + clear Hne. induction Hps as [|e x parts es He _ IH]; constructor; [|done].
      by eapply coding_element_no_comma.
Qed.

Lemma accept_encoding_functional h es es' : accept_encoding h es → accept_encoding h es' → es = es'.
Proof. intros H1%read_accept_iff H2%read_accept_iff. congruence. Qed.

(** ** [should_gzip] against the reader *)

Lemma parse_coding_read e :
  parse_coding e = Ret ((λ x : entry, (x.1, default 1000 x.2)) <$> read_coding e).
Proof.
  unfold parse_coding, read_coding. destruct (split_once x3b e) as [[c f]|]; [|done].
  destruct (strip_prefix (bs "q=") (trim f)) as [q|]; [|done]. cbn [mbind option_bind]. unfold read_weight.
  by destruct (accepted_form q _ eq_refl) as [->|(n & -> & _)].
Qed.

Lemma scan_codings_read parts st :
  scan_codings parts st = Ret ((λ es, foldl record_entry st es) <$> mapM read_coding parts).
Proof.
  revert st. induction parts as [|e parts IH]; intros st; [done|].
  cbn [scan_codings mapM]. rewrite parse_coding_read, bind_Ret_l.
  destruct (read_coding e) as [[c w]|]; [|done]. cbn [fmap option_fmap option_map fst snd mbind option_bind].
  rewrite IH. by destruct (mapM read_coding parts).
Qed.
End reader.

Section properties.
Context `{Build, HttpLaws}.

(** C27: [should_gzip] is the decision on the language of [Accept-Encoding]: it
    never panics; a header of the grammar is decided by the preferences its
    entries state (gzip's last weight, else that of ["*"], else 0, must be
    positive and at least that of the identity coding, else that of ["*"], else
    the least positive weight); without a header, or with one that is not of
    the grammar or not of visible characters, the answer is no. *)
Theorem should_gzip_grammar (headers : HeaderMap) :
  match hm_get headers ACCEPT_ENCODING with
  | None => should_gzip headers = Ret false
  | Some v =>
      (forallb visible_ascii (as_bytes v) = false → should_gzip headers = Ret false) ∧
      (∀ es, forallb visible_ascii (as_bytes v) = true → accept_encoding (as_bytes v) es →
         should_gzip headers = Ret (prefers_gzip es)) ∧
      ((∀ es, ¬ accept_encoding (as_bytes v) es) → should_gzip headers = Ret false)
  end.
Proof.
  unfold should_gzip. destruct (hm_get headers ACCEPT_ENCODING) as [v|]; [|done].
  rewrite to_str_spec. destruct (forallb visible_ascii (as_bytes v)); [|done].
  rewrite scan_codings_read, bind_Ret_l. fold (read_accept (as_bytes v)). split; [done|]. split.
  - intros es _ Hes. apply read_accept_iff in Hes as ->. simpl.
    by rewrite recorded_weights, decide_gzip_weights.
  - intros Hno. destruct (read_accept (as_bytes v)) as [es|] eqn:Hr; [|done].
    apply read_accept_iff in Hr. by apply Hno in Hr.
Qed.
End properties.

(** ** Concrete headers *)

#[local] Existing Instances debug_build plain_http plain_http_laws.

Definition accept_header (s : string) : @HeaderMap plain_http := [(bs "accept-encoding", bs s)].

Lemma should_gzip_grammar_witness :
  should_gzip (accept_header " identity ; q=0.5,, gzip") = Ret true ∧
  should_gzip (accept_header "gzip;level=9") = Ret false.
Proof.
  split.
  - destruct (should_gzip_grammar (accept_header " identity ; q=0.5,, gzip")) as (_ & Hyes & _).
    rewrite (Hyes [(bs "identity", Some 500); ([], None); (bs "gzip", None)]);
      [reflexivity|reflexivity|by apply (read_accept_iff)].
  - destruct (should_gzip_grammar (accept_header "gzip;level=9")) as (_ & _ & Hno).
    apply Hno. intros es Hes%read_accept_iff. discriminate Hes.
Defined.
