(* ===== verification/Range.v ===== *)
(** * The [Range] header (src/range.rs)

    [parse] resolves a byte-range-set against the length of the entity. *)

From S2P Require Import Prelude RustStd HttpApi Plain.

(** [std::ops::Range<u64>]: start inclusive, end exclusive. *)
Record range := mk_range { start : Z; end_ : Z }.

#[export] Instance range_eq_decision : EqDecision range.
Proof. solve_decision. Defined.

Inductive ResolvedRanges :=
  | RNone
  | NotSatisfiable
  | Satisfiable (ranges : list range).

#[export] Instance ResolvedRanges_eq_decision : EqDecision ResolvedRanges.
Proof. solve_decision. Defined.

(** A byte-range-spec or suffix-byte-range-spec, as data. *)
Inductive range_spec :=
  | BytesFromTo (first last : Z)
  | BytesFrom (first : Z)
  | BytesSuffix (length : Z).

Section parse.
Context `{Build, Http}.

(** What one element of the set does to the loop of [parse]. *)
Inductive spec_result :=
  | Unparseable
  | Skip
  | Push (r : range).

(** The body of the loop: [r] is the element. *)
Definition parse_spec (r : bytes) (len : Z) : outcome spec_result :=
  let r := trim_start_matches is_ows r in
  match find x2d r with
  | None => Ret Unparseable
  | Some hyphen =>
      if decide (hyphen = O) then
        match u64_from_str (drop 1 r) with
        | None => Ret Unparseable
        | Some last =>
            if last >=? len then Ret Skip
            else
              first ← u64_sub len last;
              Ret (Push (mk_range first len))
        end
      else
        match u64_from_str (take hyphen r) with
        | None => Ret Unparseable
        | Some first =>
            end_ ← (if decide (hyphen + 1 < length r)%nat then
                      match u64_from_str (drop (hyphen + 1) r) with
                      | None => Ret None
                      | Some l => l1 ← u64_add l 1; Ret (Some (Z.min l1 len))
                      end
                    else Ret (Some len));
            match end_ with
            | None => Ret Unparseable
            | Some end_ =>
                if first >=? end_ then Ret Skip
                else Ret (Push (mk_range first end_))
            end
        end
  end.

(** The loop; [None] is the early [return ResolvedRanges::None]. *)
Fixpoint parse_specs (rs : list bytes) (len : Z) (ranges : list range)
    : outcome (option (list range)) :=
  match rs with
  | [] => Ret (Some ranges)
  | r :: rs' =>
      s ← parse_spec r len;
      match s with
      | Unparseable => Ret None
      | Skip => parse_specs rs' len ranges
      | Push x => parse_specs rs' len (ranges ++ [x])
      end
  end.

Definition parse (range : option HeaderValue) (len : Z) : outcome ResolvedRanges :=
  match (match range with Some v => to_str v | None => None end) with
  | None => Ret RNone
  | Some range =>
      match strip_prefix (bs "bytes=") range with
      | None => Ret RNone
      | Some bytes =>
          o ← parse_specs (split x2c bytes) len [];
          Ret (match o with
               | None => RNone
               | Some [] => NotSatisfiable
               | Some ranges => Satisfiable ranges
               end)
      end
  end.

(** ** Specification *)

(** How an element is written in the header. *)
Definition print_spec (s : range_spec) : bytes :=
  match s with
  | BytesFromTo first last => fmt_dec first ++ x2d :: fmt_dec last
  | BytesFrom first => fmt_dec first ++ [x2d]
  | BytesSuffix n => x2d :: fmt_dec n
  end.

(** The elements of a set, each after some optional whitespace. *)
Definition print_range_set (ss : list (bytes * range_spec)) : bytes :=
  bs "bytes=" ++ join x2c ((λ ws : bytes * range_spec, ws.1 ++ print_spec ws.2) <$> ss).

(** The bytes an element selects of an entity of length [n]: [None] when it
    selects none it can serve. *)
Definition resolve (n : Z) (s : range_spec) : option range :=
  match s with
  | BytesFromTo first last => if first <? Z.min (last + 1) n then Some (mk_range first (Z.min (last + 1) n)) else None
  | BytesFrom first => if first <? n then Some (mk_range first n) else None
  | BytesSuffix k => if k <? n then Some (mk_range (n - k) n) else None
  end.

Definition resolve_all (n : Z) (ss : list range_spec) : ResolvedRanges :=
  match omap (resolve n) ss with
  | [] => NotSatisfiable
  | rs => Satisfiable rs
  end.

(** The numbers of an element are [u64]s. *)
Definition spec_u64 (s : range_spec) : Prop :=
  match s with
  | BytesFromTo first last => 0 <= first <= U64_MAX ∧ 0 <= last <= U64_MAX
  | BytesFrom first => 0 <= first <= U64_MAX
  | BytesSuffix n => 0 <= n <= U64_MAX
  end.

(** The last position can be incremented. *)
Definition spec_increments (s : range_spec) : Prop :=
  match s with BytesFromTo _ last => last < U64_MAX | _ => True end.

(** A range [parse] may return for an entity of length [n].  [start = end_] only
    happens at the end of the entity. *)
Definition range_within (n : Z) (r : range) : Prop :=
  0 <= start r <= end_ r ∧ end_ r <= n ∧ (start r = end_ r → 0 < n ∧ start r = n).

(** ** One element *)

Lemma parse_spec_within r n s :
  0 <= n <= U64_MAX → parse_spec r n = Ret s →
  match s with Push x => range_within n x | _ => True end.
Proof.
  intros Hn. unfold parse_spec.
  set (r' := trim_start_matches is_ows r). generalize r'. clear r r'. intros r.
  destruct (find x2d r) as [h|]; [|by intros [= <-]].
  destruct (decide (h = O)).
  - destruct (u64_from_str (drop 1 r)) as [k|] eqn:Hk; [|by intros [= <-]].
    apply from_str_range in Hk; [|done].
    destruct (k >=? n) eqn:Hkn; [by intros [= <-]|]. rewrite Z.geb_leb in Hkn. zbool.
    rewrite u64_sub_ok by lia. simpl. intros [= <-]. unfold range_within. simpl. lia.
  - destruct (u64_from_str (take h r)) as [f|] eqn:Hf; [|by intros [= <-]].
    apply from_str_range in Hf; [|done].
    intros Hb. outcome_inv. destruct a as [e|]; [|by injection Hb as <-].
    assert (0 <= e <= n) as He.
    { case_decide.
      - destruct (u64_from_str (drop (h + 1) r)) as [l|] eqn:Hl; [|done].
        apply from_str_range in Hl; [|done].
        apply bind_Ret_inv in Hm as (l1 & Hadd & [= <-]).
        pose proof (u64_add_range _ _ _ Hadd). lia.
      - injection Hm as <-. lia. }
    destruct (f >=? e) eqn:Hfe; [by injection Hb as <-|]. rewrite Z.geb_leb in Hfe. zbool.
    injection Hb as <-. unfold range_within. simpl. lia.
Qed.

Lemma u64_fmt n : 0 <= n <= U64_MAX → u64_from_str (fmt_dec n) = Some n.
Proof.
  intros Hn. unfold u64_from_str. rewrite from_str_fmt_dec by lia.
  by rewrite (proj2 (Z.leb_le _ _)) by lia.
Qed.

Lemma fmt_dec_no_sep n c : 0 <= n → is_digit c = false → c ∉ fmt_dec n.
Proof. intros. by apply digits_not_elem; [apply fmt_dec_digits|]. Qed.

Lemma trim_ows_print w s :
  forallb is_ows w = true → spec_u64 s →
  trim_start_matches is_ows (w ++ print_spec s) = print_spec s.
Proof.
  intros Hw Hs. rewrite trim_start_app by (by apply Forall_forall; intros x Hx;
    rewrite forallb_forall in Hw; apply Hw, list_elem_of_In).
  assert (∀ n t, 0 <= n → trim_start_matches is_ows (fmt_dec n ++ t) = fmt_dec n ++ t)
    as Hdigits.
  { intros n t Hn. apply trim_start_no.
    pose proof (fmt_dec_nonempty n Hn). pose proof (fmt_dec_digits n Hn) as Hd.
    destruct (fmt_dec n) as [|x ds]; [done|]. simpl in Hd. zbool. simpl.
    unfold is_ows. apply bool_decide_eq_false. intros Hin.
    repeat (apply elem_of_cons in Hin as [->|Hin]; [done|]). by apply elem_of_nil in Hin. }
  destruct s as [f l|f|k]; simpl in *; [apply Hdigits; lia..|done].
Qed.

Lemma parse_spec_FromTo w f l n :
  forallb is_ows w = true → spec_u64 (BytesFromTo f l) →
  parse_spec (w ++ print_spec (BytesFromTo f l)) n =
    (l1 ← u64_add l 1;
     if f >=? Z.min l1 n then Ret Skip else Ret (Push (mk_range f (Z.min l1 n)))).
Proof.
  intros Hw Hs. unfold parse_spec. rewrite trim_ows_print by done.
  destruct Hs as [Hf Hl]. simpl. rewrite find_app by (apply fmt_dec_no_sep; done || lia).
  pose proof (fmt_dec_nonempty f ltac:(lia)) as Hne.
  pose proof (fmt_dec_nonempty l ltac:(lia)) as Hnl.
  rewrite decide_False by (by destruct (fmt_dec f)).
  rewrite take_app_length, u64_fmt by done.
  rewrite decide_True by (rewrite length_app; simpl; destruct (fmt_dec l); [done|simpl; lia]).
  rewrite drop_app_add. simpl. rewrite drop_0, u64_fmt by done.
  rewrite bind_assoc. by destruct (u64_add l 1).
Qed.

Lemma parse_spec_print w s n :
  forallb is_ows w = true → spec_u64 s → spec_increments s → 0 <= n <= U64_MAX →
  parse_spec (w ++ print_spec s) n =
    Ret (match resolve n s with Some r => Push r | None => Skip end).
Proof.
  intros Hw Hs Hi Hn. destruct s as [f l|f|k].
  - rewrite parse_spec_FromTo by done. simpl in *.
    rewrite u64_add_ok by lia. simpl. rewrite Z.geb_leb.
    destruct (Z.leb_spec (Z.min (l + 1) n) f), (Z.ltb_spec f (Z.min (l + 1) n));
      done || lia.
  - unfold parse_spec. rewrite trim_ows_print by done. simpl in *.
    rewrite find_app by (apply fmt_dec_no_sep; done || lia).
    pose proof (fmt_dec_nonempty f ltac:(lia)).
    rewrite decide_False by (by destruct (fmt_dec f)).
    rewrite take_app_length, u64_fmt by done.
    rewrite decide_False by (rewrite length_app; simpl; lia). simpl. rewrite Z.geb_leb.
    destruct (Z.leb_spec n f), (Z.ltb_spec f n); done || lia.
  - unfold parse_spec. rewrite trim_ows_print by done. simpl in *.
    rewrite drop_0, u64_fmt by done. rewrite Z.geb_leb.
    destruct (Z.leb_spec n k), (Z.ltb_spec k n); try lia; [done|].
    by rewrite u64_sub_ok by lia.
Qed.

(** ** The loop *)

Lemma parse_specs_print wss n acc :
  Forall (λ ws : bytes * range_spec,
            forallb is_ows ws.1 = true ∧ spec_u64 ws.2 ∧ spec_increments ws.2) wss →
  0 <= n <= U64_MAX →
  parse_specs ((λ ws : bytes * range_spec, ws.1 ++ print_spec ws.2) <$> wss) n acc =
    Ret (Some (acc ++ omap (resolve n) (wss.*2))).
Proof.
  intros Hall Hn. revert acc. induction Hall as [|[w s] wss (Hw & Hs & Hi) _ IH]; intros acc.
  { by rewrite app_nil_r. }
  csimpl. rewrite parse_spec_print by done. simpl.
  destruct (resolve n s); rewrite IH; [by rewrite <- app_assoc | done].
Qed.

Lemma parse_specs_within rs n acc out :
  0 <= n <= U64_MAX → Forall (range_within n) acc →
  parse_specs rs n acc = Ret (Some out) →
  Forall (range_within n) out ∧ (length out <= length acc + length rs)%nat.
Proof.
  intros Hn. revert acc. induction rs as [|r rs IH]; intros acc Hacc; simpl.
  { intros [= <-]. split; [done|lia]. }
  intros Hp. apply bind_Ret_inv in Hp as (s & Hs & Hp).
  apply (parse_spec_within _ _ _ Hn) in Hs. destruct s as [| |x]; [done|..].
  - apply IH in Hp as [? ?]; [|done]. split; [done|lia].
  - apply IH in Hp as [? Hl]; [|by apply Forall_app; split; [|constructor]].
    rewrite length_app in Hl. simpl in Hl. split; [done|lia].
Qed.

(** ** Where [parse] can panic *)

Lemma parse_spec_panic r n w :
  0 <= n <= U64_MAX → parse_spec r n = Panic w →
  overflow_checks = true ∧ w = ArithmeticOverflow ∧
  ∃ p q, trim_start_matches is_ows r = p ++ x2d :: q ∧ u64_from_str q = Some U64_MAX.
Proof.
  intros Hn. unfold parse_spec. set (r' := trim_start_matches is_ows r). generalize r'.
  clear r r'. intros r. destruct (find x2d r) as [h|] eqn:Hfind; [|done].
  destruct (decide (h = O)).
  - destruct (u64_from_str (drop 1 r)) as [k|] eqn:Hk; [|done].
    apply from_str_range in Hk; [|done].
    destruct (k >=? n) eqn:Hkn; [done|]. rewrite Z.geb_leb in Hkn. zbool.
    by rewrite u64_sub_ok by lia.
  - destruct (u64_from_str (take h r)) as [f|]; [|done].
    intros Hp. apply bind_Panic_inv in Hp as [Hp|([e|] & _ & Hp)]; [|by case_hyp Hp|done].
    case_decide; [|done].
    destruct (u64_from_str (drop (h + 1) r)) as [l|] eqn:Hl; [|done].
    apply bind_Panic_inv in Hp as [Hp|(? & _ & ?)]; [|done].
    pose proof Hl as Hrange. apply from_str_range in Hrange; [|done].
    apply u64_add_panic in Hp as (Hc & -> & Hover); [|lia|lia].
    split; [done|]. split; [done|].
    apply find_Some in Hfind as (p & q & -> & _ & ->).
    exists p, q. split; [done|]. rewrite drop_app_add in Hl. simpl in Hl.
    rewrite drop_0 in Hl. rewrite Hl. f_equal. lia.
Qed.

(** ** Whole headers *)

Lemma print_spec_no_comma w s :
  forallb is_ows w = true → spec_u64 s → x2c ∉ w ++ print_spec s.
Proof.
  intros Hw Hs. rewrite elem_of_app. intros [Hin|Hin].
  - rewrite forallb_forall in Hw. apply list_elem_of_In, Hw in Hin. done.
  - assert (∀ k, 0 <= k → x2c ∉ fmt_dec k) as Hfmt by (intros; by apply fmt_dec_no_sep).
    destruct s as [f l|f|k]; simpl in *;
      rewrite ?elem_of_app, ?elem_of_cons, ?elem_of_nil in Hin.
    + pose proof (Hfmt f ltac:(lia)). pose proof (Hfmt l ltac:(lia)). naive_solver.
    + pose proof (Hfmt f ltac:(lia)). naive_solver.
    + pose proof (Hfmt k ltac:(lia)). naive_solver.
Qed.

Lemma split_range_set wss :
  wss ≠ [] →
  Forall (λ ws : bytes * range_spec, forallb is_ows ws.1 = true ∧ spec_u64 ws.2) wss →
  split x2c (join x2c ((λ ws : bytes * range_spec, ws.1 ++ print_spec ws.2) <$> wss)) =
    (λ ws : bytes * range_spec, ws.1 ++ print_spec ws.2) <$> wss.
Proof.
  intros Hne Hall. apply split_join; [by destruct wss|].
  apply Forall_fmap. eapply Forall_impl; [done|]. intros [w s] [Hw Hs].
  by apply print_spec_no_comma.
Qed.

(** The header's elements, if it is a byte range set at all. *)
Definition range_elements (h : option HeaderValue) : option (list bytes) :=
  v ← h; s ← to_str v; set ← strip_prefix (bs "bytes=") s; Some (split x2c set).

Lemma parse_elements h n :
  parse h n =
    match range_elements h with
    | None => Ret RNone
    | Some rs =>
        o ← parse_specs rs n [];
        Ret (match o with
             | None => RNone
             | Some [] => NotSatisfiable
             | Some ranges => Satisfiable ranges
             end)
    end.
Proof.
  unfold parse, range_elements. destruct h as [v|]; simpl; [|done].
  destruct (to_str v) as [s|]; simpl; [|done].
  by destruct (strip_prefix (bs "bytes=") s).
Qed.

Lemma parse_specs_panic rs n acc w :
  0 <= n <= U64_MAX → parse_specs rs n acc = Panic w →
  ∃ r, r ∈ rs ∧ parse_spec r n = Panic w.
Proof.
  intros Hn. revert acc. induction rs as [|r rs IH]; intros acc; simpl; [done|].
  intros Hp. apply bind_Panic_inv in Hp as [Hp|(s & _ & Hp)].
  - exists r. by split; [left|].
  - destruct s; [done|..]; apply IH in Hp as (r' & ? & ?); exists r'; by split; [right|].
Qed.
(** What a satisfiable answer says of its ranges. *)
Lemma parse_satisfiable (h : option HeaderValue) (n : Z) (rs : list range) :
  0 <= n <= U64_MAX → parse h n = Ret (Satisfiable rs) →
  rs ≠ [] ∧ Forall (range_within n) rs ∧
  ∃ es, range_elements h = Some es ∧ (length rs <= length es)%nat.
Proof.
  intros Hn. rewrite parse_elements. destruct (range_elements h) as [es|]; [|done].
  intros Hp. apply bind_Ret_inv in Hp as (o & Ho & Hp).
  destruct o as [[|x out]|]; [done| |done]. injection Hp as <-.
  apply parse_specs_within in Ho as [Hw Hl]; [|done|constructor].
  split; [done|]. split; [done|]. by exists es.
Qed.

Lemma range_elements_length `{!HttpLaws} v es :
  range_elements (Some v) = Some es → (length es <= length (as_bytes v))%nat.
Proof.
  unfold range_elements. simpl. intros Hes.
  apply bind_Some in Hes as (s & Hs & Hes). apply bind_Some in Hes as (set & Hset & [= <-]).
  apply to_str_Some in Hs as [-> _]. apply strip_prefix_Some in Hset as ->.
  rewrite length_app. pose proof (length_split x2c set). simpl. lia.
Qed.

(** When [parse] can panic. *)
Lemma parse_panic (h : option HeaderValue) (n : Z) :
  0 <= n <= U64_MAX →
  (∃ r, parse h n = Ret r) ∨
  (parse h n = Panic ArithmeticOverflow ∧ overflow_checks = true ∧
   ∃ es e p q, range_elements h = Some es ∧ e ∈ es ∧
     trim_start_matches is_ows e = p ++ x2d :: q ∧ u64_from_str q = Some U64_MAX).
Proof.
  intros Hn. rewrite parse_elements. destruct (range_elements h) as [es|]; [|by left; eauto].
  destruct (parse_specs es n []) as [o|w] eqn:Ho; [by left; eauto|]. right.
  apply parse_specs_panic in Ho as (e & He & Hp); [|done].
  apply parse_spec_panic in Hp as (Hc & -> & p & q & Hpq & Hq); [|done].
  split; [done|]. split; [done|]. by exists es, e, p, q.
Qed.

(** [parse] of a printed set. *)
Lemma parse_printed (v : HeaderValue) (wss : list (bytes * range_spec)) (n : Z) :
  to_str v = Some (print_range_set wss) → wss ≠ [] →
  Forall (λ ws : bytes * range_spec,
            forallb is_ows ws.1 = true ∧ spec_u64 ws.2 ∧ spec_increments ws.2) wss →
  0 <= n <= U64_MAX →
  parse (Some v) n = Ret (resolve_all n (wss.*2)).
Proof.
  intros Hv Hne Hall Hn. unfold parse. rewrite Hv. unfold print_range_set.
  rewrite strip_prefix_app, split_range_set; [|done|].
  - rewrite parse_specs_print by done. simpl. unfold resolve_all.
    by destruct (omap (resolve n) (wss.*2)).
  - eapply Forall_impl; [done|]. naive_solver.
Qed.
End parse.

Section properties.
Context `{Build, Http}.

(** A printed byte-range-set, with any optional whitespace before its
    elements, resolves element by element to the satisfiable ranges in order,
    or is unsatisfiable if there are none; every last position below
    [u64::MAX]. *)
Theorem parse_resolves (v : HeaderValue) (wss : list (bytes * range_spec)) (n : Z) :
  to_str v = Some (print_range_set wss) → wss ≠ [] →
  Forall (λ ws : bytes * range_spec,
            forallb is_ows ws.1 = true ∧ spec_u64 ws.2 ∧ spec_increments ws.2) wss →
  0 <= n <= U64_MAX →
  parse (Some v) n = Ret (resolve_all n (wss.*2)).
Proof. apply parse_printed. Qed.

(** Whatever the header says, the ranges returned lie within the entity
    with their start at most their end, are at most as many as the header has
    elements, and can be empty only at the very end of a non-empty entity. *)
Theorem parse_within (h : option HeaderValue) (n : Z) (rs : list range) :
  0 <= n <= U64_MAX → parse h n = Ret (Satisfiable rs) →
  rs ≠ [] ∧ Forall (range_within n) rs ∧
  ∃ es, range_elements h = Some es ∧ (length rs <= length es)%nat.
Proof. apply parse_satisfiable. Qed.

(** [parse] can only panic under overflow checks, on incrementing a last
    position equal to [u64::MAX]; otherwise it returns. *)
Theorem parse_panics_only_on_max (h : option HeaderValue) (n : Z) :
  0 <= n <= U64_MAX →
  (∃ r, parse h n = Ret r) ∨
  (parse h n = Panic ArithmeticOverflow ∧ overflow_checks = true ∧
   ∃ es e p q, range_elements h = Some es ∧ e ∈ es ∧
     trim_start_matches is_ows e = p ++ x2d :: q ∧ u64_from_str q = Some U64_MAX).
Proof. apply parse_panic. Qed.

(** A satisfiable range whose last position is [u64::MAX] is not resolved
    to the rest of the entity: its increment overflows, which panics under
    overflow checks and otherwise wraps to 0, so that the range is dropped. *)
Theorem parse_last_max (v : HeaderValue) (first n : Z) :
  to_str v = Some (bs "bytes=" ++ print_spec (BytesFromTo first U64_MAX)) →
  0 <= first < n → n <= U64_MAX →
  resolve n (BytesFromTo first U64_MAX) = Some (mk_range first n) ∧
  parse (Some v) n =
    if overflow_checks then Panic ArithmeticOverflow else Ret NotSatisfiable.
Proof.
  intros Hv Hf Hn. split.
  { simpl. rewrite Z.min_r by lia. by rewrite (proj2 (Z.ltb_lt _ _)) by lia. }
  assert (spec_u64 (BytesFromTo first U64_MAX)) as Hs by (simpl; lia).
  unfold parse. rewrite Hv, strip_prefix_app.
  rewrite split_no_sep by (by apply (print_spec_no_comma [] (BytesFromTo first U64_MAX))). cbn [parse_specs].
  rewrite (parse_spec_FromTo [] first U64_MAX n) by done.
  destruct overflow_checks eqn:Hc.
  - unfold u64_add. by rewrite arith_checked by (done || lia).
  - unfold u64_add. rewrite arith_wrapping by done. simpl.
    rewrite Z.mod_same by done. rewrite Z.min_l by lia. by rewrite Z.geb_leb, (proj2 (Z.leb_le _ _)) by lia.
Qed.

(** A suffix range of [k] bytes selects the last [k] bytes of a longer
    entity, and nothing of one of at most [k] bytes; a suffix of 0 bytes
    selects the empty range at the end of a non-empty entity. *)
Theorem parse_suffix (v : HeaderValue) (k n : Z) :
  to_str v = Some (bs "bytes=" ++ print_spec (BytesSuffix k)) →
  0 <= k <= U64_MAX → 0 <= n <= U64_MAX →
  parse (Some v) n =
    Ret (if k <? n then Satisfiable [mk_range (n - k) n] else NotSatisfiable).
Proof.
  intros Hv Hk Hn. unfold parse. rewrite Hv, strip_prefix_app.
  rewrite split_no_sep by (by apply (print_spec_no_comma [] (BytesSuffix k))). cbn [parse_specs].
  rewrite (parse_spec_print [] (BytesSuffix k) n) by done. simpl. by destruct (k <? n).
Qed.
End properties.

Definition parse_resolves_example : list (bytes * range_spec) :=
  [([], BytesFromTo 500 600); ([x20; x09], BytesFrom 9500); ([], BytesSuffix 1);
   ([x20], BytesFrom 10000)].

Lemma parse_resolves_witness :
  @parse debug_build plain_http (Some (print_range_set parse_resolves_example)) 10000 =
    Ret (Satisfiable [mk_range 500 601; mk_range 9500 10000; mk_range 9999 10000]).
Proof.
  etrans; [apply (@parse_resolves debug_build plain_http
                    (print_range_set parse_resolves_example) parse_resolves_example 10000)|].
  - reflexivity.
  - discriminate.
  - repeat constructor; unfold U64_MAX; simpl; lia.
  - unfold U64_MAX; lia.
  - reflexivity.
Defined.

Lemma parse_within_witness :
  Forall (range_within 100) [mk_range 10 20; mk_range 100 100].
Proof.
  apply (@parse_within debug_build plain_http (Some (bs "bytes=10-19,-0")) 100);
    [unfold U64_MAX; lia | vm_compute; reflexivity].
Defined.

Lemma parse_panics_only_on_max_witness :
  @parse debug_build plain_http (Some (bs "bytes=7-18446744073709551615")) 100
    = Panic ArithmeticOverflow ∧ @overflow_checks debug_build = true.
Proof.
  destruct (@parse_panics_only_on_max debug_build plain_http
              (Some (bs "bytes=7-18446744073709551615")) 100) as [[r Hr]|(Hp & Hc & _)].
  - unfold U64_MAX; lia.
  - vm_compute in Hr. discriminate.
  - by split.
Defined.

Lemma parse_last_max_witness :
  @parse release_build plain_http (Some (bs "bytes=7-18446744073709551615")) 100
    = Ret NotSatisfiable.
Proof.
  apply (@parse_last_max release_build plain_http
           (bs "bytes=7-18446744073709551615") 7 100);
    [vm_compute; reflexivity | lia | unfold U64_MAX; lia].
Defined.

Lemma parse_suffix_witness :
  @parse debug_build plain_http (Some (bs "bytes=-500")) 100 = Ret NotSatisfiable.
Proof.
  apply (@parse_suffix debug_build plain_http (bs "bytes=-500") 500 100);
    [vm_compute; reflexivity | unfold U64_MAX; lia | unfold U64_MAX; lia].
Defined.
