(* ===== verification/RangeGrammar.v ===== *)
(** * The language of the [Range] header (src/range.rs)

    Which header values [parse] takes for a set of byte ranges, as a grammar,
    and what it makes of them.  The grammar is that of RFC 7233 section 2.1 but
    for two things: a number may have a leading [+], as [u64::from_str] allows
    one, and the last position of a range may be below the first. *)

From S2P Require Import Prelude RustStd HttpApi Plain Range.

(** ** The grammar *)

Inductive number : bytes → Z → Prop :=
  | number_digits ds :
      ds ≠ [] → forallb is_digit ds = true → dec_val 0 ds <= U64_MAX → number ds (dec_val 0 ds)
  | number_plus ds :
      ds ≠ [] → forallb is_digit ds = true → dec_val 0 ds <= U64_MAX →
      number (x2b :: ds) (dec_val 0 ds).

Inductive byte_range : bytes → range_spec → Prop :=
  | range_from_to f l first last :
      number f first → number l last → byte_range (f ++ x2d :: l) (BytesFromTo first last)
  | range_from f first : number f first → byte_range (f ++ [x2d]) (BytesFrom first)
  | range_suffix k n : number k n → byte_range (x2d :: k) (BytesSuffix n).

(** An element, after optional whitespace. *)
Definition range_element (e : bytes) (s : range_spec) : Prop :=
  ∃ w r, e = w ++ r ∧ forallb is_ows w = true ∧ byte_range r s.

Definition byte_range_set (h : bytes) (ss : list range_spec) : Prop :=
  ∃ es, h = bs "bytes=" ++ join x2c es ∧ es ≠ [] ∧ Forall2 range_element es ss.

(** ** A reader for it *)

#[local] Arguments u64_from_str : simpl never.

Definition read_range (r : bytes) : option range_spec :=
  match find x2d r with
  | None => None
  | Some O => BytesSuffix <$> u64_from_str (drop 1 r)
  | Some (S h) =>
      first ← u64_from_str (take (S h) r);
      match drop (S h + 1) r with
      | [] => Some (BytesFrom first)
      | l => BytesFromTo first <$> u64_from_str l
      end
  end.

Definition read_element (e : bytes) : option range_spec := read_range (trim_start_matches is_ows e).

Definition read_set (h : bytes) : option (list range_spec) :=
  set ← strip_prefix (bs "bytes=") h; mapM read_element (split x2c set).

Lemma number_iff s n : u64_from_str s = Some n ↔ number s n.
Proof.
  split.
  - intros Hs. pose proof (from_str_range U64_MAX s n ltac:(done) Hs) as Hr.
    destruct (from_str_Some_inv U64_MAX s n ltac:(done) Hs) as (ds & [->| ->] & Hne & Hd & ->);
      constructor; done || lia.
  - intros [ds Hne Hd Hmax|ds Hne Hd Hmax].
    + unfold u64_from_str. rewrite from_str_digits by done. by rewrite (proj2 (Z.leb_le _ _)).
    + unfold u64_from_str, from_str. rewrite decide_True by done. destruct ds as [|x ds]; [done|].
      rewrite parse_digits_spec by done. by rewrite Hd, (proj2 (Z.leb_le _ _)).
Qed.

Lemma number_range s n : number s n → 0 <= n <= U64_MAX.
Proof. intros Hn%number_iff. by apply from_str_range in Hn. Qed.

Lemma number_no_sep s n c : number s n → is_digit c = false → c ≠ x2b → c ∉ s.
Proof.
  intros [ds _ Hd _|ds _ Hd _] Hc Hp; [by apply digits_not_elem|].
  intros [?|Hin]%elem_of_cons; [done|]. revert Hin. by apply digits_not_elem.
Qed.

Lemma number_cons s n : number s n → ∃ x r, s = x :: r ∧ is_ows x = false ∧ x ≠ x2d.
Proof.
  intros Hn. assert (x2d ∉ s ∧ x20 ∉ s ∧ x09 ∉ s) as (H1 & H2 & H3)
    by (split_and!; by apply (number_no_sep s n)).
  destruct s as [|x s]; [by inversion Hn|]. rewrite !not_elem_of_cons in *. exists x, s.
  split; [done|]. split; [|naive_solver]. unfold is_ows. apply bool_decide_eq_false. set_solver.
Qed.

Lemma read_range_iff r s : read_range r = Some s ↔ byte_range r s.
Proof.
  unfold read_range. split.
  - destruct (find x2d r) as [h|] eqn:Hf; [|done].
    apply find_Some in Hf as (p & q & -> & _ & ->). destruct p as [|x p]; cbn [length].
    + change (drop 1 ([] ++ x2d :: q)) with (drop 0 q). rewrite drop_0. destruct (u64_from_str q) as [k|] eqn:Hk; [|done]. intros [= <-].
      constructor. by apply number_iff.
    + change (S (length p)) with (length (x :: p)). rewrite take_app_length, drop_app_add.
      change (drop 1 (x2d :: q)) with (drop 0 q). rewrite drop_0.
      destruct (u64_from_str (x :: p)) as [f|] eqn:Hp; [|done]. simpl. apply number_iff in Hp.
      destruct q as [|y q]; [intros [= <-]; exact (range_from _ _ Hp)|].
      change (BytesFromTo f <$> u64_from_str (y :: q) = Some s → byte_range ((x :: p) ++ x2d :: y :: q) s).
      destruct (u64_from_str (y :: q)) as [l|] eqn:Hl; [|done]. intros [= <-]. apply number_iff in Hl.
      exact (range_from_to _ _ _ _ Hp Hl).
  - assert (∀ f first q, number f first →
      find x2d (f ++ x2d :: q) = Some (length f) ∧ ∃ h, length f = S h) as Hfind.
    { intros f first q Hf. split; [by apply find_app, (number_no_sep f first)|].
      destruct (number_cons f first Hf) as (x & r' & -> & _). by eexists. }
    intros [f l first last Hf Hl|f first Hf|k n Hk].
    + destruct (Hfind f first l Hf) as [-> [h Hh]]. rewrite Hh, <- Hh, take_app_length, drop_app_add.
      simpl. rewrite drop_0, (proj2 (number_iff f first)) by done. simpl.
      destruct (number_cons l last Hl) as (x & r' & -> & _). by rewrite (proj2 (number_iff _ last)).
    + destruct (Hfind f first [] Hf) as [-> [h Hh]]. rewrite Hh, <- Hh, take_app_length, drop_app_add.
      simpl. by rewrite (proj2 (number_iff f first)).
    + simpl. by rewrite drop_0, (proj2 (number_iff k n)).
Qed.

Lemma read_element_iff e s : read_element e = Some s ↔ range_element e s.
Proof.
  unfold read_element. split.
  - intros Hs%read_range_iff. destruct (trim_start_inv is_ows e) as (w & He & Hw).
    by exists w, (trim_start_matches is_ows e).
  - intros (w & r & -> & Hw & Hr). rewrite trim_start_app by (by apply forallb_Forall_true).
    rewrite trim_start_no; [by apply read_range_iff|].
    destruct Hr as [f l first last Hf _|f first Hf|k n _]; [..|done];
      by destruct (number_cons f first Hf) as (x & r' & -> & Hx & _).
Qed.

Lemma range_element_no_comma e s : range_element e s → x2c ∉ e.
Proof.
  intros (w & r & -> & Hw & Hr). rewrite elem_of_app. intros [Hin|Hin].
  - rewrite forallb_forall in Hw. by apply list_elem_of_In, Hw in Hin.
  - assert (∀ f n, number f n → x2c ∉ f) as Hn by (intros f n Hf; by apply (number_no_sep f n)).
    destruct Hr as [f l first last Hf Hl|f first Hf|k n Hk];
      rewrite ?elem_of_app, ?elem_of_cons, ?elem_of_nil in Hin;
      [apply Hn in Hf, Hl|apply Hn in Hf|apply Hn in Hk]; naive_solver.
Qed.

Lemma read_set_iff h ss : read_set h = Some ss ↔ byte_range_set h ss.
Proof.
  unfold read_set. split.
  - intros (set & Hh%strip_prefix_Some & Hm)%bind_Some. exists (split x2c set).
    split; [by rewrite join_split|]. split; [apply split_nonempty|].
    apply mapM_Some in Hm. by eapply Forall2_impl; [exact Hm|]; intros e s; apply read_element_iff.
  - intros (es & -> & Hne & Hes). rewrite strip_prefix_app. simpl. rewrite split_join; [|done|].
    + apply mapM_Some. by eapply Forall2_impl; [exact Hes|]; intros e s; apply read_element_iff.
    + clear Hne. induction Hes as [|e s es ss He _ IH]; constructor; [|done].
      by eapply range_element_no_comma.
Qed.

Lemma byte_range_set_functional h ss ss' : byte_range_set h ss → byte_range_set h ss' → ss = ss'.
Proof. intros Hs%read_set_iff Hs'%read_set_iff. congruence. Qed.

(** What [parse] takes for numbers are [u64]s. *)
Lemma range_element_u64 e s : range_element e s → spec_u64 s.
Proof.
  intros (w & r & _ & _ & Hr).
  destruct Hr as [f l first last Hf%number_range Hl%number_range|f first Hf%number_range|k n Hk%number_range];
    done.
Qed.

(** ** [parse] against the reader *)

Section parse.
Context `{Build, Http}.

(** The range of an element, with the increment the code makes. *)
Definition resolve_checked (n : Z) (s : range_spec) : outcome (option range) :=
  match s with
  | BytesFromTo first last =>
      l1 ← u64_add last 1;
      Ret (if first <? Z.min l1 n then Some (mk_range first (Z.min l1 n)) else None)
  | _ => Ret (resolve n s)
  end.

Lemma resolve_checked_ok n s :
  spec_u64 s → spec_increments s → resolve_checked n s = Ret (resolve n s).
Proof.
  destruct s as [f l|f|k]; simpl; [|done..]. intros [Hf Hl] Hi. by rewrite u64_add_ok by lia.
Qed.

(** One element. *)
Lemma parse_spec_read e n :
  0 <= n <= U64_MAX →
  parse_spec e n =
    match read_element e with
    | None => Ret Unparseable
    | Some s => o ← resolve_checked n s; Ret (match o with Some x => Push x | None => Skip end)
    end.
Proof.
  intros Hn. unfold parse_spec, read_element, read_range.
  generalize (trim_start_matches is_ows e). intros r. destruct (find x2d r) as [[|h]|] eqn:Hf; [| |done].
  - rewrite decide_True by done. destruct (u64_from_str (drop 1 r)) as [k|] eqn:Hk; [|done].
    simpl. apply from_str_range in Hk; [|done]. rewrite Z.geb_leb.
    destruct (Z.leb_spec n k), (Z.ltb_spec k n); try lia; [done|]. by rewrite u64_sub_ok by lia.
  - rewrite decide_False by done. destruct (u64_from_str (take (S h) r)) as [f|] eqn:Hk; [|done].
    apply find_Some in Hf as (p & q & -> & _ & ->). rewrite drop_app_add, length_app.
    change (drop 1 (x2d :: q)) with (drop 0 q). rewrite drop_0. destruct q as [|y q].
    + rewrite decide_False by (simpl; lia). simpl. rewrite Z.geb_leb.
      destruct (Z.leb_spec n f), (Z.ltb_spec f n); done || lia.
    + rewrite decide_True by (simpl; lia). cbn [mbind option_bind].
      destruct (u64_from_str (y :: q)) as [l|]; [|done]. simpl. rewrite !bind_assoc.
      destruct (u64_add l 1) as [l1|]; [|done]. simpl. rewrite Z.geb_leb.
      destruct (Z.leb_spec (Z.min l1 n) f), (Z.ltb_spec f (Z.min l1 n)); done || lia.
Qed.

(** Elements that the code gets to, the last one with a last position that it
    cannot increment. *)
Definition elements_overflow (es : list bytes) : Prop :=
  ∃ es1 ss1 e first es2, es = es1 ++ e :: es2 ∧ Forall2 range_element es1 ss1 ∧
    range_element e (BytesFromTo first U64_MAX).

#[export] Instance spec_increments_dec s : Decision (spec_increments s).
Proof. destruct s; apply _. Defined.

Lemma not_increments s :
  spec_u64 s → ¬ spec_increments s → ∃ first, s = BytesFromTo first U64_MAX ∧ 0 <= first.
Proof.
  destruct s as [f l|f|k]; simpl; [|done..]. intros [Hf Hl] Hn. exists f. split; [f_equal; lia|lia].
Qed.

(** The increment panics, or wraps to an empty range. *)
Lemma resolve_checked_max n first :
  0 <= n → 0 <= first → resolve_checked n (BytesFromTo first U64_MAX) =
    if overflow_checks then Panic ArithmeticOverflow else Ret None.
Proof.
  intros Hn Hf. simpl. destruct overflow_checks eqn:Hc.
  - unfold u64_add. by rewrite arith_checked by (done || lia).
  - unfold u64_add. rewrite arith_wrapping by done. change ((U64_MAX + 1) mod (U64_MAX + 1)) with 0. simpl.
    rewrite Z.min_l by done. by rewrite (proj2 (Z.ltb_ge first 0)).
Qed.

Lemma parse_specs_overflow es n acc :
  0 <= n <= U64_MAX → overflow_checks = true → elements_overflow es → parse_specs es n acc = Panic ArithmeticOverflow.
Proof.
  intros Hn Hc (es1 & ss1 & e & first & es2 & -> & Hes & He). revert acc.
  induction Hes as [|e1 s1 es1 ss1 He1 _ IH]; intros acc; cbn [app parse_specs]; rewrite parse_spec_read by done.
  - rewrite (proj2 (read_element_iff _ _) He). apply range_element_u64 in He as [Hf _].
    rewrite resolve_checked_max by lia. by rewrite Hc.
  - rewrite (proj2 (read_element_iff _ _) He1). apply range_element_u64 in He1.
    destruct (decide (spec_increments s1)) as [Hi|(f & -> & Hf)%not_increments]; [|..|done].
    + rewrite resolve_checked_ok by done. simpl. destruct (resolve n s1); apply IH.
    + rewrite resolve_checked_max by lia. by rewrite Hc.
Qed.

(** Otherwise the loop reads its elements, without those that wrap. *)
Lemma parse_specs_read es n acc :
  0 <= n <= U64_MAX → overflow_checks = false ∨ ¬ elements_overflow es →
  parse_specs es n acc =
    Ret ((λ ss, acc ++ omap (resolve n) (filter spec_increments ss)) <$> mapM read_element es).
Proof.
  intros Hn. revert acc. induction es as [|e es IH]; intros acc Ho; [simpl; by rewrite app_nil_r|].
  cbn [parse_specs]. rewrite parse_spec_read by done. cbn [mapM].
  destruct (read_element e) as [s|] eqn:He; [|done]. cbn [mbind option_bind].
  pose proof (proj1 (read_element_iff _ _) He) as He'. pose proof (range_element_u64 e s He') as Hu.
  assert (overflow_checks = false ∨ ¬ elements_overflow es) as Ho'.
  { destruct Ho as [Hc|Ho]; [by left|right]. intros (es1 & ss1 & e1 & f & es2 & -> & Hes & He1). apply Ho.
    exists (e :: es1), (s :: ss1), e1, f, es2. split_and!; [done|by constructor|done]. }
  assert (∀ acc, parse_specs es n acc = Ret ((λ ss, acc ++ omap (resolve n) (filter spec_increments ss)) <$> mapM read_element es))
    as Hrest by (intros; by apply IH).
  destruct (decide (spec_increments s)) as [Hi|Hi].
  - rewrite resolve_checked_ok by done. cbn [mbind outcome_bind].
    destruct (resolve n s) as [x|] eqn:Hr; rewrite Hrest; destruct (mapM read_element es) as [ss|]; try done;
      simpl; rewrite filter_cons, decide_True by done; simpl; rewrite Hr; [by rewrite <- app_assoc|done].
  - destruct (not_increments s Hu Hi) as (f & -> & Hf). rewrite resolve_checked_max by lia.
    destruct Ho as [Hc|Ho].
    + rewrite Hc. cbn [mbind outcome_bind]. rewrite Hrest. destruct (mapM read_element es) as [ss|]; [|done].
      simpl. by rewrite filter_cons, decide_False.
    + destruct Ho. exists [], [], e, f, es. by split_and!.
Qed.

Lemma increments_kept ss : Forall spec_increments ss → filter spec_increments ss = ss.
Proof. induction 1 as [|s ss Hs _ IH]; [done|]. by rewrite filter_cons, decide_True, IH. Qed.

Lemma elements_increment es ss :
  Forall2 range_element es ss → Forall spec_increments ss → ¬ elements_overflow es.
Proof.
  intros Hes Hi (es1 & ss1 & e & f & es2 & -> & _ & He).
  apply Forall2_app_inv_l in Hes as (ss1' & ss2 & _ & Hes2 & ->). apply Forall2_cons_inv_l in Hes2 as (s & ss3 & Hs & _ & ->).
  apply Forall_app in Hi as [_ [Hi _]%Forall_cons].
  apply read_element_iff in He, Hs. rewrite He in Hs. injection Hs as <-. simpl in Hi. lia.
Qed.
End parse.

Section properties.
Context `{Build, Http}.

(** The header has an element with the last position [u64::MAX] that the code
    gets to: those before it can be read. *)
Definition header_overflows (h : bytes) : Prop :=
  ∃ set, h = bs "bytes=" ++ set ∧ elements_overflow (split x2c set).

(** C5: what [parse] makes of every header.  No header, or one whose value is not
    visible ASCII, is no range.  Under overflow checks it panics if there is an
    element with the last position [u64::MAX] before one that cannot be read.
    Otherwise it understands exactly the grammar [byte_range_set]: a header of
    the grammar has one reading, and resolves, element by element, to its
    satisfiable ranges in order, or is unsatisfiable if there are none, where a
    range with that last position is dropped, as the increment wraps; a header
    outside of the grammar is no range. *)
Theorem parse_grammar (o : option HeaderValue) (n : Z) :
  0 <= n <= U64_MAX →
  (o ≫= to_str = None → parse o n = Ret RNone) ∧
  ∀ h, o ≫= to_str = Some h →
    (overflow_checks = true → header_overflows h → parse o n = Panic ArithmeticOverflow) ∧
    (overflow_checks = false ∨ ¬ header_overflows h →
       (∀ ss, byte_range_set h ss → parse o n = Ret (resolve_all n (filter spec_increments ss))) ∧
       ((∀ ss, ¬ byte_range_set h ss) → parse o n = Ret RNone)) ∧
    (∀ ss, byte_range_set h ss → Forall spec_increments ss →
       ¬ header_overflows h ∧ parse o n = Ret (resolve_all n ss)) ∧
    (∀ ss ss', byte_range_set h ss → byte_range_set h ss' → ss = ss').
Proof.
  intros Hn. split; [intros Ho; unfold parse; by destruct o as [v|]; simpl in Ho; rewrite ?Ho|].
  intros h Hh. assert (parse o n = match strip_prefix (bs "bytes=") h with
      | None => Ret RNone
      | Some set => r ← parse_specs (split x2c set) n [];
          Ret (match r with None => RNone | Some [] => NotSatisfiable | Some rs => Satisfiable rs end)
      end) as Hp.
  { unfold parse. destruct o as [v|]; [|done]. simpl in Hh. by rewrite Hh. }
  assert (overflow_checks = false ∨ ¬ header_overflows h →
       (∀ ss, byte_range_set h ss → parse o n = Ret (resolve_all n (filter spec_increments ss))) ∧
       ((∀ ss, ¬ byte_range_set h ss) → parse o n = Ret RNone)) as Hread.
  { intros Ho. destruct (strip_prefix (bs "bytes=") h) as [set|] eqn:Hset.
    - assert (overflow_checks = false ∨ ¬ elements_overflow (split x2c set)) as Ho'.
      { apply strip_prefix_Some in Hset. destruct Ho as [?|Ho]; [by left|right]. contradict Ho. by exists set. }
      rewrite Hp, parse_specs_read by done. split.
      + intros ss Hss%read_set_iff. unfold read_set in Hss. rewrite Hset in Hss. cbn [mbind option_bind] in Hss.
        rewrite Hss. simpl. unfold resolve_all. by destruct (omap _ _).
      + intros Hno. destruct (mapM read_element (split x2c set)) as [ss|] eqn:Hm; [|done].
        destruct (Hno ss). apply read_set_iff. unfold read_set. by rewrite Hset.
    - split; [|done]. intros ss Hss%read_set_iff. unfold read_set in Hss. by rewrite Hset in Hss. }
  split; [|split; [exact Hread|split; [|apply byte_range_set_functional]]].
  - intros Hc (set & -> & Ho). by rewrite Hp, strip_prefix_app, parse_specs_overflow.
  - intros ss Hss Hi. assert (¬ header_overflows h) as Ho.
    { intros (set & -> & Ho). apply read_set_iff in Hss. unfold read_set in Hss. rewrite strip_prefix_app in Hss.
      apply mapM_Some in Hss. eapply elements_increment; [|exact Hi|exact Ho].
      eapply Forall2_impl; [exact Hss|]. intros e s. apply read_element_iff. }
    split; [done|]. rewrite (proj1 (Hread (or_intror Ho)) ss Hss). by rewrite increments_kept.
Qed.
End properties.

(** ** A header that is not of RFC 7233 *)

(** A last position below the first makes the whole header invalid there; here
    the element is dropped, and alone it makes the header unsatisfiable.  The
    last position [u64::MAX] panics or is dropped. *)
Definition max_header : bytes := bs "bytes=0-18446744073709551615,+7-".

Lemma parse_grammar_witness :
  @parse debug_build plain_http (Some (bs "bytes=5-3,+7-")) 10 = Ret (Satisfiable [mk_range 7 10]) ∧
  @parse debug_build plain_http (Some (bs "bytes=5-3")) 10 = Ret NotSatisfiable ∧
  @parse debug_build plain_http (Some max_header) 10 = Panic ArithmeticOverflow ∧
  @parse release_build plain_http (Some max_header) 10 = Ret (Satisfiable [mk_range 7 10]).
Proof.
  assert (byte_range_set (bs "bytes=5-3,+7-") [BytesFromTo 5 3; BytesFrom 7]) as Hs1
    by by apply read_set_iff.
  assert (byte_range_set (bs "bytes=5-3") [BytesFromTo 5 3]) as Hs2 by by apply read_set_iff.
  assert (byte_range_set max_header [BytesFromTo 0 U64_MAX; BytesFrom 7]) as Hs3 by by apply read_set_iff.
  split_and!.
  - destruct (@parse_grammar debug_build plain_http (Some (bs "bytes=5-3,+7-")) 10 ltac:(by vm_compute)) as [_ Hp].
    destruct (Hp (bs "bytes=5-3,+7-") eq_refl) as (_ & _ & Hr & _).
    refine (eq_trans (proj2 (Hr _ Hs1 _)) _); [by repeat constructor|reflexivity].
  - destruct (@parse_grammar debug_build plain_http (Some (bs "bytes=5-3")) 10 ltac:(by vm_compute)) as [_ Hp].
    destruct (Hp (bs "bytes=5-3") eq_refl) as (_ & _ & Hr & _).
    refine (eq_trans (proj2 (Hr _ Hs2 _)) _); [by repeat constructor|reflexivity].
  - destruct (@parse_grammar debug_build plain_http (Some max_header) 10 ltac:(by vm_compute)) as [_ Hp].
    destruct (Hp max_header eq_refl) as (Hover & _). apply Hover; [reflexivity|].
    exists (bs "0-18446744073709551615,+7-"). split; [reflexivity|].
    exists [], [], (bs "0-18446744073709551615"), 0, [bs "+7-"]. split_and!; [reflexivity|constructor|].
    by apply read_element_iff.
  - destruct (@parse_grammar release_build plain_http (Some max_header) 10 ltac:(by vm_compute)) as [_ Hp].
    destruct (Hp max_header eq_refl) as (_ & Hread & _).
    destruct (Hread (or_introl eq_refl)) as [Hin _]. refine (eq_trans (Hin _ Hs3) _). by vm_compute.
Defined.
