(* ===== verification/Etag.v ===== *)
(** * Entity tags and the conditional headers (src/etag.rs) *)

From S2P Require Import Prelude RustStd HttpApi Plain.

Section etag.
Context `{Http}.

(** ** Comparison *)

Definition weak_eq (a b : bytes) : bool :=
  let a := default a (strip_prefix (bs "W/") a) in
  let b := default b (strip_prefix (bs "W/") b) in
  bool_decide (a = b).

Definition strong_eq (a b : bytes) : bool :=
  bool_decide (a = b) && negb (starts_with (bs "W/") a).

(** ** The list iterator *)

Record List := mk_List { l_remaining : bytes; l_corrupt : bool }.

Definition List_from (l : bytes) : List := mk_List l false.

(** The index of the closing quote of the etag the list starts with. *)
Definition etag_end (rem : bytes) : option nat :=
  if starts_with (bs "W/" ++ [DQUOTE]) rem then
    (λ p, p + 3)%nat <$> find DQUOTE (drop 3 rem)
  else if starts_with [DQUOTE] rem then
    (λ p, p + 1)%nat <$> find DQUOTE (drop 1 rem)
  else None.

(** The separator after an etag: a comma and whitespace. *)
Definition skip_separator (rem : bytes) : bytes :=
  match rem with
  | x :: r => if decide (x = x2c) then trim_start_matches is_ows r else rem
  | [] => rem
  end.

(** [Iterator::next]. *)
Definition next (l : List) : option bytes * List :=
  if decide (l_remaining l = []) then (None, l)
  else
    match etag_end (l_remaining l) with
    | None => (None, mk_List (l_remaining l) true)
    | Some end_ =>
        let etag := take (end_ + 1) (l_remaining l) in
        let rem := drop (end_ + 1) (l_remaining l) in
        (Some etag, mk_List (skip_separator rem) (l_corrupt l))
    end.

(** [for item in &mut items { .. }] with a body that updates one [bool]; the
    result and the iterator after the loop. *)
Fixpoint for_items (fuel : nat) (f : bool → bytes → bool) (l : List) (acc : bool)
    : bool * List :=
  match fuel with
  | O => (acc, l)
  | S fuel' =>
      match next l with
      | (None, l') => (acc, l')
      | (Some item, l') => for_items fuel' f l' (f acc item)
      end
  end.

(** Every item consumes at least two bytes; one more step sees the end. *)
Definition items_fuel (l : List) : nat := S (length (l_remaining l)).

(** ** The conditional headers *)

Definition none_match (etag : option HeaderValue) (req_hdrs : HeaderMap) : option bool :=
  match hm_get req_hdrs IF_NONE_MATCH with
  | None => None
  | Some m =>
      let m := as_bytes m in
      if decide (m = bs "*") then Some false
      else
        match etag with
        | None => Some true
        | Some some_etag =>
            let items := List_from m in
            let '(none_match, items) :=
              for_items (items_fuel items)
                (λ none_match item,
                   if none_match && weak_eq item (as_bytes some_etag) then false
                   else none_match) items true in
            if l_corrupt items then None else Some none_match
        end
  end.

Definition any_match (etag : option HeaderValue) (req_hdrs : HeaderMap) : result bool bytes :=
  match hm_get req_hdrs IF_MATCH with
  | None => Ok true
  | Some m =>
      let m := as_bytes m in
      if decide (m = bs "*") then Ok true
      else
        match etag with
        | None => Ok false
        | Some some_etag =>
            let items := List_from m in
            let '(any_match, items) :=
              for_items (items_fuel items)
                (λ any_match item,
                   if negb any_match && strong_eq item (as_bytes some_etag) then true
                   else any_match) items false in
            if l_corrupt items then Err (bs "Unparseable If-Match header") else Ok any_match
        end
  end.

(** ** Specification: entity tags of RFC 7232 *)

Record entity_tag := Tag { tag_weak : bool; tag_opaque : bytes }.

Definition print_tag (t : entity_tag) : bytes :=
  (if tag_weak t then bs "W/" else []) ++ DQUOTE :: tag_opaque t ++ [DQUOTE].

Definition valid_tag (t : entity_tag) : Prop := DQUOTE ∉ tag_opaque t.

(** Section 2.3.2. *)
Definition strong_match (t u : entity_tag) : bool :=
  negb (tag_weak t) && negb (tag_weak u) && bool_decide (tag_opaque t = tag_opaque u).

Definition weak_match (t u : entity_tag) : bool :=
  bool_decide (tag_opaque t = tag_opaque u).

(** A list of tags, each but the last followed by a comma and whitespace. *)
Fixpoint print_tags (ts : list (entity_tag * bytes)) : bytes :=
  match ts with
  | [] => []
  | [(t, _)] => print_tag t
  | (t, ows) :: ts' => print_tag t ++ x2c :: ows ++ print_tags ts'
  end.

Definition valid_tags (ts : list (entity_tag * bytes)) : Prop :=
  Forall (λ tw : entity_tag * bytes, valid_tag tw.1 ∧ forallb is_ows tw.2 = true) ts.

(** The items an iterator yields. *)
Fixpoint items (fuel : nat) (l : List) : list bytes * List :=
  match fuel with
  | O => ([], l)
  | S fuel' =>
      match next l with
      | (None, l') => ([], l')
      | (Some item, l') => let '(rest, l'') := items fuel' l' in (item :: rest, l'')
      end
  end.

(** ** Comparison agrees with the RFC *)

Lemma strip_weak_prefix t :
  default (print_tag t) (strip_prefix (bs "W/") (print_tag t)) =
    DQUOTE :: tag_opaque t ++ [DQUOTE].
Proof.
  destruct t as [[] o]; unfold print_tag; cbn [tag_weak tag_opaque].
  - by rewrite strip_prefix_app.
  - reflexivity.
Qed.

Lemma quoted_inj o o' : DQUOTE :: o ++ [DQUOTE] = DQUOTE :: o' ++ [DQUOTE] ↔ o = o'.
Proof. split; [|by intros ->]. intros [= Ho]. by apply app_inj_tail in Ho as [-> _]. Qed.

Lemma weak_eq_tags t u : weak_eq (print_tag t) (print_tag u) = weak_match t u.
Proof.
  unfold weak_eq, weak_match. rewrite !strip_weak_prefix.
  apply bool_decide_ext, quoted_inj.
Qed.

Lemma print_tag_inj t u : print_tag t = print_tag u → t = u.
Proof.
  destruct t as [[] o], u as [[] o']; unfold print_tag; simpl; intros Heq;
    [ | discriminate | discriminate | ].
  - injection Heq as Heq. apply app_inj_tail in Heq as [-> _]. done.
  - injection Heq as Heq. apply app_inj_tail in Heq as [-> _]. done.
Qed.

Lemma starts_weak t : starts_with (bs "W/") (print_tag t) = tag_weak t.
Proof. by destruct t as [[] o]. Qed.

Lemma strong_eq_tags t u : strong_eq (print_tag t) (print_tag u) = strong_match t u.
Proof.
  unfold strong_eq, strong_match. rewrite starts_weak.
  destruct t as [[] o], u as [[] o']; cbn [tag_weak tag_opaque negb andb];
    rewrite ?andb_false_r; try done.
  rewrite andb_true_r. apply bool_decide_ext. split; [|by intros ->].
  intros Heq. apply print_tag_inj in Heq. by injection Heq.
Qed.

(** ** The iterator recognises exactly the printed tags *)

Lemma etag_end_print t rest :
  valid_tag t → etag_end (print_tag t ++ rest) = Some (length (print_tag t) - 1)%nat.
Proof.
  unfold valid_tag, etag_end. destruct t as [[] o]; unfold print_tag; cbn [tag_weak tag_opaque];
    intros Ho.
  - replace ((bs "W/" ++ DQUOTE :: o ++ [DQUOTE]) ++ rest)
      with ((bs "W/" ++ [DQUOTE]) ++ o ++ DQUOTE :: rest)
      by (simpl; by rewrite <- !app_assoc).
    rewrite starts_with_app.
    change (drop 3 ((bs "W/" ++ [DQUOTE]) ++ o ++ DQUOTE :: rest)) with (o ++ DQUOTE :: rest).
    rewrite find_app by done. simpl. f_equal. rewrite length_app. simpl. lia.
  - simpl. rewrite <- app_assoc.
    change (starts_with (x57 :: x2f :: [DQUOTE]) (DQUOTE :: o ++ [DQUOTE] ++ rest)) with false.
    change (starts_with [DQUOTE] (DQUOTE :: o ++ [DQUOTE] ++ rest)) with true.
    cbv iota. rewrite drop_0. simpl. rewrite find_app by done. simpl. f_equal.
    rewrite length_app. simpl. lia.
Qed.

Lemma etag_end_inv rem e :
  etag_end rem = Some e →
  ∃ t rest, valid_tag t ∧ rem = print_tag t ++ rest ∧ (e + 1)%nat = length (print_tag t).
Proof.
  unfold etag_end. destruct (starts_with (bs "W/" ++ [DQUOTE]) rem) eqn:Hw.
  - apply starts_with_true in Hw as [r ->].
    change (drop 3 ((bs "W/" ++ [DQUOTE]) ++ r)) with r.
    destruct (find DQUOTE r) as [i|] eqn:Hf; [|done]. intros [= <-].
    apply find_Some in Hf as (o & rest & -> & Ho & ->).
    exists (Tag true o), rest. split; [done|]. unfold print_tag. simpl.
    rewrite <- app_assoc, length_app. simpl. split; [done|lia].
  - destruct (starts_with [DQUOTE] rem) eqn:Hs; [|done].
    apply starts_with_true in Hs as [r ->].
    change (drop 1 ([DQUOTE] ++ r)) with r.
    destruct (find DQUOTE r) as [i|] eqn:Hf; [|done]. intros [= <-].
    apply find_Some in Hf as (o & rest & -> & Ho & ->).
    exists (Tag false o), rest. split; [done|]. unfold print_tag. simpl.
    rewrite <- app_assoc, length_app. simpl. split; [done|lia].
Qed.

Lemma print_tag_length t : (2 <= length (print_tag t))%nat.
Proof. destruct t as [[] o]; unfold print_tag; simpl; rewrite length_app; simpl; lia. Qed.

Lemma next_print t rest c :
  valid_tag t →
  next (mk_List (print_tag t ++ rest) c) =
    (Some (print_tag t), mk_List (skip_separator rest) c).
Proof.
  intros Ht. unfold next. cbn [l_remaining l_corrupt].
  pose proof (print_tag_length t) as Hl. rewrite decide_False.
  - rewrite etag_end_print by done.
    replace (length (print_tag t) - 1 + 1)%nat with (length (print_tag t)) by lia.
    by rewrite take_app_length, drop_app_length.
  - intros Happ. apply app_eq_nil in Happ as [Hnil _]. rewrite Hnil in Hl. simpl in Hl. lia.
Qed.

Lemma skip_separator_length rem : (length (skip_separator rem) <= length rem)%nat.
Proof.
  destruct rem as [|x r]; simpl; [done|]. case_decide; simpl; [|lia].
  assert (∀ s, length (trim_start_matches is_ows s) <= length s)%nat as Htrim.
  { induction s as [|y s IH]; simpl; [done|]. case_match; simpl; lia. }
  specialize (Htrim r). lia.
Qed.

Lemma skip_separator_ows ows rest :
  forallb is_ows ows = true →
  match rest with [] => True | x :: _ => is_ows x = false end →
  skip_separator (x2c :: ows ++ rest) = rest.
Proof.
  intros Hows Hrest. simpl. rewrite trim_start_app by (by apply forallb_Forall_true).
  by apply trim_start_no.
Qed.

(** A [for] loop is a fold over the items. *)
Lemma for_items_fold fuel f l acc :
  for_items fuel f l acc = (foldl f acc (items fuel l).1, (items fuel l).2).
Proof.
  revert l acc. induction fuel as [|fuel IH]; intros l acc; simpl; [done|].
  destruct (next l) as [[item|] l']; [|done]. rewrite IH. by destruct (items fuel l').
Qed.

Lemma print_tags_head ts :
  match print_tags ts with [] => True | x :: _ => is_ows x = false end.
Proof. destruct ts as [|[[[] o] w] [|]]; simpl; done. Qed.

Lemma items_printed fuel ts :
  (length (print_tags ts) < fuel)%nat → valid_tags ts →
  items fuel (List_from (print_tags ts)) = (print_tag <$> ts.*1, mk_List [] false).
Proof.
  revert fuel. induction ts as [|[t w] ts IH]; intros fuel Hf Hv.
  { by destruct fuel; [simpl in Hf; lia|]. }
  destruct fuel as [|fuel]; [lia|]. inversion Hv as [|? ? [Ht Hw] Hv']; subst. simpl in Ht, Hw.
  pose proof (print_tag_length t). destruct ts as [|tw ts].
  - cbn [print_tags items]. unfold List_from.
    pose proof (next_print t [] false Ht) as Hn. rewrite app_nil_r in Hn. rewrite Hn.
    simpl in Hf. destruct fuel; [lia|]. done.
  - change (print_tags ((t, w) :: tw :: ts))
      with (print_tag t ++ x2c :: w ++ print_tags (tw :: ts)) in *.
    cbn [items]. unfold List_from. rewrite next_print by done.
    rewrite skip_separator_ows by (done || apply print_tags_head).
    rewrite length_app, length_cons, length_app in Hf.
    unfold List_from in IH. rewrite IH by (done || lia). done.
Qed.

(** On any input the loop ends with its fuel, at the end of the list or at
    something that is not an etag; what it yields are well-formed tags. *)
Lemma items_spec fuel l :
  (length (l_remaining l) < fuel)%nat → l_corrupt l = false →
  ∃ ts l', items fuel l = (print_tag <$> ts, l') ∧ Forall valid_tag ts ∧
    ((l_corrupt l' = false ∧ l_remaining l' = []) ∨
     (l_corrupt l' = true ∧ l_remaining l' ≠ [] ∧ etag_end (l_remaining l') = None)).
Proof.
  revert l. induction fuel as [|fuel IH]; intros l Hl Hc; [lia|].
  simpl. unfold next. case_decide as Hnil.
  { exists [], l. repeat split; [constructor|by left]. }
  destruct (etag_end (l_remaining l)) as [e|] eqn:He.
  - apply etag_end_inv in He as (t & rest & Ht & Hrem & Hlen).
    rewrite Hlen, Hrem, take_app_length, drop_app_length.
    destruct (IH (mk_List (skip_separator rest) (l_corrupt l))) as (ts & l' & -> & Hts & Hend).
    + simpl. pose proof (skip_separator_length rest). pose proof (print_tag_length t).
      rewrite Hrem, length_app in Hl. lia.
    + done.
    + exists (t :: ts), l'. repeat split; [by constructor|done].
  - exists [], (mk_List (l_remaining l) true). repeat split; [constructor|by right].
Qed.

(** ** The two loop bodies *)

Lemma none_match_fold e its acc :
  foldl (λ none_match item, if none_match && weak_eq item e then false else none_match) acc its
    = acc && negb (existsb (λ item, weak_eq item e) its).
Proof.
  revert acc. induction its as [|i its IH]; intros acc; simpl; [by rewrite andb_true_r|].
  rewrite IH. by destruct acc, (weak_eq i e).
Qed.

Lemma any_match_fold e its acc :
  foldl (λ any_match item, if negb any_match && strong_eq item e then true else any_match) acc its
    = acc || existsb (λ item, strong_eq item e) its.
Proof.
  revert acc. induction its as [|i its IH]; intros acc; simpl; [by rewrite orb_false_r|].
  rewrite IH. by destruct acc, (strong_eq i e).
Qed.

Lemma existsb_tags (f : bytes → bytes → bool) (g : entity_tag → entity_tag → bool) t ts :
  (∀ u, f (print_tag u) (print_tag t) = g u t) →
  existsb (λ item, f item (print_tag t)) (print_tag <$> ts) = existsb (λ u, g u t) ts.
Proof. intros Hfg. induction ts as [|u ts IH]; [done|]. csimpl. by rewrite Hfg, IH. Qed.

Lemma print_tags_not_star ts : print_tags ts ≠ bs "*".
Proof. destruct ts as [|[[[] o] w] [|]]; simpl; done. Qed.
(** The two headers on a list of tags. *)
Lemma match_tags (e v : HeaderValue) (t : entity_tag)
    (ts : list (entity_tag * bytes)) (hdrs : HeaderMap) :
  as_bytes e = print_tag t → as_bytes v = print_tags ts → valid_tags ts →
  (hm_get hdrs IF_NONE_MATCH = Some v →
   none_match (Some e) hdrs = Some (negb (existsb (λ u, weak_match u t) ts.*1))) ∧
  (hm_get hdrs IF_MATCH = Some v →
   any_match (Some e) hdrs = Ok (existsb (λ u, strong_match u t) ts.*1)).
Proof.
  intros He Hv Hts.
  assert (items (items_fuel (List_from (print_tags ts))) (List_from (print_tags ts)) =
          (print_tag <$> ts.*1, mk_List [] false)) as Hitems
    by (apply items_printed; [unfold items_fuel; simpl; lia|done]).
  split; intros Hget.
  - unfold none_match. rewrite Hget, Hv, decide_False by apply print_tags_not_star.
    rewrite for_items_fold, Hitems, He, none_match_fold. simpl.
    by rewrite (existsb_tags weak_eq weak_match) by (intros; apply weak_eq_tags).
  - unfold any_match. rewrite Hget, Hv, decide_False by apply print_tags_not_star.
    rewrite for_items_fold, Hitems, He, any_match_fold. simpl.
    by rewrite (existsb_tags strong_eq strong_match) by (intros; apply strong_eq_tags).
Qed.

End etag.

Section properties.
Context `{Http}.

(** On entity tags, [weak_eq] and [strong_eq] are the weak and strong
    comparison of RFC 7232 section 2.3.2. *)
Theorem comparison_rfc7232 (t u : entity_tag) :
  weak_eq (print_tag t) (print_tag u) = weak_match t u ∧
  strong_eq (print_tag t) (print_tag u) = strong_match t u.
Proof. split; [apply weak_eq_tags | apply strong_eq_tags]. Qed.

(** With an [If-None-Match] (resp. [If-Match]) header listing tags,
    [none_match] is whether none of them weakly matches the entity's tag, and
    [any_match] whether one of them strongly matches it. *)
Theorem conditional_headers_match (e v : HeaderValue) (t : entity_tag)
    (ts : list (entity_tag * bytes)) (hdrs : HeaderMap) :
  as_bytes e = print_tag t → as_bytes v = print_tags ts → valid_tags ts →
  (hm_get hdrs IF_NONE_MATCH = Some v →
   none_match (Some e) hdrs = Some (negb (existsb (λ u, weak_match u t) ts.*1))) ∧
  (hm_get hdrs IF_MATCH = Some v →
   any_match (Some e) hdrs = Ok (existsb (λ u, strong_match u t) ts.*1)).
Proof. apply match_tags. Qed.

(** On any header whatever, a match is only reported because of a
    well-formed tag: [any_match] is [Ok true] only if there is no header, it is
    ["*"], or an item of it is strongly equal to the entity's tag;
    [none_match] is [Some false] only for ["*"] or a weakly equal item. *)
Theorem conditional_headers_sound (e : HeaderValue) (hdrs : HeaderMap) :
  (any_match (Some e) hdrs = Ok true →
   hm_get hdrs IF_MATCH = None ∨
   ∃ v, hm_get hdrs IF_MATCH = Some v ∧
     (as_bytes v = bs "*" ∨
      ∃ t, valid_tag t ∧ strong_eq (print_tag t) (as_bytes e) = true ∧
           print_tag t ∈ (items (items_fuel (List_from (as_bytes v)))
                                (List_from (as_bytes v))).1)) ∧
  (none_match (Some e) hdrs = Some false →
   ∃ v, hm_get hdrs IF_NONE_MATCH = Some v ∧
     (as_bytes v = bs "*" ∨
      ∃ t, valid_tag t ∧ weak_eq (print_tag t) (as_bytes e) = true ∧
           print_tag t ∈ (items (items_fuel (List_from (as_bytes v)))
                                (List_from (as_bytes v))).1)).
Proof.
  assert (∀ (f : bytes → bool) v,
    existsb f (items (items_fuel (List_from v)) (List_from v)).1 = true →
    ∃ t, valid_tag t ∧ f (print_tag t) = true ∧
         print_tag t ∈ (items (items_fuel (List_from v)) (List_from v)).1) as Hex.
  { intros f v Hf.
    destruct (items_spec (items_fuel (List_from v)) (List_from v))
      as (ts & l' & Hitems & Hts & _); [unfold items_fuel; lia|done|].
    rewrite Hitems in *. cbn [fst] in *. apply existsb_exists in Hf as (i & Hi & Hf).
    apply list_elem_of_In in Hi. apply list_elem_of_fmap in Hi as (t & -> & Ht).
    rewrite Forall_forall in Hts. exists t. repeat split; [by apply Hts|done|].
    by apply list_elem_of_fmap_2. }
  split.
  - unfold any_match. destruct (hm_get hdrs IF_MATCH) as [v|]; [|by left].
    intros Ha. right. exists v. split; [done|]. case_decide; [by left|]. right.
    rewrite for_items_fold, any_match_fold in Ha. case_hyp Ha; [done|].
    injection Ha as Ha. by apply (Hex (λ item, strong_eq item (as_bytes e))).
  - unfold none_match. destruct (hm_get hdrs IF_NONE_MATCH) as [v|]; [|done].
    intros Hn. exists v. split; [done|]. case_decide; [by left|]. right.
    rewrite for_items_fold, none_match_fold in Hn. case_hyp Hn; [done|].
    injection Hn as Hn. apply (Hex (λ item, weak_eq item (as_bytes e))).
    by destruct (existsb _ _).
Qed.

(** Whitespace before a comma ends the list as corrupt, even if the tag
    before it matches: such an [If-Match] is an error, such an [If-None-Match]
    is ignored. *)
Theorem whitespace_before_comma_is_corrupt (e v : HeaderValue) (t : entity_tag)
    (x : byte) (w rest : bytes) (hdrs : HeaderMap) :
  valid_tag t → is_ows x = true →
  as_bytes v = print_tag t ++ x :: w ++ x2c :: rest →
  (hm_get hdrs IF_MATCH = Some v →
   any_match (Some e) hdrs = Err (bs "Unparseable If-Match header")) ∧
  (hm_get hdrs IF_NONE_MATCH = Some v → none_match (Some e) hdrs = None).
Proof.
  intros Ht Hx Hv.
  assert (x = x20 ∨ x = x09) as Hcase.
  { unfold is_ows in Hx. apply bool_decide_eq_true in Hx. set_solver. }
  assert (∀ f acc, l_corrupt (for_items (items_fuel (List_from (as_bytes v))) f
                                (List_from (as_bytes v)) acc).2 = true) as Hcorrupt.
  { intros f acc. rewrite for_items_fold. simpl. unfold items_fuel, List_from.
    rewrite Hv. cbn [l_remaining items]. rewrite next_print by done.
    rewrite length_app. pose proof (print_tag_length t).
    destruct (length (print_tag t) + length (x :: w ++ x2c :: rest))%nat as [|n] eqn:Hn; [lia|].
    destruct Hcase as [-> | ->]; reflexivity. }
  assert (as_bytes v ≠ bs "*") as Hstar.
  { rewrite Hv. by destruct t as [[] o]. }
  split; intros Hget.
  - unfold any_match. rewrite Hget, decide_False by done.
    match goal with |- context [for_items ?n ?f ?l ?a] => pose proof (Hcorrupt f a) as Hc end.
    destruct (for_items _ _ _ _) as [b l']. simpl in Hc. by rewrite Hc.
  - unfold none_match. rewrite Hget, decide_False by done.
    match goal with |- context [for_items ?n ?f ?l ?a] => pose proof (Hcorrupt f a) as Hc end.
    destruct (for_items _ _ _ _) as [b l']. simpl in Hc. by rewrite Hc.
Qed.
End properties.

(** ["foo"] and the list [W/"foo", "bar"]. *)
Definition foo_tag : entity_tag := Tag false (bs "foo").
Definition example_tags : list (entity_tag * bytes) :=
  [(Tag true (bs "foo"), [x20]); (Tag false (bs "bar"), [])].

Lemma conditional_headers_match_witness :
  @none_match plain_http (Some (print_tag foo_tag))
     [(bs "if-none-match", print_tags example_tags)] = Some false ∧
  @any_match plain_http (Some (print_tag foo_tag))
     [(bs "if-match", print_tags example_tags)] = Ok false.
Proof.
  assert (valid_tags example_tags) as Hv.
  { repeat constructor; unfold valid_tag; by_compute. }
  split.
  - etrans; [eapply (@conditional_headers_match plain_http (print_tag foo_tag)
       (print_tags example_tags) foo_tag example_tags); [reflexivity|reflexivity|exact Hv|]|];
      reflexivity.
  - etrans; [eapply (@conditional_headers_match plain_http (print_tag foo_tag)
       (print_tags example_tags) foo_tag example_tags); [reflexivity|reflexivity|exact Hv|]|];
      reflexivity.
Defined.

Lemma conditional_headers_sound_witness :
  ∃ v, @hm_get plain_http [(bs "if-match", print_tag foo_tag)] (bs "if-match") = Some v ∧
    (v = bs "*" ∨ ∃ t, valid_tag t ∧ strong_eq (print_tag t) (print_tag foo_tag) = true ∧
       print_tag t ∈ (items (items_fuel (List_from v)) (List_from v)).1).
Proof.
  destruct (@conditional_headers_sound plain_http (print_tag foo_tag)
              [(bs "if-match", print_tag foo_tag)]) as [Hany _].
  destruct Hany as [Hn|Hv]; [reflexivity | discriminate Hn | exact Hv].
Defined.

Lemma whitespace_before_comma_is_corrupt_witness :
  @any_match plain_http (Some (print_tag foo_tag))
    [(bs "if-match", print_tag foo_tag ++ bs " , " ++ print_tag foo_tag)]
  = Err (bs "Unparseable If-Match header").
Proof.
  eapply (@whitespace_before_comma_is_corrupt plain_http (print_tag foo_tag)
    (print_tag foo_tag ++ bs " , " ++ print_tag foo_tag) foo_tag x20 []
    (x20 :: print_tag foo_tag)); [unfold valid_tag; by_compute | reflexivity ..].
Defined.
