(* ===== verification/EtagGrammar.v ===== *)
(** * The language of [If-Match] and [If-None-Match] (src/etag.rs)

    Which header values the iterator [List] goes through without calling them
    corrupt, as a grammar, and what the two conditions make of any header. *)

From S2P Require Import Prelude RustStd HttpApi Plain Etag.

(** ** The grammar *)

(** What may stand between two tags: nothing, or a comma and whitespace. *)
Inductive tag_separator : bytes → Prop :=
  | no_separator : tag_separator []
  | comma w : forallb is_ows w = true → tag_separator (x2c :: w).

Inductive tag_list_text : bytes → list entity_tag → Prop :=
  | text_nil : tag_list_text [] []
  | text_cons t sep rest ts :
      valid_tag t → tag_separator sep → tag_list_text rest ts →
      tag_list_text (print_tag t ++ sep ++ rest) (t :: ts).

(** ** The iterator goes through exactly the grammar *)

Section etag.
Context `{Http}.

Lemma text_head s ts :
  tag_list_text s ts → match s with [] => True | x :: _ => is_ows x = false ∧ x ≠ x2c end.
Proof. by destruct 1 as [|[[] o] sep rest ts]. Qed.

Lemma text_not_star s ts : tag_list_text s ts → s ≠ bs "*".
Proof. intros Hs He. subst s. by inversion Hs as [|[[] o] ? ? ? ? ? ? Heq]. Qed.

Lemma skip_separator_text sep rest ts :
  tag_separator sep → tag_list_text rest ts → skip_separator (sep ++ rest) = rest.
Proof.
  intros Hsep Hrest%text_head. destruct Hsep as [|w Hw].
  - destruct rest as [|x r]; [done|]. simpl. rewrite decide_False by apply Hrest. done.
  - cbn [app]. apply skip_separator_ows; [done|]. by destruct rest as [|x r]; [|apply Hrest].
Qed.

Lemma skip_separator_inv rem : ∃ sep, tag_separator sep ∧ rem = sep ++ skip_separator rem.
Proof.
  destruct rem as [|x r]; [by exists []; split; [constructor|]|]. simpl.
  case_decide as Hx; [subst x|by exists []; split; [constructor|]].
  destruct (trim_start_inv is_ows r) as (w & Hr & Hw). exists (x2c :: w). split; [by constructor|].
  cbn [app]. by f_equal.
Qed.

Lemma items_text s ts : tag_list_text s ts → ∀ fuel, (length s < fuel)%nat →
  items fuel (mk_List s false) = (print_tag <$> ts, mk_List [] false).
Proof.
  induction 1 as [|t sep rest ts Ht Hsep Hrest IH]; intros [|fuel] Hf; try lia; [done|].
  cbn [items]. rewrite next_print by done. rewrite (skip_separator_text sep rest ts) by done.
  pose proof (print_tag_length t). rewrite !length_app in Hf. by rewrite IH by lia.
Qed.

Lemma items_text_inv fuel : ∀ s its l', (length s < fuel)%nat →
  items fuel (mk_List s false) = (its, l') → l_corrupt l' = false →
  ∃ ts, its = print_tag <$> ts ∧ tag_list_text s ts.
Proof.
  induction fuel as [|fuel IH]; intros s its l' Hf Hit Hc; [lia|]. cbn [items] in Hit.
  unfold next in Hit. cbn [l_remaining l_corrupt] in Hit. case_decide as Hnil.
  { injection Hit as <- <-. subst s. by exists []; split; [|constructor]. }
  destruct (etag_end s) as [e|] eqn:He; [|by injection Hit as <- <-].
  apply etag_end_inv in He as (t & rest & Ht & -> & Hlen).
  rewrite Hlen, take_app_length, drop_app_length in Hit.
  destruct (items fuel _) as [its1 l1] eqn:Hit1. injection Hit as <- <-.
  pose proof (skip_separator_length rest). pose proof (print_tag_length t).
  rewrite length_app in Hf. apply IH in Hit1 as (ts & -> & Hts); [|lia|done].
  exists (t :: ts). split; [done|]. destruct (skip_separator_inv rest) as (sep & Hsep & Hr).
  rewrite Hr at 1. by constructor.
Qed.

(** The loop of the two conditions over any header: the tags of a list of the
    grammar, or corrupt. *)
Lemma items_grammar s :
  (∃ ts, tag_list_text s ts ∧
     items (items_fuel (List_from s)) (List_from s) = (print_tag <$> ts, mk_List [] false)) ∨
  ((∀ ts, ¬ tag_list_text s ts) ∧
     ∃ its l', items (items_fuel (List_from s)) (List_from s) = (its, l') ∧ l_corrupt l' = true).
Proof.
  unfold items_fuel, List_from. cbn [l_remaining].
  destruct (items (S (length s)) (mk_List s false)) as [its l'] eqn:Hit.
  destruct (l_corrupt l') eqn:Hc.
  - right. split; [|by exists its, l']. intros ts Hts.
    rewrite (items_text s ts Hts) in Hit by lia. by injection Hit as <- <-.
  - left. destruct (items_text_inv (S (length s)) s its l') as (ts & -> & Hts); [lia|done..|].
    exists ts. split; [done|]. by rewrite <- Hit, (items_text s ts Hts) by lia.
Qed.

(** The two conditions on a list of the grammar. *)
Lemma tag_text_match (e v : HeaderValue) (t : entity_tag) ts (hdrs : HeaderMap) :
  as_bytes e = print_tag t → as_bytes v ≠ bs "*" → tag_list_text (as_bytes v) ts →
  (hm_get hdrs IF_NONE_MATCH = Some v →
   none_match (Some e) hdrs = Some (negb (existsb (λ u, weak_match u t) ts))) ∧
  (hm_get hdrs IF_MATCH = Some v →
   any_match (Some e) hdrs = Ok (existsb (λ u, strong_match u t) ts)).
Proof.
  intros He Hstar Hts. unfold none_match, any_match.
  split; intros ->; rewrite decide_False, for_items_fold by done;
    unfold items_fuel, List_from; rewrite (items_text _ ts Hts) by (simpl; lia); simpl; rewrite He.
  - rewrite none_match_fold. by rewrite (existsb_tags weak_eq weak_match) by (intros; apply weak_eq_tags).
  - rewrite any_match_fold. by rewrite (existsb_tags strong_eq strong_match) by (intros; apply strong_eq_tags).
Qed.
End etag.

Section properties.
Context `{Http}.

(** C21: the two conditions on every header.  Without the header [none_match]
    has no answer and [any_match] holds; ["*"] matches, whether the entity has a
    tag or not.  Any other value matches nothing if the entity has no tag; if it
    has one, a value of the grammar is the list of its tags, which [none_match]
    compares weakly and [any_match] strongly with the entity's, and any other
    value, such as one with whitespace before a comma, makes [none_match] ignore
    the header and [any_match] fail. *)
Theorem conditional_headers_grammar (etag : option HeaderValue) (t : option entity_tag) (hdrs : HeaderMap) :
  as_bytes <$> etag = print_tag <$> t →
  (hm_get hdrs IF_NONE_MATCH = None → none_match etag hdrs = None) ∧
  (hm_get hdrs IF_MATCH = None → any_match etag hdrs = Ok true) ∧
  (∀ v, hm_get hdrs IF_NONE_MATCH = Some v →
     (as_bytes v = bs "*" → none_match etag hdrs = Some false) ∧
     (as_bytes v ≠ bs "*" → t = None → none_match etag hdrs = Some true) ∧
     (∀ t' ts, t = Some t' → tag_list_text (as_bytes v) ts →
        none_match etag hdrs = Some (negb (existsb (λ u, weak_match u t') ts))) ∧
     (as_bytes v ≠ bs "*" → t ≠ None → (∀ ts, ¬ tag_list_text (as_bytes v) ts) → none_match etag hdrs = None)) ∧
  (∀ v, hm_get hdrs IF_MATCH = Some v →
     (as_bytes v = bs "*" → any_match etag hdrs = Ok true) ∧
     (as_bytes v ≠ bs "*" → t = None → any_match etag hdrs = Ok false) ∧
     (∀ t' ts, t = Some t' → tag_list_text (as_bytes v) ts →
        any_match etag hdrs = Ok (existsb (λ u, strong_match u t') ts)) ∧
     (as_bytes v ≠ bs "*" → t ≠ None → (∀ ts, ¬ tag_list_text (as_bytes v) ts) →
        any_match etag hdrs = Err (bs "Unparseable If-Match header"))).
Proof.
  intros He. assert (t = None → etag = None) as Hnone by (intros ->; by destruct etag).
  assert (∀ t', t = Some t' → ∃ e, etag = Some e ∧ as_bytes e = print_tag t') as Hsome
    by (intros t' ->; destruct etag as [e|]; [|done]; injection He; eauto).
  assert (∀ v, (∀ ts, ¬ tag_list_text (as_bytes v) ts) → ∃ its l',
    items (items_fuel (List_from (as_bytes v))) (List_from (as_bytes v)) = (its, l') ∧ l_corrupt l' = true) as Hbad.
  { intros v Hno. by destruct (items_grammar (as_bytes v)) as [(ts & Hts & _)|[_ ?]]; [destruct (Hno ts)|]. }
  split; [by unfold none_match; intros ->|]. split; [by unfold any_match; intros ->|].
  split; intros v Hv; split_and!.
  - intros Hs. unfold none_match. by rewrite Hv, decide_True.
  - intros Hs ->%Hnone. unfold none_match. by rewrite Hv, decide_False.
  - intros t' ts (e & -> & Ht)%Hsome Hts.
    by apply (tag_text_match e v t' ts hdrs Ht (text_not_star _ _ Hts) Hts).
  - intros Hs Ht Hno. destruct t as [t'|]; [|done]. destruct (Hsome t' eq_refl) as (e & -> & _).
    destruct (Hbad v Hno) as (its & l' & Hit & Hc). unfold none_match.
    rewrite Hv, decide_False, for_items_fold, Hit by done. simpl. by rewrite Hc.
  - intros Hs. unfold any_match. by rewrite Hv, decide_True.
  - intros Hs ->%Hnone. unfold any_match. by rewrite Hv, decide_False.
  - intros t' ts (e & -> & Ht)%Hsome Hts.
    by apply (tag_text_match e v t' ts hdrs Ht (text_not_star _ _ Hts) Hts).
  - intros Hs Ht Hno. destruct t as [t'|]; [|done]. destruct (Hsome t' eq_refl) as (e & -> & _).
    destruct (Hbad v Hno) as (its & l' & Hit & Hc). unfold any_match.
    rewrite Hv, decide_False, for_items_fold, Hit by done. simpl. by rewrite Hc.
Qed.
End properties.

(** ** Concrete lists *)

(** No separator at all is accepted, whitespace before a comma is not. *)
Definition run_on_list : bytes := print_tag foo_tag ++ print_tag (Tag true (bs "bar")).
Definition spaced_list : bytes := print_tag foo_tag ++ bs " , " ++ print_tag foo_tag.

Lemma conditional_headers_grammar_witness :
  @none_match plain_http (Some (print_tag foo_tag)) [(bs "if-none-match", run_on_list)] = Some false ∧
  @any_match plain_http (Some (print_tag foo_tag)) [(bs "if-match", spaced_list)]
    = Err (bs "Unparseable If-Match header").
Proof.
  assert (tag_list_text run_on_list [foo_tag; Tag true (bs "bar")]) as Hrun.
  { apply (text_cons _ [] (print_tag (Tag true (bs "bar")))); [by_compute|constructor|].
    apply (text_cons (Tag true (bs "bar")) [] []); [by_compute|constructor..]. }
  split.
  - destruct (@conditional_headers_grammar plain_http (Some (print_tag foo_tag)) (Some foo_tag)
      [(bs "if-none-match", run_on_list)]) as (_ & _ & Hn & _); [reflexivity|].
    destruct (Hn run_on_list eq_refl) as (_ & _ & Hyes & _). refine (eq_trans (Hyes _ _ eq_refl Hrun) _). reflexivity.
  - destruct (@conditional_headers_grammar plain_http (Some (print_tag foo_tag)) (Some foo_tag)
      [(bs "if-match", spaced_list)]) as (_ & _ & _ & Ha); [reflexivity|].
    destruct (Ha spaced_list eq_refl) as (_ & _ & _ & Hno). apply Hno; [discriminate|discriminate|]. intros ts Hts.
    pose proof (items_text spaced_list ts Hts 100 ltac:(by_compute)) as Hit.
    apply (f_equal (λ p, l_corrupt p.2)) in Hit. vm_compute in Hit. discriminate.
Defined.
