(* ===== verification/Stream.v ===== *)
(** * Streams of data chunks, and [ExactLenStream] (src/body.rs)

    A [dyn Stream] is known only by its answers to [poll_next], so it is
    modelled as the sequence of those answers.  [Pollable] is the common
    interface of everything that is polled for chunks; [yields] describes what
    a consumer that polls until the end or the first error receives, and
    [drain] computes it. *)

From S2P Require Import Prelude RustStd HttpApi Plain.

Inductive poll (A : Type) :=
  | Ready (a : A)
  | Pending.
Arguments Ready {A} a.
Arguments Pending {A}.

(** The errors this crate boxes: its own two, and I/O errors. *)
Inductive BoxError :=
  | StreamTooShortError (remaining : Z)
  | StreamTooLongError (extra : Z)
  | BoxIo (e : io_error).

#[export] Instance BoxError_eq_decision : EqDecision BoxError.
Proof. solve_decision. Defined.

(** [Display] of the crate's own errors. *)
Definition fmt_error (e : BoxError) : bytes :=
  match e with
  | StreamTooShortError n =>
      bs "stream ended with " ++ fmt_dec n ++ bs " bytes still expected"
  | StreamTooLongError n =>
      bs "stream returned (at least) " ++ fmt_dec n ++ bs " bytes more than expected"
  | BoxIo e => message e
  end.

(** [E: From<BoxError>]. *)
Class FromBoxError (E : Type) := from_box_error : BoxError → E.

(** What one poll of a stream gives. *)
Abbreviation poll_item D E := (poll (option (result D E))).

Class Pollable (S D E : Type) :=
  poll_next : S → outcome (poll_item D E * S).

Definition Stream (D E : Type) : Type := nat → poll_item D E.

(** The stream after one poll. *)
Definition stream_tail {D E} (s : Stream D E) : Stream D E := λ n, s (S n).

#[export] Instance stream_pollable D E : Pollable (Stream D E) D E :=
  λ s, Ret (s O, stream_tail s).

(** ** Consuming a stream *)

Inductive ended (E : Type) :=
  | Done
  | Failed (e : E).
Arguments Done {E}.
Arguments Failed {E} e.

Section consume.
Context `{Buf D} {E S : Type} `{!Pollable S D E}.

(** Polling until the end or the first error gives these bytes, this end and
    leaves the stream in this state. *)
Inductive yields : S → bytes → ended E → S → Prop :=
  | yields_done s s' :
      poll_next s = Ret (Ready None, s') → yields s [] Done s'
  | yields_failed s e s' :
      poll_next s = Ret (Ready (Some (Err e)), s') → yields s [] (Failed e) s'
  | yields_pending s s1 bs r s' :
      poll_next s = Ret (Pending, s1) → yields s1 bs r s' → yields s bs r s'
  | yields_chunk s d s1 bs r s' :
      poll_next s = Ret (Ready (Some (Ok d)), s1) → yields s1 bs r s' →
      yields s (buf_bytes d ++ bs) r s'.

(** The same, computed with at most [fuel] polls. *)
Fixpoint drain (fuel : nat) (s : S) : outcome (option (bytes * ended E * S)) :=
  match fuel with
  | O => Ret None
  | Datatypes.S fuel' =>
      r ← poll_next s;
      match r with
      | (Ready None, s') => Ret (Some ([], Done, s'))
      | (Ready (Some (Err e)), s') => Ret (Some ([], Failed e, s'))
      | (Pending, s') => drain fuel' s'
      | (Ready (Some (Ok d)), s') =>
          o ← drain fuel' s';
          Ret (match o with
               | Some (bs, r, s'') => Some (buf_bytes d ++ bs, r, s'')
               | None => None
               end)
      end
  end.

(** [fuel] polls, whatever they answer: the bytes of the chunks received and
    the state reached. *)
Fixpoint poll_times (fuel : nat) (s : S) : outcome (bytes * S) :=
  match fuel with
  | O => Ret ([], s)
  | Datatypes.S fuel' =>
      '(item, s1) ← poll_next s;
      '(bs, s') ← poll_times fuel' s1;
      Ret (match item with
           | Ready (Some (Ok d)) => (buf_bytes d ++ bs, s')
           | _ => (bs, s')
           end)
  end.

Lemma yields_chunk_eq s d s1 bs bs' r s' :
  poll_next s = Ret (Ready (Some (Ok d)), s1) → yields s1 bs' r s' →
  bs = buf_bytes d ++ bs' → yields s bs r s'.
Proof. intros Hp Hy ->. by eapply yields_chunk. Qed.

Lemma yields_ext s1 s2 bs r s' :
  poll_next s1 = poll_next s2 → yields s2 bs r s' → yields s1 bs r s'.
Proof.
  intros Heq Hy. revert s1 Heq.
  destruct Hy as [s2 s' Hp|s2 e s' Hp|s2 s3 bs r s' Hp Hy|s2 d s3 bs r s' Hp Hy];
    intros s1 Heq; rewrite Hp in Heq; eauto using yields.
Qed.

(** [fuel] polls, stopping at the end or the first error. *)
Fixpoint poll_until (fuel : nat) (s : S) : outcome (bytes * option (ended E) * S) :=
  match fuel with
  | O => Ret ([], None, s)
  | Datatypes.S fuel' =>
      r ← poll_next s;
      match r with
      | (Ready None, s') => Ret ([], Some Done, s')
      | (Ready (Some (Err e)), s') => Ret ([], Some (Failed e), s')
      | (Pending, s') => poll_until fuel' s'
      | (Ready (Some (Ok d)), s') =>
          '(bs, r, s'') ← poll_until fuel' s'; Ret (buf_bytes d ++ bs, r, s'')
      end
  end.

(** A finite consumption is computed by any large enough fuel. *)
Lemma yields_drain s bs r s' :
  yields s bs r s' → ∃ n, ∀ m, (n <= m)%nat → drain m s = Ret (Some (bs, r, s')).
Proof.
  induction 1 as [s s' Hp|s e s' Hp|s s1 bs r s' Hp _ [n IH]|s d s1 bs r s' Hp _ [n IH]].
  - exists 1%nat. intros [|m] Hm; [lia|]. simpl. by rewrite Hp.
  - exists 1%nat. intros [|m] Hm; [lia|]. simpl. by rewrite Hp.
  - exists (Datatypes.S n). intros [|m] Hm; [lia|]. simpl. rewrite Hp. simpl.
    apply IH. lia.
  - exists (Datatypes.S n). intros [|m] Hm; [lia|]. simpl. rewrite Hp. simpl.
    rewrite IH by lia. done.
Qed.

Lemma drain_yields n s bs r s' :
  drain n s = Ret (Some (bs, r, s')) → yields s bs r s'.
Proof.
  revert s bs. induction n as [|n IH]; intros s bs; simpl; [done|].
  destruct (poll_next s) as [[item s1]|] eqn:Hp; [|done]. simpl.
  destruct item as [[[d|e]|]|].
  - destruct (drain n s1) as [[[[bs1 r1] s2]|]|] eqn:Hd; simpl; [|done..].
    intros [= <- <- <-]. eapply yields_chunk; eauto.
  - intros [= <- <- <-]. by apply yields_failed.
  - intros [= <- <- <-]. by apply yields_done.
  - intros Hd. eapply yields_pending; eauto.
Qed.

Lemma yields_functional s bs1 r1 s1 bs2 r2 s2 :
  yields s bs1 r1 s1 → yields s bs2 r2 s2 → bs1 = bs2 ∧ r1 = r2 ∧ s1 = s2.
Proof.
  intros [n1 H1]%yields_drain [n2 H2]%yields_drain.
  specialize (H1 (max n1 n2) ltac:(lia)). specialize (H2 (max n1 n2) ltac:(lia)).
  rewrite H1 in H2. by injection H2 as -> -> ->.
Qed.
End consume.

(** Streams that give the same answers are consumed alike. *)
Lemma yields_stream_ext {D E} `{Buf D} (s1 s2 : Stream D E) bs r s' :
  yields s1 bs r s' → (∀ n, s2 n = s1 n) → ∃ s'', yields s2 bs r s''.
Proof.
  intros Hy. revert s2.
  induction Hy as [s1 s' Hp|s1 e s' Hp|s1 s3 bs r s' Hp _ IH|s1 d s3 bs r s' Hp _ IH];
    intros s2 Heq; injection Hp as Hitem <-; rewrite <- Heq in Hitem.
  - eexists. apply yields_done. unfold poll_next, stream_pollable. by rewrite Hitem.
  - eexists. apply yields_failed. unfold poll_next, stream_pollable. by rewrite Hitem.
  - destruct (IH (stream_tail s2)) as [s'' Hy]; [intros n; apply Heq|].
    eexists. eapply yields_pending; [|done]. unfold poll_next, stream_pollable. by rewrite Hitem.
  - destruct (IH (stream_tail s2)) as [s'' Hy]; [intros n; apply Heq|].
    eexists. eapply yields_chunk; [|done]. unfold poll_next, stream_pollable. by rewrite Hitem.
Qed.

(** ** Streams that know their length

    The interface [ExactLenStream], [MultipartStream] and the bodies made of
    them implement: from a state that is [sized_ok], every poll answers, and
    what it gives comes off the number of bytes [sized_left]. *)
Class Sized (S : Type) := {
  sized_ok : S → Prop;
  sized_left : S → Z
}.

Class SizedLaws (S D E : Type) `{!Pollable S D E, !Buf D, !Sized S} : Prop := {
  sized_left_nonneg : ∀ s, sized_ok s → 0 <= sized_left s;
  sized_poll : ∀ s, sized_ok s →
    ∃ item s', poll_next s = Ret (item, s') ∧
      match item with
      | Ready (Some (Ok d)) => sized_ok s' ∧ remaining d + sized_left s' = sized_left s
      | Ready (Some (Err _)) => 0 <= sized_left s' <= sized_left s
      | Ready None => sized_left s = 0 ∧ sized_left s' = 0
      | Pending => sized_ok s' ∧ sized_left s' = sized_left s
      end
}.

(** Polling one until it ends or fails: it never panics, it gives what it
    announced if it ends, and no more if it fails. *)
Lemma poll_until_sized {T D E : Type} `{SizedLaws T D E} fuel (s : T) :
  sized_ok s →
  ∃ bs r s', poll_until fuel s = Ret (bs, r, s') ∧
    match r with
    | Some Done => sized_left s' = 0 ∧ len bs = sized_left s
    | Some (Failed _) => 0 <= sized_left s' ∧ len bs + sized_left s' <= sized_left s
    | None => sized_ok s' ∧ len bs + sized_left s' = sized_left s
    end.
Proof.
  revert s. induction fuel as [|fuel IH]; intros s Hs; simpl.
  { eexists _, _, _. split; [done|]. by rewrite len_nil. }
  destruct (sized_poll s Hs) as (item & s1 & -> & Hitem). simpl.
  destruct item as [[[d|e]|]|].
  - destruct Hitem as [Hs1 Hd]. unfold remaining in Hd. pose proof (len_nonneg (buf_bytes d)).
    destruct (IH s1 Hs1) as (bs & r & s' & -> & Hr). simpl. eexists _, _, _. split; [done|].
    destruct r as [[|e]|]; len_simpl; intuition lia.
  - eexists _, _, _. split; [done|]. rewrite len_nil. lia.
  - eexists _, _, _. split; [done|]. rewrite len_nil. lia.
  - destruct Hitem as [Hs1 Hd]. rewrite <- Hd. auto.
Qed.

(** ** [ExactLenStream] *)

Record ExactLenStream (D E : Type) := mk_ExactLenStream {
  els_stream : Stream D E;
  els_remaining : Z
}.
Arguments mk_ExactLenStream {D E}.
Arguments els_stream {D E}.
Arguments els_remaining {D E}.

Section exact_len.
Context `{BufLaws D} {E : Type} `{FromBoxError E}.

Definition ExactLenStream_new (len : Z) (stream : Stream D E) : ExactLenStream D E :=
  mk_ExactLenStream stream len.

#[export] Instance exact_len_poll : Pollable (ExactLenStream D E) D E := λ this,
  let item := els_stream this O in
  let stream := stream_tail (els_stream this) in
  match item with
  | Ready (Some (Ok d)) =>
      let d_len := remaining d in
      match checked_sub (els_remaining this) d_len with
      | Some new_rem => Ret (Ready (Some (Ok d)), mk_ExactLenStream stream new_rem)
      | None =>
          Ret (Ready (Some (Err (from_box_error
                 (StreamTooLongError (d_len - els_remaining this))))),
               mk_ExactLenStream stream 0)
      end
  | Ready (Some (Err e)) =>
      Ret (Ready (Some (Err e)), mk_ExactLenStream stream (els_remaining this))
  | Ready None =>
      if negb (els_remaining this =? 0) then
        Ret (Ready (Some (Err (from_box_error (StreamTooShortError (els_remaining this))))),
             mk_ExactLenStream stream 0)
      else Ret (Ready None, mk_ExactLenStream stream (els_remaining this))
  | Pending => Ret (Pending, mk_ExactLenStream stream (els_remaining this))
  end.

(** How the wrapped stream's run relates to the wrapper's. *)
Inductive exact_len_run (n : Z) (bs : bytes) : ended E → bytes → ended E → Z → Prop :=
  | run_exact : len bs = n → exact_len_run n bs Done bs Done 0
  | run_short : len bs < n →
      exact_len_run n bs Done bs (Failed (from_box_error (StreamTooShortError (n - len bs)))) 0
  | run_failed e : len bs <= n → exact_len_run n bs (Failed e) bs (Failed e) (n - len bs)
  | run_long r pre d post :
      bs = pre ++ d ++ post → len pre <= n < len pre + len d →
      exact_len_run n bs r pre
        (Failed (from_box_error (StreamTooLongError (len pre + len d - n)))) 0.

Lemma exact_len_run_chunk n d bs r bs' r' rem :
  len d <= n → exact_len_run (n - len d) bs r bs' r' rem →
  exact_len_run n (d ++ bs) r (d ++ bs') r' rem.
Proof.
  intros Hd. destruct 1 as [Hl|Hl|e Hl|r pre d' post -> Hl].
  - apply run_exact. len_simpl. lia.
  - replace (n - len d - len bs) with (n - len (d ++ bs)) by (len_simpl; lia).
    apply run_short. len_simpl. lia.
  - replace (n - len d - len bs) with (n - len (d ++ bs)) by (len_simpl; lia).
    apply run_failed. len_simpl. lia.
  - replace (len pre + len d' - (n - len d)) with (len (d ++ pre) + len d' - n)
      by (len_simpl; lia).
    apply (run_long _ _ _ _ _ post); [by rewrite <- app_assoc|]. len_simpl. lia.
Qed.

Lemma exact_len_yields (s : Stream D E) bs r s' n :
  yields s bs r s' → 0 <= n →
  ∃ bs' r' rem s'', exact_len_run n bs r bs' r' rem ∧
    yields (mk_ExactLenStream s n) bs' r' (mk_ExactLenStream s'' rem).
Proof.
  intros Hy. revert n.
  induction Hy as [s s' Hp|s e s' Hp|s s1 bs r s' Hp _ IH|s d s1 bs r s' Hp _ IH];
    intros n Hn; injection Hp as Hitem <-.
  - destruct (Z.eqb_spec n 0) as [->|Hne].
    + exists [], Done, 0, (stream_tail s). split; [by apply run_exact|].
      apply yields_done. unfold poll_next, exact_len_poll. simpl. by rewrite Hitem.
    + eexists [], _, 0, (stream_tail s). split; [apply run_short; len_simpl; lia|].
      apply yields_failed. unfold poll_next, exact_len_poll. simpl. rewrite Hitem.
      rewrite (proj2 (Z.eqb_neq n 0)) by done. simpl. rewrite len_nil. by rewrite Z.sub_0_r.
  - eexists [], _, _, (stream_tail s). split; [apply run_failed; len_simpl; lia|].
    apply yields_failed. unfold poll_next, exact_len_poll. simpl. rewrite Hitem.
    by rewrite len_nil, Z.sub_0_r.
  - destruct (IH n Hn) as (bs' & r' & rem & s'' & Hrun & Hy').
    exists bs', r', rem, s''. split; [done|]. eapply yields_pending; [|done].
    unfold poll_next, exact_len_poll. simpl. by rewrite Hitem.
  - destruct (checked_sub n (remaining d)) as [n'|] eqn:Hsub.
    + pose proof Hsub as [Hle ->]%checked_sub_Some. unfold remaining in *.
      destruct (IH (n - len (buf_bytes d))) as (bs' & r' & rem & s'' & Hrun & Hy'); [lia|].
      exists (buf_bytes d ++ bs'), r', rem, s''. split; [by apply exact_len_run_chunk|].
      eapply yields_chunk; [|done].
      unfold poll_next, exact_len_poll. simpl. rewrite Hitem. unfold remaining.
      by rewrite Hsub.
    + pose proof Hsub as Hlt%checked_sub_None. unfold remaining in *.
      eexists [], _, 0, (stream_tail s). split.
      * apply (run_long _ _ _ [] (buf_bytes d) bs); [done|]. len_simpl. lia.
      * apply yields_failed. unfold poll_next, exact_len_poll. simpl. rewrite Hitem.
        unfold remaining. rewrite Hsub, len_nil. done.
Qed.

(** The invariant of a poll: the chunk passed on and what remains add up to at
    most what remained, and exactly that when a chunk is passed on. *)
Lemma exact_len_step (this this' : ExactLenStream D E) item :
  0 <= els_remaining this → poll_next this = Ret (item, this') →
  0 <= els_remaining this' <= els_remaining this ∧
  match item with
  | Ready (Some (Ok d)) => remaining d + els_remaining this' = els_remaining this
  | Ready None => els_remaining this = 0
  | Pending => els_remaining this' = els_remaining this
  | _ => True
  end.
Proof.
  intros Hrem. unfold poll_next, exact_len_poll.
  destruct (els_stream this 0%nat) as [[[d|e]|]|].
  - destruct (checked_sub (els_remaining this) (remaining d)) as [n|] eqn:Hs;
      intros [= <- <-]; simpl; [|lia]. apply checked_sub_Some in Hs as [Hle ->].
    unfold remaining in *. pose proof (len_nonneg (buf_bytes d)). lia.
  - intros [= <- <-]. simpl. lia.
  - destruct (Z.eqb_spec (els_remaining this) 0); simpl; intros [= <- <-]; simpl; lia.
  - intros [= <- <-]. simpl. lia.
Qed.

(** A poll of an [ExactLenStream] never panics. *)
Lemma exact_len_no_panic (this : ExactLenStream D E) :
  ∃ item this', poll_next this = Ret (item, this').
Proof.
  unfold poll_next, exact_len_poll. repeat case_match; eauto.
Qed.

#[export] Instance exact_len_sized : Sized (ExactLenStream D E) :=
  {| sized_ok this := 0 <= els_remaining this; sized_left := els_remaining |}.

#[export] Instance exact_len_sized_laws : SizedLaws (ExactLenStream D E) D E.
Proof.
  split; simpl; [done|]. intros this Hrem.
  destruct (exact_len_no_panic this) as (item & this' & Hp).
  pose proof (exact_len_step _ _ _ Hrem Hp) as [Hrem' Hitem].
  exists item, this'. split; [done|]. destruct item as [[[d|e]|]|]; lia.
Qed.

Lemma exact_len_poll_times fuel (this : ExactLenStream D E) :
  0 <= els_remaining this →
  ∃ bs this', poll_times fuel this = Ret (bs, this') ∧
    0 <= els_remaining this' ∧ len bs + els_remaining this' <= els_remaining this.
Proof.
  revert this. induction fuel as [|fuel IH]; intros this Hrem.
  { exists [], this. split; [done|]. rewrite len_nil. lia. }
  destruct (exact_len_no_panic this) as (item & this1 & Hp).
  pose proof (exact_len_step _ _ _ Hrem Hp) as [Hrem1 Hitem].
  destruct (IH this1 ltac:(lia)) as (bs & this' & Hpt & Hr & Hl).
  simpl. rewrite Hp. simpl. rewrite Hpt. simpl.
  destruct item as [[[d|e]|]|].
  - exists (buf_bytes d ++ bs), this'. split; [done|]. len_simpl.
    unfold remaining in Hitem. lia.
  - exists bs, this'. split; [done|]. lia.
  - exists bs, this'. split; [done|]. lia.
  - exists bs, this'. split; [done|]. lia.
Qed.
End exact_len.

Section properties.
Context `{BufLaws D} {E : Type} `{FromBoxError E}.

(** If the wrapped stream is consumed in finitely many polls, so is the
    [ExactLenStream], and what it gives is determined by the length: the same
    bytes and end if the stream gives exactly [n] bytes; the bytes then
    [StreamTooShortError] with the missing count if fewer; the chunks that fit
    then [StreamTooLongError] with the excess of the first that does not if
    more; the stream's own error if it fails within its [n] bytes. *)
Theorem exact_len_stream_spec (s s' : Stream D E) (bs : bytes) (r : ended E) (n : Z) :
  yields s bs r s' → 0 <= n →
  ∃ bs' r' rem s'' fuel, exact_len_run n bs r bs' r' rem ∧
    drain fuel (ExactLenStream_new n s) = Ret (Some (bs', r', mk_ExactLenStream s'' rem)).
Proof.
  intros Hy Hn. destruct (exact_len_yields s bs r s' n Hy Hn)
    as (bs' & r' & rem & s'' & Hrun & [fuel Hd]%yields_drain).
  exists bs', r', rem, s'', fuel. split; [done|]. by apply Hd.
Qed.

(** However the wrapped stream behaves, however often the
    [ExactLenStream] is polled and even after an error, polling never panics
    and the chunks passed on never exceed the announced length. *)
Theorem exact_len_stream_bound (s : Stream D E) (n : Z) (fuel : nat) :
  0 <= n →
  ∃ bs this, poll_times fuel (ExactLenStream_new n s) = Ret (bs, this) ∧
    0 <= els_remaining this ∧ len bs + els_remaining this <= n.
Proof. intros Hn. by apply (exact_len_poll_times fuel (ExactLenStream_new n s)). Qed.
End properties.

(** The stream of a list of answers, which ends after the last. *)
Definition stream_of_list {D E} (l : list (poll_item D E)) : Stream D E :=
  λ n, nth n l (Ready None).

#[local] Instance box_error_self : FromBoxError BoxError := id.
#[local] Existing Instances plain_buf plain_buf_laws.

(** Five bytes in two chunks. *)
Definition five_bytes : Stream bytes BoxError :=
  stream_of_list [Ready (Some (Ok (bs "abc"))); Pending; Ready (Some (Ok (bs "de")))].

Lemma five_bytes_yields :
  yields five_bytes (bs "abcde") Done (stream_tail (stream_tail (stream_tail (stream_tail five_bytes)))).
Proof. by apply (drain_yields 4). Qed.

Lemma exact_len_stream_spec_witness :
  ∃ this fuel,
    drain fuel (ExactLenStream_new 4 five_bytes) =
      Ret (Some (bs "abc", Failed (StreamTooLongError 1), this)).
Proof.
  destruct (exact_len_stream_spec five_bytes _ _ _ 4 five_bytes_yields)
    as (bs' & r' & rem & s'' & fuel & _ & Hd); [done|].
  eexists _, fuel. rewrite Hd.
  assert (drain 4 (ExactLenStream_new 4 five_bytes) =
    Ret (Some (bs "abc", Failed (StreamTooLongError 1),
      mk_ExactLenStream (stream_tail (stream_tail (stream_tail five_bytes))) 0)))
    as H4%drain_yields by reflexivity.
  apply drain_yields in Hd. by destruct (yields_functional _ _ _ _ _ _ _ Hd H4) as (-> & -> & _).
Defined.

Lemma exact_len_stream_bound_witness :
  ∃ bs this, poll_times 10 (ExactLenStream_new 4 five_bytes) = Ret (bs, this) ∧ len bs <= 4.
Proof.
  destruct (exact_len_stream_bound five_bytes 4 10 ltac:(done)) as (bs & this & Hp & Hr & Hl).
  exists bs, this. split; [exact Hp|lia].
Defined.

(** After [StreamTooLongError] the stream is not fused: [remaining] is 0 but the
    wrapped stream is still polled, and its next chunk is one more error. *)
Example too_long_is_not_fused :
  let s := ExactLenStream_new 1 (stream_of_list [Ready (Some (Ok (bs "ab"))); Ready (Some (Ok (bs "cd")))]) in
  (poll_next s ≫= λ '(_, s1), poll_next s1 ≫= λ '(item, _), Ret item)
  = Ret (Ready (Some (Err (StreamTooLongError 2))) : poll_item bytes BoxError).
Proof. reflexivity. Qed.
