(* ===== verification/Entity.v ===== *)
(** * The [Entity] trait (src/lib.rs)

    What [serve] needs of a resource, and the contract the trait's
    documentation states. *)

From S2P Require Import Prelude RustStd HttpApi Plain Range Stream.

(** ** Formatted header values *)

Section format.
Context `{HttpLaws}.

(** [unsafe_fmt_ascii_val!], held to its contract: data that does not fit in
    [max_len] bytes panics. *)
Definition unsafe_fmt_ascii_val (max_len : Z) (text : bytes) : outcome HeaderValue :=
  if len text <=? max_len then Ret (from_maybe_shared_unchecked text) else Panic UnwrapFailed.

Lemma fmt_ascii_ok max text :
  len text <= max → ∃ v, unsafe_fmt_ascii_val max text = Ret v ∧ as_bytes v = text.
Proof.
  intros Hl. unfold unsafe_fmt_ascii_val. rewrite (proj2 (Z.leb_le _ _)) by done.
  eexists. split; [done|]. apply as_bytes_unchecked.
Qed.

End format.

(** ** The trait *)

(** [etag] is the one method that an implementation of this crate can panic in. *)
Class Entity `{Http} (Ent D E : Type) := {
  entity_len : Ent → Z;
  get_range : Ent → range → Stream D E;
  add_headers : Ent → HeaderMap → HeaderMap;
  entity_etag : Ent → outcome (option HeaderValue);
  last_modified : Ent → option SystemTime
}.

Definition is_empty `{Entity Ent D E} (e : Ent) : bool := entity_len e =? 0.

(** The bytes an entity stands for. *)
Class Content (Ent : Type) := content : Ent → bytes.

Definition range_bytes `{Content Ent} (e : Ent) (r : range) : bytes :=
  slice (content e) (start r) (end_ r).

(** The header fields [serve] sets before it calls [add_headers]. *)
Definition reserved `{Http} : list HeaderName :=
  [ACCEPT_RANGES; CONTENT_LENGTH; CONTENT_RANGE; DATE; ETAG; LAST_MODIFIED].

(** Every call sees the same data; a stream gives exactly the bytes of its range,
    or fails early after some of them.  [add_headers] adds header fields the
    response does not already have a meaning for; it may overwrite its own. *)
Class EntityLaws `{Entity Ent D E, !Buf D, !Content Ent} (e : Ent) : Prop := {
  entity_len_u64 : entity_len e <= U64_MAX;
  content_len : len (content e) = entity_len e;
  get_range_yields : ∀ r, 0 <= start r <= end_ r → end_ r <= entity_len e →
    ∃ bs o s', yields (get_range e r) bs o s' ∧ bs `prefix_of` range_bytes e r ∧
               (o = Done → bs = range_bytes e r);
  add_headers_spec : ∃ hs,
    (∀ m k, (∀ k', values_of k' hs ≠ [] → hm_get_all m k' = []) →
       hm_get_all (add_headers e m) k = hm_get_all m k ++ values_of k hs) ∧
    ∀ k, k ∈ reserved → values_of k hs = []
}.
Arguments entity_len_u64 {_ _ _ _ _ _ _} e {_}.
Arguments content_len {_ _ _ _ _ _ _} e {_}.
Arguments get_range_yields {_ _ _ _ _ _ _} e {_} r.
Arguments add_headers_spec {_ _ _ _ _ _ _} e {_}.

(** The part of the contract that says nothing of the data: the length fits in a
    [u64], and [add_headers] keeps to its own header fields.  The streams of such
    an entity can give too little, too much, or fail. *)
Class EntityFrame `{Entity Ent D E} (e : Ent) : Prop := {
  frame_len : 0 <= entity_len e <= U64_MAX;
  frame_headers : ∃ hs,
    (∀ m k, (∀ k', values_of k' hs ≠ [] → hm_get_all m k' = []) →
       hm_get_all (add_headers e m) k = hm_get_all m k ++ values_of k hs) ∧
    ∀ k, k ∈ reserved → values_of k hs = []
}.
Arguments frame_len {_ _ _ _ _} e {_}.
Arguments frame_headers {_ _ _ _ _} e {_}.

(** Decides that a header field is not one of [serve]'s. *)
Ltac not_reserved := unfold reserved; rewrite !not_elem_of_cons; split_and!; [name_ne..|apply not_elem_of_nil].

(** An [add_headers] that inserts one field. *)
Lemma insert_header_laws `{HttpLaws} (name : HeaderName) (v : HeaderValue) :
  name ∉ reserved → ∃ hs,
    (∀ m k, (∀ k', values_of k' hs ≠ [] → hm_get_all m k' = []) →
       hm_get_all (hm_insert m name v) k = hm_get_all m k ++ values_of k hs) ∧
    ∀ k, k ∈ reserved → values_of k hs = [].
Proof.
  intros Hn. exists [(name, v)].
  assert (∀ k v, values_of k [(name, v)] = if decide (name = k) then [v] else []) as Hval
    by (intros; unfold values_of; rewrite filter_cons; simpl; by case_decide).
  split; [intros m k Hk|intros k Hk]; rewrite ?Hval.
  - rewrite hm_get_all_insert. case_decide as He; [|by rewrite app_nil_r].
    rewrite Hk; [done|]. rewrite Hval. by rewrite decide_True.
  - by rewrite decide_False by (by intros <-).
Qed.

Section entity.
Context `{Entity Ent D E, !Buf D, !Content Ent} (e : Ent) `{!EntityLaws e}.

Lemma entity_len_nonneg : 0 <= entity_len e.
Proof. rewrite <- (content_len e). apply len_nonneg. Qed.

#[export] Instance laws_frame : EntityFrame e.
Proof.
  split; [|exact (add_headers_spec e)].
  split; [apply entity_len_nonneg|apply (entity_len_u64 e)].
Qed.

Lemma len_range_bytes r :
  0 <= start r <= end_ r → end_ r <= entity_len e → len (range_bytes e r) = end_ r - start r.
Proof. intros. unfold range_bytes. rewrite len_slice; rewrite ?(content_len e); lia. Qed.

(** The stream of a range, made exact: what the [ExactLenStream]s around it give. *)
Lemma exact_range_yields `{!FromBoxError E, !BufLaws D} r :
  0 <= start r <= end_ r → end_ r <= entity_len e →
  ∃ bs o rem s, yields (ExactLenStream_new (end_ r - start r) (get_range e r)) bs o
                  (mk_ExactLenStream s rem) ∧
    bs `prefix_of` range_bytes e r ∧
    (o = Done → bs = range_bytes e r ∧ rem = 0) ∧
    ((∃ bs s, yields (get_range e r) bs Done s) → o = Done).
Proof.
  intros Hr Hl. destruct (get_range_yields e r Hr Hl) as (bs & o & s' & Hy & Hpre & Hdone).
  destruct (exact_len_yields _ _ _ _ (end_ r - start r) Hy ltac:(lia))
    as (bs' & o' & rem & s'' & Hrun & Hy').
  pose proof (len_range_bytes r Hr Hl) as Hlen.
  assert (len bs <= end_ r - start r) as Hle.
  { destruct Hpre as [k Hk]. rewrite <- Hlen, Hk. len_simpl. pose proof (len_nonneg k). lia. }
  exists bs', o', rem, s''. split; [done|].
  assert ((∃ bs s, yields (get_range e r) bs Done s) → o = Done) as Hfun.
  { intros (b & s & Hy2). by destruct (yields_functional _ _ _ _ _ _ _ Hy Hy2) as (_ & -> & _). }
  destruct Hrun as [Hn|Hn|err Hn|o pre d post -> Hn].
  - split_and!; [done| |done]. by intros _; rewrite Hdone.
  - rewrite Hdone in Hn by done. lia.
  - split_and!; [done|done|]. intros Hf. by apply Hfun in Hf.
  - len_simpl. pose proof (len_nonneg post). lia.
Qed.
End entity.

(** ** An entity held in memory

    Used to evaluate concrete requests: one chunk per range. *)

#[local] Existing Instances plain_http plain_http_laws plain_buf plain_buf_laws.

Definition reserved_names : list bytes :=
  bs <$> ["accept-ranges"; "content-length"; "content-range"; "date"; "etag"; "last-modified"].

Record mem_entity := mk_mem_entity {
  me_content : bytes;
  me_headers : list (bytes * bytes);
  me_etag : option bytes;
  me_modified : option SystemTime;
  me_fits : (len me_content <=? U64_MAX) &&
    forallb (λ kv : bytes * bytes, negb (bool_decide (kv.1 ∈ reserved_names))) me_headers = true
}.

#[local] Instance mem_ops : Entity mem_entity bytes BoxError := {|
  entity_len e := len (me_content e);
  get_range e r := stream_of_list [Ready (Some (Ok (slice (me_content e) (start r) (end_ r))))];
  add_headers e m := hm_extend m (me_headers e);
  entity_etag e := Ret (me_etag e);
  last_modified e := me_modified e
|}.
#[local] Instance mem_content : Content mem_entity := me_content.

#[local] Instance mem_laws (e : mem_entity) : EntityLaws (D:=bytes) (E:=BoxError) e.
Proof.
  split.
  - pose proof (me_fits e). zbool. done.
  - done.
  - intros r Hr Hl. exists (range_bytes e r), Done, (stream_tail (stream_tail (get_range e r))).
    split; [|done]. eapply yields_chunk_eq with (bs' := []); [done|by apply yields_done|].
    by rewrite app_nil_r.
  - exists (me_headers e). split; [intros; apply hm_get_all_extend|].
    intros k Hk. pose proof (me_fits e) as [_ Hf]%andb_prop. rewrite forallb_forall in Hf.
    apply values_of_none, Forall_forall. intros kv Hin. specialize (Hf kv).
    rewrite <- list_elem_of_In in Hf. specialize (Hf Hin).
    apply negb_true_iff, bool_decide_eq_false in Hf. intros <-. exact (Hf Hk).
Qed.
