(* ===== verification/Multipart.v ===== *)
(** * The body of a multipart response (src/serving.rs, [MultipartStream]) *)

From S2P Require Import Prelude RustStd HttpApi Plain Range Stream Entity.

(** [state] is [2 i] before the headers of part [i], [2 i + 1] in its body;
    [2 n] is before the trailer and [2 n + 1] the end. *)
Record MultipartStream (Ent D E : Type) := mk_MultipartStream {
  cur : option (ExactLenStream D E);
  ms_state : Z;
  part_headers : list bytes;
  ranges : list range;
  entity : Ent;
  ms_remaining : Z
}.
Arguments mk_MultipartStream {Ent D E}.
Arguments cur {Ent D E}.
Arguments ms_state {Ent D E}.
Arguments part_headers {Ent D E}.
Arguments ranges {Ent D E}.
Arguments entity {Ent D E}.
Arguments ms_remaining {Ent D E}.

Definition PART_TRAILER : bytes := CRLF ++ bs "--B--" ++ CRLF.

Section multipart.
Context `{Build, Entity Ent D E, !Buf D, !FromBoxError E}.

Definition MultipartStream_new (ent : Ent) (hs : list bytes) (rs : list range) (len : Z)
    : MultipartStream Ent D E :=
  mk_MultipartStream None 0 hs rs ent len.

(** [len() << 1], at the width of [usize]. *)
Definition end_state (rs : list range) : Z := Z.shiftl (Z.of_nat (length rs)) 1 mod (usize_max + 1).

(** One turn of the loop from [let i = ...] on; [None] is the next turn. *)
Definition multipart_state (this : MultipartStream Ent D E)
    : outcome (option (poll_item D E) * MultipartStream Ent D E) :=
  let i := Z.shiftr (ms_state this) 1 in
  let odd := Z.land (ms_state this) 1 =? 1 in
  if (i =? Z.of_nat (length (ranges this))) && odd then
    _ ← debug_assert (ms_remaining this =? 0);
    Ret (Some (Ready None), this)
  else if i =? Z.of_nat (length (ranges this)) then
    st ← usize_add (ms_state this) 1;
    rem ← u64_sub (ms_remaining this) (len PART_TRAILER);
    Ret (Some (Ready (Some (Ok (from_static_slice PART_TRAILER)))),
         mk_MultipartStream (cur this) st (part_headers this) (ranges this) (entity this) rem)
  else if odd then
    match ranges this !! Z.to_nat i with
    | None => Panic IndexOutOfBounds
    | Some r =>
        l ← u64_sub (end_ r) (start r);
        Ret (None, mk_MultipartStream (Some (ExactLenStream_new l (get_range (entity this) r)))
                     (ms_state this) (part_headers this) (ranges this) (entity this)
                     (ms_remaining this))
    end
  else
    match part_headers this !! Z.to_nat i with
    | None => Panic IndexOutOfBounds
    | Some v =>
        st ← usize_add (ms_state this) 1;
        rem ← u64_sub (ms_remaining this) (len v);
        Ret (Some (Ready (Some (Ok (from_vec v)))),
             mk_MultipartStream (cur this) st (<[Z.to_nat i := []]> (part_headers this))
               (ranges this) (entity this) rem)
    end.

(** One turn of the loop. *)
Definition multipart_turn (this : MultipartStream Ent D E)
    : outcome (option (poll_item D E) * MultipartStream Ent D E) :=
  match cur this with
  | None => multipart_state this
  | Some c =>
      '(item, c) ← poll_next c;
      match item with
      | Ready (Some (Ok d)) =>
          rem ← u64_sub (ms_remaining this) (remaining d);
          Ret (Some (Ready (Some (Ok d))),
               mk_MultipartStream (Some c) (ms_state this) (part_headers this) (ranges this)
                 (entity this) rem)
      | Ready (Some (Err e)) =>
          Ret (Some (Ready (Some (Err e))),
               mk_MultipartStream (Some c) (Z.lor (end_state (ranges this)) 1)
                 (part_headers this) (ranges this) (entity this) 0)
      | Ready None =>
          st ← usize_add (ms_state this) 1;
          multipart_state (mk_MultipartStream None st (part_headers this) (ranges this)
                             (entity this) (ms_remaining this))
      | Pending =>
          Ret (Some Pending, mk_MultipartStream (Some c) (ms_state this) (part_headers this)
                               (ranges this) (entity this) (ms_remaining this))
      end
  end.

Fixpoint multipart_loop (fuel : nat) (this : MultipartStream Ent D E)
    : outcome (poll_item D E * MultipartStream Ent D E) :=
  match fuel with
  | O => Panic OutOfFuel
  | S fuel =>
      '(item, this) ← multipart_turn this;
      match item with
      | Some item => Ret (item, this)
      | None => multipart_loop fuel this
      end
  end.

(** Two turns are enough: one to start a part's body and one to poll it. *)
#[export] Instance multipart_poll : Pollable (MultipartStream Ent D E) D E := multipart_loop 2.
End multipart.

(** ** Invariant *)

(** What the parts [hs], [rs] and the trailer add up to, and what they are. *)
Fixpoint parts_len (hs : list bytes) (rs : list range) : Z :=
  match hs, rs with
  | h :: hs, r :: rs => len h + (end_ r - start r) + parts_len hs rs
  | _, _ => len PART_TRAILER
  end.

Fixpoint parts_bytes `{Content Ent} (ent : Ent) (hs : list bytes) (rs : list range) : bytes :=
  match hs, rs with
  | h :: hs, r :: rs => h ++ range_bytes ent r ++ parts_bytes ent hs rs
  | _, _ => PART_TRAILER
  end.

Definition range_ok (r : range) : Prop := 0 <= start r <= end_ r ∧ end_ r <= U64_MAX.

(** What [serve] passes to [MultipartStream_new]: a header for each range, and
    a number of ranges that fits in memory. *)
Definition multipart_ok `{Build} (hs : list bytes) (rs : list range) : Prop :=
  length hs = length rs ∧ Forall range_ok rs ∧ 2 * Z.of_nat (length rs) + 1 <= usize_max ∧
  parts_len hs rs <= U64_MAX.

Section invariant.
Context `{Build, Entity Ent D E, !Buf D, !BufLaws D, !FromBoxError E}.

(** Between two polls the stream is before a part (or the trailer), before the
    body of a part, in it, or at the end; [remaining] is what is left. *)
Inductive ms_inv (ent : Ent) (rs : list range) : MultipartStream Ent D E → Prop :=
  | inv_part hs (i : nat) :
      length hs = length rs → (i <= length rs)%nat →
      ms_inv ent rs (mk_MultipartStream None (2 * Z.of_nat i) hs rs ent
                       (parts_len (drop i hs) (drop i rs)))
  | inv_body hs (i : nat) r :
      length hs = length rs → rs !! i = Some r →
      ms_inv ent rs (mk_MultipartStream None (2 * Z.of_nat i + 1) hs rs ent
                       (end_ r - start r + parts_len (drop (S i) hs) (drop (S i) rs)))
  | inv_cur hs (i : nat) c :
      length hs = length rs → (i < length rs)%nat → 0 <= els_remaining c →
      ms_inv ent rs (mk_MultipartStream (Some c) (2 * Z.of_nat i + 1) hs rs ent
                       (els_remaining c + parts_len (drop (S i) hs) (drop (S i) rs)))
  | inv_end hs :
      ms_inv ent rs (mk_MultipartStream None (2 * Z.of_nat (length rs) + 1) hs rs ent 0).

Lemma parts_len_nonneg hs rs : Forall range_ok rs → len PART_TRAILER <= parts_len hs rs.
Proof.
  revert hs. induction rs as [|r rs IH]; intros [|h hs] Hrs; try done.
  apply Forall_cons in Hrs as [[Hr _] Hrs]. simpl. specialize (IH hs Hrs).
  pose proof (len_nonneg h). lia.
Qed.

Lemma shiftr_even i : Z.shiftr (2 * i) 1 = i.
Proof. rewrite Z.shiftr_div_pow2 by done. rewrite Z.mul_comm. by apply Z.div_mul. Qed.
Lemma shiftr_odd i : Z.shiftr (2 * i + 1) 1 = i.
Proof.
  rewrite Z.shiftr_div_pow2 by done. rewrite Z.mul_comm, Z.add_comm.
  by rewrite Z.div_add by done.
Qed.
Lemma odd_even i : Z.land (2 * i) 1 =? 1 = false.
Proof.
  change 1 with (Z.ones 1) at 1. rewrite Z.land_ones by done.
  rewrite Z.mul_comm. by rewrite Z.mod_mul.
Qed.
Lemma odd_odd i : Z.land (2 * i + 1) 1 =? 1 = true.
Proof.
  change 1 with (Z.ones 1) at 2. rewrite Z.land_ones by done.
  rewrite Z.mul_comm, Z.add_comm. by rewrite Z.mod_add.
Qed.

Section steps.
Context (ent : Ent) (rs : list range).
Context (Hrs : Forall range_ok rs) (Hmem : 2 * Z.of_nat (length rs) + 1 <= usize_max).

(** Before part [i] the stream gives the part's headers. *)
Lemma state_header hs (i : nat) h r :
  hs !! i = Some h → rs !! i = Some r →
  parts_len (drop i hs) (drop i rs) <= U64_MAX →
  multipart_state (mk_MultipartStream None (2 * Z.of_nat i) hs rs ent
                     (parts_len (drop i hs) (drop i rs))) =
    Ret (Some (Ready (Some (Ok (from_vec h)))),
         mk_MultipartStream None (2 * Z.of_nat i + 1) (<[i := []]> hs) rs ent
           (end_ r - start r + parts_len (drop (S i) hs) (drop (S i) rs))).
Proof.
  intros Hh Hr Hmax. rewrite (drop_S hs h i Hh), (drop_S rs r i Hr) in *. cbn [parts_len] in *.
  assert (range_ok r) as [Hr1 _] by (by eapply Forall_lookup_1).
  pose proof (parts_len_nonneg (drop (S i) hs) (drop (S i) rs) (Forall_drop _ _ _ Hrs)).
  assert (0 <= len PART_TRAILER) by done. pose proof (len_nonneg h).
  apply lookup_lt_Some in Hr. unfold multipart_state. cbn [ms_state ranges part_headers cur
    ms_remaining entity].
  rewrite shiftr_even, odd_even, andb_false_r, Nat2Z.id, Hh.
  rewrite (proj2 (Z.eqb_neq _ _)) by lia.
  rewrite usize_add_ok by lia. simpl. rewrite u64_sub_ok by lia. simpl.
  do 3 f_equal. lia.
Qed.

(** ... and after the last part the trailer. *)
Lemma state_trailer hs :
  multipart_state (mk_MultipartStream None (2 * Z.of_nat (length rs)) hs rs ent (len PART_TRAILER)) =
    Ret (Some (Ready (Some (Ok (from_static_slice PART_TRAILER)))),
         mk_MultipartStream None (2 * Z.of_nat (length rs) + 1) hs rs ent 0 : MultipartStream Ent D E).
Proof.
  unfold multipart_state. cbn [ms_state ranges part_headers cur ms_remaining entity].
  rewrite shiftr_even, odd_even, andb_false_r, Z.eqb_refl.
  by rewrite usize_add_ok by lia.
Qed.

Lemma turn_body hs (i : nat) r rem :
  rs !! i = Some r →
  multipart_turn (mk_MultipartStream None (2 * Z.of_nat i + 1) hs rs ent rem) =
    Ret (None, mk_MultipartStream (Some (ExactLenStream_new (end_ r - start r) (get_range ent r)))
                 (2 * Z.of_nat i + 1) hs rs ent rem).
Proof.
  intros Hr. assert (range_ok r) as [Hr1 Hr2] by (by eapply Forall_lookup_1).
  pose proof (lookup_lt_Some _ _ _ Hr). unfold multipart_turn, multipart_state.
  cbn [ms_state ranges part_headers cur ms_remaining entity].
  rewrite shiftr_odd, odd_odd, Nat2Z.id, Hr.
  rewrite (proj2 (Z.eqb_neq _ _)) by lia. simpl.
  by rewrite u64_sub_ok by lia.
Qed.

Lemma state_end hs :
  multipart_state (mk_MultipartStream None (2 * Z.of_nat (length rs) + 1) hs rs ent 0) =
    Ret (Some (Ready None),
         mk_MultipartStream None (2 * Z.of_nat (length rs) + 1) hs rs ent 0 : MultipartStream Ent D E).
Proof.
  unfold multipart_state. cbn [ms_state ranges part_headers cur ms_remaining entity].
  rewrite shiftr_odd, odd_odd, Z.eqb_refl. simpl. by rewrite debug_assert_true.
Qed.

(** The poll before part [i]: it never takes a second turn. *)
Lemma poll_part hs (i : nat) :
  length hs = length rs → (i <= length rs)%nat →
  parts_len (drop i hs) (drop i rs) <= U64_MAX →
  ∃ d this', multipart_turn (mk_MultipartStream None (2 * Z.of_nat i) hs rs ent
                     (parts_len (drop i hs) (drop i rs))) =
      Ret (Some (Ready (Some (Ok d))), this') ∧
    ms_inv ent rs this' ∧
    remaining d + ms_remaining this' = parts_len (drop i hs) (drop i rs).
Proof.
  intros Hl Hi Hmax. destruct (decide (i = length rs)) as [->|Hne].
  - rewrite (drop_ge hs), (drop_ge rs) by lia.
    eexists _, _. split; [apply state_trailer|]. split; [apply inv_end|].
    unfold remaining. rewrite buf_bytes_static. cbn. lia.
  - destruct (lookup_lt_is_Some_2 rs i) as [r Hr]; [lia|].
    destruct (lookup_lt_is_Some_2 hs i) as [h Hh]; [lia|].
    eexists _, _. split; [by apply state_header|]. split.
    + assert (drop (S i) hs = drop (S i) (<[i := []]> hs)) as ->
        by (by rewrite drop_insert_lt by lia).
      apply inv_body; [by rewrite length_insert|done].
    + unfold remaining. rewrite buf_bytes_vec. cbn [ms_remaining].
      rewrite (drop_S hs h i Hh), (drop_S rs r i Hr). cbn [parts_len]. lia.
Qed.

(** What a poll may answer and leave behind. *)
Definition poll_ok (rem : Z) (item : poll_item D E) (this' : MultipartStream Ent D E) : Prop :=
  match item with
  | Ready (Some (Ok d)) => ms_inv ent rs this' ∧ remaining d + ms_remaining this' = rem
  | Ready (Some (Err _)) => ms_remaining this' = 0
  | Ready None => ms_inv ent rs this' ∧ rem = 0 ∧ ms_remaining this' = 0
  | Pending => ms_inv ent rs this' ∧ ms_remaining this' = rem
  end.

(** A poll in the body of part [i]: it never takes a second turn either. *)
Lemma turn_cur hs (i : nat) c :
  length hs = length rs → (i < length rs)%nat → 0 <= els_remaining c →
  els_remaining c + parts_len (drop (S i) hs) (drop (S i) rs) <= U64_MAX →
  ∃ item this', multipart_turn (mk_MultipartStream (Some c) (2 * Z.of_nat i + 1) hs rs ent
                     (els_remaining c + parts_len (drop (S i) hs) (drop (S i) rs))) =
      Ret (Some item, this') ∧
    poll_ok (els_remaining c + parts_len (drop (S i) hs) (drop (S i) rs)) item this'.
Proof.
  intros Hl Hi Hc Hmax. destruct (exact_len_no_panic c) as (item & c' & Hp).
  pose proof (exact_len_step _ _ _ Hc Hp) as [Hc' Hitem].
  pose proof (parts_len_nonneg (drop (S i) hs) (drop (S i) rs) (Forall_drop _ _ _ Hrs)) as Hrest.
  assert (0 <= len PART_TRAILER) by done.
  unfold multipart_turn. cbn [cur ms_state part_headers ranges entity ms_remaining].
  rewrite Hp, bind_Ret_l. destruct item as [[[d|e]|]|].
  - rewrite u64_sub_ok by (unfold remaining in *; lia). eexists _, _. split; [done|].
    assert (els_remaining c + parts_len (drop (S i) hs) (drop (S i) rs) - remaining d =
            els_remaining c' + parts_len (drop (S i) hs) (drop (S i) rs)) as -> by lia.
    split; [by apply inv_cur; lia|]. cbn. lia.
  - by eexists _, _.
  - rewrite usize_add_ok by lia. rewrite bind_Ret_l.
    assert (2 * Z.of_nat i + 1 + 1 = 2 * Z.of_nat (S i)) as -> by lia.
    rewrite Hitem in *. rewrite Z.add_0_l in *.
    destruct (poll_part hs (S i) Hl ltac:(lia) Hmax)
      as (d & this' & Ht & Hinv & Hrem).
    unfold multipart_turn in Ht. cbn [cur] in Ht. rewrite Ht. by eexists _, _.
  - eexists _, _. split; [done|].
    rewrite <- Hitem in *.
    split; [by apply inv_cur|done].
Qed.

(** From any state of the invariant a poll answers, without panicking and
    without running out of turns. *)
Lemma poll_inv (this : MultipartStream Ent D E) :
  ms_inv ent rs this → ms_remaining this <= U64_MAX →
  ∃ item this', poll_next this = Ret (item, this') ∧ poll_ok (ms_remaining this) item this'.
Proof.
  destruct 1 as [hs i Hl Hi|hs i r Hl Hr|hs i c Hl Hi Hc|hs]; cbn [ms_remaining]; intros Hmax;
    unfold poll_next, multipart_poll; cbn [multipart_loop].
  - destruct (poll_part hs i Hl Hi Hmax) as (d & this' & -> & Hinv & Hrem).
    by eexists _, _.
  - rewrite (turn_body hs i r) by done. rewrite bind_Ret_l. cbv beta iota.
    assert (range_ok r) as [Hr1 Hr2] by (by eapply Forall_lookup_1).
    pose proof (lookup_lt_Some _ _ _ Hr).
    destruct (turn_cur hs i (ExactLenStream_new (end_ r - start r) (get_range ent r)))
      as (item & this' & Ht & Hok); [done|done|simpl; lia|done|].
    cbn [els_remaining ExactLenStream_new] in Ht, Hok. rewrite Ht. by eexists _, _.
  - destruct (turn_cur hs i c Hl Hi Hc Hmax) as (item & this' & -> & Hok). by eexists _, _.
  - unfold multipart_turn. cbn [cur]. rewrite (state_end hs). eexists _, _.
    split; [done|]. split; [apply inv_end|done].
Qed.

Lemma ms_inv_nonneg (this : MultipartStream Ent D E) : ms_inv ent rs this → 0 <= ms_remaining this.
Proof.
  assert (0 <= len PART_TRAILER) by done.
  assert (∀ j hs, 0 <= parts_len (drop j hs) (drop j rs)) as Hpos.
  { intros j hs. pose proof (parts_len_nonneg (drop j hs) (drop j rs) (Forall_drop _ _ _ Hrs)). lia. }
  destruct 1 as [hs i Hl Hi|hs i r Hl Hr|hs i c Hl Hi Hc|hs]; simpl; [done| | |done].
  - assert (range_ok r) as [? _] by (by eapply Forall_lookup_1). specialize (Hpos (S i) hs).
    simpl in Hpos. lia.
  - specialize (Hpos (S i) hs). simpl in Hpos. lia.
Qed.
End steps.

#[export] Instance multipart_sized : Sized (MultipartStream Ent D E) := {|
  sized_ok this :=
    ms_inv (entity this) (ranges this) this ∧ Forall range_ok (ranges this) ∧
    2 * Z.of_nat (length (ranges this)) + 1 <= usize_max ∧ ms_remaining this <= U64_MAX;
  sized_left := ms_remaining
|}.

Lemma ms_inv_fields ent rs (this : MultipartStream Ent D E) :
  ms_inv ent rs this → entity this = ent ∧ ranges this = rs.
Proof. by destruct 1. Qed.

#[export] Instance multipart_sized_laws : SizedLaws (MultipartStream Ent D E) D E.
Proof.
  split.
  - intros this (Hinv & Hrs & _). by apply (ms_inv_nonneg (entity this) _ Hrs).
  - intros this (Hinv & Hrs & Hmem & Hmax). pose proof (ms_inv_nonneg _ _ Hrs this Hinv) as Hpos.
    destruct (poll_inv _ _ Hrs Hmem this Hinv Hmax) as (item & this' & Hp & Hok).
    exists item, this'. split; [done|]. simpl.
    destruct item as [[[d|e]|]|]; simpl in Hok.
    + destruct Hok as [Hinv' Hrem]. destruct (ms_inv_fields _ _ _ Hinv') as [-> ->].
      pose proof (len_nonneg (buf_bytes d)). unfold remaining in *. split_and!; done || lia.
    + lia.
    + lia.
    + destruct Hok as [Hinv' Hrem]. destruct (ms_inv_fields _ _ _ Hinv') as [-> ->].
      split_and!; done || lia.
Qed.

Lemma multipart_new_ok ent hs rs :
  multipart_ok hs rs → sized_ok (MultipartStream_new ent hs rs (parts_len hs rs)).
Proof.
  intros (Hl & Hrs & Hmem & Hmax). split; [|done]. apply (inv_part ent rs hs 0 Hl). lia.
Qed.
End invariant.

(** ** What a whole multipart body is *)

Section content.
Context `{Build, Entity Ent D E, !Buf D, !Content Ent, !BufLaws D, !FromBoxError E}.
Context (ent : Ent) `{!EntityLaws ent} (rs : list range).
Context (Hrs : Forall range_ok rs) (Hmem : 2 * Z.of_nat (length rs) + 1 <= usize_max).
Context (Hwithin : Forall (λ r, end_ r <= entity_len ent) rs).

(** The stream before part [i], and in its body. *)
Definition at_part (hs : list bytes) (i : nat) : MultipartStream Ent D E :=
  mk_MultipartStream None (2 * Z.of_nat i) hs rs ent (parts_len (drop i hs) (drop i rs)).
Definition in_part (hs : list bytes) (i : nat) (c : ExactLenStream D E) : MultipartStream Ent D E :=
  mk_MultipartStream (Some c) (2 * Z.of_nat i + 1) hs rs ent
    (els_remaining c + parts_len (drop (S i) hs) (drop (S i) rs)).

(** One poll of the body's stream, seen from the whole. *)
Lemma poll_in_part hs (i : nat) c item c' :
  length hs = length rs → (i < length rs)%nat → 0 <= els_remaining c →
  els_remaining c + parts_len (drop (S i) hs) (drop (S i) rs) <= U64_MAX →
  poll_next c = Ret (item, c') →
  match item with
  | Ready None => poll_next (in_part hs i c) = poll_next (at_part hs (S i))
  | Ready (Some (Err e)) =>
      ∃ s', poll_next (in_part hs i c) = Ret (Ready (Some (Err e)), s')
  | item => poll_next (in_part hs i c) = Ret (item, in_part hs i c')
  end.
Proof.
  intros Hl Hi Hc Hmax Hp. pose proof (exact_len_step _ _ _ Hc Hp) as [Hc' Hitem].
  pose proof (parts_len_nonneg (drop (S i) hs) (drop (S i) rs) (Forall_drop _ _ _ Hrs)) as Hrest.
  assert (0 <= len PART_TRAILER) by done.
  eassert (multipart_turn (in_part hs i c) = ?[t]) as Hturn.
  { unfold multipart_turn, in_part. cbn [cur ms_state part_headers ranges entity ms_remaining].
    rewrite Hp, bind_Ret_l. reflexivity. }
  assert (∀ it s, multipart_turn (in_part hs i c) = Ret (Some it, s) →
                  poll_next (in_part hs i c) = Ret (it, s)) as Hpoll.
  { intros it s Ht. unfold poll_next, multipart_poll. cbn [multipart_loop]. by rewrite Ht. }
  destruct item as [[[d|e]|]|].
  - apply Hpoll. rewrite Hturn, u64_sub_ok by (unfold remaining in *; lia). simpl.
    unfold in_part. do 3 f_equal. unfold remaining in *. lia.
  - eexists. by apply Hpoll.
  - rewrite usize_add_ok, bind_Ret_l in Hturn by lia.
    assert (2 * Z.of_nat i + 1 + 1 = 2 * Z.of_nat (S i)) as Hs by lia.
    rewrite Hs, Hitem, Z.add_0_l in *.
    destruct (poll_part ent rs Hrs Hmem hs (S i) Hl ltac:(lia) Hmax) as (d & this' & Ht & _).
    rewrite (Hpoll (Ready (Some (Ok d))) this').
    + unfold poll_next, multipart_poll, at_part. cbn [multipart_loop]. by rewrite Ht.
    + rewrite Hturn. unfold multipart_turn in Ht. cbn [cur] in Ht. done.
  - apply Hpoll. rewrite Hturn. unfold in_part. by rewrite Hitem.
Qed.

Lemma in_part_yields hs (i : nat) c bs o c' :
  yields c bs o c' → length hs = length rs → (i < length rs)%nat → 0 <= els_remaining c →
  els_remaining c + parts_len (drop (S i) hs) (drop (S i) rs) <= U64_MAX →
  match o with
  | Done => ∀ bs2 o2 s2, yields (at_part hs (S i)) bs2 o2 s2 →
                         yields (in_part hs i c) (bs ++ bs2) o2 s2
  | Failed e => ∃ s', yields (in_part hs i c) bs (Failed e) s'
  end.
Proof.
  intros Hy Hl Hi. induction Hy as [c c' Hp|c e c' Hp|c c1 bs o c' Hp Hy IH|c d c1 bs o c' Hp Hy IH];
    intros Hc Hmax; pose proof (exact_len_step _ _ _ Hc Hp) as [Hc1 Hitem];
    pose proof (poll_in_part hs i _ _ _ Hl Hi Hc Hmax Hp) as Hpoll; simpl in Hpoll.
  - intros bs2 o2 s2. by apply yields_ext.
  - destruct Hpoll as [s' Hpoll]. eexists. by apply yields_failed.
  - specialize (IH ltac:(lia) ltac:(lia)). destruct o.
    + intros bs2 o2 s2 Hy2. eapply yields_pending; eauto.
    + destruct IH as [s' IH]. eexists. eapply yields_pending; eauto.
  - specialize (IH ltac:(lia) ltac:(lia)). destruct o.
    + intros bs2 o2 s2 Hy2. eapply yields_chunk_eq; [done|eauto|]. by rewrite app_assoc.
    + destruct IH as [s' IH]. eexists. eapply yields_chunk; eauto.
Qed.

(** The polls after the headers of part [i]. *)
Lemma body_yields hs (i : nat) r bs o s' :
  rs !! i = Some r →
  yields (in_part hs i (ExactLenStream_new (end_ r - start r) (get_range ent r))) bs o s' →
  (∃ item s1, multipart_turn (in_part hs i (ExactLenStream_new (end_ r - start r) (get_range ent r)))
                = Ret (Some item, s1)) →
  yields (mk_MultipartStream None (2 * Z.of_nat i + 1) hs rs ent
            (end_ r - start r + parts_len (drop (S i) hs) (drop (S i) rs)) : MultipartStream Ent D E)
    bs o s'.
Proof.
  intros Hr Hy (item & s1 & Ht). eapply yields_ext; [|exact Hy].
  unfold poll_next, multipart_poll. cbn [multipart_loop].
  rewrite (turn_body ent rs Hrs hs i r _ Hr), Ht, bind_Ret_l. unfold in_part in Ht.
  cbn [els_remaining ExactLenStream_new] in Ht. by rewrite Ht.
Qed.

(** The stream of the body of a part. *)
Definition part_body (r : range) : ExactLenStream D E :=
  ExactLenStream_new (end_ r - start r) (get_range ent r).

(** The headers of part [i], then its body. *)
Lemma header_yields hs (i : nat) h r bs o s' :
  hs !! i = Some h → rs !! i = Some r → length hs = length rs →
  parts_len (drop i hs) (drop i rs) <= U64_MAX →
  yields (in_part (<[i := []]> hs) i (part_body r)) bs o s' →
  yields (at_part hs i) (h ++ bs) o s'.
Proof.
  intros Hh Hr Hl Hmax Hy. pose proof (state_header ent rs Hrs Hmem hs i h r Hh Hr Hmax) as Hhead.
  assert (drop (S i) hs = drop (S i) (<[i := []]> hs)) as Hdrop
    by (by rewrite drop_insert_lt by lia).
  assert (range_ok r) as [Hr1 Hr2] by (by eapply Forall_lookup_1).
  eapply yields_chunk_eq; [|eapply body_yields; [exact Hr|exact Hy|]|].
  - unfold poll_next, multipart_poll, at_part. cbn [multipart_loop].
    unfold multipart_turn. cbn [cur]. rewrite Hhead, Hdrop. done.
  - rewrite (drop_S hs h i Hh), (drop_S rs r i Hr), Hdrop in Hmax. cbn [parts_len] in Hmax.
    pose proof (len_nonneg h). apply lookup_lt_Some in Hr.
    destruct (turn_cur ent rs Hrs Hmem (<[i := []]> hs) i (part_body r))
      as (item & s1 & Ht & _); [by rewrite length_insert|done|simpl; lia|simpl; lia|eauto].
  - by rewrite buf_bytes_vec.
Qed.

Lemma trailer_yields hs :
  length hs = length rs → ∃ s', yields (at_part hs (length rs)) PART_TRAILER Done s'.
Proof.
  intros Hl. unfold at_part. rewrite (drop_ge hs), (drop_ge rs) by lia. eexists.
  eapply yields_chunk_eq with (bs' := []).
  - unfold poll_next, multipart_poll. cbn [multipart_loop].
    unfold multipart_turn. cbn [cur]. simpl parts_len.
    by rewrite (state_trailer ent rs Hmem hs).
  - apply yields_done. unfold poll_next, multipart_poll. cbn [multipart_loop].
    unfold multipart_turn. cbn [cur]. by rewrite (state_end ent rs hs).
  - by rewrite buf_bytes_static, app_nil_r.
Qed.

(** The run from part [i] on. *)
Lemma part_yields k : ∀ (i : nat) hs,
  (length rs - i)%nat = k → length hs = length rs → (i <= length rs)%nat →
  parts_len (drop i hs) (drop i rs) <= U64_MAX →
  ∃ bs o s', yields (at_part hs i) bs o s' ∧
    bs `prefix_of` parts_bytes ent (drop i hs) (drop i rs) ∧
    (o = Done → bs = parts_bytes ent (drop i hs) (drop i rs)) ∧
    (Forall (λ r, ∃ bs s, yields (get_range ent r) bs Done s) (drop i rs) → o = Done).
Proof.
  induction k as [|k IH]; intros i hs Hk Hl Hi Hmax.
  - assert (i = length rs) as -> by lia. destruct (trailer_yields hs Hl) as [s' Hy].
    rewrite (drop_ge hs), (drop_ge rs) in * by lia. by exists PART_TRAILER, Done, s'.
  - destruct (lookup_lt_is_Some_2 rs i) as [r Hr]; [lia|].
    destruct (lookup_lt_is_Some_2 hs i) as [h Hh]; [lia|].
    pose proof (λ bs o s', header_yields hs i h r bs o s' Hh Hr Hl Hmax) as Hstart.
    set (hs' := <[i := []]> hs) in *.
    assert (drop (S i) hs = drop (S i) hs') as Hdrop by (unfold hs'; by rewrite drop_insert_lt by lia).
    assert (length hs' = length rs) as Hl' by (unfold hs'; by rewrite length_insert).
    assert (range_ok r) as [Hr1 Hr2] by (by eapply Forall_lookup_1).
    assert (end_ r <= entity_len ent) as Hr3
      by exact (Forall_lookup_1 (λ r, end_ r <= entity_len ent) rs i r Hwithin Hr).
    rewrite (drop_S hs h i Hh), (drop_S rs r i Hr), Hdrop in *. cbn [parts_len parts_bytes] in *.
    pose proof (len_nonneg h).
    destruct (IH (S i) hs' ltac:(lia) Hl' ltac:(lia) ltac:(lia))
      as (bs2 & o2 & s2 & Hy2 & Hpre2 & Hdone2 & Hok2).
    destruct (exact_range_yields ent r Hr1 Hr3) as (bs1 & o1 & rem & c' & Hy1 & Hpre1 & Hdone1 & Hok1).
    pose proof (in_part_yields hs' i (part_body r) _ _ _ Hy1 Hl' ltac:(lia) ltac:(simpl; lia)
                  ltac:(simpl; lia)) as Hin.
    destruct o1 as [|e].
    + exists (h ++ bs1 ++ bs2), o2, s2. destruct (Hdone1 eq_refl) as [-> _].
      split; [by apply Hstart, Hin|]. split_and!.
      * by apply prefix_app, prefix_app.
      * intros ->. by rewrite Hdone2.
      * rewrite Forall_cons. intros [_ ?]. auto.
    + destruct Hin as [s' Hin]. exists (h ++ bs1), (Failed e), s'.
      split; [by apply Hstart|]. split_and!.
      * apply prefix_app. etrans; [exact Hpre1|]. by eexists.
      * done.
      * rewrite Forall_cons. intros [Hr' _]. by apply Hok1 in Hr'.
Qed.
End content.

Lemma end_state_value `{Build} (rs : list range) :
  2 * Z.of_nat (length rs) + 1 <= usize_max →
  Z.lor (end_state rs) 1 = 2 * Z.of_nat (length rs) + 1.
Proof.
  intros Hm. unfold end_state. rewrite Z.shiftl_mul_pow2 by done.
  rewrite Z.mod_small by lia. change (2 ^ 1) with 2. rewrite Z.mul_comm.
  generalize (Z.of_nat (length rs)). intros n. by destruct n as [|[]|[]].
Qed.

(** ** The loop of [poll_next] ends, from any value of the struct *)

Section termination.
Context `{Build, Entity Ent D E, !Buf D, !FromBoxError E}.

(** A value of the struct's field. *)
Definition state_fits (this : MultipartStream Ent D E) : Prop := 0 <= ms_state this <= usize_max.

Lemma land_1_odd st : (Z.land st 1 =? 1) = Z.odd st.
Proof.
  change 1 with (Z.ones 1) at 1. rewrite Z.land_ones by done. change (2 ^ 1) with 2.
  rewrite Zmod_odd. by destruct (Z.odd st).
Qed.

Lemma arith_never_fuel max z : arith max z ≠ Panic OutOfFuel.
Proof. unfold arith. by repeat case_match. Qed.

Lemma arith_range max z v : 0 <= max → arith max z = Ret v → 0 <= v <= max.
Proof.
  intros Hm. unfold arith. destruct (Z.leb_spec 0 z), (Z.leb_spec z max); simpl;
    try destruct overflow_checks; intros [= <-]; try lia;
    pose proof (Z.mod_pos_bound z (max + 1) ltac:(lia)); lia.
Qed.

(** The state machine takes another turn only from an odd state, with the body
    of a part. *)
Lemma multipart_state_again (this this' : MultipartStream Ent D E) :
  multipart_state this = Ret (None, this') →
  Z.odd (ms_state this) = true ∧ ms_state this' = ms_state this ∧ is_Some (cur this').
Proof.
  unfold multipart_state. cbv zeta. rewrite land_1_odd. intros Hs.
  repeat case_hyp Hs; outcome_inv; simpl; done || eauto.
Qed.

Lemma multipart_state_fuel (this : MultipartStream Ent D E) : multipart_state this ≠ Panic OutOfFuel.
Proof.
  unfold multipart_state, debug_assert, usize_add, u64_sub. cbv zeta. intros Hs.
  repeat case_hyp Hs; try done;
    repeat (apply bind_Panic_inv in Hs as [Hs|(? & _ & Hs)]; [by apply arith_never_fuel in Hs|]); done.
Qed.

(** The state after an odd one is even, also if it wraps. *)
Lemma next_state_even st st' :
  0 <= st <= usize_max → Z.odd st = true → usize_add st 1 = Ret st' → Z.odd st' = false.
Proof.
  intros Hst Ho. unfold usize_add, arith. destruct (Z.leb_spec 0 (st + 1)); [|lia].
  destruct (Z.leb_spec (st + 1) usize_max); simpl.
  - intros [= <-]. by rewrite Z.odd_add, Ho.
  - destruct overflow_checks; [done|]. intros [= <-].
    replace (st + 1) with (usize_max + 1) by lia. by rewrite Z.mod_same by lia.
Qed.

Lemma multipart_turn_again (this this' : MultipartStream Ent D E) :
  state_fits this → multipart_turn this = Ret (None, this') →
  Z.odd (ms_state this') = true ∧ state_fits this' ∧ is_Some (cur this') ∧
  (is_Some (cur this) → Z.odd (ms_state this) = false).
Proof.
  unfold multipart_turn, state_fits. intros Hf. destruct (cur this) as [c|]; intros Ht.
  - apply bind_Ret_inv in Ht as ([item c'] & _ & Ht).
    destruct item as [[[d|e]|]|]; [by outcome_inv..| |by outcome_inv].
    apply bind_Ret_inv in Ht as (st & Hst & Ht).
    pose proof Ht as (Ho & Heq & Hc)%multipart_state_again. cbn [ms_state] in Ho, Heq.
    rewrite Heq. split; [done|]. split.
    { by apply (arith_range usize_max) in Hst; [|pose proof usize_max_bounds; unfold U16_MAX in *; lia]. }
    split; [done|]. intros _. destruct (Z.odd (ms_state this)) eqn:Hodd; [|done].
    by rewrite (next_state_even _ _ Hf Hodd Hst) in Ho.
  - pose proof Ht as (Ho & Heq & Hc)%multipart_state_again. rewrite Heq.
    split_and!; [done|lia|lia|done|]. by intros [].
Qed.

Lemma multipart_turn_fuel (this : MultipartStream Ent D E) : multipart_turn this ≠ Panic OutOfFuel.
Proof.
  unfold multipart_turn. destruct (cur this) as [c|]; [|apply multipart_state_fuel].
  destruct (exact_len_no_panic c) as (item & c' & ->). rewrite bind_Ret_l.
  destruct item as [[[d|e]|]|]; [|done| |done]; intros Ht;
    apply bind_Panic_inv in Ht as [Ht|(? & _ & Ht)];
    first [discriminate Ht | by apply arith_never_fuel in Ht | by apply multipart_state_fuel in Ht].
Qed.

(** C8: [poll_next] of a multipart body takes at most two turns of its loop,
    in every state its fields can be in, also after an error and where the state
    wraps: any more fuel gives the same answer, and it is not the lack of fuel. *)
Theorem multipart_poll_terminates (this : MultipartStream Ent D E) (fuel : nat) :
  state_fits this → (2 <= fuel)%nat →
  multipart_loop fuel this = poll_next this ∧ poll_next this ≠ Panic OutOfFuel.
Proof.
  intros Hf Hfuel. destruct fuel as [|[|fuel]]; [lia..|].
  unfold poll_next, multipart_poll. cbn [multipart_loop].
  destruct (multipart_turn this) as [[[item|] this1]|w] eqn:Ht; cbn [mbind outcome_bind]; [done| |].
  - destruct (multipart_turn_again _ _ Hf Ht) as (Ho & Hf1 & Hc & _).
    destruct (multipart_turn this1) as [[[item|] this2]|w] eqn:Ht1; cbn [mbind outcome_bind]; [done| |].
    + destruct (multipart_turn_again _ _ Hf1 Ht1) as (_ & _ & _ & Hodd).
      by rewrite Hodd in Ho.
    + split; [done|]. intros [= ->]. by apply multipart_turn_fuel in Ht1.
  - split; [done|]. intros [= ->]. by apply multipart_turn_fuel in Ht.
Qed.
End termination.

Section properties.
Context `{Build, Entity Ent D E, !Buf D, !BufLaws D, !FromBoxError E}.

(** C7: a multipart body never lies about its length: however the streams of
    the parts behave, polling it to its end or its first error never panics,
    what was given and [remaining] always add up to the length it was made with,
    a body that ends without an error has exactly that length, and one that
    fails has at most that. *)
Theorem multipart_exact_length (ent : Ent) (hs : list bytes) (rs : list range) (fuel : nat) :
  multipart_ok hs rs →
  ∃ bs r this, poll_until fuel (MultipartStream_new ent hs rs (parts_len hs rs)) = Ret (bs, r, this) ∧
    match r with
    | None => len bs + ms_remaining this = parts_len hs rs
    | Some Done => ms_remaining this = 0 ∧ len bs = parts_len hs rs
    | Some (Failed _) => 0 <= ms_remaining this ∧ len bs + ms_remaining this <= parts_len hs rs
    end.
Proof.
  intros Hok. destruct (poll_until_sized fuel _ (multipart_new_ok ent hs rs Hok))
    as (bs & r & this & Hp & Hr).
  exists bs, r, this. split; [done|]. by destruct r as [[|e]|]; [..|destruct Hr].
Qed.

(** [MultipartStream] is not fused by an error, although it means to be: it
    keeps the stream of the part that failed, so a poll after the error polls
    that stream again; if it then ends, the part's index is stepped past the
    end and the poll panics. *)
Theorem multipart_poll_after_error (ent : Ent) (hs : list bytes) (rs : list range) (i : nat)
    (c : ExactLenStream D E) :
  length hs = length rs → 2 * Z.of_nat (length rs) + 2 <= usize_max →
  0 < els_remaining c → els_stream c 0%nat = Ready None → els_stream c 1%nat = Ready None →
  ∃ this, poll_next (in_part ent rs hs i c) =
            Ret (Ready (Some (Err (from_box_error (StreamTooShortError (els_remaining c))))), this) ∧
    ms_remaining this = 0 ∧
    poll_next this = Panic IndexOutOfBounds.
Proof.
  intros Hl Hmem Hc Hs0 Hs1.
  exists (mk_MultipartStream (Some (mk_ExactLenStream (stream_tail (els_stream c)) 0))
            (2 * Z.of_nat (length rs) + 1) hs rs ent 0).
  split; [|split; [done|]]; unfold in_part, poll_next, multipart_poll; cbn [multipart_loop];
    unfold multipart_turn; cbn [cur ms_state part_headers ranges entity ms_remaining];
    unfold poll_next, exact_len_poll; cbn [els_stream els_remaining].
  - rewrite Hs0. rewrite (proj2 (Z.eqb_neq _ _)) by lia. simpl. by rewrite end_state_value by lia.
  - assert (stream_tail (els_stream c) 0%nat = Ready None) as -> by done.
    simpl. rewrite usize_add_ok by lia. simpl. unfold multipart_state.
    cbn [ms_state part_headers ranges].
    assert (2 * Z.of_nat (length rs) + 1 + 1 = 2 * Z.of_nat (S (length rs))) as -> by lia.
    rewrite shiftr_even, odd_even, andb_false_r, Nat2Z.id.
    rewrite (proj2 (Z.eqb_neq _ _)) by lia. rewrite lookup_ge_None_2 by lia. done.
Qed.
End properties.

Section content_properties.
Context `{Build, Entity Ent D E, !Buf D, !Content Ent, !BufLaws D, !FromBoxError E}.

(** C6: a multipart body is, for each range in order, the part's headers and
    the bytes of the range, and then the trailer: polling it ends after finitely
    many polls, with all of that, or after a prefix of it with an error, which
    happens only if the stream of some range fails. *)
Theorem multipart_content (ent : Ent) `{!EntityLaws ent} (hs : list bytes) (rs : list range) :
  multipart_ok hs rs → Forall (λ r, end_ r <= entity_len ent) rs →
  ∃ bs o this fuel,
    drain fuel (MultipartStream_new ent hs rs (parts_len hs rs)) = Ret (Some (bs, o, this)) ∧
    bs `prefix_of` parts_bytes ent hs rs ∧
    (o = Done → bs = parts_bytes ent hs rs) ∧
    (Forall (λ r, ∃ bs s, yields (get_range ent r) bs Done s) rs → o = Done).
Proof.
  intros (Hl & Hrs & Hmem & Hmax) Hw.
  destruct (part_yields ent rs Hrs Hmem Hw (length rs) 0 hs)
    as (bs & o & this & [fuel Hy]%yields_drain & Hbs); [lia|done|lia|done|].
  exists bs, o, this, fuel. split; [by apply Hy|done].
Qed.
End content_properties.

(** ** A concrete body *)

#[local] Existing Instances debug_build plain_http plain_http_laws plain_buf plain_buf_laws
  mem_ops mem_content mem_laws box_error_self.

Definition digits_entity : mem_entity :=
  mk_mem_entity (bs "0123456789") [] None None eq_refl.
Definition two_headers : list bytes := [bs "<h1>"; bs "<h2>"].
Definition two_ranges : list range := [mk_range 0 2; mk_range 5 8].

Lemma two_ok : multipart_ok two_headers two_ranges.
Proof.
  split_and!; [done| |done|done].
  repeat constructor; by vm_compute.
Qed.

Lemma multipart_exact_length_witness :
  ∃ bs r this, poll_until 100 (MultipartStream_new digits_entity two_headers two_ranges 22) = Ret (bs, r, this).
Proof.
  destruct (multipart_exact_length (D:=bytes) digits_entity two_headers two_ranges 100 two_ok)
    as (b & r & this & Hp & _).
  exists b, r, this. exact Hp.
Defined.

Lemma multipart_content_witness :
  ∃ bs o this fuel, drain fuel (MultipartStream_new digits_entity two_headers two_ranges 22) = Ret (Some (bs, o, this)) ∧
    bs = Prelude.bs "<h1>01<h2>567" ++ PART_TRAILER.
Proof.
  destruct (multipart_content digits_entity two_headers two_ranges two_ok) as (b & o & this & fuel & Hd & _ & Hdone & Hok).
  - repeat constructor; by vm_compute.
  - exists b, o, this, fuel. split; [exact Hd|]. rewrite Hdone; [reflexivity|].
    apply Hok. repeat constructor; (eexists _, _; apply (drain_yields 2); reflexivity).
Defined.

Lemma multipart_poll_after_error_witness :
  ∃ this, poll_next (in_part digits_entity two_ranges two_headers 0
      (ExactLenStream_new 2 (stream_of_list []))) =
      Ret (Ready (Some (Err (StreamTooShortError 2))), this) ∧
    poll_next this = Panic IndexOutOfBounds.
Proof.
  destruct (multipart_poll_after_error (D:=bytes) digits_entity two_headers two_ranges 0
    (ExactLenStream_new 2 (stream_of_list []))) as (this & H1 & _ & H2);
    [reflexivity|by vm_compute|reflexivity|reflexivity|reflexivity|].
  exists this. split; [exact H1|exact H2].
Defined.

(** A state the stream never reaches by itself: it skips the body of a part. *)
Definition odd_stream : MultipartStream mem_entity bytes BoxError :=
  mk_MultipartStream (Some (mk_ExactLenStream (λ _, Ready None) 0)) 0 [[]] [mk_range 0 0] digits_entity 0.

Lemma multipart_poll_terminates_witness :
  fst <$> multipart_loop 9 odd_stream = fst <$> poll_next odd_stream.
Proof.
  destruct (multipart_poll_terminates odd_stream 9) as [Hl _].
  - by vm_compute.
  - lia.
  - by rewrite Hl.
Defined.
