(* ===== verification/Chunker.v ===== *)
(** * The chunked pipe between a writer and the response body (src/chunker.rs)

    [Shared] is the content of the [Arc<Mutex<_>>] a [Writer] and a [Reader]
    share: every method locks it once, so it is passed as explicit state, and a
    method that wakes a task after unlocking returns the waker.  Interleavings
    of the two halves are the step relation of the second part. *)

From S2P Require Import Prelude RustStd HttpApi Plain Stream.

(** [std::task::Waker]: [will_wake] may only say yes of wakers of one task. *)
Class Wakers := {
  Waker : Type;
  Task : Type;
  task_of : Waker → Task;
  will_wake : Waker → Waker → bool
}.

Class WakersLaws `{Wakers} : Prop :=
  will_wake_task : ∀ w w', will_wake w w' = true → task_of w = task_of w'.

(** [Vec::reserve_exact] on an empty vector: the capacity obtained. *)
Class Allocator := reserve_exact : Z → Z.
(** At least what was asked for, if that is at most [isize::MAX]. *)
Class AllocatorLaws `{Build, Allocator} : Prop :=
  reserve_exact_spec : ∀ n, 0 < n <= usize_max / 2 → n <= reserve_exact n <= usize_max.

Inductive SharedState (E : Type) :=
  | SOk (ready : list bytes) (ready_bytes : Z) (writer_dropped : bool)
  | SErr (e : E)
  | ReaderFused.
Arguments SOk {E}.
Arguments SErr {E}.
Arguments ReaderFused {E}.

Record Shared `{Wakers} (E : Type) := mk_Shared {
  state : SharedState E;
  waker : option Waker
}.
Arguments mk_Shared {_ E}.
Arguments state {_ E}.
Arguments waker {_ E}.

(** [buf_cap] is [buf.capacity()]. *)
Record Writer := mk_Writer { buf : bytes; buf_cap : Z; cap : Z }.

(** [http_body::SizeHint]. *)
Record SizeHint := mk_SizeHint { lower : Z; upper : option Z }.

Section chunker.
Context `{Build, Wakers, Allocator} {D E : Type} `{Buf D}.

Definition with_chunk_size (cap : Z) : outcome (Writer * Shared E) :=
  _ ← assert_ (0 <? cap);
  Ret (mk_Writer [] 0 cap, mk_Shared (SOk [] 0 false) None).

(** ** [Reader] *)

Definition size_hint (l : Shared E) : SizeHint :=
  match state l with
  | SOk _ ready_bytes writer_dropped =>
      mk_SizeHint ready_bytes (if (writer_dropped : bool) then Some ready_bytes else None)
  | _ => mk_SizeHint 0 None
  end.

Definition is_end_stream (l : Shared E) : bool :=
  match state l with
  | SOk _ ready_bytes writer_dropped => (ready_bytes =? 0) && writer_dropped
  | SErr _ => false
  | ReaderFused => true
  end.

(** The waker after registering [cx]. *)
Definition register_waker (w : option Waker) (cx : Waker) : option Waker :=
  match w with
  | Some w => if negb (will_wake w cx) then Some cx else Some w
  | None => Some cx
  end.

Definition reader_poll_next (cx : Waker) (l : Shared E) : outcome (poll_item D E * Shared E) :=
  match state l with
  | SOk ready ready_bytes writer_dropped =>
      match ready with
      | c :: ready =>
          ready_bytes ← usize_sub ready_bytes (len c);
          let st := if negb (bool_decide (ready = [])) || negb writer_dropped
                    then SOk ready ready_bytes writer_dropped else ReaderFused in
          Ret (Ready (Some (Ok (from_vec c))), mk_Shared st (waker l))
      | [] =>
          _ ← debug_assert (ready_bytes =? 0);
          if negb writer_dropped then
            Ret (Pending, mk_Shared (SOk ready ready_bytes writer_dropped)
                                    (register_waker (waker l) cx))
          else Ret (Ready None, mk_Shared ReaderFused (waker l))
      end
  | SErr e => Ret (Ready (Some (Err e)), mk_Shared ReaderFused (waker l))
  | ReaderFused => Ret (Ready None, mk_Shared ReaderFused (waker l))
  end.

(** ** [Writer] *)

(** [Writer::abort]: the new shared state and the waker to wake. *)
Definition writer_abort (error : E) (l : Shared E) : Shared E * option Waker :=
  match state l with
  | SOk _ _ _ => (mk_Shared (SErr error) None, waker l)
  | _ => (l, None)
  end.

Definition flush_helper (dropping : bool) (w : Writer) (l : Shared E)
    : outcome (result unit unit * Writer * Shared E * option Waker) :=
  if bool_decide (buf w = []) && negb dropping then Ret (Ok tt, w, l, None)
  else
    match state l with
    | SOk ready ready_bytes writer_dropped =>
        '(w, ready, ready_bytes) ←
          (if negb (bool_decide (buf w = [])) then
             ready_bytes ← usize_add ready_bytes (len (buf w));
             Ret (mk_Writer [] 0 (cap w), ready ++ [buf w], ready_bytes)
           else Ret (w, ready, ready_bytes));
        Ret (Ok tt, w, mk_Shared (SOk ready ready_bytes dropping) None, waker l)
    | _ =>
        if negb (bool_decide (buf w = [])) then Ret (Err tt, w, l, None)
        else Ret (Ok tt, w, l, None)
    end.

Definition receiver_was_dropped : io_error := IoError BrokenPipe (bs "receiver was dropped").

(** [Write::flush]. *)
Definition writer_flush (w : Writer) (l : Shared E)
    : outcome (result unit io_error * Writer * Shared E * option Waker) :=
  '(r, w, l, wk) ← flush_helper false w l;
  Ret (match r with Ok _ => Ok tt | Err _ => Err receiver_was_dropped end, w, l, wk).

(** [Write::write]. *)
Definition writer_write (data : bytes) (w : Writer) (l : Shared E)
    : outcome (result Z io_error * Writer * Shared E * option Waker) :=
  buf_cap ← (if buf_cap w =? 0 then Ret (reserve_exact (cap w))
             else _ ← assert_ (cap w <=? buf_cap w); Ret (buf_cap w));
  remaining ← usize_sub buf_cap (len (buf w));
  let full := remaining <=? len data in
  let n := if full then remaining else len data in
  let w := mk_Writer (buf w ++ slice data 0 n) buf_cap (cap w) in
  if full then
    '(r, w, l, wk) ← writer_flush w l;
    Ret (match r with Ok _ => Ok n | Err e => Err e end, w, l, wk)
  else Ret (Ok n, w, l, None).

(** [Drop::drop]: the writer is gone afterwards. *)
Definition writer_drop (w : Writer) (l : Shared E) : outcome (Shared E * option Waker) :=
  '(_, _, l, wk) ← flush_helper true w l;
  Ret (l, wk).
End chunker.

(** ** The two halves running concurrently

    Each method is atomic at its lock; waking a task happens after unlocking,
    so it is a step of its own, which the writer must take before its next
    method.  The last fields are history: what the writer accepted, what the
    reader was given, and which task is parked, that is, was told [Pending] by
    the last poll and has not been woken since. *)
Record pipe `{Wakers} (E : Type) := mk_pipe {
  p_shared : Shared E;
  p_writer : option Writer;
  p_wake : option Waker;
  p_parked : option Task;
  p_aborted : option E;
  p_accepted : bytes;
  p_delivered : bytes;
  p_ends : list (ended E)
}.
Arguments mk_pipe {_ E}.
Arguments p_shared {_ E}.
Arguments p_writer {_ E}.
Arguments p_wake {_ E}.
Arguments p_parked {_ E}.
Arguments p_aborted {_ E}.
Arguments p_accepted {_ E}.
Arguments p_delivered {_ E}.
Arguments p_ends {_ E}.

Section pipe.
Context `{Build, WakersLaws, !Allocator, !AllocatorLaws} {D E : Type} `{BufLaws D}.

(** What a poll's answer adds to the history. *)
Definition observe (item : poll_item D E) (cx : Waker) (s : pipe E) (l : Shared E) : pipe E :=
  match item with
  | Pending =>
      mk_pipe l (p_writer s) (p_wake s) (Some (task_of cx)) (p_aborted s) (p_accepted s)
              (p_delivered s) (p_ends s)
  | Ready (Some (Ok d)) =>
      mk_pipe l (p_writer s) (p_wake s) None (p_aborted s) (p_accepted s)
              (p_delivered s ++ buf_bytes d) (p_ends s)
  | Ready (Some (Err e)) =>
      mk_pipe l (p_writer s) (p_wake s) None (p_aborted s) (p_accepted s)
              (p_delivered s) (p_ends s ++ [Failed e])
  | Ready None =>
      mk_pipe l (p_writer s) (p_wake s) None (p_aborted s) (p_accepted s)
              (p_delivered s) (p_ends s ++ [Done])
  end.

(** The bytes a [write] of [data] accepted. *)
Definition accepted_by (data : bytes) (r : result Z io_error) : bytes :=
  match r with Ok n => slice data 0 n | Err _ => [] end.

(** The chunks in the queue. *)
Definition queued (s : pipe E) : bytes :=
  match state (p_shared s) with SOk ready _ _ => concat ready | _ => [] end.

(** The bound of [step_write]: the queue, the buffer and the data written are
    all in memory at once. *)
Inductive pipe_step : pipe E → pipe E → Prop :=
  | step_write s w data r w' l' wk :
      p_writer s = Some w → p_wake s = None →
      len (queued s) + len (buf w) + len data <= usize_max →
      writer_write data w (p_shared s) = Ret (r, w', l', wk) →
      pipe_step s (mk_pipe l' (Some w') wk (p_parked s) (p_aborted s)
                     (p_accepted s ++ accepted_by data r) (p_delivered s) (p_ends s))
  | step_flush s w r w' l' wk :
      p_writer s = Some w → p_wake s = None →
      writer_flush w (p_shared s) = Ret (r, w', l', wk) →
      pipe_step s (mk_pipe l' (Some w') wk (p_parked s) (p_aborted s)
                     (p_accepted s) (p_delivered s) (p_ends s))
  | step_abort s w e l' wk :
      p_writer s = Some w → p_wake s = None →
      writer_abort e (p_shared s) = (l', wk) →
      pipe_step s (mk_pipe l' (Some w) wk (p_parked s)
                     (match p_aborted s with None => Some e | a => a end)
                     (p_accepted s) (p_delivered s) (p_ends s))
  | step_drop s w l' wk :
      p_writer s = Some w → p_wake s = None →
      writer_drop w (p_shared s) = Ret (l', wk) →
      pipe_step s (mk_pipe l' None wk (p_parked s) (p_aborted s)
                     (p_accepted s) (p_delivered s) (p_ends s))
  | step_wake s w (parked' : option Task) :
      p_wake s = Some w →
      (p_parked s = Some (task_of w) → parked' = None) →
      (p_parked s ≠ Some (task_of w) → parked' = p_parked s) →
      pipe_step s (mk_pipe (p_shared s) (p_writer s) None parked' (p_aborted s)
                     (p_accepted s) (p_delivered s) (p_ends s))
  | step_poll s cx item l' :
      reader_poll_next cx (p_shared s) = Ret (item, l') →
      pipe_step s (observe item cx s l').

Definition initial_pipe (w : Writer) (l : Shared E) : pipe E :=
  mk_pipe l (Some w) None None None [] [] [].

(** The states of the pipe made by [with_chunk_size cap]. *)
Definition pipe_reachable (cap : Z) (s : pipe E) : Prop :=
  ∃ w l, with_chunk_size cap = Ret (w, l) ∧ rtc pipe_step (initial_pipe w l) s.

(** ** Invariant *)

Definition writer_wf (w : Writer) : Prop :=
  0 < cap w <= usize_max / 2 ∧
  ((buf_cap w = 0 ∧ buf w = []) ∨ (cap w <= buf_cap w <= usize_max ∧ len (buf w) <= buf_cap w)).

(** A writer that can accept at least one more byte. *)
Definition writer_has_room (w : Writer) : Prop := buf_cap w = 0 ∨ len (buf w) < buf_cap w.

Definition buffered (s : pipe E) : bytes :=
  match p_writer s with Some w => buf w | None => [] end.

Definition pipe_data_inv (s : pipe E) : Prop :=
  match state (p_shared s) with
  | SOk ready ready_bytes writer_dropped =>
      ready_bytes = len (concat ready) ∧ Forall (λ c, c ≠ []) ready ∧
      (writer_dropped = true ↔ p_writer s = None) ∧ p_aborted s = None ∧
      p_ends s = [] ∧ p_accepted s = p_delivered s ++ concat ready ++ buffered s ∧
      (∀ w, p_writer s = Some w → writer_has_room w) ∧
      len (concat ready) + len (buffered s) <= usize_max
  | SErr e =>
      p_aborted s = Some e ∧ p_ends s = [] ∧ p_delivered s `prefix_of` p_accepted s
  | ReaderFused =>
      (p_aborted s = None ∧ p_writer s = None ∧ p_delivered s = p_accepted s ∧
       ∃ n, p_ends s = replicate n Done) ∨
      (∃ e n, p_aborted s = Some e ∧ p_delivered s `prefix_of` p_accepted s ∧
              p_ends s = Failed e :: replicate n Done)
  end.

(** A parked task has a waker registered and nothing to read, or is about to
    be woken. *)
Definition pipe_wake_inv (s : pipe E) : Prop :=
  ∀ t, p_parked s = Some t →
    (state (p_shared s) = SOk [] 0 false ∧
     ∃ w, waker (p_shared s) = Some w ∧ task_of w = t) ∨
    (∃ w, p_wake s = Some w ∧ task_of w = t).

Definition pipe_inv (s : pipe E) : Prop :=
  pipe_data_inv s ∧ pipe_wake_inv s ∧ (∀ w, p_writer s = Some w → writer_wf w).

Definition is_SOk (st : SharedState E) : bool :=
  match st with SOk _ _ _ => true | _ => false end.

(** ** The methods of the writer, branch by branch *)

Lemma flush_helper_SOk dropping w (l : Shared E) ready rb wd :
  state l = SOk ready rb wd → 0 <= rb → rb + len (buf w) <= usize_max →
  flush_helper dropping w l =
    Ret (Ok tt,
         if bool_decide (buf w = []) then w else mk_Writer [] 0 (cap w),
         if bool_decide (buf w = []) && negb dropping then l
         else mk_Shared (SOk (if bool_decide (buf w = []) then ready else ready ++ [buf w])
                             (rb + len (buf w)) dropping) None,
         if bool_decide (buf w = []) && negb dropping then None else waker l).
Proof.
  intros Hst Hrb Hmax. unfold flush_helper. rewrite Hst.
  pose proof (len_nonneg (buf w)).
  case_bool_decide as Hb; cbn [andb negb].
  - destruct dropping; cbn [negb]; [|done]. by rewrite Hb, len_nil, Z.add_0_r.
  - by rewrite usize_add_ok by lia.
Qed.

Lemma flush_helper_dead dropping w (l : Shared E) :
  is_SOk (state l) = false →
  flush_helper dropping w l =
    Ret (if bool_decide (buf w = []) then Ok tt else Err tt, w, l, None).
Proof.
  intros Hst. unfold flush_helper. case_bool_decide; simpl.
  - destruct dropping; simpl; [|done]. by destruct (state l).
  - by destruct (state l).
Qed.

(** The buffer of a write before it is flushed. *)
Definition write_cap (w : Writer) : Z := if buf_cap w =? 0 then reserve_exact (cap w) else buf_cap w.
Definition write_len (data : bytes) (w : Writer) : Z :=
  Z.min (write_cap w - len (buf w)) (len data).

Lemma write_cap_spec w :
  writer_wf w → cap w <= write_cap w <= usize_max ∧ len (buf w) <= write_cap w.
Proof.
  intros [Hcap [[Hc Hb]|[Hc Hl]]]; unfold write_cap.
  - rewrite Hc, Hb, len_nil. simpl.
    pose proof (reserve_exact_spec (cap w) Hcap). lia.
  - rewrite (proj2 (Z.eqb_neq (buf_cap w) 0)) by lia. lia.
Qed.

Lemma writer_write_unfold data w (l : Shared E) :
  writer_wf w →
  writer_write data w l =
    let w1 := mk_Writer (buf w ++ slice data 0 (write_len data w)) (write_cap w) (cap w) in
    if write_cap w - len (buf w) <=? len data then
      '(r, w', l', wk) ← writer_flush w1 l;
      Ret (match r with Ok _ => Ok (write_len data w) | Err e => Err e end, w', l', wk)
    else Ret (Ok (write_len data w), w1, l, None).
Proof.
  intros Hw. pose proof (write_cap_spec w Hw) as [Hc Hl].
  destruct Hw as [Hcap Hbuf]. unfold writer_write, write_len.
  assert ((if buf_cap w =? 0 then Ret (reserve_exact (cap w))
           else _ ← assert_ (cap w <=? buf_cap w); Ret (buf_cap w)) = Ret (write_cap w)) as ->.
  { unfold write_cap in *. destruct (Z.eqb_spec (buf_cap w) 0); [done|].
    unfold assert_. rewrite (proj2 (Z.leb_le _ _)); [done|]. lia. }
  pose proof (len_nonneg (buf w)). pose proof usize_max_bounds. unfold U16_MAX in *.
  simpl. rewrite usize_sub_ok by lia. simpl.
  destruct (Z.leb_spec (write_cap w - len (buf w)) (len data)).
  - by rewrite Z.min_l by lia.
  - by rewrite Z.min_r by lia.
Qed.

Lemma write_len_spec data w :
  writer_wf w → 0 <= write_len data w <= len data.
Proof.
  intros Hw%write_cap_spec. unfold write_len. pose proof (len_nonneg data). lia.
Qed.

Lemma write_len_slice data w : writer_wf w → len (slice data 0 (write_len data w)) = write_len data w.
Proof.
  intros Hw. pose proof (write_len_spec data w Hw). rewrite len_slice; lia.
Qed.

(** While the pipe is open a write succeeds; the bytes it takes end up in the
    buffer, or in the queue with the rest of the buffer. *)
Lemma writer_write_SOk data w (l : Shared E) ready rb wd :
  state l = SOk ready rb wd → writer_wf w → 0 <= rb →
  rb + len (buf w) + len data <= usize_max →
  let taken := buf w ++ slice data 0 (write_len data w) in
  ∃ w' l' wk, writer_write data w l = Ret (Ok (write_len data w), w', l', wk) ∧
    writer_wf w' ∧ writer_has_room w' ∧
    ((l' = l ∧ wk = None ∧ buf w' = taken) ∨
     (buf w' = [] ∧ wk = waker l ∧ taken ≠ [] ∧
      l' = mk_Shared (SOk (ready ++ [taken]) (rb + len taken) false) None)).
Proof.
  intros Hst Hw Hrb Hmax taken. rewrite writer_write_unfold by done. cbv zeta. fold taken.
  pose proof (write_cap_spec w Hw) as [Hc Hl]. pose proof (write_len_spec data w Hw) as Hn.
  assert (len taken = len (buf w) + write_len data w) as Htaken
    by (unfold taken; rewrite len_app, write_len_slice; done).
  destruct Hw as [Hcap Hbuf]. unfold write_len in Htaken, Hn.
  pose proof (len_nonneg (buf w)).
  destruct (Z.leb_spec (write_cap w - len (buf w)) (len data)) as [Hfull|Hroom].
  - assert (taken ≠ []) as Hne.
    { intros Hnil. rewrite Hnil, len_nil in Htaken. lia. }
    unfold writer_flush. rewrite (flush_helper_SOk _ _ _ ready rb wd) by (done || simpl; lia).
    cbn [buf cap]. rewrite bool_decide_false by done. simpl.
    eexists _, _, _. split; [done|]. split; [|split].
    + split; [done|]. by left.
    + by left.
    + right. done.
  - eexists _, _, _. split; [done|]. split; [|split].
    + split; [done|]. right. simpl. lia.
    + right. simpl. lia.
    + by left.
Qed.

(** Once it is closed nothing changes but the buffer. *)
Lemma writer_write_dead data w (l : Shared E) r w' l' wk :
  is_SOk (state l) = false → writer_wf w → writer_write data w l = Ret (r, w', l', wk) →
  l' = l ∧ wk = None ∧ writer_wf w'.
Proof.
  intros Hst Hw. rewrite writer_write_unfold by done. cbv zeta.
  pose proof (write_cap_spec w Hw) as [Hc Hl]. pose proof (write_len_spec data w Hw) as Hn.
  assert (writer_wf (mk_Writer (buf w ++ slice data 0 (write_len data w)) (write_cap w) (cap w)))
    as Hw1.
  { destruct Hw as [Hcap Hbuf]. split; [done|]. right. cbn [buf buf_cap cap].
    rewrite len_app, write_len_slice by done. unfold write_len in *. lia. }
  case_match.
  - unfold writer_flush. rewrite flush_helper_dead by done. simpl.
    intros [= <- <- <- <-]. done.
  - by intros [= <- <- <- <-].
Qed.

Lemma buffered_Some s w : p_writer s = Some w → buffered s = buf w.
Proof. unfold buffered. by intros ->. Qed.

Lemma writer_flush_SOk w (l : Shared E) ready rb wd :
  state l = SOk ready rb wd → 0 <= rb → rb + len (buf w) <= usize_max →
  writer_flush w l =
    Ret (if bool_decide (buf w = []) then (Ok tt, w, l, None)
         else (Ok tt, mk_Writer [] 0 (cap w),
               mk_Shared (SOk (ready ++ [buf w]) (rb + len (buf w)) false) None, waker l)).
Proof.
  intros Hst Hrb Hmax. unfold writer_flush.
  rewrite (flush_helper_SOk _ _ _ ready rb wd) by done. by case_bool_decide.
Qed.

Lemma writer_flush_dead w (l : Shared E) :
  is_SOk (state l) = false →
  writer_flush w l =
    Ret (if bool_decide (buf w = []) then Ok tt else Err receiver_was_dropped, w, l, None).
Proof.
  intros Hst. unfold writer_flush. rewrite flush_helper_dead by done. by case_bool_decide.
Qed.

Lemma writer_drop_SOk w (l : Shared E) ready rb wd :
  state l = SOk ready rb wd → 0 <= rb → rb + len (buf w) <= usize_max →
  writer_drop w l =
    Ret (mk_Shared (SOk (if bool_decide (buf w = []) then ready else ready ++ [buf w])
                        (rb + len (buf w)) true) None, waker l).
Proof.
  intros Hst Hrb Hmax. unfold writer_drop.
  rewrite (flush_helper_SOk _ _ _ ready rb wd) by done. by case_bool_decide.
Qed.

Lemma writer_drop_dead w (l : Shared E) :
  is_SOk (state l) = false → writer_drop w l = Ret (l, None).
Proof. intros Hst. unfold writer_drop. by rewrite flush_helper_dead. Qed.

Lemma reader_poll_SOk_cons cx (l : Shared E) c ready wd :
  state l = SOk (c :: ready) (len (concat (c :: ready))) wd →
  len (concat (c :: ready)) <= usize_max →
  reader_poll_next cx l =
    Ret (Ready (Some (Ok (from_vec c))) : poll_item D E,
         mk_Shared (if negb (bool_decide (ready = [])) || negb wd
                    then SOk ready (len (concat ready)) wd else ReaderFused) (waker l)).
Proof.
  intros Hst Hmax. unfold reader_poll_next. rewrite Hst. simpl in *. len_simpl.
  pose proof (len_nonneg c). pose proof (len_nonneg (concat ready)).
  rewrite usize_sub_ok by lia. simpl.
  by replace (len c + len (concat ready) - len c) with (len (concat ready)) by lia.
Qed.

(** ** The invariant is preserved *)

Lemma register_waker_task o cx :
  ∃ w, register_waker o cx = Some w ∧ task_of w = task_of cx.
Proof.
  destruct o as [w|]; simpl; [|eauto].
  destruct (will_wake w cx) eqn:Hw; simpl; [|eauto].
  eauto using will_wake_task.
Qed.

(** A task parked on a pipe nothing is about to wake. *)
Lemma parked_open s t :
  pipe_wake_inv s → p_wake s = None → p_parked s = Some t →
  state (p_shared s) = SOk [] 0 false ∧
  ∃ w, waker (p_shared s) = Some w ∧ task_of w = t.
Proof.
  intros Hw Hn Ht. destruct (Hw t Ht) as [?|(w & Hs & _)]; [done|congruence].
Qed.

(** [pipe_wake_inv] after a step of the writer: it left the shared state as it
    was, or it takes the registered waker along. *)
Lemma pipe_wake_inv_writer s s' :
  pipe_wake_inv s → p_wake s = None → p_parked s' = p_parked s →
  (p_shared s' = p_shared s ∨ p_wake s' = waker (p_shared s) ∨
   is_SOk (state (p_shared s)) = false) →
  pipe_wake_inv s'.
Proof.
  intros Hinv Hn Hp Hs t Ht. rewrite Hp in Ht.
  destruct (parked_open s t Hinv Hn Ht) as [Hopen Hw].
  destruct Hs as [->|[->|Hdead]]; [by left|by right|].
  by rewrite Hopen in Hdead.
Qed.

(** Whatever the writer does to a closed pipe, the reader's side stays right. *)
Lemma data_inv_dead s w wo wk parked ab x :
  pipe_data_inv s → p_writer s = Some w → is_SOk (state (p_shared s)) = false →
  (ab = p_aborted s ∨ p_aborted s = None) →
  pipe_data_inv (mk_pipe (p_shared s) wo wk parked ab (p_accepted s ++ x)
                   (p_delivered s) (p_ends s)).
Proof.
  unfold pipe_data_inv. cbn [p_shared p_writer p_aborted p_accepted p_delivered p_ends].
  intros Hinv Hw Hdead Hab.
  destruct (state (p_shared s)) as [| |]; [done| |].
  - destruct Hinv as (Ha & He & Hp). destruct Hab as [->|]; [|congruence].
    split_and!; [done|done|]. by apply prefix_app_r.
  - destruct Hinv as [(_ & Hn & _)|(e' & n & Ha & Hp & He)]; [congruence|].
    right. exists e', n. destruct Hab as [->|]; [|congruence].
    split_and!; [done| |done]. by apply prefix_app_r.
Qed.

Lemma pipe_inv_write s w data r w' l' wk :
  pipe_inv s → p_writer s = Some w → p_wake s = None →
  len (queued s) + len (buf w) + len data <= usize_max →
  writer_write data w (p_shared s) = Ret (r, w', l', wk) →
  pipe_inv (mk_pipe l' (Some w') wk (p_parked s) (p_aborted s)
              (p_accepted s ++ accepted_by data r) (p_delivered s) (p_ends s)).
Proof.
  intros (Hdata & Hwake & Hwf) Hw Hn Hmax Hwr. specialize (Hwf w Hw).
  unfold queued in Hmax. pose proof (len_nonneg data). pose proof (len_nonneg (buf w)).
  destruct (is_SOk (state (p_shared s))) eqn:Hopen.
  - destruct (state (p_shared s)) as [ready rb wd| |] eqn:Hst; [clear Hopen|done..].
    pose proof Hdata as Hd. unfold pipe_data_inv in Hd. rewrite Hst, (buffered_Some s w Hw) in Hd.
    destruct Hd as (-> & Hne & Hwd & Hab & Hends & Hacc & Hroom & Hlen).
    pose proof (len_nonneg (concat ready)).
    destruct (writer_write_SOk data w (p_shared s) ready (len (concat ready)) wd)
      as (w'' & l'' & wk'' & Heq & Hwf' & Hroom' & Hcase); [done..|].
    rewrite Heq in Hwr. injection Hwr as <- <- <- <-.
    pose proof (write_len_spec data w Hwf). pose proof (write_len_slice data w Hwf).
    assert (wd = false) as ->.
    { destruct wd; [|done]. rewrite (proj1 Hwd eq_refl) in Hw. done. }
    split_and!.
    + unfold pipe_data_inv, buffered.
      cbn [p_shared p_writer p_aborted p_accepted p_delivered p_ends accepted_by].
      rewrite Hacc. destruct Hcase as [(-> & -> & ->)|(-> & -> & Htaken & ->)].
      * rewrite Hst. split_and!; try done.
        -- by rewrite !app_assoc.
        -- by intros ? [= <-].
        -- len_simpl. lia.
      * cbn [state]. rewrite concat_app. simpl. rewrite !app_nil_r. split_and!; try done.
        -- by len_simpl.
        -- rewrite Forall_app. eauto.
        -- by rewrite !app_assoc.
        -- by intros ? [= <-].
        -- rewrite len_nil. len_simpl. lia.
    + eapply pipe_wake_inv_writer; [done..|]. cbn [p_shared p_wake].
      destruct Hcase as [(-> & _)|(_ & -> & _)]; auto.
    + by intros ? [= <-].
  - destruct (writer_write_dead _ _ _ _ _ _ _ Hopen Hwf Hwr) as (-> & -> & Hwf').
    split_and!; [eapply data_inv_dead; eauto|eapply pipe_wake_inv_writer; eauto|].
    by intros ? [= <-].
Qed.

Lemma pipe_inv_flush s w r w' l' wk :
  pipe_inv s → p_writer s = Some w → p_wake s = None →
  writer_flush w (p_shared s) = Ret (r, w', l', wk) →
  pipe_inv (mk_pipe l' (Some w') wk (p_parked s) (p_aborted s)
              (p_accepted s) (p_delivered s) (p_ends s)).
Proof.
  intros (Hdata & Hwake & Hwf) Hw Hn Hfl. specialize (Hwf w Hw).
  destruct (is_SOk (state (p_shared s))) eqn:Hopen.
  - destruct (state (p_shared s)) as [ready rb wd| |] eqn:Hst; [clear Hopen|done..].
    pose proof Hdata as Hd. unfold pipe_data_inv in Hd. rewrite Hst, (buffered_Some s w Hw) in Hd.
    destruct Hd as (-> & Hne & Hwd & Hab & Hends & Hacc & Hroom & Hlen).
    pose proof (len_nonneg (concat ready)).
    rewrite (writer_flush_SOk _ _ _ _ _ Hst) in Hfl by done.
    case_bool_decide as Hb; injection Hfl as <- <- <- <-.
    + split_and!; [|eapply pipe_wake_inv_writer; eauto|by intros ? [= <-]].
      destruct s; cbn in *. by subst.
    + split_and!; [|eapply pipe_wake_inv_writer; cbn; eauto|].
      * unfold pipe_data_inv, buffered.
        cbn [p_shared p_writer p_aborted p_accepted p_delivered p_ends state buf].
        rewrite concat_app. simpl. rewrite !app_nil_r, len_nil. split_and!; try done.
        -- by len_simpl.
        -- rewrite Forall_app. eauto.
        -- intros ? [= <-]. by left.
        -- len_simpl. lia.
      * intros ? [= <-]. split; [apply Hwf|by left].
  - rewrite (writer_flush_dead _ _ Hopen) in Hfl. injection Hfl as <- <- <- <-.
    split_and!; [|eapply pipe_wake_inv_writer; eauto|by intros ? [= <-]].
    rewrite <- (app_nil_r (p_accepted s)). eapply data_inv_dead; eauto.
Qed.

Lemma pipe_inv_abort s w e l' wk :
  pipe_inv s → p_writer s = Some w → p_wake s = None →
  writer_abort e (p_shared s) = (l', wk) →
  pipe_inv (mk_pipe l' (Some w) wk (p_parked s)
              (match p_aborted s with None => Some e | a => a end)
              (p_accepted s) (p_delivered s) (p_ends s)).
Proof.
  intros (Hdata & Hwake & Hwf) Hw Hn Hab. specialize (Hwf w Hw). unfold writer_abort in Hab.
  destruct (is_SOk (state (p_shared s))) eqn:Hopen.
  - destruct (state (p_shared s)) as [ready rb wd| |] eqn:Hst; [clear Hopen|done..].
    injection Hab as <- <-. pose proof Hdata as Hd. unfold pipe_data_inv in Hd. rewrite Hst in Hd.
    destruct Hd as (_ & _ & _ & Ha & Hends & Hacc & _).
    split_and!; [|eapply pipe_wake_inv_writer; cbn; eauto|by intros ? [= <-]].
    unfold pipe_data_inv. cbn [p_shared p_aborted p_ends p_delivered p_accepted state].
    rewrite Ha, Hacc. split_and!; [done|done|]. by eexists.
  - assert (l' = p_shared s ∧ wk = None) as [-> ->].
    { destruct (state (p_shared s)); [done|by injection Hab as <- <-..]. }
    split_and!; [|eapply pipe_wake_inv_writer; eauto|by intros ? [= <-]].
    rewrite <- (app_nil_r (p_accepted s)). eapply data_inv_dead; eauto.
    destruct (p_aborted s); eauto.
Qed.

Lemma pipe_inv_drop s w l' wk :
  pipe_inv s → p_writer s = Some w → p_wake s = None →
  writer_drop w (p_shared s) = Ret (l', wk) →
  pipe_inv (mk_pipe l' None wk (p_parked s) (p_aborted s)
              (p_accepted s) (p_delivered s) (p_ends s)).
Proof.
  intros (Hdata & Hwake & Hwf) Hw Hn Hdr. specialize (Hwf w Hw).
  destruct (is_SOk (state (p_shared s))) eqn:Hopen.
  - destruct (state (p_shared s)) as [ready rb wd| |] eqn:Hst; [clear Hopen|done..].
    pose proof Hdata as Hd. unfold pipe_data_inv in Hd. rewrite Hst, (buffered_Some s w Hw) in Hd.
    destruct Hd as (-> & Hne & Hwd & Hab & Hends & Hacc & Hroom & Hlen).
    pose proof (len_nonneg (concat ready)).
    rewrite (writer_drop_SOk _ _ _ _ _ Hst) in Hdr by done. injection Hdr as <- <-.
    split_and!; [|eapply pipe_wake_inv_writer; cbn; eauto|done].
    unfold pipe_data_inv, buffered.
    cbn [p_shared p_writer p_aborted p_accepted p_delivered p_ends state].
    rewrite app_nil_r, len_nil. case_bool_decide as Hb.
    + rewrite Hb, len_nil, Z.add_0_r in *. rewrite app_nil_r in Hacc. split_and!; done || lia.
    + rewrite concat_app. simpl. rewrite app_nil_r. split_and!; try done.
      * by len_simpl.
      * rewrite Forall_app. eauto.
      * len_simpl. lia.
  - rewrite (writer_drop_dead _ _ Hopen) in Hdr. injection Hdr as <- <-.
    split_and!; [|eapply pipe_wake_inv_writer; eauto|done].
    rewrite <- (app_nil_r (p_accepted s)). eapply data_inv_dead; eauto.
Qed.

Lemma pipe_inv_wake s w parked' :
  pipe_inv s → p_wake s = Some w →
  (p_parked s = Some (task_of w) → parked' = None) →
  (p_parked s ≠ Some (task_of w) → parked' = p_parked s) →
  pipe_inv (mk_pipe (p_shared s) (p_writer s) None parked' (p_aborted s)
              (p_accepted s) (p_delivered s) (p_ends s)).
Proof.
  intros (Hdata & Hwake & Hwf) Hw Hhit Hmiss. split_and!; [done| |done].
  intros t Ht. cbn [p_parked p_shared p_wake] in *.
  assert (p_parked s ≠ Some (task_of w)) as Hne by (intros Heq; rewrite Hhit in Ht; done).
  rewrite Hmiss in Ht by done. destruct (Hwake t Ht) as [?|(w' & Hw' & <-)]; [by left|].
  congruence.
Qed.

(** A poll that does not answer [Pending] leaves no task parked. *)
Lemma pipe_wake_inv_poll (item : poll_item D E) cx s l' :
  item ≠ Pending → pipe_wake_inv (observe item cx s l').
Proof. intros Hne t Ht. by destruct item as [[[]|]|]. Qed.

Lemma replicate_snoc {A} n (x : A) : replicate n x ++ [x] = replicate (S n) x.
Proof. change [x] with (replicate 1 x). rewrite <- replicate_add. f_equal. lia. Qed.

Lemma pipe_inv_poll s cx item l' :
  pipe_inv s → reader_poll_next cx (p_shared s) = Ret (item, l') →
  pipe_inv (observe item cx s l').
Proof.
  intros (Hdata & Hwake & Hwf) Hp.
  assert (∀ w, p_writer (observe item cx s l') = Some w → writer_wf w) as Hwf'
    by (by destruct item as [[[]|]|]).
  pose proof Hdata as Hd. unfold pipe_data_inv in Hd.
  destruct (state (p_shared s)) as [[|c ready] rb wd|e|] eqn:Hst.
  - destruct Hd as (-> & Hne & Hwd & Hab & Hends & Hacc & Hroom & Hlen).
    unfold reader_poll_next in Hp. rewrite Hst, debug_assert_true in Hp by done. simpl in Hp.
    destruct wd; simpl in Hp; injection Hp as <- <-.
    + split_and!; [|by apply pipe_wake_inv_poll|done].
      left. cbn. rewrite Hends. unfold buffered in Hacc. rewrite (proj1 Hwd eq_refl) in *.
      simpl in Hacc. rewrite !app_nil_r in Hacc. split_and!; try done. by exists 1%nat.
    + split_and!; [done| |done].
      intros t [= <-]. left. split; [done|]. cbn. apply register_waker_task.
  - destruct Hd as (-> & Hne & Hwd & Hab & Hends & Hacc & Hroom & Hlen).
    apply Forall_cons in Hne as [Hc Hne].
    rewrite (reader_poll_SOk_cons _ _ _ _ _ Hst) in Hp
      by (pose proof (len_nonneg (buffered s)); lia).
    injection Hp as <- <-. split_and!; [|by apply pipe_wake_inv_poll|done].
    unfold pipe_data_inv, observe.
    cbn [p_shared p_writer p_aborted p_accepted p_delivered p_ends state].
    rewrite buf_bytes_vec. case_bool_decide as Hr; [destruct wd|]; simpl.
    + left. subst ready. unfold buffered in Hacc. rewrite (proj1 Hwd eq_refl) in *.
      simpl in Hacc. rewrite !app_nil_r in Hacc. split_and!; try done. by exists 0%nat.
    + subst ready. simpl in *. rewrite app_nil_r in *.
      split_and!; try done; [by rewrite <- app_assoc|]. len_simpl.
      pose proof (len_nonneg c). unfold buffered in *. cbn. lia.
    + split_and!; try done; [simpl in Hacc; by rewrite <- !app_assoc in Hacc |- *|].
      simpl in Hlen. len_simpl. pose proof (len_nonneg c). unfold buffered in *. cbn. lia.
  - destruct Hd as (Ha & He & Hpre). unfold reader_poll_next in Hp. rewrite Hst in Hp.
    injection Hp as <- <-. split_and!; [|by apply pipe_wake_inv_poll|done].
    right. cbn. exists e, 0%nat. by rewrite He.
  - unfold reader_poll_next in Hp. rewrite Hst in Hp.
    injection Hp as <- <-. split_and!; [|by apply pipe_wake_inv_poll|done].
    unfold pipe_data_inv. cbn.
    destruct Hd as [(Ha & Hn & Hdel & n & Hen)|(e & n & Ha & Hpre & Hen)]; rewrite Hen.
    + left. split_and!; [done..|]. exists (S n). apply replicate_snoc.
    + right. exists e, (S n). split_and!; [done..|]. simpl. by rewrite replicate_snoc.
Qed.

Lemma pipe_step_inv s s' : pipe_inv s → pipe_step s s' → pipe_inv s'.
Proof.
  destruct 2; eauto using pipe_inv_write, pipe_inv_flush, pipe_inv_abort, pipe_inv_drop,
    pipe_inv_wake, pipe_inv_poll.
Qed.

Lemma pipe_reachable_inv cap s :
  cap <= usize_max / 2 → pipe_reachable cap s → pipe_inv s.
Proof.
  intros Hmax (w & l & Hnew & Hsteps). unfold with_chunk_size, assert_ in Hnew.
  destruct (Z.ltb_spec 0 cap); [|done]. injection Hnew as <- <-.
  remember (initial_pipe _ _) as s0 eqn:Hs0.
  assert (pipe_inv s0) as Hinit.
  { rewrite Hs0. split_and!; [|done|].
    - unfold pipe_data_inv. simpl. unfold buffered. simpl. rewrite len_nil. pose proof usize_max_bounds. unfold U16_MAX in *.
      split_and!; try done; [intros ? [= <-]; by left|lia].
    - intros ? [= <-]. split; [done|]. by left. }
  clear Hs0. induction Hsteps; eauto using pipe_step_inv.
Qed.

(** ** Executable schedules *)

Inductive op :=
  | OpWrite (data : bytes)
  | OpFlush
  | OpAbort (e : E)
  | OpDrop
  | OpWake
  | OpPoll (cx : Waker).

Definition writer_ready (s : pipe E) : option Writer :=
  match p_wake s with None => p_writer s | Some _ => None end.

(** One step, if it is enabled. *)
Definition run_op `{!EqDecision Task} (o : op) (s : pipe E) : option (pipe E) :=
  match o with
  | OpWrite data =>
      w ← writer_ready s;
      if len (queued s) + len (buf w) + len data <=? usize_max then
        match writer_write data w (p_shared s) with
        | Ret (r, w', l', wk) =>
            Some (mk_pipe l' (Some w') wk (p_parked s) (p_aborted s)
                    (p_accepted s ++ accepted_by data r) (p_delivered s) (p_ends s))
        | Panic _ => None
        end
      else None
  | OpFlush =>
      w ← writer_ready s;
      match writer_flush w (p_shared s) with
      | Ret (r, w', l', wk) =>
          Some (mk_pipe l' (Some w') wk (p_parked s) (p_aborted s)
                  (p_accepted s) (p_delivered s) (p_ends s))
      | Panic _ => None
      end
  | OpAbort e =>
      w ← writer_ready s;
      let '(l', wk) := writer_abort e (p_shared s) in
      Some (mk_pipe l' (Some w) wk (p_parked s)
              (match p_aborted s with None => Some e | a => a end)
              (p_accepted s) (p_delivered s) (p_ends s))
  | OpDrop =>
      w ← writer_ready s;
      match writer_drop w (p_shared s) with
      | Ret (l', wk) =>
          Some (mk_pipe l' None wk (p_parked s) (p_aborted s)
                  (p_accepted s) (p_delivered s) (p_ends s))
      | Panic _ => None
      end
  | OpWake =>
      w ← p_wake s;
      Some (mk_pipe (p_shared s) (p_writer s) None
              (if decide (p_parked s = Some (task_of w)) then None else p_parked s)
              (p_aborted s) (p_accepted s) (p_delivered s) (p_ends s))
  | OpPoll cx =>
      match reader_poll_next cx (p_shared s) with
      | Ret (item, l') => Some (observe item cx s l')
      | Panic _ => None
      end
  end.

Fixpoint run `{!EqDecision Task} (os : list op) (s : pipe E) : option (pipe E) :=
  match os with
  | [] => Some s
  | o :: os => s' ← run_op o s; run os s'
  end.

Lemma run_op_step `{!EqDecision Task} o s s' : run_op o s = Some s' → pipe_step s s'.
Proof.
  assert (∀ w, writer_ready s = Some w → p_writer s = Some w ∧ p_wake s = None) as Hready
    by (unfold writer_ready; intros w; by case_match).
  destruct o; simpl; intros Hs.
  - apply bind_Some in Hs as (w & [Hw Hn]%Hready & Hs).
    repeat case_match; simplify_eq. zbool. by eapply step_write.
  - apply bind_Some in Hs as (w & [Hw Hn]%Hready & Hs).
    repeat case_match; simplify_eq. by eapply step_flush.
  - apply bind_Some in Hs as (w & [Hw Hn]%Hready & Hs).
    destruct (writer_abort e (p_shared s)) as [l' wk] eqn:Ha. injection Hs as <-.
    by eapply step_abort.
  - apply bind_Some in Hs as (w & [Hw Hn]%Hready & Hs).
    repeat case_match; simplify_eq. by eapply step_drop.
  - apply bind_Some in Hs as (w & Hw & [= <-]).
    eapply step_wake; [done|by intros ->; rewrite decide_True|by intros ?; rewrite decide_False].
  - repeat case_match; simplify_eq. by eapply step_poll.
Qed.

Lemma run_reachable `{!EqDecision Task} cap os s :
  (match with_chunk_size cap with
   | Ret (w, l) => run os (initial_pipe w l)
   | Panic _ => None
   end) = Some s →
  pipe_reachable cap s.
Proof.
  destruct (with_chunk_size cap) as [[w l]|] eqn:Hn; [|done]. intros Hr.
  exists w, l. split; [done|]. revert Hr. generalize (initial_pipe w l). clear Hn.
  induction os as [|o os IH]; simpl; intros s0 Hs; [by injection Hs as <-|].
  apply bind_Some in Hs as (s1 & Hs1%run_op_step & Hs). eapply rtc_l; eauto.
Qed.

(** ** What the reader gets once the writer is gone *)

(** The reader polled by one task. *)
Definition reader_pollable (cx : Waker) : Pollable (Shared E) D E := reader_poll_next cx.

(** The rest of the queue, after [writer_drop]. *)
Lemma reader_yields_queue cx ready wk :
  len (concat ready) <= usize_max →
  ∃ l', yields (D:=D) (Pollable0:=reader_pollable cx)
          (mk_Shared (SOk ready (len (concat ready)) true) wk) (concat ready) Done l'.
Proof.
  assert (∀ wk, ∃ l', yields (D:=D) (Pollable0:=reader_pollable cx)
            (mk_Shared (E:=E) ReaderFused wk) [] Done l') as Hfused
    by (eexists; by apply yields_done).
  induction ready as [|c ready IH] in wk |- *; intros Hmax.
  - eexists. apply yields_done. unfold poll_next, reader_pollable, reader_poll_next. simpl.
    by rewrite debug_assert_true.
  - pose proof (len_nonneg c). pose proof (len_nonneg (concat ready)).
    assert (len (concat (c :: ready)) = len c + len (concat ready)) as Hl by (simpl; apply len_app).
    pose proof (reader_poll_SOk_cons cx (mk_Shared (SOk (c :: ready) _ true) wk) c ready true
                  eq_refl Hmax) as Hp.
    case_bool_decide as Hr; simpl orb in Hp; cbv iota in Hp.
    + destruct (Hfused wk) as [l' Hy]. exists l'.
      eapply yields_chunk_eq; [exact Hp|done|]. by rewrite buf_bytes_vec, Hr.
    + destruct (IH wk) as [l' Hy]; [lia|]. exists l'.
      eapply yields_chunk_eq; [exact Hp|done|]. by rewrite buf_bytes_vec.
Qed.
End pipe.

Section properties.
Context `{Build, WakersLaws, !Allocator, !AllocatorLaws} {D E : Type} `{BufLaws D}.

(** C17: the pipe is a FIFO, whatever the order of the two halves' calls: the
    reader is given a prefix of what the writer accepted, sees the end of the
    stream only after the writer is gone and everything it accepted was
    delivered, and sees an error at most once and only the one given to the
    first [abort]; polls after either answer [None]. *)
Theorem pipe_is_fifo (cap : Z) (s : pipe E) :
  cap <= usize_max / 2 → pipe_reachable (D:=D) cap s →
  p_delivered s `prefix_of` p_accepted s ∧
  (p_ends s = [] ∨
   (∃ n, p_ends s = replicate (S n) Done ∧ p_writer s = None ∧ p_aborted s = None ∧
         p_delivered s = p_accepted s) ∨
   (∃ e n, p_ends s = Failed e :: replicate n Done ∧ p_aborted s = Some e)).
Proof.
  intros Hcap Hs. destruct (pipe_reachable_inv cap s Hcap Hs) as (Hd & _ & _).
  unfold pipe_data_inv in Hd. destruct (state (p_shared s)).
  - destruct Hd as (_ & _ & _ & _ & He & Hacc & _). split; [|by left].
    rewrite Hacc. by eexists.
  - destruct Hd as (_ & He & Hp). by eauto.
  - destruct Hd as [(Ha & Hw & Hdel & [|n] & He)|(e & n & Ha & Hp & He)].
    + rewrite Hdel. by eauto.
    + split; [by rewrite Hdel|]. right; left. by exists n.
    + split; [done|]. right; right. by eauto.
Qed.

Lemma pipe_inv_drains (s : pipe E) (cx : Waker) :
  pipe_inv s → p_writer s = None → p_ends s = [] →
  ∃ bs r l', yields (D:=D) (Pollable0:=reader_pollable cx) (p_shared s) bs r l' ∧
    match p_aborted s with
    | None => r = Done ∧ p_delivered s ++ bs = p_accepted s
    | Some e => r = Failed e ∧ bs = []
    end.
Proof.
  intros (Hd & _ & _) Hw He.
  unfold pipe_data_inv in Hd. destruct (p_shared s) as [[ready rb wd|e|] wk]; simpl in Hd.
  - destruct Hd as (-> & _ & Hwd & Ha & _ & Hacc & _ & Hlen).
    unfold buffered in *. rewrite Hw in *. rewrite (proj2 Hwd eq_refl), Ha.
    simpl in *. rewrite len_nil, app_nil_r in *.
    destruct (reader_yields_queue (E:=E) (D:=D) cx ready wk) as [l' Hy]; [lia|].
    by eexists _, _, _.
  - destruct Hd as (Ha & _ & _). rewrite Ha. eexists [], _, _. split; [|done].
    by apply yields_failed.
  - destruct Hd as [(Ha & _ & Hdel & _)|(e & n & _ & _ & He')]; [|congruence].
    rewrite Ha. eexists [], _, _. split; [by apply yields_done|].
    by rewrite app_nil_r.
Qed.

(** C19: nothing is lost: once the writer is gone, polling the reader delivers
    what it accepted and had not yet delivered, then the end of the stream; or
    the error of an [abort], if there was one and it was not seen. *)
Theorem pipe_drains (cap : Z) (s : pipe E) (cx : Waker) :
  cap <= usize_max / 2 → pipe_reachable (D:=D) cap s →
  p_writer s = None → p_ends s = [] →
  ∃ bs r l' fuel,
    drain (D:=D) (Pollable0:=reader_pollable cx) fuel (p_shared s) = Ret (Some (bs, r, l')) ∧
    match p_aborted s with
    | None => r = Done ∧ p_delivered s ++ bs = p_accepted s
    | Some e => r = Failed e ∧ bs = []
    end.
Proof.
  intros Hcap Hs Hw He.
  destruct (pipe_inv_drains s cx (pipe_reachable_inv cap s Hcap Hs) Hw He)
    as (bs & r & l' & [fuel Hy]%yields_drain & Hr).
  by eauto 10.
Qed.

(** C18: no wake-up is lost: while a task is parked, either the waker that
    wakes it is in the hands of the writer, or a poll would still answer
    [Pending] and that task's waker is the one registered. *)
Theorem pipe_no_lost_wakeup (cap : Z) (s : pipe E) (t : Task) :
  cap <= usize_max / 2 → pipe_reachable (D:=D) cap s → p_parked s = Some t →
  (∃ w, p_wake s = Some w ∧ task_of w = t) ∨
  ((∃ w, waker (p_shared s) = Some w ∧ task_of w = t) ∧
   ∀ cx, ∃ l', reader_poll_next cx (p_shared s) = Ret (Pending : poll_item D E, l')).
Proof.
  intros Hcap Hs Ht. destruct (pipe_reachable_inv cap s Hcap Hs) as (_ & Hw & _).
  destruct (Hw t Ht) as [[Hst Hwk]|?]; [right|by left].
  split; [done|]. intros cx. unfold reader_poll_next. rewrite Hst, debug_assert_true by done.
  simpl. eauto.
Qed.

(** On an open pipe a write takes some of the data, if there is any. *)
Lemma live_write_progress (s : pipe E) (w : Writer) (data : bytes) :
  pipe_inv s → p_writer s = Some w → is_SOk (state (p_shared s)) = true →
  len (queued s) + len (buf w) + len data <= usize_max →
  ∃ n w' l' wk, writer_write data w (p_shared s) = Ret (Ok n, w', l', wk) ∧
    0 <= n <= len data ∧ (data ≠ [] → 0 < n).
Proof.
  intros (Hd & _ & Hwf) Hw Hopen Hmax. specialize (Hwf w Hw). unfold pipe_data_inv in Hd.
  unfold queued in Hmax. pose proof (len_nonneg data).
  destruct (state (p_shared s)) as [ready rb wd| |] eqn:Hst; [|done..].
  destruct Hd as (-> & _ & _ & _ & _ & _ & Hroom & Hlen).
  rewrite (buffered_Some s w Hw) in Hlen. pose proof (len_nonneg (concat ready)).
  destruct (writer_write_SOk data w (p_shared s) ready (len (concat ready)) wd)
    as (w' & l' & wk & Heq & _); [done..|].
  eexists _, _, _, _. split; [exact Heq|].
  split; [by apply write_len_spec|]. intros Hne.
  assert (len data ≠ 0) by (intros ?%len_0_inv; done).
  apply write_cap_spec in Hwf as Hc. destruct Hwf as [Hcw Hb]. specialize (Hroom w Hw).
  unfold write_len, write_cap, writer_has_room in *.
  destruct (Z.eqb_spec (buf_cap w) 0); destruct Hb as [[Hb1 Hb2]|Hb];
    rewrite ?Hb2, ?len_nil in *; lia.
Qed.

(** C29: until [abort] the writer succeeds whatever the reader does, even
    if it is dropped: [write] takes some of the data (some, if there is any),
    [flush] and [drop] leave nothing in the buffer; after [abort], [flush]
    reports an error exactly when it has data to lose.  Nothing panics. *)
Theorem pipe_writer_progress (cap : Z) (s : pipe E) (w : Writer) (data : bytes) :
  cap <= usize_max / 2 → pipe_reachable (D:=D) cap s → p_writer s = Some w →
  len (queued s) + len (buf w) + len data <= usize_max →
  (∃ r w' l' wk, writer_write data w (p_shared s) = Ret (r, w', l', wk) ∧
     (p_aborted s = None → ∃ n, r = Ok n ∧ 0 <= n <= len data ∧ (data ≠ [] → 0 < n))) ∧
  (∃ r w' l' wk, writer_flush w (p_shared s) = Ret (r, w', l', wk) ∧
     (p_aborted s = None → r = Ok tt ∧ buf w' = []) ∧
     (p_aborted s ≠ None → w' = w ∧ l' = p_shared s ∧
        r = if bool_decide (buf w = []) then Ok tt else Err receiver_was_dropped)) ∧
  (∃ l' wk, writer_drop w (p_shared s) = Ret (l', wk)).
Proof.
  intros Hcap Hs Hw Hmax. destruct (pipe_reachable_inv cap s Hcap Hs) as (Hd & _ & Hwf).
  specialize (Hwf w Hw). unfold pipe_data_inv in Hd. unfold queued in Hmax.
  pose proof (len_nonneg data).
  destruct (is_SOk (state (p_shared s))) eqn:Hopen.
  - destruct (state (p_shared s)) as [ready rb wd| |] eqn:Hst; [|done..].
    destruct Hd as (-> & _ & _ & Ha & _ & _ & Hroom & Hlen).
    rewrite (buffered_Some s w Hw) in Hlen. pose proof (len_nonneg (concat ready)).
    split_and!.
    + destruct (live_write_progress s w data (pipe_reachable_inv cap s Hcap Hs) Hw)
        as (n & w' & l' & wk & Heq & Hn); [by rewrite Hst|unfold queued; by rewrite Hst|].
      eexists _, _, _, _. split; [exact Heq|]. intros _. by exists n.
    + rewrite (writer_flush_SOk _ _ _ _ _ Hst) by done.
      case_bool_decide; eexists _, _, _, _; (split; [done|]); split; congruence || done.
    + rewrite (writer_drop_SOk _ _ _ _ _ Hst) by done. eauto.
  - assert (p_aborted s ≠ None) as Ha.
    { destruct (state (p_shared s)); [done|intuition congruence|].
      destruct Hd as [?|(? & ? & ? & _)]; intuition congruence. }
    split_and!.
    + rewrite writer_write_unfold by done. cbv zeta.
      destruct (_ <=? _); rewrite ?writer_flush_dead by done;
        simpl; eexists _, _, _, _; (split; [reflexivity|]); intros; congruence.
    + rewrite writer_flush_dead by done. eexists _, _, _, _.
      split; [done|]. split; [intros; congruence|done].
    + rewrite writer_drop_dead by done. eauto.
Qed.

(** [size_hint] and [is_end_stream] agree with what the reader will
    give: the lower bound is available without waiting, the upper bound is
    given only when the writer is gone and is exact, and the stream is reported
    ended exactly when the next poll answers [None]. *)
Theorem pipe_hints (cap : Z) (s : pipe E) (cx : Waker) :
  cap <= usize_max / 2 → pipe_reachable (D:=D) cap s →
  (p_aborted s = None → lower (size_hint (p_shared s)) = len (queued s)) ∧
  (∀ u, upper (size_hint (p_shared s)) = Some u →
     p_writer s = None ∧ lower (size_hint (p_shared s)) = u ∧
     len (p_delivered s) + u = len (p_accepted s)) ∧
  (is_end_stream (p_shared s) = true ↔
     ∃ l', reader_poll_next cx (p_shared s) = Ret (Ready None : poll_item D E, l')).
Proof.
  intros Hcap Hs. destruct (pipe_reachable_inv cap s Hcap Hs) as (Hd & _ & _).
  unfold pipe_data_inv, queued, size_hint, is_end_stream, reader_poll_next in *.
  destruct (state (p_shared s)) as [ready rb wd|e|]; simpl.
  - destruct Hd as (-> & Hne & Hwd & _ & _ & Hacc & _).
    split_and!; [done| |].
    + intros u Hu. destruct wd; [|done]. injection Hu as <-.
      unfold buffered in Hacc. rewrite (proj1 Hwd eq_refl), app_nil_r in Hacc.
      split_and!; [by apply Hwd|done|]. rewrite Hacc. by len_simpl.
    + destruct ready as [|c ready]; simpl.
      * rewrite debug_assert_true by done. simpl.
        destruct wd; simpl; split; eauto; [done|by intros (? & ?)].
      * apply Forall_cons in Hne as [Hc _].
        assert (0 < len c) by (destruct c; [done|rewrite len_cons; pose proof (len_nonneg c); lia]).
        rewrite len_app. pose proof (len_nonneg (concat ready)).
        rewrite (proj2 (Z.eqb_neq _ 0)) by lia. simpl. split; [done|].
        intros (l' & Hp). by apply bind_Ret_inv in Hp as (? & _ & ?).
  - destruct Hd as (Ha & _). split_and!; [by rewrite Ha|done|split; [done|by intros (? & ?)]].
  - split_and!; [done..|split; eauto].
Qed.
End properties.

(** ** Concrete schedules *)

(** Wakers named by their task; exact allocations. *)
#[local] Instance test_wakers : Wakers :=
  {| Waker := nat; Task := nat; task_of := id; will_wake := Nat.eqb |}.
#[local] Instance test_wakers_laws : WakersLaws.
Proof. intros w w'. apply Nat.eqb_eq. Qed.
#[local] Instance test_allocator : Allocator := λ n, n.
#[local] Instance test_allocator_laws : AllocatorLaws (H:=debug_build).
Proof.
  intros n Hn. pose proof (Z.mul_div_le (usize_max (Build:=debug_build)) 2 ltac:(done)).
  pose proof (usize_max_bounds (H:=debug_build)). unfold U16_MAX in *.
  unfold reserve_exact, test_allocator. lia.
Qed.
#[local] Instance test_task_eq : EqDecision (@Task test_wakers) := Nat.eq_dec.
#[local] Existing Instances debug_build plain_buf plain_buf_laws.

Abbreviation test_op := (@op test_wakers bytes).

(** The state after a schedule of a pipe of 4-byte chunks. *)
Definition after (os : list test_op) : pipe bytes :=
  match with_chunk_size 4 with
  | Ret (w, l) =>
      match run (D:=bytes) os (initial_pipe w l) with
      | Some s => s
      | None => initial_pipe w l
      end
  | Panic _ => initial_pipe (mk_Writer [] 0 4) (mk_Shared ReaderFused None)
  end.

Lemma after_reachable os : pipe_reachable (D:=bytes) 4 (after os).
Proof.
  unfold after. destruct (with_chunk_size 4) as [[w l]|] eqn:Hn; [|done].
  destruct (run _ _) as [s|] eqn:Hr.
  - eapply (run_reachable 4 os). by rewrite Hn.
  - by eapply (run_reachable 4 []); rewrite Hn.
Qed.

(** A poll that parks task 7, then five bytes written and the writer dropped. *)
Definition schedule : list test_op :=
  [OpPoll 7%nat; OpWrite (bs "hello"); OpWake; OpWrite (bs "o"); OpPoll 7%nat; OpDrop].

Lemma pipe_is_fifo_witness :
  p_delivered (after schedule) `prefix_of` p_accepted (after schedule).
Proof.
  destruct (pipe_is_fifo 4 (after schedule)) as [Hp _].
  - by vm_compute.
  - apply after_reachable.
  - exact Hp.
Defined.

Lemma pipe_drains_witness :
  ∃ bs r l' fuel,
    drain (Pollable0:=reader_pollable (D:=bytes) 7%nat) fuel (p_shared (after schedule)) = Ret (Some (bs, r, l')) ∧
    bs = Prelude.bs "o".
Proof.
  destruct (pipe_drains 4 (after schedule) 7%nat) as (bs & r & l' & fuel & Hd & Hr).
  - by vm_compute.
  - apply after_reachable.
  - reflexivity.
  - reflexivity.
  - exists bs, r, l', fuel. split; [exact Hd|].
    assert (p_aborted (after schedule) = None) as Ha by reflexivity. rewrite Ha in Hr.
    destruct Hr as [_ Hr].
    change (p_delivered (after schedule)) with (Prelude.bs "hell") in Hr.
    change (p_accepted (after schedule)) with (Prelude.bs "hello") in Hr.
    by injection Hr as ->.
Defined.

Definition wake_schedule : list test_op := [OpPoll 7%nat; OpWrite (bs "hello")].

Lemma pipe_no_lost_wakeup_witness : p_wake (after wake_schedule) = Some 7%nat.
Proof.
  destruct (pipe_no_lost_wakeup (D:=bytes) 4 (after wake_schedule) 7%nat)
    as [(w & Hw & Ht)|[(w & Hw & _) _]].
  - by vm_compute.
  - apply after_reachable.
  - reflexivity.
  - exact (eq_trans Hw (f_equal Some Ht)).
  - discriminate.
Defined.

Lemma pipe_writer_progress_witness :
  ∃ w l' wk, writer_drop w (p_shared (after [OpWrite (bs "hi")])) = Ret (l', wk).
Proof.
  destruct (pipe_writer_progress (D:=bytes) 4 (after [OpWrite (bs "hi")])
              (mk_Writer (bs "hi") 4 4) (bs "x")) as (_ & _ & l' & wk & Hd).
  - by vm_compute.
  - apply after_reachable.
  - reflexivity.
  - by vm_compute.
  - by exists (mk_Writer (bs "hi") 4 4), l', wk.
Defined.

Lemma pipe_hints_witness :
  is_end_stream (p_shared (after schedule)) = false.
Proof.
  destruct (pipe_hints (D:=bytes) 4 (after schedule) 7%nat) as (_ & _ & He).
  - by vm_compute.
  - apply after_reachable.
  - destruct (is_end_stream _); [|reflexivity].
    destruct (proj1 He eq_refl) as [l' Hl]. discriminate.
Defined.
