(* ===== verification/ChunkSizes.v ===== *)
(** * The chunks of the pipe (src/chunker.rs)

    How large the pieces are that the reader gets: a writer of chunk size [cap]
    fills a buffer of the capacity the allocator gives for [cap] and passes it
    on when it is full, or earlier on [flush] and [drop]. *)

From S2P Require Import Prelude RustStd HttpApi Plain Stream Chunker.

Section sizes.
Context `{Build, WakersLaws, !Allocator, !AllocatorLaws} {D E : Type} `{BufLaws D}.

(** The queue of the shared state. *)
Definition chunks (l : Shared E) : list bytes :=
  match state l with SOk ready _ _ => ready | _ => [] end.

(** ** One call *)

Lemma flush_helper_chunks dropping w (l : Shared E) r w' l' wk :
  flush_helper dropping w l = Ret (r, w', l', wk) →
  (w' = w ∨ w' = mk_Writer [] 0 (cap w)) ∧
  (chunks l' = chunks l ∨ chunks l' = chunks l ++ [buf w]).
Proof.
  unfold flush_helper, chunks. destruct (_ && _); [intros [= <- <- <- <-]; auto|].
  destruct (state l) as [ready rb wd| |] eqn:Hst; [|case_match; intros [= <- <- <- <-]; rewrite Hst; auto..].
  case_match; [|intros [= <- <- <- <-]; auto]. intros Hf. outcome_inv. auto.
Qed.

(** A write passes a chunk on only when the buffer is full. *)
Lemma writer_write_chunks data w (l : Shared E) r w' l' wk :
  writer_wf w → writer_write data w l = Ret (r, w', l', wk) →
  (w' = mk_Writer [] 0 (cap w) ∨ buf_cap w' = write_cap w ∧ cap w' = cap w) ∧
  (chunks l' = chunks l ∨ ∃ c, chunks l' = chunks l ++ [c] ∧ len c = write_cap w).
Proof.
  intros Hw. rewrite writer_write_unfold by done. cbv zeta.
  set (w1 := mk_Writer (buf w ++ slice data 0 (write_len data w)) (write_cap w) (cap w)).
  destruct (Z.leb_spec (write_cap w - len (buf w)) (len data)) as [Hfull|_].
  - assert (len (buf w1) = write_cap w) as Hl.
    { unfold w1. cbn [buf]. rewrite len_app, write_len_slice by done. unfold write_len. lia. }
    intros Hf. apply bind_Ret_inv in Hf as ([[[r1 w2] l2] wk2] & Hf & [= <- <- <- <-]).
    unfold writer_flush in Hf. apply bind_Ret_inv in Hf as ([[[r3 w3] l3] wk3] & Hf & [= <- <- <- <-]).
    destruct (flush_helper_chunks _ _ _ _ _ _ _ Hf) as [Hw2 Hc]. split.
    + destruct Hw2 as [->| ->]; [by right|by left].
    + destruct Hc as [Hc|Hc]; [by left|right]. by exists (buf w1).
  - intros [= <- <- <- <-]. split; [by right|by left].
Qed.

(** ** Any schedule *)

(** All chunks, queued and not yet full, fit in one buffer of the allocator. *)
Definition writer_sized (cap0 : Z) (w : Writer) : Prop :=
  cap w = cap0 ∧ (buf_cap w = 0 ∨ buf_cap w = reserve_exact cap0).

Definition chunks_inv (cap0 : Z) (s : pipe E) : Prop :=
  Forall (λ c, len c <= reserve_exact cap0) (chunks (p_shared s)) ∧
  ∀ w, p_writer s = Some w → writer_sized cap0 w.

Lemma write_cap_sized cap0 w : writer_sized cap0 w → 0 < cap0 <= usize_max / 2 → write_cap w = reserve_exact cap0.
Proof.
  intros [<- Hb] Hc. unfold write_cap. pose proof (reserve_exact_spec (cap w) Hc).
  destruct Hb as [->| ->]; [done|]. by rewrite (proj2 (Z.eqb_neq _ _)) by lia.
Qed.

Lemma buf_sized cap0 w : writer_wf w → writer_sized cap0 w → len (buf w) <= reserve_exact cap0.
Proof.
  intros Hw Hs. pose proof (write_cap_spec w Hw) as [_ Hl]. destruct Hw as [Hc _].
  rewrite (write_cap_sized cap0) in Hl; [done|done|]. by destruct Hs as [<- _].
Qed.

(** What the writer's calls keep, on a writer [w] and what it leaves. *)
Lemma sized_flushed cap0 w w' :
  writer_sized cap0 w → w' = w ∨ w' = mk_Writer [] 0 (cap w) → writer_sized cap0 w'.
Proof. intros [Hc Hb] [->| ->]; (split; [done|]); auto. Qed.

Lemma chunks_flushed cap0 w (l l' : Shared E) :
  writer_wf w → writer_sized cap0 w → Forall (λ c, len c <= reserve_exact cap0) (chunks l) →
  chunks l' = chunks l ∨ chunks l' = chunks l ++ [buf w] →
  Forall (λ c, len c <= reserve_exact cap0) (chunks l').
Proof.
  intros Hw Hs Hl [->| ->]; [done|]. apply Forall_app. split; [done|].
  apply Forall_singleton. by apply buf_sized.
Qed.

Lemma reader_poll_chunks cx (l l' : Shared E) (item : poll_item D E) :
  reader_poll_next cx l = Ret (item, l') →
  match item with
  | Ready (Some (Ok d)) => ∃ c, d = from_vec c ∧ chunks l = c :: chunks l'
  | _ => chunks l' = chunks l ∨ chunks l' = []
  end.
Proof.
  unfold reader_poll_next, chunks. destruct (state l) as [[|c ready] rb wd| |];
    intros Hp; outcome_inv; auto.
  - destruct wd; simpl in *; outcome_inv; auto.
  - exists c. split; [done|]. f_equal. case_bool_decide as Hr; [|done]. destruct wd; simpl; [by rewrite Hr|done].
Qed.

Lemma chunks_step cap0 s s' :
  pipe_inv s → chunks_inv cap0 s → pipe_step (D:=D) s s' → chunks_inv cap0 s'.
Proof.
  intros (_ & _ & Hwf) [Hl Hs]. destruct 1 as [s w data r w' l' wk Hw _ _ Hwr|s w r w' l' wk Hw _ Hf
    |s w e l' wk Hw _ Ha|s w l' wk Hw _ Hd|s w parked' _ _ _|s cx item l' Hp]; unfold chunks_inv; cbn [p_shared p_writer].
  - specialize (Hs w Hw). specialize (Hwf w Hw).
    assert (0 < cap0 <= usize_max / 2) as Hcap by (destruct Hs as [<- _]; apply Hwf).
    destruct (writer_write_chunks _ _ _ _ _ _ _ Hwf Hwr) as [Hw' Hc].
    rewrite (write_cap_sized cap0) in Hw', Hc by done. split.
    + destruct Hc as [->|(c & -> & Hlen)]; [done|]. apply Forall_app. split; [done|].
      apply Forall_singleton. lia.
    + intros ? [= <-]. destruct Hs as [Hc0 _]. destruct Hw' as [->|[Hb Hc']]; (split; [done || congruence|auto]).
  - specialize (Hs w Hw). specialize (Hwf w Hw). unfold writer_flush in Hf.
    apply bind_Ret_inv in Hf as ([[[r1 w2] l2] wk2] & Hf & [= <- <- <- <-]).
    destruct (flush_helper_chunks _ _ _ _ _ _ _ Hf) as [Hw' Hc].
    split; [by eapply chunks_flushed|]. intros ? [= <-]. by eapply sized_flushed.
  - split; [|intros ? [= <-]; auto]. unfold writer_abort, chunks in *.
    destruct (state (p_shared s)) eqn:Hst; injection Ha as <- <-; cbn [state]; by rewrite ?Hst.
  - specialize (Hs w Hw). specialize (Hwf w Hw). split; [|done]. unfold writer_drop in Hd.
    apply bind_Ret_inv in Hd as ([[[r1 w2] l2] wk2] & Hf & [= <- <-]).
    destruct (flush_helper_chunks _ _ _ _ _ _ _ Hf) as [_ Hc]. by eapply chunks_flushed.
  - done.
  - pose proof (reader_poll_chunks _ _ _ _ Hp) as Hc. destruct item as [[[d|e]|]|]; cbn [observe p_shared p_writer];
      (split; [|done]).
    + destruct Hc as (c & _ & Hc). rewrite Hc in Hl. by apply Forall_cons in Hl as [_ Hl].
    + by destruct Hc as [-> | ->].
    + by destruct Hc as [-> | ->].
    + by destruct Hc as [-> | ->].
Qed.

Lemma chunks_reachable cap0 s :
  cap0 <= usize_max / 2 → pipe_reachable (D:=D) cap0 s → chunks_inv cap0 s.
Proof.
  intros Hcap Hr. pose proof Hr as (w & l & Hnew & Hsteps). unfold with_chunk_size, assert_ in Hnew.
  destruct (Z.ltb_spec 0 cap0) as [Hpos|]; [|done]. injection Hnew as <- <-.
  assert (pipe_reachable (D:=D) cap0 (initial_pipe (mk_Writer [] 0 cap0) (mk_Shared (E:=E) (SOk [] 0 false) None)))
    as Hinit.
  { exists (mk_Writer [] 0 cap0), (mk_Shared (SOk [] 0 false) None). split; [|done].
    unfold with_chunk_size, assert_. by rewrite (proj2 (Z.ltb_lt _ _)). }
  apply (pipe_reachable_inv cap0 _ Hcap) in Hinit.
  assert (chunks_inv cap0 (initial_pipe (mk_Writer [] 0 cap0) (mk_Shared (E:=E) (SOk [] 0 false) None))) as Hc.
  { split; [done|]. intros ? [= <-]. split; auto. }
  clear Hr. induction Hsteps as [|s1 s2 s3 Hstep _ IH]; [done|].
  apply IH; [by eapply pipe_step_inv|by eapply chunks_step].
Qed.
End sizes.

Section properties.
Context `{Build, WakersLaws, !Allocator, !AllocatorLaws} {D E : Type} `{BufLaws D}.

(** A flush passes on what the buffer has, which is never a full chunk. *)
Lemma flush_partial (cap0 : Z) (s : pipe E) (w : Writer) r w' l' wk :
  pipe_inv s → chunks_inv cap0 s → p_writer s = Some w → writer_flush w (p_shared s) = Ret (r, w', l', wk) →
  chunks l' = chunks (p_shared s) ∨
  (chunks l' = chunks (p_shared s) ++ [buf w] ∧ 0 < len (buf w) < reserve_exact cap0).
Proof.
  intros (Hd & _ & Hwf) (_ & Hs) Hw Hf. specialize (Hwf w Hw). specialize (Hs w Hw).
  unfold pipe_data_inv in Hd.
  destruct (state (p_shared s)) as [ready rb wd| |] eqn:Hst.
  2,3: (rewrite writer_flush_dead in Hf by (by rewrite Hst); injection Hf as <- <- <- <-; by left).
  destruct Hd as (-> & _ & _ & _ & _ & _ & Hroom & Hlen). rewrite (buffered_Some s w Hw) in Hlen.
  pose proof (len_nonneg (concat ready)).
  rewrite (writer_flush_SOk _ _ _ _ _ Hst) in Hf by done. case_bool_decide as Hb; injection Hf as <- <- <- <-;
    [by left|right].
  split; [by unfold chunks; rewrite Hst|].
  assert (len (buf w) ≠ 0) by (by intros ?%len_0_inv). pose proof (len_nonneg (buf w)).
  destruct Hwf as [Hpos [[_ Hnil]|[Hbc _]]]; [done|].
  specialize (Hroom w Hw). destruct Hroom as [Hz|Hroom], Hs as [_ [Hz'|Hz']]; lia.
Qed.

(** C28: the chunks are as [Writer] documents: whatever the schedule, each is
    non-empty and at most as long as the capacity the allocator gives for the
    chunk size; one that [write] passes on is exactly that long, and one that
    [flush] passes on is shorter. *)
Theorem pipe_chunk_sizes (cap0 : Z) (s : pipe E) :
  cap0 <= usize_max / 2 → pipe_reachable (D:=D) cap0 s →
  (∀ cx d l', reader_poll_next cx (p_shared s) = Ret (Ready (Some (Ok d)) : poll_item D E, l') →
     0 < remaining d <= reserve_exact cap0) ∧
  ∀ w, p_writer s = Some w →
    (∀ data r w' l' wk, writer_write data w (p_shared s) = Ret (r, w', l', wk) →
       chunks l' = chunks (p_shared s) ∨
       ∃ c, chunks l' = chunks (p_shared s) ++ [c] ∧ len c = reserve_exact cap0) ∧
    (∀ r w' l' wk, writer_flush w (p_shared s) = Ret (r, w', l', wk) →
       chunks l' = chunks (p_shared s) ∨
       ∃ c, chunks l' = chunks (p_shared s) ++ [c] ∧ 0 < len c < reserve_exact cap0).
Proof.
  intros Hcap Hr. pose proof (pipe_reachable_inv cap0 s Hcap Hr) as Hinv.
  pose proof (chunks_reachable cap0 s Hcap Hr) as Hc. pose proof Hinv as (Hd & _ & Hwf).
  pose proof Hc as [Hl Hs]. split.
  - intros cx d l' Hp. apply reader_poll_chunks in Hp as (c & -> & Hp).
    rewrite Hp in Hl. apply Forall_cons in Hl as [Hl _]. unfold remaining. rewrite buf_bytes_vec.
    split; [|done]. unfold pipe_data_inv, chunks in *.
    destruct (state (p_shared s)) as [ready rb wd| |]; [|done..]. subst ready.
    destruct Hd as (_ & Hne & _). apply Forall_cons in Hne as [Hne _].
    assert (len c ≠ 0) by (by intros ?%len_0_inv). pose proof (len_nonneg c). lia.
  - intros w Hw. split.
    + intros data r w' l' wk Hwr. specialize (Hwf w Hw). specialize (Hs w Hw).
      destruct (writer_write_chunks _ _ _ _ _ _ _ Hwf Hwr) as [_ Hcase].
      rewrite (write_cap_sized cap0) in Hcase; [done|done|]. destruct Hs as [<- _]. apply Hwf.
    + intros r w' l' wk Hf. destruct (flush_partial cap0 s w r w' l' wk Hinv Hc Hw Hf) as [|[]]; [by left|].
      right. by exists (buf w).
Qed.
End properties.

(** ** A concrete schedule *)

#[local] Existing Instances debug_build plain_buf plain_buf_laws test_wakers test_wakers_laws
  test_allocator test_allocator_laws.

(** Four bytes of six fill the first chunk; the flush passes on the rest. *)
Lemma pipe_chunk_sizes_witness :
  ∃ r w' l' wk, writer_flush (mk_Writer (bs "lo") 4 4) (p_shared (after [OpWrite (bs "hell"); OpWrite (bs "lo")]))
      = Ret (r, w', l', wk) ∧ chunks l' = [bs "hell"; bs "lo"].
Proof.
  destruct (pipe_chunk_sizes (D:=bytes) 4 (after [OpWrite (bs "hell"); OpWrite (bs "lo")])) as [_ Hw].
  - by vm_compute.
  - apply after_reachable.
  - destruct (Hw (mk_Writer (bs "lo") 4 4)) as [_ Hf]; [reflexivity|].
    destruct (writer_flush _ _) as [[[[r w'] l'] wk]|] eqn:He; [|discriminate He].
    exists r, w', l', wk. split; [reflexivity|].
    destruct (Hf _ _ _ _ eq_refl) as [Hc|(c & Hc & _)]; injection He as _ _ <- _; [discriminate Hc|reflexivity].
Defined.
