(* ===== verification/Platform.v ===== *)
(** * File access (src/platform.rs)

    The system calls are parameters.  A read is given the time of the call, as
    a file may change between two reads. *)

From S2P Require Import Prelude RustStd HttpApi Plain.

(** [FileInfo]. *)
Record FileInfo := mk_FileInfo { fi_inode : Z; fi_len : Z; fi_mtime : SystemTime }.

(** ** Unix *)

(** [libc::pread] gives the bytes it put in the buffer, or the error [errno]
    stands for; [off_t_max] is the largest [off_t].  [Metadata] has the
    accessors the crate uses. *)
Class Unix := {
  UnixFile : Type;
  UnixMetadata : Type;
  off_t_max : Z;
  pread : UnixFile → nat → Z → Z → result bytes io_error;
  is_file : UnixMetadata → bool;
  is_dir : UnixMetadata → bool;
  metadata_ino : UnixMetadata → Z;
  metadata_len : UnixMetadata → Z;
  metadata_modified : UnixMetadata → result SystemTime io_error;
  file_metadata : UnixFile → result UnixMetadata io_error
}.

(** [pread] fills at most the buffer. *)
Class UnixLaws `{Unix} : Prop :=
  pread_len : ∀ f t n off bs, 0 <= n → pread f t n off = Ok bs → len bs <= n.

Section unix.
Context `{Unix}.

Definition offset_too_large : io_error := IoError InvalidInput (bs "offset too large").
Definition no_bytes_beyond (offset : Z) : io_error :=
  IoError UnexpectedEof (bs "no bytes beyond position " ++ fmt_dec offset).

Definition read_at (this : UnixFile) (t : nat) (chunk_size offset : Z) : result bytes io_error :=
  if off_t_max <? offset then Err offset_too_large
  else
    and_then (pread this t chunk_size offset) (λ chunk,
      if len chunk =? 0 then Err (no_bytes_beyond offset) else Ok chunk).

Definition file_info (metadata : UnixMetadata) : result FileInfo io_error :=
  and_then (metadata_modified metadata) (λ mtime,
    Ok (mk_FileInfo (metadata_ino metadata) (metadata_len metadata) mtime)).
End unix.

(** ** Windows *)

Inductive last_error := ERROR_IO_PENDING | ERROR_HANDLE_EOF | OtherError (o : Z).

(** [BY_HANDLE_FILE_INFORMATION]: the fields used, each a [u32]. *)
Record ByHandleFileInformation := mk_info {
  nFileSizeHigh : Z; nFileSizeLow : Z;
  nFileIndexHigh : Z; nFileIndexLow : Z;
  dwHighDateTime : Z; dwLowDateTime : Z
}.

(** [ReadFile] takes the length and the two halves of the offset. *)
Class Windows := {
  Handle : Type;
  ReadFile : Handle → nat → Z → Z → Z → result bytes last_error;
  GetFileInformationByHandle : Handle → result ByHandleFileInformation io_error;
  from_raw_os_error : Z → io_error
}.

Section windows.
Context `{Build, Windows}.

Definition DWORD_MAX : Z := U32_MAX.

Definition read_at_windows (this : Handle) (t : nat) (chunk_size offset : Z)
    : outcome (result bytes io_error) :=
  let Offset := offset mod 2 ^ 32 in
  let OffsetHigh := Z.shiftr offset 32 mod 2 ^ 32 in
  match ReadFile this t (if chunk_size <=? DWORD_MAX then chunk_size else DWORD_MAX) Offset OffsetHigh with
  | Ok chunk => Ret (Ok chunk)
  | Err ERROR_IO_PENDING => Panic ProcessAborted
  | Err ERROR_HANDLE_EOF => Ret (Err (no_bytes_beyond offset))
  | Err (OtherError o) => Ret (Err (from_raw_os_error o))
  end.

Definition SECS_TO_UNIX_EPOCH : Z := 11644473600.

(** [hi as u64) << 32 | lo as u64]. *)
Definition join_u32 (hi lo : Z) : Z := Z.lor (Z.shiftl hi 32) lo.

(** [SystemTime + Duration] on Windows, where a time is an [i64] of 100 ns
    ticks since 1601. *)
Definition unix_epoch_plus (d : Duration) : outcome SystemTime :=
  if SECS_TO_UNIX_EPOCH * 10000000 + d / 100 <=? I64_MAX then Ret (d - d mod 100)
  else Panic ArithmeticOverflow.

Definition filetime_to_systemtime (hi lo : Z) : outcome SystemTime :=
  let ticks := join_u32 hi lo in
  secs ← u64_sub (ticks / 10000000) SECS_TO_UNIX_EPOCH;
  let nanos := (ticks mod 10000000 * 100) mod 2 ^ 32 in
  unix_epoch_plus (duration_new secs nanos).

Definition file_info_windows (file : Handle) : outcome (result FileInfo io_error) :=
  match GetFileInformationByHandle file with
  | Err e => Ret (Err e)
  | Ok info =>
      let inode := join_u32 (nFileIndexHigh info) (nFileIndexLow info) in
      mtime ← filetime_to_systemtime (dwHighDateTime info) (dwLowDateTime info);
      let len := join_u32 (nFileSizeHigh info) (nFileSizeLow info) in
      Ret (Ok (mk_FileInfo inode len mtime))
  end.

Lemma join_u32_add hi lo : 0 <= lo < 2 ^ 32 → join_u32 hi lo = hi * 2 ^ 32 + lo.
Proof.
  intros Hlo. unfold join_u32. rewrite <- Z.shiftl_mul_pow2 by done. symmetry.
  apply Z.add_nocarry_lor. apply Z.bits_inj'. intros n Hn. rewrite Z.land_spec, Z.bits_0.
  destruct (Z.lt_ge_cases n 32).
  - by rewrite Z.shiftl_spec_low.
  - rewrite <- (Z.mod_small lo (2 ^ 32)) by done. rewrite Z.mod_pow2_bits_high by lia.
    apply andb_false_r.
Qed.

(** The two halves [read_at] makes of an offset. *)
Lemma join_offset offset :
  0 <= offset <= U64_MAX →
  join_u32 (Z.shiftr offset 32 mod 2 ^ 32) (offset mod 2 ^ 32) = offset.
Proof.
  intros Ho. unfold U64_MAX in Ho. pose proof (Z.mod_pos_bound offset (2 ^ 32) ltac:(done)).
  rewrite join_u32_add by done. rewrite Z.shiftr_div_pow2 by done.
  rewrite (Z.mod_small (offset / 2 ^ 32)).
  - rewrite Z.mul_comm. symmetry. by apply Z.div_mod.
  - split; [apply Z.div_pos; lia|]. apply Z.div_lt_upper_bound; lia.
Qed.
End windows.

Section properties.

(** On Unix [read_at] keeps its documented contract: what it returns is
    what [pread] read at the offset, at least one and at most [chunk_size]
    bytes; an offset beyond [off_t] is refused before the call, and the end of
    the file is an [UnexpectedEof] error. *)
Theorem read_at_spec `{UnixLaws} (f : UnixFile) (t : nat) (chunk_size offset : Z) :
  0 <= chunk_size →
  (∀ bs, read_at f t chunk_size offset = Ok bs →
     offset <= off_t_max ∧ pread f t chunk_size offset = Ok bs ∧ 1 <= len bs <= chunk_size) ∧
  (off_t_max < offset → read_at f t chunk_size offset = Err offset_too_large) ∧
  (offset <= off_t_max → pread f t chunk_size offset = Ok [] →
     read_at f t chunk_size offset = Err (no_bytes_beyond offset)) ∧
  (∀ e, offset <= off_t_max → pread f t chunk_size offset = Err e →
     read_at f t chunk_size offset = Err e).
Proof.
  intros Hc. unfold read_at. split_and!.
  - intros bs. destruct (Z.ltb_spec off_t_max offset); [done|].
    destruct (pread f t chunk_size offset) as [b|] eqn:Hp; simpl; [|done].
    destruct (Z.eqb_spec (len b) 0); [done|]. intros [= <-].
    pose proof (len_nonneg b). apply pread_len in Hp; [|done]. split_and!; done || lia.
  - intros Ho. by rewrite (proj2 (Z.ltb_lt _ _)).
  - intros Ho Hp. rewrite (proj2 (Z.ltb_ge _ _)) by done. by rewrite Hp.
  - intros e Ho Hp. rewrite (proj2 (Z.ltb_ge _ _)) by done. by rewrite Hp.
Qed.

(** On Windows the offset reaches [ReadFile] unharmed: if [ReadFile] reads
    at the position its two 32-bit halves stand for, [read_at] reads at the
    given 64-bit offset, with the length clamped to a [DWORD]; the end of the
    file is [UnexpectedEof]. *)
Theorem read_at_windows_offset `{Windows}
    (at_position : Handle → nat → Z → Z → result bytes last_error)
    (f : Handle) (t : nat) (chunk_size offset : Z) :
  (∀ f t n lo hi, 0 <= lo < 2 ^ 32 → 0 <= hi < 2 ^ 32 →
     ReadFile f t n lo hi = at_position f t n (hi * 2 ^ 32 + lo)) →
  0 <= offset <= U64_MAX →
  read_at_windows f t chunk_size offset =
    match at_position f t (Z.min chunk_size DWORD_MAX) offset with
    | Ok bs => Ret (Ok bs)
    | Err ERROR_IO_PENDING => Panic ProcessAborted
    | Err ERROR_HANDLE_EOF => Ret (Err (no_bytes_beyond offset))
    | Err (OtherError o) => Ret (Err (from_raw_os_error o))
    end.
Proof.
  intros Hread Ho. unfold read_at_windows.
  pose proof (Z.mod_pos_bound offset (2 ^ 32) ltac:(done)).
  pose proof (Z.mod_pos_bound (Z.shiftr offset 32) (2 ^ 32) ltac:(done)).
  rewrite Hread, <- join_u32_add, join_offset by done.
  destruct (Z.leb_spec chunk_size DWORD_MAX); [rewrite Z.min_l by done|rewrite Z.min_r by lia];
    by destruct (at_position _ _ _ _) as [|[]].
Qed.

(** A [FILETIME] from 1970 on is converted to exactly the time it stands
    for; an earlier one panics, with or without overflow checks: without them
    the subtraction wraps to a time that cannot be represented. *)
Theorem filetime_to_systemtime_spec `{Build} (hi lo : Z) :
  0 <= hi < 2 ^ 32 → 0 <= lo < 2 ^ 32 → hi * 2 ^ 32 + lo <= I64_MAX →
  filetime_to_systemtime hi lo =
    if SECS_TO_UNIX_EPOCH * 10000000 <=? hi * 2 ^ 32 + lo
    then Ret ((hi * 2 ^ 32 + lo - SECS_TO_UNIX_EPOCH * 10000000) * 100)
    else Panic ArithmeticOverflow.
Proof.
  intros Hhi Hlo Hmax. unfold filetime_to_systemtime. rewrite join_u32_add by done.
  assert (0 <= hi * 2 ^ 32 + lo) as Hpos by lia. set (ticks := hi * 2 ^ 32 + lo) in *. clearbody ticks.
  pose proof (Z.div_mod ticks 10000000 ltac:(done)) as Hdm.
  pose proof (Z.mod_pos_bound ticks 10000000 ltac:(done)) as Hm.
  rewrite (Z.mod_small (ticks mod 10000000 * 100)) by lia.
  set (secs := ticks / 10000000) in *. set (rest := ticks mod 10000000) in *. clearbody secs rest.
  unfold I64_MAX, SECS_TO_UNIX_EPOCH in *.
  assert (∀ s, duration_new s (rest * 100) = (s * 10000000 + rest) * 100) as Hd
    by (intros; unfold duration_new, NANOS_PER_SEC; lia).
  assert (∀ s, unix_epoch_plus (duration_new s (rest * 100)) =
    if 11644473600 * 10000000 + (s * 10000000 + rest) <=? I64_MAX
    then Ret ((s * 10000000 + rest) * 100) else Panic ArithmeticOverflow) as Hplus.
  { intros s. unfold unix_epoch_plus. rewrite Hd, Z.div_mul, Z.mod_mul, Z.sub_0_r by done. done. }
  destruct (Z.leb_spec (11644473600 * 10000000) ticks) as [Hle|Hlt].
  - rewrite u64_sub_ok by (unfold U64_MAX; lia). simpl. rewrite Hplus.
    rewrite (proj2 (Z.leb_le _ _)) by (unfold I64_MAX; lia). f_equal. lia.
  - destruct overflow_checks eqn:Hc.
    + unfold u64_sub. by rewrite arith_checked by (done || lia).
    + unfold u64_sub. rewrite arith_wrapping by done. simpl. rewrite Hplus.
      assert ((secs - 11644473600) mod (U64_MAX + 1) = secs - 11644473600 + (U64_MAX + 1)) as ->.
      { rewrite <- (Z.mod_add _ 1) by done. rewrite Z.mod_small; unfold U64_MAX; lia. }
      by rewrite (proj2 (Z.leb_gt _ _)) by (unfold I64_MAX, U64_MAX; lia).
Qed.
End properties.

(** ** Concrete systems *)

(** A file whose content never changes; [errno] is never set. *)
#[local] Instance test_unix : Unix := {|
  UnixFile := bytes;
  UnixMetadata := Z;
  off_t_max := I64_MAX;
  pread f _ n off := Ok (take (Z.to_nat n) (drop (Z.to_nat off) f));
  is_file _ := true;
  is_dir _ := false;
  metadata_ino _ := 7;
  metadata_len m := m;
  metadata_modified _ := Ok (5 * NANOS_PER_SEC);
  file_metadata f := Ok (len f)
|}.
#[local] Instance test_unix_laws : UnixLaws.
Proof.
  intros f t n off b Hn [= <-]. unfold len. rewrite length_take. lia.
Qed.

Lemma read_at_spec_witness :
  ∃ b, read_at (bs "hello") 0 3 1 = Ok b ∧ 1 <= len b <= 3.
Proof.
  destruct (read_at_spec (bs "hello" : @UnixFile test_unix) 0 3 1) as [Hok _]; [done|].
  exists (bs "ell"). split; [reflexivity|]. destruct (Hok (bs "ell") eq_refl) as (_ & _ & Hl).
  exact Hl.
Defined.

#[local] Instance test_windows : Windows := {|
  Handle := Z;
  ReadFile _ _ n lo hi := if hi =? 0 then Ok [x41] else Err ERROR_HANDLE_EOF;
  GetFileInformationByHandle _ := Ok (mk_info 0 5 0 7 29000000 0);
  from_raw_os_error o := IoError (OsError o) []
|}.

Lemma read_at_windows_offset_witness :
  read_at_windows (0 : @Handle test_windows) 0 10 4294967296 = Ret (Err (no_bytes_beyond 4294967296)).
Proof.
  apply (read_at_windows_offset (H:=test_windows)
    (λ _ _ _ pos, if pos / 2 ^ 32 =? 0 then Ok [x41] else Err ERROR_HANDLE_EOF) 0 0 10 4294967296).
  - intros f t n lo hi Hlo Hhi. simpl.
    by rewrite Z.add_comm, Z.div_add, Z.div_small, Z.add_0_l by done.
  - by vm_compute.
Defined.

Lemma filetime_to_systemtime_spec_witness :
  filetime_to_systemtime (H:=release_build) 0 5 = Panic ArithmeticOverflow.
Proof.
  apply (filetime_to_systemtime_spec (H:=release_build) 0 5); by vm_compute.
Defined.
