(* ===== verification/File.v ===== *)
(** * Serving files (src/file.rs) *)

From S2P Require Import Prelude RustStd HttpApi Plain Range Etag Stream Entity Platform.

Definition CHUNK_SIZE : Z := 65536.

(** [futures::stream::unfold]: the stream of the items [step] gives until it
    gives none; its [n]th call of [step] happens at time [t + n]. *)
Fixpoint unfold {D E S : Type} (step : nat → S → option (result D E * S)) (t : nat) (s : S)
    (n : nat) : poll_item D E :=
  match step t s with
  | None => Ready None
  | Some (item, s') =>
      match n with
      | O => Ready (Some item)
      | Datatypes.S n' => unfold step (Datatypes.S t) s' n'
      end
  end.

Section file.
Context `{Build, Http, Unix} {D E : Type} `{!Buf D, !FromBoxError E}.

(** [ChunkedReadFile], with the fields of the [ChunkedReadFileInner] it shares. *)
Record ChunkedReadFile := mk_ChunkedReadFile {
  crf_len : Z;
  crf_inode : Z;
  crf_mtime : SystemTime;
  crf_f : UnixFile;
  crf_headers : HeaderMap
}.

Definition expected_a_file : io_error := IoError Other (bs "expected a file").

Definition new_with_metadata (file : UnixFile) (metadata : UnixMetadata) (headers : HeaderMap)
    : result ChunkedReadFile io_error :=
  if negb (is_file metadata) then Err expected_a_file
  else
    and_then (file_info metadata) (λ info,
      Ok (mk_ChunkedReadFile (fi_len info) (fi_inode info) (fi_mtime info) file headers)).

Definition crf_new (file : UnixFile) (headers : HeaderMap) : result ChunkedReadFile io_error :=
  and_then (file_metadata file) (λ m, new_with_metadata file m headers).

(** One step of [get_range]: [left] is what is still to be read.  A [Range] has
    [start <= end_], which each step keeps, so the subtraction is exact. *)
Definition read_step (inner : ChunkedReadFile) (t : nat) (left : range)
    : option (result D E * range) :=
  if start left =? end_ left then None
  else
    let chunk_size := Z.min CHUNK_SIZE (end_ left - start left) mod (usize_max + 1) in
    match read_at (crf_f inner) t chunk_size (start left) with
    | Err e => Some (Err (from_box_error (BoxIo e)), left)
    | Ok v => Some (Ok (from_vec v), mk_range (start left + len v) (end_ left))
    end.

Definition crf_get_range (inner : ChunkedReadFile) (range : range) : Stream D E :=
  unfold (read_step inner) 0 range.

Definition HEX_U64_LEN : Z := 16.
Definition HEX_U32_LEN : Z := 8.

Definition crf_etag (inner : ChunkedReadFile) : outcome (option HeaderValue) :=
  dur ← unwrap (duration_since_epoch (crf_mtime inner));
  v ← unsafe_fmt_ascii_val (HEX_U64_LEN * 3 + HEX_U32_LEN + 5)
        ([DQUOTE] ++ fmt_hex (crf_inode inner) ++ bs ":" ++ fmt_hex (crf_len inner) ++ bs ":" ++
         fmt_hex (as_secs dur) ++ bs ":" ++ fmt_hex (subsec_nanos dur) ++ [DQUOTE]);
  Ret (Some v).

(** The [Entity] a file is. *)
#[export] Instance chunked_read_file_entity : Entity ChunkedReadFile D E := {|
  entity_len e := crf_len e;
  get_range e r := crf_get_range e r;
  add_headers e m := hm_extend m (hm_iter (crf_headers e));
  entity_etag e := crf_etag e;
  last_modified e := Some (crf_mtime e)
|}.
End file.
Arguments ChunkedReadFile {_ _}.

(** ** The contract of [Entity] *)

(** A file whose content does not change while it is served: a read gives some
    of what is at its offset, or an error. *)
Class StableFiles `{Unix} := file_content : UnixFile → bytes.
Class StableFilesLaws `{StableFiles} : Prop :=
  pread_content : ∀ f t n off bs, 0 <= n → 0 <= off → pread f t n off = Ok bs →
    bs `prefix_of` drop (Z.to_nat off) (file_content f).

Section contract.
Context `{Build, HttpLaws, UnixLaws, !StableFiles, !StableFilesLaws} {D E : Type}
  `{!Buf D, !BufLaws D, !FromBoxError E}.

(** The file is as long as its metadata said, and its header fields leave those
    of [serve] alone. *)
Definition file_ok (e : ChunkedReadFile) : Prop :=
  crf_len e = len (file_content (crf_f e)) ∧ crf_len e <= U64_MAX ∧
  ∀ k, k ∈ reserved → values_of k (hm_iter (crf_headers e)) = [].

#[export] Instance file_entity_content : Content ChunkedReadFile := λ e, file_content (crf_f e).

Context (Hmem : CHUNK_SIZE <= usize_max).

(** What one read contributes. *)
Lemma prefix_slice (v c : bytes) (a e : Z) :
  0 <= a <= e → e <= len c → v `prefix_of` drop (Z.to_nat a) c → len v <= e - a →
  slice c a e = v ++ slice c (a + len v) e.
Proof.
  intros Ha He [k Hk] Hv. pose proof (len_nonneg v).
  rewrite <- (slice_app c a (a + len v) e) by lia. f_equal.
  unfold slice. rewrite Hk. unfold len.
  replace (Z.to_nat (a + Z.of_nat (length v) - a)) with (length v) by lia.
  by rewrite take_app_length.
Qed.

Lemma unfold_tail {S} (step : nat → S → option (result D E * S)) t s item s' :
  step t s = Some (item, s') → ∀ n, unfold step (Datatypes.S t) s' n = stream_tail (unfold step t s) n.
Proof. intros Hs n. unfold stream_tail. simpl. by rewrite Hs. Qed.

(** Reads before [limit] give something. *)
Definition reads_ok (e : ChunkedReadFile) (limit : Z) : Prop :=
  limit <= off_t_max + 1 ∧
  ∀ t n off, 0 < n → 0 <= off < limit → ∃ b, pread (crf_f e) t n off = Ok b ∧ b ≠ [].

Lemma reads_ok_le e limit limit' : limit' <= limit → reads_ok e limit → reads_ok e limit'.
Proof. intros Hle [Hl Hr]. split; [lia|]. intros t n off Hn Hoff. apply Hr; lia. Qed.

(** What a successful read gives. *)
Lemma read_at_content f t n off v :
  0 <= n → 0 <= off → read_at f t n off = Ok v →
  v `prefix_of` drop (Z.to_nat off) (file_content f) ∧ 1 <= len v <= n.
Proof.
  intros Hn Hoff. unfold read_at. destruct (_ <? _); [done|].
  destruct (pread f t n off) as [b|] eqn:Hp; simpl; [|done].
  destruct (Z.eqb_spec (len b) 0); [done|]. intros [= <-]. pose proof (len_nonneg b).
  pose proof (pread_len _ t n _ b Hn Hp). split; [|lia]. by apply (pread_content _ t n off).
Qed.

(** A read that gives something, then the rest. *)
Lemma yields_read (e : ChunkedReadFile) t left v left' bs o s' :
  read_step (D:=D) (E:=E) e t left = Some (Ok (from_vec v), left') →
  yields (unfold (read_step e) (Datatypes.S t) left' : Stream D E) bs o s' →
  ∃ s'', yields (unfold (read_step e) t left : Stream D E) (v ++ bs) o s''.
Proof.
  intros Hstep Hy.
  destruct (yields_stream_ext _ (stream_tail (unfold (read_step e) t left)) _ _ _ Hy) as [s'' Hy'].
  { intros m. symmetry. by apply unfold_tail with (item := Ok (from_vec v)). }
  exists s''. eapply yields_chunk_eq; [|exact Hy'|by rewrite buf_bytes_vec].
  unfold poll_next, stream_pollable, unfold. by rewrite Hstep.
Qed.

(** A read that fails. *)
Lemma yields_read_error (e : ChunkedReadFile) t left err left' :
  read_step (D:=D) (E:=E) e t left = Some (Err err, left') →
  yields (unfold (read_step e) t left : Stream D E) [] (Failed err) (stream_tail (unfold (read_step e) t left)).
Proof.
  intros Hstep. apply yields_failed. unfold poll_next, stream_pollable, unfold. by rewrite Hstep.
Qed.

Lemma file_yields (e : ChunkedReadFile) k : ∀ t left,
  Z.to_nat (end_ left - start left) = k →
  0 <= start left <= end_ left → end_ left <= len (file_content (crf_f e)) →
  let want := slice (file_content (crf_f e)) (start left) (end_ left) in
  ∃ bs o s', yields (unfold (read_step e) t left : Stream D E) bs o s' ∧
    bs `prefix_of` want ∧ (o = Done → bs = want) ∧ (reads_ok e (end_ left) → o = Done).
Proof.
  induction k as [k IH] using lt_wf_ind. intros t left Hk Hr Hl want. subst want.
  destruct (decide (start left = end_ left)) as [Heq|Hne].
  { exists [], Done, (stream_tail (unfold (read_step e) t left)). split_and!; [| | |done].
    - apply yields_done. unfold poll_next, stream_pollable, unfold, read_step.
      by rewrite (proj2 (Z.eqb_eq _ _)).
    - apply prefix_nil.
    - intros _. by rewrite Heq, slice_empty. }
  set (n := Z.min CHUNK_SIZE (end_ left - start left)).
  assert (0 < n <= usize_max) as Hn by (unfold n, CHUNK_SIZE in *; lia).
  destruct (read_at (crf_f e) t n (start left)) as [v|err] eqn:Hread.
  - assert (read_step (D:=D) (E:=E) e t left =
            Some (Ok (from_vec v), mk_range (start left + len v) (end_ left))) as Hstep.
    { unfold read_step. rewrite (proj2 (Z.eqb_neq _ _)) by done. fold n.
      rewrite (Z.mod_small n) by lia. by rewrite Hread. }
    destruct (read_at_content (crf_f e) t n (start left) v ltac:(lia) ltac:(lia) Hread) as [Hpre Hlen].
    assert (len v <= end_ left - start left) as Hv by (unfold n in Hlen; lia).
    destruct (IH (Z.to_nat (end_ left - (start left + len v))) ltac:(lia) (S t)
                (mk_range (start left + len v) (end_ left))) as (bs & o & s' & Hy & Hbs & Ho & Hok);
      [done|simpl; lia|done|]. simpl in Hbs, Ho, Hok.
    destruct (yields_read e t left v _ _ _ _ Hstep Hy) as [s'' Hy'].
    rewrite (prefix_slice v) by done.
    exists (v ++ bs), o, s''. split_and!; [done| | |done].
    + by apply prefix_app.
    + intros ->. by rewrite Ho.
  - exists [], (Failed (from_box_error (BoxIo err))), (stream_tail (unfold (read_step e) t left)).
    split; [|split_and!; [apply prefix_nil|done|]].
    + apply (yields_read_error _ _ _ _ left). unfold read_step.
      rewrite (proj2 (Z.eqb_neq _ _)) by done. fold n. rewrite (Z.mod_small n) by lia.
      by rewrite Hread.
    + intros [Hlim Hreads]. unfold read_at in Hread. rewrite (proj2 (Z.ltb_ge _ _)) in Hread by lia.
      destruct (Hreads t n (start left) ltac:(lia) ltac:(lia)) as (b & Hb & Hne').
      rewrite Hb in Hread. simpl in Hread. case_hyp Hread; [|done]. zbool.
      by destruct (Hne' (len_0_inv b ltac:(done))).
Qed.

(** A file that ends at [limit]: reads before it give something, a read at it
    nothing. *)
Definition ends_at (e : ChunkedReadFile) (limit : Z) : Prop :=
  reads_ok e limit ∧ limit <= off_t_max ∧ ∀ t n, 0 < n → pread (crf_f e) t n limit = Ok [].

Lemma short_file_yields (e : ChunkedReadFile) k : ∀ t left,
  let size := len (file_content (crf_f e)) in
  Z.to_nat (size - start left) = k →
  0 <= start left <= size → size < end_ left → ends_at e size →
  ∃ s', yields (unfold (read_step e) t left : Stream D E) (slice (file_content (crf_f e)) (start left) size)
          (Failed (from_box_error (BoxIo (no_bytes_beyond size)))) s'.
Proof.
  induction k as [k IH] using lt_wf_ind. intros t left size Hk Hr Hend He.
  pose proof He as ([Hlim Hreads] & Hoff & Heof).
  set (n := Z.min CHUNK_SIZE (end_ left - start left)).
  assert (0 < n <= usize_max) as Hn by (unfold n, CHUNK_SIZE in *; lia).
  assert (read_step (D:=D) (E:=E) e t left =
    match read_at (crf_f e) t n (start left) with
    | Err err => Some (Err (from_box_error (BoxIo err)), left)
    | Ok v => Some (Ok (from_vec v), mk_range (start left + len v) (end_ left))
    end) as Hstep.
  { unfold read_step. rewrite (proj2 (Z.eqb_neq _ _)) by lia. fold n. by rewrite (Z.mod_small n) by lia. }
  destruct (decide (start left = size)) as [Heq|Hne].
  - eexists. rewrite Heq, slice_empty by lia. apply (yields_read_error _ _ _ _ left).
    rewrite Hstep. unfold read_at. rewrite Heq, (proj2 (Z.ltb_ge _ _)), Heof by lia. done.
  - destruct (Hreads t n (start left)) as (v & Hv & Hvne); [lia..|].
    assert (read_at (crf_f e) t n (start left) = Ok v) as Hread.
    { unfold read_at. rewrite (proj2 (Z.ltb_ge _ _)), Hv by lia. simpl.
      destruct (Z.eqb_spec (len v) 0) as [Hv0|]; [by destruct (Hvne (len_0_inv v Hv0))|done]. }
    destruct (read_at_content (crf_f e) t n (start left) v) as [Hpre Hlen]; [lia|lia|done|].
    assert (len v <= size - start left) as Hvl.
    { pose proof (prefix_length _ _ Hpre) as Hl. rewrite length_drop in Hl. unfold size, len in *. lia. }
    rewrite Hread in Hstep.
    destruct (IH (Z.to_nat (size - (start left + len v))) ltac:(lia) (Datatypes.S t)
                (mk_range (start left + len v) (end_ left))) as (s' & Hy); [done|simpl; lia|done|done|].
    destruct (yields_read e t left v _ _ _ _ Hstep Hy) as [s'' Hy'].
    exists s''. by rewrite (prefix_slice v) by (done || lia).
Qed.

(** Such a file keeps the contract of [Entity]. *)
Lemma file_laws (e : ChunkedReadFile) : file_ok e → EntityLaws (D:=D) (E:=E) e.
Proof.
  intros (Hl & Hmax & Hh). split; [done|done|..].
  - intros r Hr Hle. simpl in Hle. rewrite Hl in Hle.
    destruct (file_yields e (Z.to_nat (end_ r - start r)) 0 r) as (bs & o & s' & Hy & Hp & Hd & _);
      [done..|by exists bs, o, s'].
  - exists (hm_iter (crf_headers e)). split; [intros; apply hm_get_all_extend|done].
Qed.
End contract.

(** ** The entity tag *)

Section etag.
Context `{HttpLaws, Unix}.

(** What is between the quotes. *)
Definition etag_text (e : ChunkedReadFile) : bytes :=
  join x3a [fmt_hex (crf_inode e); fmt_hex (crf_len e); fmt_hex (as_secs (crf_mtime e));
            fmt_hex (subsec_nanos (crf_mtime e))].

(** Fields as [fstat] gives them, with a modification time from the epoch on. *)
Definition stat_ok (e : ChunkedReadFile) : Prop :=
  0 <= crf_inode e <= U64_MAX ∧ 0 <= crf_len e <= U64_MAX ∧ 0 <= crf_mtime e ∧
  as_secs (crf_mtime e) <= U64_MAX.

Lemma stat_parts e : stat_ok e →
  0 <= as_secs (crf_mtime e) <= U64_MAX ∧ 0 <= subsec_nanos (crf_mtime e) < NANOS_PER_SEC.
Proof.
  intros (_ & _ & Hm & Hs). unfold as_secs, subsec_nanos in *. split.
  - split; [by apply Z.div_pos|done].
  - by apply Z.mod_pos_bound.
Qed.

Lemma fmt_hex_chars n c : 0 <= n → is_hex_digit c = false → c ∉ fmt_hex n.
Proof.
  intros Hn Hc Hin. pose proof (fr_hex _ _ _ (fmt_radix_spec 16 n ltac:(lia) Hn)) as Hh.
  rewrite forallb_Forall_true, Forall_forall in Hh. rewrite (Hh c) in Hc; done.
Qed.

Lemma etag_parts_hex e : stat_ok e →
  Forall (λ s, ∀ c, is_hex_digit c = false → c ∉ s)
    [fmt_hex (crf_inode e); fmt_hex (crf_len e); fmt_hex (as_secs (crf_mtime e));
     fmt_hex (subsec_nanos (crf_mtime e))].
Proof.
  intros Hs. destruct (stat_parts e Hs). destruct Hs as ((? & _) & (? & _) & _).
  repeat constructor; intros c; apply fmt_hex_chars; lia.
Qed.

Lemma etag_text_chars e c : stat_ok e → c ∈ etag_text e → is_hex_digit c = true ∨ c = x3a.
Proof.
  intros Hs Hc. destruct (is_hex_digit c) eqn:Hx; [by left|right].
  pose proof (etag_parts_hex e Hs) as Hhex. rewrite !Forall_cons in Hhex.
  destruct Hhex as (Hh1 & Hh2 & Hh3 & Hh4 & _). unfold etag_text in Hc. simpl in Hc.
  repeat first [apply elem_of_app in Hc as [Hc|Hc] | apply elem_of_cons in Hc as [->|Hc]];
    naive_solver.
Qed.

Lemma etag_text_valid e : stat_ok e → valid_tag (Tag false (etag_text e)).
Proof. intros Hs Hq. by destruct (etag_text_chars e _ Hs Hq). Qed.

Lemma crf_etag_print e :
  stat_ok e → ∃ v, crf_etag e = Ret (Some v) ∧ as_bytes v = print_tag (Tag false (etag_text e)).
Proof.
  intros Hs. pose proof Hs as (Hi & Hl & Hm & _). pose proof (stat_parts e Hs) as [Hsec Hns].
  unfold crf_etag, duration_since_epoch.
  rewrite (proj2 (Z.leb_le _ _)) by done. simpl unwrap. rewrite bind_Ret_l.
  change (bs ":") with [x3a].
  destruct (fmt_ascii_ok (HEX_U64_LEN * 3 + HEX_U32_LEN + 5)
    ([DQUOTE] ++ fmt_hex (crf_inode e) ++ [x3a] ++ fmt_hex (crf_len e) ++ [x3a] ++
     fmt_hex (as_secs (crf_mtime e)) ++ [x3a] ++ fmt_hex (subsec_nanos (crf_mtime e)) ++ [DQUOTE]))
    as (v & -> & Hv).
  { unfold U64_MAX, NANOS_PER_SEC in *.
    pose proof (fmt_hex_len (crf_inode e) 16). pose proof (fmt_hex_len (crf_len e) 16).
    pose proof (fmt_hex_len (as_secs (crf_mtime e)) 16).
    pose proof (fmt_hex_len (subsec_nanos (crf_mtime e)) 8).
    len_simpl. unfold HEX_U64_LEN, HEX_U32_LEN. lia. }
  exists v. rewrite bind_Ret_l. split; [done|]. rewrite Hv. unfold print_tag, etag_text. simpl.
  repeat (rewrite <- app_assoc; simpl). done.
Qed.
(** Two states of a file no [stat] can tell apart. *)
Definition same_version (e e' : ChunkedReadFile) : Prop :=
  crf_inode e = crf_inode e' ∧ crf_len e = crf_len e' ∧ crf_mtime e = crf_mtime e'.

#[export] Instance same_version_dec e e' : Decision (same_version e e').
Proof. unfold same_version. apply _. Defined.

Lemma etag_text_inj e e' :
  stat_ok e → stat_ok e' → etag_text e = etag_text e' → same_version e e'.
Proof.
  intros Hs Hs' Htext. pose proof (stat_parts e Hs). pose proof (stat_parts e' Hs').
  assert (∀ e0, stat_ok e0 → split x3a (etag_text e0) =
    [fmt_hex (crf_inode e0); fmt_hex (crf_len e0); fmt_hex (as_secs (crf_mtime e0));
     fmt_hex (subsec_nanos (crf_mtime e0))]) as Hsplit.
  { intros e0 Hs0. apply split_join; [done|].
    eapply Forall_impl; [by apply etag_parts_hex|]. intros s Hhex. by apply Hhex. }
  pose proof (Hsplit e Hs) as H1'. rewrite Htext, (Hsplit e' Hs') in H1'.
  destruct Hs as (Hi & Hl & Hm & _), Hs' as (Hi' & Hl' & Hm' & _).
  injection H1' as E1 E2 E3 E4.
  apply fmt_radix_inj in E1, E2, E3, E4; try lia.
  split; [done|]. split; [done|].
  rewrite (Z.div_mod (crf_mtime e) NANOS_PER_SEC), (Z.div_mod (crf_mtime e') NANOS_PER_SEC) by done.
  unfold as_secs, subsec_nanos in E3, E4. congruence.
Qed.

Lemma etag_text_same e e' : same_version e e' → etag_text e = etag_text e'.
Proof. intros (Hi & Hl & Hm). unfold etag_text. by rewrite Hi, Hl, Hm. Qed.
End etag.

Section properties.
Context `{Build, HttpLaws, UnixLaws, !StableFiles, !StableFilesLaws} {D E : Type}
  `{!Buf D, !BufLaws D, !FromBoxError E}.

(** C32: the stream of a range of a file whose content is stable ends after
    finitely many polls, however short the reads are, with exactly the bytes of
    the range, or after a prefix of them with the error of a read; without read
    errors it is never an error. *)
Theorem file_get_range (e : ChunkedReadFile) (r : range) :
  CHUNK_SIZE <= usize_max → 0 <= start r <= end_ r → end_ r <= len (file_content (crf_f e)) →
  ∃ bs o s' fuel,
    drain fuel (crf_get_range e r : Stream D E) = Ret (Some (bs, o, s')) ∧
    bs `prefix_of` slice (file_content (crf_f e)) (start r) (end_ r) ∧
    (o = Done → bs = slice (file_content (crf_f e)) (start r) (end_ r)) ∧
    (reads_ok e (end_ r) → o = Done).
Proof.
  intros Hmem Hr Hl.
  destruct (file_yields (D:=D) (E:=E) Hmem e (Z.to_nat (end_ r - start r)) 0 r eq_refl Hr Hl)
    as (bs & o & s' & [fuel Hy]%yields_drain & Hbs).
  exists bs, o, s', fuel. split; [by apply Hy|done].
Qed.

(** C33: a file that has become shorter than it was when it was opened: the
    stream of a range that goes beyond its end gives every byte that is left,
    and then the error [UnexpectedEof]. *)
Theorem file_truncated (e : ChunkedReadFile) (r : range) :
  let size := len (file_content (crf_f e)) in
  CHUNK_SIZE <= usize_max → 0 <= start r <= size → size < end_ r → ends_at e size →
  ∃ s' fuel err,
    drain fuel (crf_get_range e r : Stream D E) =
      Ret (Some (slice (file_content (crf_f e)) (start r) size, Failed (from_box_error (BoxIo err)), s')) ∧
    kind err = UnexpectedEof.
Proof.
  intros size Hmem Hr Hend He.
  destruct (short_file_yields (D:=D) (E:=E) Hmem e (Z.to_nat (size - start r)) 0 r eq_refl Hr Hend He)
    as (s' & [fuel Hy]%yields_drain).
  exists s', fuel, (no_bytes_beyond size). split; [by apply Hy|done].
Qed.

(** The entity tag of a file is a valid strong tag made of visible
    characters that fits its buffer, provided the modification time is not
    before the epoch; otherwise asking for it panics. *)
Theorem file_etag_valid (e : ChunkedReadFile) :
  (stat_ok e → ∃ v, crf_etag e = Ret (Some v) ∧ as_bytes v = print_tag (Tag false (etag_text e)) ∧
     valid_tag (Tag false (etag_text e)) ∧ forallb visible_ascii (as_bytes v) = true) ∧
  (crf_mtime e < 0 → crf_etag e = Panic UnwrapFailed).
Proof.
  split.
  - intros Hs. destruct (crf_etag_print e Hs) as (v & He & Hv). exists v.
    split; [done|]. split; [done|]. split; [by apply etag_text_valid|].
    + rewrite Hv. unfold print_tag. simpl. rewrite forallb_app. simpl. rewrite andb_true_r.
      apply forallb_forall. intros c Hc%list_elem_of_In.
      destruct (etag_text_chars e c Hs Hc) as [Hx| ->]; [|done].
      unfold is_hex_digit, is_digit in Hx. unfold visible_ascii.
      apply orb_prop in Hx as [Hx|Hx]; zbool;
        by rewrite (proj2 (Z.leb_le 32 _)), (proj2 (Z.ltb_lt _ 127)) by lia.
  - intros Hm. unfold crf_etag, duration_since_epoch. by rewrite (proj2 (Z.leb_gt _ _)) by done.
Qed.

(** C34: the entity tag changes with the file: two files with the same tag
    have the same inode, length and modification time to the nanosecond. *)
Theorem file_etag_injective (e e' : ChunkedReadFile) (v v' : HeaderValue) :
  stat_ok e → stat_ok e' → crf_etag e = Ret (Some v) → crf_etag e' = Ret (Some v') →
  as_bytes v = as_bytes v' → same_version e e'.
Proof.
  intros Hs Hs' He He' Heq.
  destruct (crf_etag_print e Hs) as (v1 & He1 & Hv1). destruct (crf_etag_print e' Hs') as (v2 & He2 & Hv2).
  rewrite He1 in He. rewrite He2 in He'. injection He as ->. injection He' as ->.
  rewrite Hv1, Hv2 in Heq. apply print_tag_inj in Heq. injection Heq as Htext.
  by apply etag_text_inj.
Qed.
End properties.

(** ** A concrete file *)

#[local] Existing Instances debug_build plain_http plain_http_laws plain_buf plain_buf_laws
  test_unix test_unix_laws box_error_self.
#[local] Instance test_content : StableFiles := λ f : bytes, f.
#[local] Instance test_content_laws : StableFilesLaws.
Proof.
  intros f t n off b Hn Ho Hp. simpl in Hp. injection Hp as <-.
  exists (drop (Z.to_nat n) (drop (Z.to_nat off) f)). by rewrite take_drop.
Qed.

Definition hello_file : ChunkedReadFile := mk_ChunkedReadFile 5 7 5500000000 (bs "hello" : UnixFile) [].

Lemma hello_stat : stat_ok hello_file.
Proof. split_and!; by vm_compute. Qed.

Lemma file_get_range_witness :
  ∃ b o s' fuel, drain fuel (crf_get_range (D:=bytes) (E:=BoxError) hello_file (mk_range 1 4)) = Ret (Some (b, o, s')) ∧
    b `prefix_of` bs "ell".
Proof.
  destruct (file_get_range (D:=bytes) (E:=BoxError) hello_file (mk_range 1 4))
    as (b & o & s' & fuel & Hd & Hp & _).
  - by vm_compute.
  - by vm_compute.
  - by vm_compute.
  - exists b, o, s', fuel. split; [exact Hd|exact Hp].
Defined.

(** A file that had nine bytes when it was opened. *)
Definition shrunk_file : ChunkedReadFile := mk_ChunkedReadFile 9 7 5500000000 (bs "hello" : UnixFile) [].

Lemma file_truncated_witness :
  ∃ s' fuel err,
    drain fuel (crf_get_range (D:=bytes) (E:=BoxError) shrunk_file (mk_range 3 9)) = Ret (Some (bs "lo", Failed (BoxIo err), s')) ∧
    kind err = UnexpectedEof.
Proof.
  destruct (file_truncated (D:=bytes) (E:=BoxError) shrunk_file (mk_range 3 9))
    as (s' & fuel & err & Hd & Hk).
  - by vm_compute.
  - by vm_compute.
  - by vm_compute.
  - split; [split; [by vm_compute|]|split; [by vm_compute|]].
    + intros t n off Hn Hoff. eexists. split; [reflexivity|]. change (len _) with 5 in Hoff. simpl.
      intros Hnil%(f_equal length). rewrite length_take, length_drop in Hnil. simpl in Hnil. lia.
    + intros t n Hn. simpl. by rewrite take_nil.
  - exists s', fuel, err. split; [exact Hd|exact Hk].
Defined.

Lemma file_etag_valid_witness :
  ∃ v, crf_etag hello_file = Ret (Some v) ∧ as_bytes v = [DQUOTE] ++ bs "7:5:5:1dcd6500" ++ [DQUOTE].
Proof.
  destruct (file_etag_valid hello_file) as [Hv _].
  destruct (Hv hello_stat) as (v & He & Hb & _).
  exists v. split; [exact He|]. rewrite Hb. reflexivity.
Defined.

Lemma file_etag_injective_witness : crf_inode hello_file = crf_inode hello_file.
Proof.
  destruct (file_etag_injective hello_file hello_file
    (print_tag (Tag false (bs "7:5:5:1dcd6500")) : @HeaderValue plain_http)
    (print_tag (Tag false (bs "7:5:5:1dcd6500")) : @HeaderValue plain_http)
    hello_stat hello_stat) as (Hi & _ & _).
  - reflexivity.
  - reflexivity.
  - reflexivity.
  - exact Hi.
Defined.
