(* ===== verification/Dir.v ===== *)
(** * Serving directories (src/dir.rs) *)

From S2P Require Import Prelude RustStd HttpApi Plain ContentCoding Range Etag Stream Entity Platform File.

Definition SLASH : byte := x2f.
Definition NUL : byte := x00.

(** ** Validating paths *)

(** The loop of [validate_path]. *)
Fixpoint validate_segments (fuel : nat) (left : bytes) : outcome (result unit bytes) :=
  match fuel with
  | O => Panic OutOfFuel
  | S fuel =>
      let next := find SLASH left in
      let seg := take (default (length left) next) left in
      if bool_decide (seg = bs "..") then Ret (Err (bs "path contains .. segment"))
      else
        match next with
        | None => Ret (Ok tt)
        | Some n => validate_segments fuel (drop (n + 1) left)
        end
  end.

(** Each turn consumes a byte. *)
Definition validate_path (path : bytes) : outcome (result unit bytes) :=
  if bool_decide (NUL ∈ path) then Ret (Err (bs "path contains NUL byte"))
  else if bool_decide (head path = Some SLASH) then Ret (Err (bs "path is absolute"))
  else validate_segments (S (length path)) path.

(** ** Directories and what is opened in them *)

(** The system calls: [open] of a directory and [openat], given a C string. *)
Class UnixDirs `{Unix} := {
  RawFd : Type;
  PATH_MAX : Z;
  open_directory : bytes → result RawFd io_error;
  openat : RawFd → bytes → result UnixFile io_error
}.

(** The string a C function reads from a buffer. *)
Definition c_string (buf : bytes) : bytes := take (default (length buf) (find NUL buf)) buf.

Record FsDirBuilder := mk_FsDirBuilder { fdb_auto_gzip : bool }.

Section dir.
Context `{Build, Http, UnixDirs}.

Record FsDir := mk_FsDir { fd_auto_gzip : bool; fd : RawFd }.

Record Node := mk_Node {
  node_file : UnixFile;
  node_metadata : UnixMetadata;
  node_auto_gzip : bool;
  is_gzipped : bool
}.

Definition fsdir_builder : FsDirBuilder := mk_FsDirBuilder true.
Definition builder_auto_gzip (this : FsDirBuilder) (auto_gzip : bool) : FsDirBuilder :=
  mk_FsDirBuilder auto_gzip.

Definition fsdir_open (path : bytes) (auto_gzip : bool) : result FsDir io_error :=
  if bool_decide (NUL ∈ path) then Err (IoError InvalidInput (bs "path contains NUL byte"))
  else if PATH_MAX <=? len path then Err (IoError InvalidInput (bs "path is too long"))
  else
    let buf := path ++ replicate (Z.to_nat (PATH_MAX - len path)) NUL in
    and_then (open_directory (c_string buf)) (λ fd, Ok (mk_FsDir auto_gzip fd)).

Definition for_path (this : FsDirBuilder) (path : bytes) : result FsDir io_error :=
  fsdir_open path (fdb_auto_gzip this).

(** [path] is the buffer with its terminating NUL. *)
Definition open_file (this : FsDir) (path : bytes) : result UnixFile io_error :=
  openat (fd this) (c_string path).

(** The descriptor [FsDir]'s [drop] closes. *)
Definition fsdir_drop (this : FsDir) : RawFd := fd this.

(** The end of [get]: the file itself. *)
Definition get_plain (this : FsDir) (buf : bytes) : result Node io_error :=
  and_then (open_file this (buf ++ [NUL])) (λ file,
  and_then (file_metadata file) (λ metadata,
  Ok (mk_Node file metadata (fd_auto_gzip this) false))).

(** [FsDir::get], with the C strings passed to [openat]. *)
Definition get (this : FsDir) (path : bytes) (req_hdrs : HeaderMap)
    : outcome (result Node io_error * list bytes) :=
  v ← validate_path path;
  match v with
  | Err e => Ret (Err (IoError InvalidInput e), [])
  | Ok _ =>
      should_gzip ← (if fd_auto_gzip this then should_gzip req_hdrs else Ret false);
      let plain := get_plain this path in
      let plain_path := c_string (path ++ [NUL]) in
      if should_gzip : bool then
        let gz := path ++ bs ".gz" ++ [NUL] in
        let gz_path := c_string gz in
        match open_file this gz with
        | Ok file =>
            match file_metadata file with
            | Err e => Ret (Err e, [gz_path])
            | Ok metadata =>
                if negb (is_dir metadata)
                then Ret (Ok (mk_Node file metadata (fd_auto_gzip this) true), [gz_path])
                else Ret (plain, [gz_path; plain_path])
            end
        | Err e =>
            if bool_decide (kind e = NotFound) then Ret (plain, [gz_path; plain_path])
            else Ret (Err e, [gz_path])
        end
      else Ret (plain, [plain_path])
  end.

Definition into_file (this : Node) : UnixFile := node_file this.
Definition into_file_entity (this : Node) (headers : HeaderMap) : result ChunkedReadFile io_error :=
  new_with_metadata (node_file this) (node_metadata this) headers.
Definition metadata (this : Node) : UnixMetadata := node_metadata this.
Definition encoding (this : Node) : option bytes := if is_gzipped this then Some (bs "gzip") else None.
Definition encoding_varies (this : Node) : bool := node_auto_gzip this.

Definition add_encoding_headers (this : Node) (hdrs : HeaderMap) : HeaderMap :=
  let hdrs := match encoding this with
              | Some e => hm_insert hdrs CONTENT_ENCODING (from_static e)
              | None => hdrs
              end in
  if node_auto_gzip this then hm_insert hdrs VARY (from_static (bs "accept-encoding")) else hdrs.
End dir.

(** ** Lemmas *)

(** A path whose text stays within the directory it is relative to; where
    symbolic links lead is not looked at. *)
Definition path_safe (path : bytes) : Prop :=
  NUL ∉ path ∧ head path ≠ Some SLASH ∧ bs ".." ∉ split SLASH path.

Lemma split_find c s :
  split c s =
    match find c s with
    | None => [s]
    | Some n => take n s :: split c (drop (n + 1) s)
    end.
Proof.
  destruct (find c s) as [n|] eqn:Hf.
  - apply find_Some in Hf as (p & q & -> & Hp & ->). rewrite split_app by done.
    rewrite take_app_length, cons_middle, app_assoc.
    rewrite drop_app_length' by (rewrite length_app; simpl; lia). done.
  - apply split_no_sep. by apply find_None.
Qed.

(** With enough fuel the loop looks at every segment. *)
Lemma validate_segments_spec fuel left :
  (length left < fuel)%nat →
  validate_segments fuel left =
    Ret (if bool_decide (bs ".." ∈ split SLASH left) then Err (bs "path contains .. segment")
         else Ok tt).
Proof.
  revert left. induction fuel as [|fuel IH]; intros left Hl; [lia|]. cbn [validate_segments].
  rewrite split_find. destruct (find SLASH left) as [n|] eqn:Hf; simpl.
  - rewrite IH.
    + case_bool_decide as Hseg; [by rewrite bool_decide_true by (rewrite Hseg; left)|].
      f_equal. case_bool_decide as Hin; [by rewrite bool_decide_true by (by right)|].
      rewrite bool_decide_false; [done|]. intros [He|?]%elem_of_cons; [by symmetry in He|done].
    + apply find_Some in Hf as (p & q & -> & _ & ->). rewrite length_drop, length_app in *. simpl in *. lia.
  - rewrite firstn_all. case_bool_decide as Hseg.
    + by rewrite bool_decide_true by (rewrite Hseg; left).
    + rewrite bool_decide_false; [done|]. intros He%list_elem_of_singleton. by symmetry in He.
Qed.

Lemma validate_path_result path :
  validate_path path =
    Ret (if bool_decide (NUL ∈ path) then Err (bs "path contains NUL byte")
         else if bool_decide (head path = Some SLASH) then Err (bs "path is absolute")
         else if bool_decide (bs ".." ∈ split SLASH path) then Err (bs "path contains .. segment")
         else Ok tt).
Proof.
  unfold validate_path. case_bool_decide; [done|]. case_bool_decide; [done|].
  apply validate_segments_spec. lia.
Qed.

Lemma validate_path_safe path : validate_path path = Ret (Ok tt) ↔ path_safe path.
Proof.
  rewrite validate_path_result. unfold path_safe. split.
  - intros Hv. repeat case_bool_decide; done.
  - intros (? & ? & ?). by rewrite !bool_decide_false by done.
Qed.

Lemma c_string_NUL path tail : NUL ∉ path → c_string (path ++ NUL :: tail) = path.
Proof.
  intros Hp. unfold c_string. rewrite find_app by done. simpl. by rewrite take_app_length.
Qed.

(** The last segment of a path with a suffix. *)
Lemma split_snoc c s t : c ∉ t → ∃ l x, split c s = l ++ [x] ∧ split c (s ++ t) = l ++ [x ++ t].
Proof.
  intros Ht. remember (length s) as n eqn:Hn. revert s Hn.
  induction n as [n IH] using lt_wf_ind. intros s ->.
  destruct (find c s) as [i|] eqn:Hf.
  - apply find_Some in Hf as (p & q & -> & Hp & ->).
    destruct (IH (length q)) with (s := q) as (l & x & Hq & Hqt);
      [rewrite length_app; simpl; lia|done|].
    exists (p :: l), x. rewrite <- app_assoc. simpl. rewrite !split_app by done.
    by rewrite Hq, Hqt.
  - apply find_None in Hf. exists [], s. rewrite !split_no_sep; [done| |done].
    intros [?|?]%elem_of_app; done.
Qed.

Lemma path_safe_gz path : path_safe path → path_safe (path ++ bs ".gz").
Proof.
  intros (Hn & Hs & Hd). split; [|split].
  - intros [?|Hg]%elem_of_app; [done|]. revert Hg. by apply (bool_decide_unpack _).
  - by destruct path.
  - destruct (split_snoc SLASH path (bs ".gz")) as (l & x & Hp & Hpg);
      [by apply (bool_decide_unpack _)|].
    rewrite Hpg. rewrite Hp in Hd. rewrite elem_of_app in *.
    intros [?|Hx%list_elem_of_singleton]; [by apply Hd; left|].
    apply (f_equal last) in Hx. rewrite last_app in Hx. done.
Qed.

(** The buffers [get] makes. *)
Lemma c_string_path path : NUL ∉ path → c_string (path ++ [NUL]) = path.
Proof. apply c_string_NUL. Qed.

Lemma c_string_gz path : NUL ∉ path → c_string (path ++ bs ".gz" ++ [NUL]) = path ++ bs ".gz".
Proof.
  intros Hn. rewrite app_assoc. apply c_string_NUL. intros [?|Hg]%elem_of_app; [done|].
  revert Hg. by apply (bool_decide_unpack _).
Qed.

Lemma validate_path_total path : ∃ r, validate_path path = Ret r ∧ (r = Ok tt ↔ path_safe path).
Proof.
  rewrite validate_path_result. eexists. split; [done|].
  rewrite <- validate_path_safe, validate_path_result. split; [by intros ->|congruence].
Qed.

Section properties.
Context `{Build, HttpLaws, UnixDirs}.

Lemma get_opens (this : FsDir) (path : bytes) (req_hdrs : HeaderMap) :
  ∃ r opened, get this path req_hdrs = Ret (r, opened) ∧
    Forall (λ p, path_safe p ∧ (p = path ∨ p = path ++ bs ".gz")) opened ∧
    (¬ path_safe path → opened = [] ∧ ∃ msg, r = Err (IoError InvalidInput msg)).
Proof.
  unfold get. destruct (validate_path_total path) as (v & -> & Hv). rewrite bind_Ret_l.
  destruct v as [[]|msg].
  - assert (path_safe path) as Hs by (by apply Hv). pose proof (path_safe_gz path Hs) as Hg.
    assert (∃ b, (if fd_auto_gzip this then should_gzip req_hdrs else Ret false) = Ret b) as [gz ->]
      by (destruct (fd_auto_gzip this); [apply should_gzip_total|by eexists]).
    rewrite bind_Ret_l, c_string_gz, c_string_path by apply Hs. cbv zeta. destruct gz.
    + repeat case_match; eexists _, _; (split; [done|]); (split; [|done]);
        repeat apply List.Forall_cons; auto.
    + eexists _, _. split; [done|]. split; [|done]. repeat apply List.Forall_cons; auto.
  - eexists _, _. split; [done|]. split; [constructor|]. by eauto.
Qed.

(** The node that is found is the file itself, or for a client that prefers gzip
    the [.gz] file. *)
Lemma get_chosen this path req_hdrs node opened :
  get this path req_hdrs = Ret (Ok node, opened) →
  get_plain this path = Ok node ∨
  fd_auto_gzip this = true ∧ should_gzip req_hdrs = Ret true ∧ opened = [path ++ bs ".gz"] ∧
  ∃ file m, open_file this (path ++ bs ".gz" ++ [NUL]) = Ok file ∧ file_metadata file = Ok m ∧
    node = mk_Node file m true true.
Proof.
  unfold get. destruct (validate_path path) as [[[]|]|] eqn:Hv; [|done..]. rewrite bind_Ret_l.
  destruct (if fd_auto_gzip this then should_gzip req_hdrs else Ret false) as [gz|] eqn:Hgz; [|done].
  rewrite bind_Ret_l. cbv zeta. apply validate_path_safe in Hv as [Hn _]. rewrite c_string_gz by done.
  destruct gz; [|intros [= Hg _]; by left]. destruct (fd_auto_gzip this); [|done]. intros Hg.
  repeat case_match; simplify_eq; [right|by left..]. by split_and!; eauto.
Qed.

(** It negotiates as the directory does. *)
Lemma get_node this path req_hdrs node opened :
  get this path req_hdrs = Ret (Ok node, opened) →
  node_auto_gzip node = fd_auto_gzip this ∧
  (is_gzipped node = true →
     fd_auto_gzip this = true ∧ should_gzip req_hdrs = Ret true ∧ opened = [path ++ bs ".gz"]).
Proof.
  intros [Hp|(Ha & Hs & Ho & file & m & _ & _ & ->)]%get_chosen; [|done].
  unfold get_plain in Hp. destruct (open_file _ _) as [file|]; [|done]. simpl in Hp.
  destruct (file_metadata file); [|done]. by injection Hp as <-.
Qed.

(** Which of two requests is answered does not matter if the directory does not
    negotiate, or they have the same first [Accept-Encoding] field. *)
Lemma get_alike this path a b :
  (fd_auto_gzip this = true → as_bytes <$> hm_get a ACCEPT_ENCODING = as_bytes <$> hm_get b ACCEPT_ENCODING) →
  get this path a = get this path b.
Proof.
  intros Hv. unfold get. destruct (fd_auto_gzip this); [|done]. by rewrite (should_gzip_bytes a b (Hv eq_refl)).
Qed.

(** [validate_path] ends, and accepts exactly the paths that stay in the
    directory: no NUL byte, not absolute, no [..] segment. *)
Theorem validate_path_spec (path : bytes) :
  ∃ r, validate_path path = Ret r ∧ (r = Ok tt ↔ path_safe path).
Proof. apply validate_path_total. Qed.

(** C30: [get] never panics, and opens nothing but the path it is given and
    that path with [.gz], each whole (no NUL cuts it short) and only if its text
    stays in the directory: it is relative and has no [..] segment.  Otherwise it
    opens nothing and fails with [InvalidInput].  Symbolic links are not looked
    at, as is documented: the operating system follows them. *)
Theorem get_opens_only_safe_paths (this : FsDir) (path : bytes) (req_hdrs : HeaderMap) :
  ∃ r opened, get this path req_hdrs = Ret (r, opened) ∧
    Forall (λ p, path_safe p ∧ (p = path ∨ p = path ++ bs ".gz")) opened ∧
    (¬ path_safe path → opened = [] ∧ ∃ msg, r = Err (IoError InvalidInput msg)).
Proof. apply get_opens. Qed.

(** C31: which file [get] serves: for a client that prefers gzip, with
    [auto_gzip], the [.gz] file if it opens and is not a directory, marked as
    gzipped; the file itself if the [.gz] file does not exist or is a
    directory; any other failure to open the [.gz] file is the answer, even if
    the file itself could be opened. *)
Theorem get_gzip_preference (this : FsDir) (path : bytes) (req_hdrs : HeaderMap) (prefers : bool) :
  path_safe path → should_gzip req_hdrs = Ret prefers →
  fst <$> get this path req_hdrs = Ret
    (let plain := and_then (openat (fd this) path) (λ file,
                  and_then (file_metadata file) (λ m, Ok (mk_Node file m (fd_auto_gzip this) false))) in
     if fd_auto_gzip this && prefers then
       match openat (fd this) (path ++ bs ".gz") with
       | Ok file =>
           and_then (file_metadata file) (λ m,
             if is_dir m then plain else Ok (mk_Node file m (fd_auto_gzip this) true))
       | Err e => if decide (kind e = NotFound) then plain else Err e
       end
     else plain).
Proof.
  intros Hs Hp. pose proof (path_safe_gz path Hs) as Hg. unfold get, get_plain, open_file.
  rewrite (proj2 (validate_path_safe path) Hs), bind_Ret_l.
  rewrite c_string_gz, c_string_path by apply Hs.
  destruct (fd_auto_gzip this); simpl; [|done]. rewrite Hp. simpl. destruct prefers; [|done].
  destruct (openat (fd this) (path ++ bs ".gz")) as [file|e]; simpl.
  - destruct (file_metadata file) as [m|]; simpl; [|done]. by destruct (is_dir m).
  - case_bool_decide; [by rewrite decide_True|by rewrite decide_False].
Qed.

(** [add_encoding_headers] names the coding exactly of a gzipped node, makes the
    response vary exactly if the directory negotiates, and leaves every other
    header field alone. *)
Lemma encoding_fields (this : Node) (hdrs : HeaderMap) (k : HeaderName) :
  as_bytes <$> hm_get_all (add_encoding_headers this hdrs) k =
    if decide (k = CONTENT_ENCODING ∧ is_gzipped this = true) then [bs "gzip"]
    else if decide (k = VARY ∧ encoding_varies this = true) then [bs "accept-encoding"]
    else as_bytes <$> hm_get_all hdrs k.
Proof.
  assert (VARY ≠ CONTENT_ENCODING) as Hne by name_ne.
  unfold add_encoding_headers, encoding, encoding_varies.
  destruct (is_gzipped this), (node_auto_gzip this); rewrite ?hm_get_all_insert;
    repeat case_decide; subst; rewrite ?hm_get_all_insert; simpl;
    repeat case_decide; subst; simpl; rewrite ?as_bytes_static by done; naive_solver.
Qed.

(** [FsDir::open] hands the operating system exactly the path it is given,
    or fails before the call if the path has a NUL byte or does not fit in
    [PATH_MAX] with its terminator. *)
Theorem fsdir_open_spec (path : bytes) (auto_gzip : bool) :
  fsdir_open path auto_gzip =
    if bool_decide (NUL ∈ path) then Err (IoError InvalidInput (bs "path contains NUL byte"))
    else if PATH_MAX <=? len path then Err (IoError InvalidInput (bs "path is too long"))
    else match open_directory path with
         | Ok fd => Ok (mk_FsDir auto_gzip fd)
         | Err e => Err e
         end.
Proof.
  unfold fsdir_open. case_bool_decide as Hn; [done|].
  destruct (Z.leb_spec PATH_MAX (len path)) as [|Hlt]; [done|].
  destruct (Z.to_nat (PATH_MAX - len path)) as [|k] eqn:Hk; [lia|]. simpl.
  rewrite c_string_NUL by done. by destruct (open_directory path).
Qed.
End properties.

(** ** A concrete directory *)

#[local] Existing Instances debug_build plain_http plain_http_laws test_unix.
(** It holds [a.txt], [b.txt] and [b.txt.gz]; a name of more than 8 bytes is
    too long. *)
#[local] Instance test_dirs : UnixDirs := {|
  RawFd := Z;
  PATH_MAX := 4096;
  open_directory _ := Ok 3;
  openat _ p :=
    if 8 <? len p then Err (IoError (OsError 36) [])
    else if bool_decide (p = bs "a.txt") then Ok (bs "plain a" : UnixFile)
    else if bool_decide (p = bs "b.txt") then Ok (bs "plain b" : UnixFile)
    else if bool_decide (p = bs "b.txt.gz") then Ok (bs "zipped b" : UnixFile)
    else Err (IoError NotFound [])
|}.

Definition test_dir : FsDir := mk_FsDir true 3.
Definition gzip_request : HeaderMap := [(bs "accept-encoding", bs "gzip")] : @HeaderMap plain_http.

(** The contents of the file [get] opens. *)
Definition content_got (path : bytes) : outcome (result bytes io_error) :=
  '(r, _) ← get test_dir path gzip_request;
  Ret (and_then r (λ n, Ok (into_file n : bytes))).

Example get_examples :
  content_got (bs "b.txt") = Ret (Ok (bs "zipped b")) ∧
  content_got (bs "a.txt") = Ret (Ok (bs "plain a")) ∧
  content_got (bs "c.txt") = Ret (Err (IoError NotFound [])) ∧
  content_got (bs "../b.txt") = Ret (Err (IoError InvalidInput (bs "path contains .. segment"))) ∧
  content_got (bs "/b.txt") = Ret (Err (IoError InvalidInput (bs "path is absolute"))).
Proof. split_and!; by vm_compute. Qed.

Lemma get_gzip_preference_witness :
  fst <$> get test_dir (bs "b.txt") gzip_request =
    Ret (Ok (mk_Node (bs "zipped b" : UnixFile) (8 : UnixMetadata) true true)).
Proof.
  rewrite (get_gzip_preference test_dir (bs "b.txt") gzip_request true).
  - reflexivity.
  - split_and!; by apply (bool_decide_unpack _).
  - reflexivity.
Defined.
