(* ===== verification/Gzip.v ===== *)
(** * The body writer (src/gzip.rs)

    [BodyWriter] writes to the chunked pipe directly or through flate2's
    [GzEncoder], which is a parameter: a writer around the pipe's writer.  Every
    method gets the state shared with the reader and gives the wakers it woke. *)

From S2P Require Import Prelude RustStd HttpApi Plain Stream Chunker.

(** [flate2::write::GzEncoder<chunker::Writer>]. *)
Class GzEncoders `{Wakers} (E : Type) := {
  GzEncoder : Type;
  Compression : Type;
  Compression_new : Z → Compression;
  gz_build : Writer → Compression → GzEncoder;
  gz_get_mut : GzEncoder → Writer;
  gz_write : bytes → GzEncoder → Shared E →
             outcome (result Z io_error * GzEncoder * Shared E * list Waker);
  gz_flush : GzEncoder → Shared E →
             outcome (result unit io_error * GzEncoder * Shared E * list Waker);
  gz_drop : GzEncoder → Shared E → outcome (Shared E * list Waker)
}.

Section gzip.
Context `{Build, Wakers, Allocator} {E : Type}.

(** A call of [write] whose data, buffer and queue are in memory together. *)
Definition in_memory (data : bytes) (w : Writer) (l : Shared E) : Prop :=
  len (match state l with SOk ready _ _ => concat ready | _ => [] end) + len (buf w) + len data
    <= usize_max.

(** A predicate on what a writer has accepted so far, the writer and its pipe
    that every call of the writer's [write] and [flush] keeps. *)
Definition keeps (P : bytes → Writer → Shared E → Prop) : Prop :=
  (∀ out data w l r w' l' wk, P out w l → in_memory data w l →
     writer_write data w l = Ret (r, w', l', wk) → P (out ++ accepted_by data r) w' l') ∧
  (∀ out w l r w' l' wk, P out w l → writer_flush w l = Ret (r, w', l', wk) → P out w' l').

(** What an encoder has taken and given out, and the format it writes. *)
Class GzCodec `{!GzEncoders E} := {
  gz_input : GzEncoder → bytes;
  gz_output : GzEncoder → bytes;
  gunzip : bytes → option bytes
}.

(** The encoder is generic in the writer inside: it reaches the pipe only by the
    writer's [write] and [flush], and in the end drops it.  It takes at most the
    data it is given and fails only if the writer does; what it has given out when it is dropped decodes to what it has
    taken. *)
Class GzEncodersLaws `{GzCodec} : Prop := {
  gz_build_new : ∀ w c, gz_get_mut (gz_build w c) = w ∧ gz_input (gz_build w c) = [] ∧
    gz_output (gz_build w c) = [];
  gz_write_acts : ∀ P data g l r g' l' wks, keeps P → P (gz_output g) (gz_get_mut g) l →
    gz_write data g l = Ret (r, g', l', wks) → P (gz_output g') (gz_get_mut g') l';
  gz_write_takes : ∀ data g l r g' l' wks, is_SOk (state l) = true →
    gz_write data g l = Ret (r, g', l', wks) →
    is_ok r = true ∧ gz_input g' = gz_input g ++ accepted_by data r;
  gz_write_len : ∀ data g l n g' l' wks, gz_write data g l = Ret (Ok n, g', l', wks) → 0 <= n <= len data;
  gz_flush_acts : ∀ P g l r g' l' wks, keeps P → P (gz_output g) (gz_get_mut g) l →
    gz_flush g l = Ret (r, g', l', wks) → P (gz_output g') (gz_get_mut g') l';
  gz_flush_takes : ∀ g l r g' l' wks, is_SOk (state l) = true →
    gz_flush g l = Ret (r, g', l', wks) → r = Ok tt ∧ gz_input g' = gz_input g;
  gz_drop_acts : ∀ g l l' wks, gz_drop g l = Ret (l', wks) → ∃ out w1 l1 wk,
    (∀ P, keeps P → P (gz_output g) (gz_get_mut g) l → P out w1 l1) ∧
    writer_drop w1 l1 = Ret (l', wk) ∧
    (is_SOk (state l1) = true → gunzip out = Some (gz_input g))
}.

Context `{!GzEncoders E}.

Inductive Inner :=
  | Raw (w : Writer)
  | Gzipped (g : GzEncoder)
  | Dead.

Definition BodyWriter : Type := Inner.

Definition raw (w : Writer) : BodyWriter := Raw w.
Definition gzipped (w : Writer) (level : Compression) : BodyWriter := Gzipped (gz_build w level).

Definition wakers (wk : option Waker) : list Waker := match wk with Some w => [w] | None => [] end.

(** Dropping what a [BodyWriter] holds. *)
Definition inner_drop (i : Inner) (l : Shared E) : outcome (Shared E * list Waker) :=
  match i with
  | Raw w => '(l, wk) ← writer_drop w l; Ret (l, wakers wk)
  | Gzipped g => gz_drop g l
  | Dead => Ret (l, [])
  end.

(** [BodyWriter::abort]: the old [Inner] is dropped after its writer's [abort]. *)
Definition body_abort (error : E) (this : BodyWriter) (l : Shared E)
    : outcome (BodyWriter * Shared E * list Waker) :=
  let '(l1, wk) := match this with
                   | Dead => (l, None)
                   | Raw _ | Gzipped _ => writer_abort error l
                   end in
  '(l2, wks) ← inner_drop this l1;
  Ret (Dead, l2, wakers wk ++ wks).

Definition body_is_dead : io_error := IoError BrokenPipe (bs "body is dead").

(** [if r.is_err() { self.0 = Inner::Dead }], which drops the old [Inner]. *)
Definition dead_on_error {A} (r : result A io_error) (i : Inner) (l : Shared E) (wks : list Waker)
    : outcome (result A io_error * BodyWriter * Shared E * list Waker) :=
  if negb (is_ok r) then '(l, wks') ← inner_drop i l; Ret (r, Dead, l, wks ++ wks')
  else Ret (r, i, l, wks).

Definition body_write (buf : bytes) (this : BodyWriter) (l : Shared E)
    : outcome (result Z io_error * BodyWriter * Shared E * list Waker) :=
  match this with
  | Dead => Ret (Err body_is_dead, Dead, l, [])
  | Raw w => '(r, w, l, wk) ← writer_write buf w l; dead_on_error r (Raw w) l (wakers wk)
  | Gzipped g => '(r, g, l, wks) ← gz_write buf g l; dead_on_error r (Gzipped g) l wks
  end.

Definition body_flush (this : BodyWriter) (l : Shared E)
    : outcome (result unit io_error * BodyWriter * Shared E * list Waker) :=
  match this with
  | Dead => Ret (Err body_is_dead, Dead, l, [])
  | Raw w => '(r, w, l, wk) ← writer_flush w l; dead_on_error r (Raw w) l (wakers wk)
  | Gzipped g => '(r, g, l, wks) ← gz_flush g l; dead_on_error r (Gzipped g) l wks
  end.
End gzip.
Arguments Inner {_} _ {_}.
Arguments BodyWriter {_} _ {_}.
Arguments GzCodec {_} _ {_}.
Arguments GzEncodersLaws {_ _ _} _ {_ _}.

(** ** Calls in sequence *)

Section calls.
Context `{Build, WakersLaws, !Allocator, !AllocatorLaws} {E : Type} `{!GzEncoders E, !GzCodec E, !GzEncodersLaws E}.

(** One call on a [BodyWriter] that has not been dropped. *)
Inductive body_call : BodyWriter E * Shared E → BodyWriter E * Shared E → Prop :=
  | call_write buf b l r b' l' wks :
      body_write buf b l = Ret (r, b', l', wks) → body_call (b, l) (b', l')
  | call_flush b l r b' l' wks :
      body_flush b l = Ret (r, b', l', wks) → body_call (b, l) (b', l')
  | call_abort e b l b' l' wks :
      body_abort e b l = Ret (b', l', wks) → body_call (b, l) (b', l').

(** The writer inside is well-formed. *)
Definition body_wf (b : BodyWriter E) : Prop :=
  match b with
  | Raw w => writer_wf w
  | Gzipped g => writer_wf (gz_get_mut g)
  | Dead => True
  end.

(** On a closed pipe no call of the writer changes what the reader sees. *)
Lemma keeps_closed (l : Shared E) : is_SOk (state l) = false → keeps (λ _ w l', writer_wf w ∧ l' = l).
Proof.
  intros Hl. split.
  - intros out data w l0 r w' l' wk [Hw ->] _ Hwr.
    destruct (writer_write_dead data w l r w' l' wk Hl Hw Hwr) as (-> & _ & Hw'). done.
  - intros out w l0 r w' l' wk [Hw ->] Hfl. rewrite (writer_flush_dead w l Hl) in Hfl.
    by injection Hfl as <- <- <- <-.
Qed.

Lemma inner_drop_closed b l l' wks :
  is_SOk (state l) = false → body_wf b → inner_drop b l = Ret (l', wks) → l' = l.
Proof.
  intros Hl Hb. destruct b as [w|g|]; simpl in *; [|intros Hd|by intros [= <- _]].
  - rewrite (writer_drop_dead w l Hl). by intros [= <- _].
  - destruct (gz_drop_acts g l l' wks Hd) as (out & w1 & l1 & wk & Hacts & Hwd & _).
    destruct (Hacts _ (keeps_closed l Hl) (conj Hb eq_refl)) as [_ ->].
    rewrite (writer_drop_dead w1 l Hl) in Hwd. by injection Hwd as <- _.
Qed.

Lemma dead_on_error_closed {A} (r : result A io_error) i l r' b' l' wks wks' :
  is_SOk (state l) = false → body_wf i → dead_on_error r i l wks = Ret (r', b', l', wks') →
  l' = l ∧ body_wf b'.
Proof.
  intros Hl Hi. unfold dead_on_error. destruct r; simpl.
  - by intros [= <- <- <- <-].
  - intros Hd. apply bind_Ret_inv in Hd as ([l1 wks1] & Hd & [= <- <- <- <-]).
    apply inner_drop_closed in Hd as ->; done.
Qed.

(** What the reader sees after [abort] is final. *)
Lemma body_call_closed b l b' l' :
  is_SOk (state l) = false → body_wf b → body_call (b, l) (b', l') → l' = l ∧ body_wf b'.
Proof.
  intros Hl Hb Hc. inversion Hc as [buf ? ? r ? ? wks Hw|? ? r ? ? wks Hf|e ? ? ? ? wks Ha]; subst.
  - destruct b as [w|g|]; simpl in Hw.
    + apply bind_Ret_inv in Hw as ([[[r1 w1] l1] wk1] & Hw & Hd).
      destruct (writer_write_dead _ _ _ _ _ _ _ Hl Hb Hw) as (-> & _ & Hw1).
      by apply (dead_on_error_closed _ (Raw w1)) in Hd.
    + apply bind_Ret_inv in Hw as ([[[r1 g1] l1] wk1] & Hw & Hd).
      destruct (gz_write_acts (λ _ w l', writer_wf w ∧ l' = l) _ _ _ _ _ _ _ (keeps_closed l Hl)
                  (conj Hb eq_refl) Hw) as [Hg ->].
      by apply (dead_on_error_closed _ (Gzipped g1)) in Hd.
    + by injection Hw as <- <- <- <-.
  - destruct b as [w|g|]; simpl in Hf.
    + apply bind_Ret_inv in Hf as ([[[r1 w1] l1] wk1] & Hf & Hd).
      rewrite (writer_flush_dead w l Hl) in Hf. injection Hf as <- <- <- <-.
      by apply (dead_on_error_closed _ (Raw w)) in Hd.
    + apply bind_Ret_inv in Hf as ([[[r1 g1] l1] wk1] & Hf & Hd).
      destruct (gz_flush_acts (λ _ w l', writer_wf w ∧ l' = l) _ _ _ _ _ _ (keeps_closed l Hl)
                  (conj Hb eq_refl) Hf) as [Hg ->].
      by apply (dead_on_error_closed _ (Gzipped g1)) in Hd.
    + by injection Hf as <- <- <- <-.
  - unfold body_abort in Ha.
    assert (match b with Dead => (l, None) | _ => writer_abort e l end = (l, None)) as Hab.
    { unfold writer_abort. destruct (state l); [done| |]; by destruct b. }
    rewrite Hab in Ha. apply bind_Ret_inv in Ha as ([l1 wks1] & Hd & [= <- <- <-]).
    apply inner_drop_closed in Hd as ->; done.
Qed.

Lemma body_calls_closed s s' :
  rtc body_call s s' → is_SOk (state s.2) = false → body_wf s.1 → s'.2 = s.2.
Proof.
  induction 1 as [|[b l] [b1 l1] s' Hc _ IH]; intros Hl Hb; [done|].
  destruct (body_call_closed b l b1 l1 Hl Hb Hc) as [-> Hb1]. by apply IH.
Qed.
End calls.

Section properties.
Context `{Build, WakersLaws, !Allocator, !AllocatorLaws} {E : Type}
  `{!GzEncoders E, !GzCodec E, !GzEncodersLaws E}.

(** [abort], on a compressing body or not, ends the body for good: the
    writer is dead, the waiting task is woken, and whatever is called on the
    writer afterwards, the reader's next poll gives the error, without any of
    the data still queued, and the polls after it give the end of the stream. *)
Theorem body_abort_is_final {D} `{!Buf D} (e : E) (b b' : BodyWriter E) (l l' : Shared E)
    (wks : list Waker) (cx : Waker) (s' : BodyWriter E * Shared E) :
  is_SOk (state l) = true → b ≠ Dead → body_wf b →
  body_abort e b l = Ret (b', l', wks) → rtc body_call (b', l') s' →
  s'.1 = Dead ∧ wakers (waker l) `prefix_of` wks ∧
  reader_poll_next cx s'.2 =
    Ret (Ready (Some (Err e)) : poll_item D E, mk_Shared ReaderFused None) ∧
  reader_poll_next cx (mk_Shared (E:=E) ReaderFused None) =
    Ret (Ready None : poll_item D E, mk_Shared ReaderFused None).
Proof.
  intros Hl Hb Hwf Ha Hcalls. unfold body_abort in Ha.
  assert (match b with Dead => (l, None) | _ => writer_abort e l end =
          (mk_Shared (SErr e) None, waker l)) as Hab.
  { unfold writer_abort. destruct (state l); [|done..]. by destruct b. }
  rewrite Hab in Ha. apply bind_Ret_inv in Ha as ([l1 wks1] & Hd & [= <- <- <-]).
  apply inner_drop_closed in Hd as ->; [|done|done].
  assert (∀ s s' : BodyWriter E * Shared E, rtc body_call s s' → s.1 = Dead → s' = s) as Hdead.
  { induction 1 as [|[b0 l0] [b1 l1] s1 Hc _ IH]; [done|]. intros Hd. simpl in Hd. subst b0.
    assert (b1 = Dead ∧ l1 = l0) as [-> ->]
      by (inversion Hc; subst; match goal with H : _ = Ret _ |- _ =>
            unfold body_abort in H; simpl in H; by simplify_eq end).
    rewrite IH by done. done. }
  rewrite (Hdead _ _ Hcalls eq_refl). split; [done|]. split; [by eexists|]. split; done.
Qed.

(** A call of [write] or [flush] fails exactly when it leaves the body
    dead, and on a dead body every call fails with [BrokenPipe] and touches
    nothing. *)
Theorem body_error_kills (b b' : BodyWriter E) (l l' : Shared E) (buf : bytes) (wks : list Waker) :
  (∀ r, body_write buf b l = Ret (r, b', l', wks) → (is_ok r = false ↔ b' = Dead)) ∧
  (∀ r, body_flush b l = Ret (r, b', l', wks) → (is_ok r = false ↔ b' = Dead)) ∧
  body_write buf Dead l = Ret (Err body_is_dead, Dead, l, []) ∧
  body_flush Dead l = Ret (Err body_is_dead, Dead, l, []).
Proof.
  assert (∀ A (r0 r : result A io_error) i l0 wks0, i ≠ Dead →
    dead_on_error r0 i l0 wks0 = Ret (r, b', l', wks) → (is_ok r = false ↔ b' = Dead)) as Hdead.
  { intros A r0 r i l0 wks0 Hi. unfold dead_on_error. destruct r0; simpl.
    - intros [= <- <- _ _]. simpl. split; [done|by intros ->].
    - intros Hd. by apply bind_Ret_inv in Hd as ([] & _ & [= <- <- _ _]). }
  split; [|split; [|done]]; intros r; destruct b as [w|g|]; simpl;
    try (intros [= <- <- _ _]; simpl; tauto);
    intros Hw; apply bind_Ret_inv in Hw as ([[[] ?] ?] & _ & Hw); (eapply Hdead; [|exact Hw]); done.
Qed.
End properties.

(** ** An encoder that does not compress

    It gives out what it takes, and a line feed at the end. *)

#[local] Existing Instances debug_build plain_buf plain_buf_laws test_wakers test_wakers_laws
  test_allocator test_allocator_laws.

Definition stored_footer : bytes := [x0a].

Record stored_encoder := mk_stored { st_writer : Writer; st_taken : bytes }.

(** [write], unless memory is exhausted. *)
Definition guarded_write {E} (data : bytes) (w : Writer) (l : Shared E)
    : outcome (result Z io_error * Writer * Shared E * option Waker) :=
  if len (match state l with SOk ready _ _ => concat ready | _ => [] end) + len (buf w) + len data
     <=? usize_max
  then writer_write data w l else Panic ProcessAborted.

#[local] Instance stored E : GzEncoders E := {|
  GzEncoder := stored_encoder;
  Compression := Z;
  Compression_new := id;
  gz_build w _ := mk_stored w [];
  gz_get_mut := st_writer;
  gz_write data g l :=
    '(r, w, l', wk) ← guarded_write data (st_writer g) l;
    if is_SOk (state l) && negb (is_ok r) then Panic ProcessAborted
    else if negb match r with Ok n => (0 <=? n) && (n <=? len data) | Err _ => true end
    then Panic ProcessAborted
    else Ret (r, mk_stored w (st_taken g ++ accepted_by data r), l', wakers wk);
  gz_flush g l :=
    '(r, w, l', wk) ← writer_flush (st_writer g) l;
    if is_SOk (state l) && negb (is_ok r) then Panic ProcessAborted
    else Ret (r, mk_stored w (st_taken g), l', wakers wk);
  gz_drop g l :=
    '(r, w, l1, wk) ← guarded_write stored_footer (st_writer g) l;
    if is_SOk (state l1) && negb (bool_decide (accepted_by stored_footer r = stored_footer))
    then Panic ProcessAborted
    else '(l2, wk') ← writer_drop w l1; Ret (l2, wakers wk ++ wakers wk')
|}.

#[local] Instance stored_codec E : GzCodec E := {|
  gz_input := st_taken;
  gz_output := st_taken;
  gunzip s := match last s with Some x0a => Some (take (length s - 1) s) | _ => None end
|}.

Lemma guarded_write_keeps {E} P out data w (l : Shared E) r w' l' wk :
  keeps P → P out w l → guarded_write data w l = Ret (r, w', l', wk) →
  P (out ++ accepted_by data r) w' l'.
Proof.
  intros [Hw _] HP. unfold guarded_write. case_match eqn:Hm; [|done]. intros Hg.
  apply Z.leb_le in Hm. by eapply Hw.
Qed.

#[local] Instance stored_laws E : GzEncodersLaws E.
Proof.
  split.
  - done.
  - intros P data g l r g' l' wks HK HP Hg. simpl in Hg.
    apply bind_Ret_inv in Hg as ([[[r1 w1] l1] wk1] & Hg & Hr). destruct (is_SOk _ && _); [done|].
    destruct (negb _); [done|]. injection Hr as <- <- <- <-. by eapply guarded_write_keeps.
  - intros data g l r g' l' wks Hl Hg. simpl in Hg.
    apply bind_Ret_inv in Hg as ([[[r1 w1] l1] wk1] & Hg & Hr). rewrite Hl in Hr.
    destruct r1 as [n|]; [|done]. simpl in Hr. destruct (negb _); [done|]. by injection Hr as <- <- <- <-.
  - intros data g l n g' l' wks Hg. simpl in Hg.
    apply bind_Ret_inv in Hg as ([[[r1 w1] l1] wk1] & Hg & Hr). destruct (is_SOk _ && _); [done|].
    destruct (negb _) eqn:Hn; [done|]. injection Hr as -> _ _ _. by zbool.
  - intros P g l r g' l' wks [_ HK] HP Hg. simpl in Hg.
    apply bind_Ret_inv in Hg as ([[[r1 w1] l1] wk1] & Hg & Hr). case_hyp Hr; [done|].
    injection Hr as <- <- <- <-. by eapply HK.
  - intros g l r g' l' wks Hl Hg. simpl in Hg.
    apply bind_Ret_inv in Hg as ([[[r1 w1] l1] wk1] & Hg & Hr). rewrite Hl in Hr.
    destruct r1 as [[]|]; [|done]. by injection Hr as <- <- <- <-.
  - intros g l l' wks Hg. simpl in Hg.
    apply bind_Ret_inv in Hg as ([[[r1 w1] l1] wk1] & Hg & Hr).
    destruct (is_SOk (state l1) && _) eqn:Hc in Hr; [done|].
    apply bind_Ret_inv in Hr as ([l2 wk2] & Hr & [= <- <-]).
    exists (st_taken g ++ accepted_by stored_footer r1), w1, l1, wk2.
    split; [intros P HK HP; by eapply guarded_write_keeps|]. split; [done|]. intros Hl1.
    rewrite Hl1 in Hc. apply negb_false_iff, bool_decide_eq_true in Hc. rewrite Hc.
    cbn [gunzip stored_codec gz_input]. unfold stored_footer. rewrite last_snoc, length_app. f_equal.
    by rewrite Nat.add_sub, take_app_length.
Qed.

Definition test_pipe : Shared bytes := mk_Shared (SOk [bs "queued"] 6 false) (Some 7%nat).
Definition test_body : BodyWriter bytes := gzipped (mk_Writer [] 0 4) (Compression_new 6).

Lemma body_abort_is_final_witness :
  reader_poll_next 7%nat (mk_Shared (SErr (bs "gone")) None) =
    Ret (Ready (Some (Err (bs "gone"))) : poll_item bytes bytes, mk_Shared ReaderFused None).
Proof.
  destruct (body_abort_is_final (D:=bytes) (bs "gone") test_body Dead test_pipe
    (mk_Shared (SErr (bs "gone")) None) [7%nat] 7%nat (Dead, mk_Shared (SErr (bs "gone")) None))
    as (_ & _ & Hp & _).
  - reflexivity.
  - done.
  - split; [by vm_compute|by left].
  - reflexivity.
  - apply rtc_refl.
  - exact Hp.
Defined.

Lemma body_error_kills_witness :
  ∃ r b l wks, body_write (bs "data") test_body test_pipe = Ret (r, b, l, wks) ∧ (is_ok r = false ↔ b = Dead).
Proof.
  assert (∃ r b l wks, body_write (bs "data") test_body test_pipe = Ret (r, b, l, wks))
    as (r & b & l & wks & Hw) by (eexists _, _, _, _; reflexivity).
  exists r, b, l, wks. split; [exact Hw|].
  apply (proj1 (body_error_kills test_body b test_pipe l (bs "data") wks) r Hw).
Defined.
