(* ===== verification/Body.v ===== *)
(** * The response body (src/body.rs) *)

From S2P Require Import Prelude RustStd HttpApi Plain Range Stream Entity Multipart Chunker.

(** [Chunker] holds the present content of the state it shares with the writer. *)
Inductive BodyStream `{Wakers} (Ent D E : Type) :=
  | Once (c : option (result D E))
  | ExactLen (s : ExactLenStream D E)
  | Multipart (s : MultipartStream Ent D E)
  | Chunker (s : Shared E).
Arguments Once {_ Ent D E}.
Arguments ExactLen {_ Ent D E}.
Arguments Multipart {_ Ent D E}.
Arguments Chunker {_ Ent D E}.

Record Body `{Wakers} (Ent D E : Type) := mk_Body { body_stream : BodyStream Ent D E }.
Arguments mk_Body {_ Ent D E}.
Arguments body_stream {_ Ent D E}.

(** [http_body::Frame]: this crate makes data frames only. *)
Inductive Frame (D : Type) := Frame_data (d : D).
Arguments Frame_data {D}.

(** [SizeHint::with_exact]. *)
Definition with_exact (n : Z) : SizeHint := mk_SizeHint n (Some n).

Section body.
Context `{Build, Wakers, Entity Ent D E, !Buf D, !FromBoxError E}.

Definition body_stream_poll_next (cx : Waker) (this : BodyStream Ent D E)
    : outcome (poll_item D E * BodyStream Ent D E) :=
  match this with
  | Once c => Ret (Ready c, Once None)
  | ExactLen s => '(item, s) ← poll_next s; Ret (item, ExactLen s)
  | Multipart s => '(item, s) ← poll_next s; Ret (item, Multipart s)
  | Chunker l => '(item, l) ← reader_poll_next cx l; Ret (item, Chunker l)
  end.

Definition poll_frame (cx : Waker) (this : Body Ent D E)
    : outcome (poll (option (result (Frame D) E)) * Body Ent D E) :=
  '(item, s) ← body_stream_poll_next cx (body_stream this);
  Ret (match item with
       | Ready (Some (Ok d)) => Ready (Some (Ok (Frame_data d)))
       | Ready (Some (Err e)) => Ready (Some (Err e))
       | Ready None => Ready None
       | Pending => Pending
       end, mk_Body s).

Definition body_size_hint (this : Body Ent D E) : SizeHint :=
  match body_stream this with
  | Once (Some (Ok d)) => with_exact (remaining d)
  | Once _ => with_exact 0
  | ExactLen l => with_exact (els_remaining l)
  | Multipart s => with_exact (ms_remaining s)
  | Chunker l => size_hint l
  end.

Definition body_is_end_stream (this : Body Ent D E) : bool :=
  match body_stream this with
  | Once c => match c with None => true | Some _ => false end
  | ExactLen l => els_remaining l =? 0
  | Multipart s => ms_remaining s =? 0
  | Chunker l => is_end_stream l
  end.

Definition empty : Body Ent D E := mk_Body (Once None).

(** The [From] instances: of a static slice, a static string, a vector and a string. *)
Definition from_slice (value : bytes) : Body Ent D E :=
  mk_Body (Once (Some (Ok (from_static_slice value)))).
Definition from_str_literal (value : bytes) : Body Ent D E :=
  mk_Body (Once (Some (Ok (from_static_slice value)))).
Definition from_byte_vec (value : bytes) : Body Ent D E :=
  mk_Body (Once (Some (Ok (from_vec value)))).
Definition from_string (value : bytes) : Body Ent D E :=
  mk_Body (Once (Some (Ok (from_vec value)))).

(** A body as hyper polls it. *)
Definition body_pollable (cx : Waker) : Pollable (Body Ent D E) D E := λ this,
  '(item, this) ← poll_frame cx this;
  Ret (match item with
       | Ready (Some (Ok (Frame_data d))) => Ready (Some (Ok d))
       | Ready (Some (Err e)) => Ready (Some (Err e))
       | Ready None => Ready None
       | Pending => Pending
       end, this).

(** The bodies [serve] makes, and the lengths they announce. *)
#[export] Instance body_sized : Sized (Body Ent D E) := {|
  sized_ok this :=
    match body_stream this with
    | Once (Some (Err _)) => False
    | Once _ => True
    | ExactLen s => sized_ok s
    | Multipart s => sized_ok s
    | Chunker _ => False
    end;
  sized_left this :=
    match body_stream this with
    | Once (Some (Ok d)) => remaining d
    | Once _ => 0
    | ExactLen s => sized_left s
    | Multipart s => sized_left s
    | Chunker _ => 0
    end
|}.
End body.

Section sized.
Context `{Build, Wakers, Entity Ent D E, !Buf D, !BufLaws D, !FromBoxError E}.

(** Lifting a poll of the stream inside. *)
Lemma poll_body cx (s : BodyStream Ent D E) item s' :
  body_stream_poll_next cx s = Ret (item, s') →
  poll_next (Pollable:=body_pollable cx) (mk_Body s) = Ret (item, mk_Body s').
Proof.
  intros Hp. unfold poll_next, body_pollable, poll_frame. simpl. rewrite Hp.
  by destruct item as [[[]|]|].
Qed.

#[export] Instance body_sized_laws cx :
  SizedLaws (Body Ent D E) D E (Pollable0:=body_pollable cx).
Proof.
  split.
  - intros [[[[d|e]|]|s|s|l]]; simpl; try done.
    + intros _. apply len_nonneg.
    + intros Hs. exact (sized_left_nonneg (S:=MultipartStream Ent D E) s Hs).
  - intros [st] Hok.
    assert (∃ item s', body_stream_poll_next cx st = Ret (item, s') ∧
      match item with
      | Ready (Some (Ok d)) =>
          sized_ok (mk_Body s') ∧ remaining d + sized_left (mk_Body s') = sized_left (mk_Body st)
      | Ready (Some (Err _)) => 0 <= sized_left (mk_Body s') <= sized_left (mk_Body st)
      | Ready None => sized_left (mk_Body st) = 0 ∧ sized_left (mk_Body s') = 0
      | Pending => sized_ok (mk_Body s') ∧ sized_left (mk_Body s') = sized_left (mk_Body st)
      end) as (item & s' & Hp & Hitem).
    { destruct st as [[[d|e]|]|s|s|l]; [|done| | | |done]; simpl.
      - eexists _, _. split; [done|]. simpl. lia.
      - eexists _, _. split; done.
      - destruct (sized_poll s Hok) as (item & s' & -> & Hitem). simpl. by eexists _, _.
      - destruct (sized_poll (S:=MultipartStream Ent D E) s Hok) as (item & s' & -> & Hitem).
        simpl. by eexists _, _. }
    exists item, (mk_Body s'). split; [by apply poll_body|done].
Qed.

Lemma sized_hint (b : Body Ent D E) : sized_ok b → body_size_hint b = with_exact (sized_left b).
Proof. by destruct b as [[[[]|]| | |]]. Qed.

(** The length a body of [serve] announces is the truth: at any time, if
    polling it to its end succeeds it gives exactly [size_hint] bytes, an error
    comes after at most that many, what has been given so far and the hint
    always add up, and no poll panics; if it says [is_end_stream] nothing is
    left. *)
Theorem body_size_hint_exact (cx : Waker) (b : Body Ent D E) (fuel : nat) :
  sized_ok b →
  ∃ bs r b', poll_until (Pollable0:=body_pollable cx) fuel b = Ret (bs, r, b') ∧
    upper (body_size_hint b) = Some (lower (body_size_hint b)) ∧
    (body_is_end_stream b = true → bs = []) ∧
    match r with
    | None => len bs + lower (body_size_hint b') = lower (body_size_hint b)
    | Some Done => len bs = lower (body_size_hint b)
    | Some (Failed _) => len bs <= lower (body_size_hint b)
    end.
Proof.
  intros Hok.
  destruct (poll_until_sized (Pollable0:=body_pollable cx) fuel b Hok) as (bs & r & b' & Hp & Hr).
  exists bs, r, b'. rewrite (sized_hint b Hok). split; [done|]. split; [done|].
  pose proof (len_nonneg bs). split.
  - intros He. apply len_0_inv. assert (sized_left b = 0) as Hz.
    { revert He. destruct b as [[[[]|]|s|s|]]; try done; apply Z.eqb_eq. }
    destruct r as [[|e]|]; [lia|lia|].
    destruct Hr as [Hok' Hr]. pose proof (sized_left_nonneg (SizedLaws:=body_sized_laws cx) b' Hok'). lia.
  - cbn [lower with_exact]. destruct r as [[|e]|]; [lia|lia|]. destruct Hr as [Hok' Hr].
    by rewrite (sized_hint b' Hok').
Qed.
End sized.

(** ** A concrete body *)

#[local] Existing Instances debug_build plain_http plain_http_laws plain_buf plain_buf_laws
  mem_ops mem_content mem_laws box_error_self test_wakers.

Lemma body_size_hint_exact_witness :
  ∃ bs r b', poll_until (Pollable0:=body_pollable 7%nat) 10
      (mk_Body (ExactLen (ExactLenStream_new 5 five_bytes)) : Body mem_entity bytes BoxError) = Ret (bs, r, b').
Proof.
  destruct (body_size_hint_exact (7%nat : @Waker test_wakers)
    (mk_Body (ExactLen (ExactLenStream_new 5 five_bytes)) : Body mem_entity bytes BoxError) 10)
    as (bs & r & b' & Hp & _).
  - done.
  - exists bs, r, b'. exact Hp.
Defined.
