(* ===== verification/Streaming.v ===== *)
(** * Streaming bodies (src/lib.rs, [streaming_body] and its builder) *)

From S2P Require Import Prelude RustStd HttpApi Plain ContentCoding Range Stream Entity Multipart.
From S2P Require Import Chunker Gzip Body.

(** [AsRequest]: what is needed of a request. *)
Class AsRequest `{Http} (R : Type) := {
  req_method : R → Method;
  req_headers : R → HeaderMap
}.

(** [http::Request<T>] and [http::request::Parts]: their accessors. *)
Record Request `{Http} (T : Type) := mk_Request {
  request_method : Method; request_headers : HeaderMap; request_body : T
}.
Arguments request_method {_ T}.
Arguments request_headers {_ T}.
Record Parts `{Http} := mk_Parts { parts_method : Method; parts_header_map : HeaderMap }.

#[export] Instance request_as_request `{Http} T : AsRequest (Request T) :=
  {| req_method := request_method; req_headers := request_headers |}.
#[export] Instance parts_as_request `{Http} : AsRequest Parts :=
  {| req_method := parts_method; req_headers := parts_header_map |}.

Record StreamingBodyBuilder := mk_StreamingBodyBuilder {
  sb_chunk_size : Z;
  sb_gzip_level : Z;
  sb_should_gzip : bool;
  sb_body_needed : bool
}.

Section streaming.
Context `{Build, Wakers, Allocator, Http} {Ent D E : Type} `{!GzEncoders E}.

Definition streaming_body `{!AsRequest R} (req : R) : outcome StreamingBodyBuilder :=
  should_gzip ← should_gzip (req_headers req);
  Ret (mk_StreamingBodyBuilder 4096 6 should_gzip (bool_decide (req_method req ≠ HEAD))).

(** [StreamingBodyBuilder::with_chunk_size] and [with_gzip_level]. *)
Definition builder_with_chunk_size (this : StreamingBodyBuilder) (chunk_size : Z) : StreamingBodyBuilder :=
  mk_StreamingBodyBuilder chunk_size (sb_gzip_level this) (sb_should_gzip this) (sb_body_needed this).
Definition builder_with_gzip_level (this : StreamingBodyBuilder) (gzip_level : Z) : StreamingBodyBuilder :=
  mk_StreamingBodyBuilder (sb_chunk_size this) gzip_level (sb_should_gzip this) (sb_body_needed this).

(** [build].  The response's body reads the pipe as [build] leaves it: without
    a body to write, the writer is dropped on return. *)
Definition build (this : StreamingBodyBuilder)
    : outcome (Response (Body Ent D E) * option (BodyWriter E) * Shared E) :=
  '(w, l) ← with_chunk_size (E:=E) (sb_chunk_size this);
  let gzip := sb_should_gzip this && (0 <? sb_gzip_level this) in
  let respond (l : Shared E) : Response (Body Ent D E) :=
    let resp := resp_new (mk_Body (Chunker l)) in
    let resp := resp_set_headers resp
      (hm_append (resp_headers resp) VARY (from_static (bs "accept-encoding"))) in
    if gzip then
      resp_set_headers resp (hm_append (resp_headers resp) CONTENT_ENCODING (from_static (bs "gzip")))
    else resp in
  if negb (sb_body_needed this) then
    '(l, _) ← writer_drop w l;
    Ret (respond l, None, l)
  else
    let w := match gzip with
             | true => gzipped w (Compression_new (sb_gzip_level this))
             | false => raw w
             end in
    Ret (respond l, Some w, l).
End streaming.

Section properties.
Context `{Build, Wakers, Allocator, HttpLaws} {Ent D E : Type} `{!Buf D, !GzEncoders E, !AsRequest R}.

(** The parts of the response [build] makes, read back. *)
Ltac response_fields :=
  rewrite ?resp_status_set, ?resp_headers_set, ?resp_body_set, ?resp_status_new,
    ?resp_headers_new, ?resp_body_new, ?hm_get_all_append, ?hm_get_all_new,
    ?(decide_False (P:=CONTENT_ENCODING = VARY)), ?(decide_False (P:=VARY = CONTENT_ENCODING)),
    ?(decide_True (P:=VARY = VARY)), ?(decide_True (P:=CONTENT_ENCODING = CONTENT_ENCODING)) by done.

(** Whatever the request, the chunk size and the compression level, [build]
    panics exactly for the chunk size 0; otherwise the response is a 200 that
    names its coding exactly when the writer compresses, which is when the
    request prefers gzip and the level is positive, and always varies on
    [Accept-Encoding]; the body is open with a writer, or, for [HEAD], already
    at its end with none. *)
Theorem streaming_response (req : R) (chunk_size level : Z) :
  0 <= chunk_size →
  ∃ prefers b, should_gzip (req_headers req) = Ret prefers ∧ streaming_body req = Ret b ∧
  let gzip := prefers && (0 <? level) in
  let built := build (Ent:=Ent) (D:=D) (E:=E)
                 (builder_with_gzip_level (builder_with_chunk_size b chunk_size) level) in
  (chunk_size = 0 → built = Panic AssertFailed) ∧
  (0 < chunk_size → ∃ resp w l, built = Ret (resp, w, l) ∧
     as_u16 (resp_status resp) = 200 ∧ body_stream (resp_body resp) = Chunker l ∧
     as_bytes <$> hm_get_all (resp_headers resp) VARY = [bs "accept-encoding"] ∧
     as_bytes <$> hm_get_all (resp_headers resp) CONTENT_ENCODING =
       (if gzip then [bs "gzip"] else []) ∧
     if decide (req_method req = HEAD) then
       w = None ∧ body_is_end_stream (resp_body resp) = true ∧
       upper (body_size_hint (resp_body resp)) = Some 0
     else
       w = Some (if gzip then gzipped (mk_Writer [] 0 chunk_size) (Compression_new level)
                 else raw (mk_Writer [] 0 chunk_size)) ∧
       body_is_end_stream (resp_body resp) = false ∧ upper (body_size_hint (resp_body resp)) = None).
Proof.
  intros Hc. destruct (should_gzip_total (req_headers req)) as [prefers Hp].
  exists prefers. eexists. split; [done|]. unfold streaming_body. rewrite Hp. split; [done|].
  cbv zeta. set (gzip := prefers && (0 <? level)). unfold build.
  cbn [builder_with_gzip_level builder_with_chunk_size sb_chunk_size sb_gzip_level sb_should_gzip
       sb_body_needed]. fold gzip. unfold with_chunk_size, assert_. split.
  - intros ->. done.
  - intros Hpos. rewrite (proj2 (Z.ltb_lt _ _)) by done. simpl.
    assert (CONTENT_ENCODING ≠ VARY) by name_ne. assert (VARY ≠ CONTENT_ENCODING) by name_ne.
    pose proof (as_bytes_static (bs "accept-encoding") eq_refl) as Hvary.
    pose proof (as_bytes_static (bs "gzip") eq_refl) as Hgzip.
    case_decide as Hm; [rewrite bool_decide_false by (intros Hn; by apply Hn)
                       |rewrite bool_decide_true by done];
      simpl; eexists _, _, _; (split; [done|]); destruct gzip; response_fields;
      simpl; rewrite ?Hvary, ?Hgzip; done.
Qed.
End properties.

(** ** A concrete request *)

#[local] Existing Instances debug_build plain_http plain_http_laws plain_buf plain_buf_laws
  test_wakers test_allocator stored.

Definition gzip_request : @Parts plain_http :=
  @mk_Parts plain_http (bs "GET") [(bs "accept-encoding", bs "gzip")].

Lemma streaming_response_witness :
  ∃ b resp l, streaming_body gzip_request = Ret b ∧
    build (Ent:=unit) (D:=bytes) (E:=bytes) (builder_with_gzip_level (builder_with_chunk_size b 4) 6) =
      Ret (resp, Some (gzipped (mk_Writer [] 0 4) 6), l).
Proof.
  destruct (streaming_response (Ent:=unit) (D:=bytes) (E:=bytes) gzip_request 4 6)
    as (prefers & b & Hp & Hb & _ & Hbuilt).
  - done.
  - destruct Hbuilt as (resp & w & l & Hr & _ & _ & _ & _ & Hw); [done|].
    exists b, resp, l. split; [exact Hb|]. rewrite Hr.
    assert (should_gzip (req_headers gzip_request) = Ret true) as Hg by reflexivity.
    rewrite Hg in Hp. injection Hp as <-. destruct Hw as [-> _]. reflexivity.
Defined.
