(* ===== verification/StreamingBody.v ===== *)
(** * A streamed body from its writer to the client (src/lib.rs, gzip.rs, chunker.rs)

    The composition of the response [build] makes, the [BodyWriter] it returns
    and the pipe between the two: calls on the writer, which may compress, and
    polls of the response's body, in any order.  Each is a run of the pipe alone,
    so what [Chunker] proves of the pipe holds for what the client receives. *)

From S2P Require Import Prelude RustStd HttpApi Plain ContentCoding Range Stream Entity Multipart.
From S2P Require Import Chunker Gzip Body Streaming.

(** The writer until it is dropped, what the two halves share, and the history:
    the bytes the writer took, what the client received, the answers that ended
    the stream, and the first abort. *)
Record stream_state `{Wakers} (E : Type) `{!GzEncoders E} := mk_stream {
  ss_shared : Shared E;
  ss_body : option (BodyWriter E);
  ss_written : bytes;
  ss_aborted : option E;
  ss_delivered : bytes;
  ss_ends : list (ended E)
}.
Arguments mk_stream {_ E _}.
Arguments ss_shared {_ E _}.
Arguments ss_body {_ E _}.
Arguments ss_written {_ E _}.
Arguments ss_aborted {_ E _}.
Arguments ss_delivered {_ E _}.
Arguments ss_ends {_ E _}.

Section stream.
Context `{Build, WakersLaws, !Allocator, !AllocatorLaws} {D E : Type}
  `{!Buf D, !BufLaws D, !GzEncoders E, !GzCodec E, !GzEncodersLaws E, !EqDecision Task}.

(** The bound for a writer that does not compress, as in [pipe_step]. *)
Definition body_in_memory (data : bytes) (b : BodyWriter E) (l : Shared E) : Prop :=
  match b with Raw w => in_memory data w l | _ => True end.

Definition stream_observe (item : poll_item D E) (s : stream_state E) (l : Shared E) : stream_state E :=
  match item with
  | Pending => mk_stream l (ss_body s) (ss_written s) (ss_aborted s) (ss_delivered s) (ss_ends s)
  | Ready (Some (Ok d)) =>
      mk_stream l (ss_body s) (ss_written s) (ss_aborted s) (ss_delivered s ++ buf_bytes d) (ss_ends s)
  | Ready (Some (Err e)) =>
      mk_stream l (ss_body s) (ss_written s) (ss_aborted s) (ss_delivered s) (ss_ends s ++ [Failed e])
  | Ready None =>
      mk_stream l (ss_body s) (ss_written s) (ss_aborted s) (ss_delivered s) (ss_ends s ++ [Done])
  end.

Inductive stream_step : stream_state E → stream_state E → Prop :=
  | stream_write s b data r b' l' wks :
      ss_body s = Some b → body_in_memory data b (ss_shared s) →
      body_write data b (ss_shared s) = Ret (r, b', l', wks) →
      stream_step s (mk_stream l' (Some b') (ss_written s ++ accepted_by data r) (ss_aborted s)
                       (ss_delivered s) (ss_ends s))
  | stream_flush s b r b' l' wks :
      ss_body s = Some b → body_flush b (ss_shared s) = Ret (r, b', l', wks) →
      stream_step s (mk_stream l' (Some b') (ss_written s) (ss_aborted s) (ss_delivered s) (ss_ends s))
  | stream_abort s b e b' l' wks :
      ss_body s = Some b → body_abort e b (ss_shared s) = Ret (b', l', wks) →
      stream_step s (mk_stream l' (Some b') (ss_written s)
                       (match b with Dead => ss_aborted s | _ => Some e end)
                       (ss_delivered s) (ss_ends s))
  | stream_drop s b l' wks :
      ss_body s = Some b → inner_drop b (ss_shared s) = Ret (l', wks) →
      stream_step s (mk_stream l' None (ss_written s) (ss_aborted s) (ss_delivered s) (ss_ends s))
  | stream_poll s cx item l' :
      reader_poll_next cx (ss_shared s) = Ret (item, l') →
      stream_step s (stream_observe item s l').

Definition initial_stream (w : BodyWriter E) (l : Shared E) : stream_state E :=
  mk_stream l (Some w) [] None [] [].

(** What the pipe carried of what was written: the same, or a gzip of it. *)
Definition carries (gzip : bool) (piped written : bytes) : Prop :=
  if gzip then gunzip piped = Some written else piped = written.

(** The run of the pipe inside: its writer is the one inside the body's, or has
    been dropped. *)
Definition inside (gzip : bool) (s : stream_state E) (p : pipe E) : Prop :=
  p_shared p = ss_shared s ∧ p_wake p = None ∧ p_aborted p = ss_aborted s ∧
  p_delivered p = ss_delivered s ∧ p_ends p = ss_ends s ∧
  match ss_body s with
  | Some (Raw w) =>
      gzip = false ∧ p_writer p = Some w ∧ p_accepted p = ss_written s ∧ ss_aborted s = None
  | Some (Gzipped g) =>
      gzip = true ∧ p_writer p = Some (gz_get_mut g) ∧ p_accepted p = gz_output g ∧
      ss_written s = gz_input g ∧ ss_aborted s = None
  | Some Dead => p_writer p = None ∧ ss_aborted s ≠ None
  | None => p_writer p = None ∧ (ss_aborted s = None → carries gzip (p_accepted p) (ss_written s))
  end.

(** ** The writer's side of the pipe *)

(** Waking is always possible, and changes nothing else. *)
Lemma wake_up (p : pipe E) : ∃ parked,
  rtc (pipe_step (D:=D)) p (mk_pipe (p_shared p) (p_writer p) None parked (p_aborted p) (p_accepted p)
                     (p_delivered p) (p_ends p)).
Proof.
  destruct p as [l w [wk|] parked a acc del ends]; simpl; [|by exists parked].
  exists (if decide (parked = Some (task_of wk)) then None else parked).
  apply rtc_once. apply (step_wake (mk_pipe l w (Some wk) parked a acc del ends) wk); [done|..];
    simpl; intros; by case_decide.
Qed.

(** The states the writer's [write] and [flush] lead to. *)
Definition writes_to (p : pipe E) (out : bytes) (w : Writer) (l : Shared E) : Prop :=
  ∃ parked, rtc (pipe_step (D:=D)) p
    (mk_pipe l (Some w) None parked (p_aborted p) out (p_delivered p) (p_ends p)).

Lemma writes_to_step (p q p' : pipe E) :
  rtc (pipe_step (D:=D)) p q → pipe_step (D:=D) q p' →
  ∃ parked, rtc (pipe_step (D:=D)) p
    (mk_pipe (p_shared p') (p_writer p') None parked (p_aborted p') (p_accepted p')
             (p_delivered p') (p_ends p')).
Proof.
  intros Hq Hs. destruct (wake_up p') as [parked Hw]. exists parked.
  etrans; [exact Hq|]. eapply rtc_l; [exact Hs|exact Hw].
Qed.

Lemma keeps_writes_to (p : pipe E) : keeps (writes_to p).
Proof.
  split.
  - intros out data w l r w' l' wk [parked Hp] Hm Hw.
    set (q := mk_pipe _ _ _ _ _ _ _ _) in Hp.
    exact (writes_to_step p q _ Hp (step_write q w data r w' l' wk eq_refl eq_refl Hm Hw)).
  - intros out w l r w' l' wk [parked Hp] Hw.
    set (q := mk_pipe _ _ _ _ _ _ _ _) in Hp.
    exact (writes_to_step p q _ Hp (step_flush q w r w' l' wk eq_refl eq_refl Hw)).
Qed.

Lemma writes_to_self (p : pipe E) w :
  p_writer p = Some w → p_wake p = None → writes_to p (p_accepted p) w (p_shared p).
Proof. intros Hw Hk. exists (p_parked p). destruct p; simpl in *. by subst. Qed.

(** Dropping the writer, from there. *)
Lemma writes_to_drop (p : pipe E) out w l l' wk :
  writes_to p out w l → writer_drop w l = Ret (l', wk) →
  ∃ parked, rtc (pipe_step (D:=D)) p (mk_pipe l' None None parked (p_aborted p) out (p_delivered p) (p_ends p)).
Proof.
  intros [parked Hp] Hd.
  set (q := mk_pipe _ _ _ _ _ _ _ _) in Hp.
  exact (writes_to_step p q _ Hp (step_drop q w l' wk eq_refl eq_refl Hd)).
Qed.

Lemma pipe_run_inv (p q : pipe E) : rtc (pipe_step (D:=D)) p q → pipe_inv p → pipe_inv q.
Proof. induction 1 as [|p1 p2 p3 H12 _ IH]; [done|]. intros Hp. by apply IH, (pipe_step_inv (D:=D) p1). Qed.

(** Until an abort the pipe of a live writer is open. *)
Lemma live_open (p : pipe E) w :
  pipe_inv p → p_writer p = Some w → p_aborted p = None → is_SOk (state (p_shared p)) = true.
Proof.
  intros (Hd & _ & _) Hw Ha. unfold pipe_data_inv in Hd. destruct (state (p_shared p)); [done|..].
  - by destruct Hd as (? & _); simplify_eq.
  - destruct Hd as [(_ & ? & _)|(? & ? & ? & _)]; congruence.
Qed.

(** There the writer succeeds. *)
Lemma live_data (p : pipe E) w :
  pipe_inv p → p_writer p = Some w → p_aborted p = None →
  ∃ ready wd, state (p_shared p) = SOk ready (len (concat ready)) wd ∧ writer_wf w ∧
    len (concat ready) + len (buf w) <= usize_max.
Proof.
  intros Hinv Hw Ha. pose proof (live_open p w Hinv Hw Ha) as Ho. destruct Hinv as (Hd & _ & Hwf).
  unfold pipe_data_inv in Hd. destruct (state (p_shared p)) as [ready rb wd| |]; [|done..].
  destruct Hd as (-> & _ & _ & _ & _ & _ & _ & Hl). unfold buffered in Hl. rewrite Hw in Hl.
  exists ready, wd. split; [done|]. split; [by apply Hwf|done].
Qed.

Lemma live_write_ok (p : pipe E) w data r w' l' wk :
  pipe_inv p → p_writer p = Some w → p_aborted p = None → in_memory data w (p_shared p) →
  writer_write data w (p_shared p) = Ret (r, w', l', wk) → is_ok r = true.
Proof.
  intros Hinv Hw Ha Hm Hwr. destruct (live_data p w Hinv Hw Ha) as (ready & wd & Hst & Hwf & _).
  unfold in_memory in Hm. rewrite Hst in Hm. pose proof (len_nonneg (concat ready)).
  destruct (writer_write_SOk data w (p_shared p) ready _ wd Hst Hwf ltac:(lia) Hm)
    as (w1 & l1 & wk1 & Heq & _). rewrite Hwr in Heq. by injection Heq as -> _ _ _.
Qed.

Lemma live_flush_ok (p : pipe E) w r w' l' wk :
  pipe_inv p → p_writer p = Some w → p_aborted p = None →
  writer_flush w (p_shared p) = Ret (r, w', l', wk) → r = Ok tt.
Proof.
  intros Hinv Hw Ha. destruct (live_data p w Hinv Hw Ha) as (ready & wd & Hst & _ & Hm).
  pose proof (len_nonneg (concat ready)). rewrite (writer_flush_SOk w _ _ _ _ Hst) by lia.
  case_bool_decide; by intros [= <- _ _ _].
Qed.

Lemma dead_on_error_ok {A} (r : result A io_error) i (l : Shared E) wks r' b' l' wks' :
  is_ok r = true → dead_on_error r i l wks = Ret (r', b', l', wks') →
  r' = r ∧ b' = i ∧ l' = l.
Proof. intros Hr. unfold dead_on_error. rewrite Hr. simpl. by intros [= -> -> -> _]. Qed.

(** ** Each call is a run of the pipe *)

Lemma inside_write gzip s p b data r b' l' wks :
  inside gzip s p → pipe_inv p → ss_body s = Some b → body_in_memory data b (ss_shared s) →
  body_write data b (ss_shared s) = Ret (r, b', l', wks) →
  ∃ p', rtc (pipe_step (D:=D)) p p' ∧
    inside gzip (mk_stream l' (Some b') (ss_written s ++ accepted_by data r) (ss_aborted s)
                   (ss_delivered s) (ss_ends s)) p'.
Proof.
  intros (Hsh & Hwk & Hab & Hdel & Hends & Hb) Hinv Hbody Hm Hw. rewrite Hbody in Hb. rewrite <- Hsh in *.
  destruct b as [w|g|]; simpl in Hw.
  - destruct Hb as (Hgz & Hpw & Hacc & Hna). apply bind_Ret_inv in Hw as ([[[r1 w1] l1] wk1] & Hw & Hdead).
    pose proof (live_write_ok p w data _ _ _ _ Hinv Hpw ltac:(congruence) Hm Hw) as Hok.
    destruct (dead_on_error_ok _ _ _ _ _ _ _ _ Hok Hdead) as (-> & -> & ->).
    destruct (keeps_writes_to p) as [Hkeep _].
    destruct (Hkeep _ _ _ _ _ _ _ _ (writes_to_self p w Hpw Hwk) Hm Hw) as [parked Hp].
    eexists. split; [exact Hp|]. split_and!; simpl; by rewrite ?Hacc, ?Hin, ?Hin' || congruence.
  - destruct Hb as (Hgz & Hpw & Hacc & Hin & Hna).
    apply bind_Ret_inv in Hw as ([[[r1 g1] l1] wk1] & Hw & Hdead).
    pose proof (live_open p _ Hinv Hpw ltac:(congruence)) as Ho.
    destruct (gz_write_takes _ _ _ _ _ _ _ Ho Hw) as [Hok Hin'].
    destruct (dead_on_error_ok _ _ _ _ _ _ _ _ Hok Hdead) as (-> & -> & ->).
    pose proof (writes_to_self p _ Hpw Hwk) as Hself. rewrite Hacc in Hself.
    destruct (gz_write_acts _ _ _ _ _ _ _ _ (keeps_writes_to p) Hself Hw) as [parked Hp].
    eexists. split; [exact Hp|]. split_and!; simpl; by rewrite ?Hacc, ?Hin, ?Hin' || congruence.
  - injection Hw as <- <- <- <-. exists p. split; [done|]. simpl. rewrite app_nil_r.
    by split_and!.
Qed.

Lemma inside_flush gzip s p b r b' l' wks :
  inside gzip s p → pipe_inv p → ss_body s = Some b →
  body_flush b (ss_shared s) = Ret (r, b', l', wks) →
  ∃ p', rtc (pipe_step (D:=D)) p p' ∧
    inside gzip (mk_stream l' (Some b') (ss_written s) (ss_aborted s) (ss_delivered s) (ss_ends s)) p'.
Proof.
  intros (Hsh & Hwk & Hab & Hdel & Hends & Hb) Hinv Hbody Hw. rewrite Hbody in Hb. rewrite <- Hsh in *.
  destruct b as [w|g|]; simpl in Hw.
  - destruct Hb as (Hgz & Hpw & Hacc & Hna). apply bind_Ret_inv in Hw as ([[[r1 w1] l1] wk1] & Hw & Hdead).
    pose proof (live_flush_ok p w _ _ _ _ Hinv Hpw ltac:(congruence) Hw) as ->.
    destruct (dead_on_error_ok (Ok tt) _ _ _ _ _ _ _ eq_refl Hdead) as (-> & -> & ->).
    destruct (keeps_writes_to p) as [_ Hkeep].
    destruct (Hkeep _ _ _ _ _ _ _ (writes_to_self p w Hpw Hwk) Hw) as [parked Hp].
    eexists. split; [exact Hp|]. split_and!; simpl; by rewrite ?Hacc, ?Hin, ?Hin' || congruence.
  - destruct Hb as (Hgz & Hpw & Hacc & Hin & Hna).
    apply bind_Ret_inv in Hw as ([[[r1 g1] l1] wk1] & Hw & Hdead).
    pose proof (live_open p _ Hinv Hpw ltac:(congruence)) as Ho.
    destruct (gz_flush_takes _ _ _ _ _ _ Ho Hw) as [-> Hin'].
    destruct (dead_on_error_ok (Ok tt) _ _ _ _ _ _ _ eq_refl Hdead) as (-> & -> & ->).
    pose proof (writes_to_self p _ Hpw Hwk) as Hself. rewrite Hacc in Hself.
    destruct (gz_flush_acts _ _ _ _ _ _ _ (keeps_writes_to p) Hself Hw) as [parked Hp].
    eexists. split; [exact Hp|]. split_and!; simpl; by rewrite ?Hacc, ?Hin, ?Hin' || congruence.
  - injection Hw as <- <- <- <-. exists p. split; [done|]. by split_and!.
Qed.

(** Dropping a live writer: what the pipe accepted then carries what was
    written, if the pipe was open. *)
Lemma inside_inner_drop gzip b p (written : bytes) l' wks :
  match b with
  | Raw w => gzip = false ∧ p_writer p = Some w ∧ p_accepted p = written
  | Gzipped g => gzip = true ∧ p_writer p = Some (gz_get_mut g) ∧ p_accepted p = gz_output g ∧ written = gz_input g
  | Dead => False
  end → pipe_inv p → p_wake p = None → inner_drop b (p_shared p) = Ret (l', wks) →
  ∃ p', rtc (pipe_step (D:=D)) p p' ∧ p_shared p' = l' ∧ p_wake p' = None ∧ p_writer p' = None ∧
    p_aborted p' = p_aborted p ∧ p_delivered p' = p_delivered p ∧ p_ends p' = p_ends p ∧
    (p_aborted p = None → carries gzip (p_accepted p') written).
Proof.
  intros Hb Hinv Hwk Hd. destruct b as [w|g|]; simpl in Hd; [| |done].
  - destruct Hb as (-> & Hpw & Hacc). apply bind_Ret_inv in Hd as ([l1 wk1] & Hd & [= <- <-]).
    destruct (writes_to_drop p _ w _ _ _ (writes_to_self p w Hpw Hwk) Hd) as [parked Hp].
    by eexists; split; [exact Hp|].
  - destruct Hb as (-> & Hpw & Hacc & ->).
    destruct (gz_drop_acts _ _ _ _ Hd) as (out & w1 & l1 & wk & Hacts & Hwd & Hdec).
    pose proof (writes_to_self p _ Hpw Hwk) as Hself. rewrite Hacc in Hself.
    pose proof (Hacts _ (keeps_writes_to p) Hself) as Hw.
    destruct (writes_to_drop p out w1 _ _ _ Hw Hwd) as [parked Hp].
    eexists. split; [exact Hp|]. split_and!; try done. intros Ha. simpl. apply Hdec.
    destruct Hw as [parked' Hw]. set (q := mk_pipe _ _ _ _ _ _ _ _) in Hw.
    apply (live_open q w1); [|done|done]. by apply (pipe_run_inv p q).
Qed.

Lemma inside_abort gzip s p b e b' l' wks :
  inside gzip s p → pipe_inv p → ss_body s = Some b →
  body_abort e b (ss_shared s) = Ret (b', l', wks) →
  ∃ p', rtc (pipe_step (D:=D)) p p' ∧
    inside gzip (mk_stream l' (Some b') (ss_written s)
                   (match b with Dead => ss_aborted s | _ => Some e end)
                   (ss_delivered s) (ss_ends s)) p'.
Proof.
  intros (Hsh & Hwk & Hab & Hdel & Hends & Hb) Hinv Hbody Ha. rewrite Hbody in Hb. rewrite <- Hsh in *.
  unfold body_abort in Ha.
  assert (b = Dead ∨ ∃ w, b ≠ Dead ∧ p_writer p = Some w ∧ ss_aborted s = None) as [->|(w & Hne & Hpw & Hna)].
  { destruct b as [w|g|]; [right; exists w|right; exists (gz_get_mut g)|by left]; naive_solver. }
  { injection Ha as <- <- _. exists p. split; [done|]. by split_and!. }
  destruct (writer_abort e (p_shared p)) as [l1 wk] eqn:Hwa.
  replace (match b with Dead => (p_shared p, None) | _ => (l1, wk) end) with (l1, wk) in Ha by (by destruct b).
  apply bind_Ret_inv in Ha as ([l2 wks2] & Hd & [= <- <- _]).
  destruct (writes_to_step p p _ (rtc_refl _ p) (step_abort p w e l1 wk Hpw Hwk Hwa)) as [parked Hp].
  cbn [p_shared p_writer p_aborted p_accepted p_delivered p_ends] in Hp.
  rewrite Hab, Hna in Hp. set (p1 := mk_pipe _ _ _ _ _ _ _ _) in Hp.
  assert (match b with
          | Raw w => gzip = false ∧ p_writer p1 = Some w ∧ p_accepted p1 = ss_written s
          | Gzipped g => gzip = true ∧ p_writer p1 = Some (gz_get_mut g) ∧ p_accepted p1 = gz_output g ∧
                         ss_written s = gz_input g
          | Dead => False
          end) as Hb1 by (destruct b; simpl; [intuition congruence..|done]).
  destruct (inside_inner_drop gzip b p1 _ _ _ Hb1 (pipe_run_inv p p1 Hp Hinv) eq_refl Hd)
    as (p' & Hp' & Hsh' & Hwk' & Hw' & Ha' & Hd' & He' & _).
  exists p'. split; [by etrans|]. split_and!; simpl; try done; [..|by destruct b].
  - rewrite Ha'. by destruct b.
  - by rewrite Hd'.
  - by rewrite He'.
Qed.

Lemma inside_drop gzip s p b l' wks :
  inside gzip s p → pipe_inv p → ss_body s = Some b →
  inner_drop b (ss_shared s) = Ret (l', wks) →
  ∃ p', rtc (pipe_step (D:=D)) p p' ∧
    inside gzip (mk_stream l' None (ss_written s) (ss_aborted s) (ss_delivered s) (ss_ends s)) p'.
Proof.
  intros (Hsh & Hwk & Hab & Hdel & Hends & Hb) Hinv Hbody Hd. rewrite Hbody in Hb. rewrite <- Hsh in *.
  assert (b = Dead ∨ b ≠ Dead) as [->|Hlive] by (destruct b; [by right..|by left]).
  { simpl in Hd. injection Hd as <- _. exists p. split; [done|]. destruct Hb. by split_and!. }
  assert (match b with
          | Raw w => gzip = false ∧ p_writer p = Some w ∧ p_accepted p = ss_written s
          | Gzipped g => gzip = true ∧ p_writer p = Some (gz_get_mut g) ∧ p_accepted p = gz_output g ∧
                         ss_written s = gz_input g
          | Dead => False
          end) as Hb1 by (destruct b; naive_solver).
  destruct (inside_inner_drop gzip b p _ _ _ Hb1 Hinv Hwk Hd)
    as (p' & Hp' & Hsh' & Hwk' & Hw' & Ha' & Hd' & He' & Hc).
  exists p'. split; [done|]. split_and!; simpl; try congruence.
  split; [done|]. intros Hna. apply Hc. congruence.
Qed.

Lemma inside_poll gzip s p cx item l' :
  inside gzip s p → reader_poll_next cx (ss_shared s) = Ret (item, l') →
  ∃ p', rtc (pipe_step (D:=D)) p p' ∧ inside gzip (stream_observe item s l') p'.
Proof.
  intros (Hsh & Hwk & Hab & Hdel & Hends & Hb) Hp. rewrite <- Hsh in Hp.
  exists (observe item cx p l'). split; [by apply rtc_once, step_poll|].
  destruct item as [[[d|e]|]|]; split_and!; simpl; congruence || by rewrite ?Hdel, ?Hends.
Qed.

(** The simulation. *)
Lemma stream_step_inside gzip s s' p :
  inside gzip s p → pipe_inv p → stream_step s s' →
  ∃ p', rtc (pipe_step (D:=D)) p p' ∧ inside gzip s' p'.
Proof.
  intros Hin Hinv Hs. destruct Hs.
  - by eapply inside_write.
  - by eapply inside_flush.
  - by eapply inside_abort.
  - by eapply inside_drop.
  - by eapply inside_poll.
Qed.

Lemma stream_run_inside gzip s s' :
  rtc stream_step s s' → ∀ p, inside gzip s p → pipe_inv p →
  ∃ p', rtc (pipe_step (D:=D)) p p' ∧ inside gzip s' p'.
Proof.
  induction 1 as [s|s s1 s' Hs _ IH]; intros p Hin Hinv; [by exists p|].
  destruct (stream_step_inside gzip s s1 p Hin Hinv Hs) as (p1 & Hp1 & Hin1).
  destruct (IH p1 Hin1 (pipe_run_inv p p1 Hp1 Hinv)) as (p' & Hp' & Hin').
  exists p'. split; [by etrans|done].
Qed.
End stream.

(** ** The streams [build] makes *)

Section properties.
Context `{Build, WakersLaws, !Allocator, !AllocatorLaws, HttpLaws}.
Context {Ent D E : Type} `{!Buf D, !BufLaws D, !FromBoxError E, !Entity Ent D E}.
Context `{!GzEncoders E, !GzCodec E, !GzEncodersLaws E, !EqDecision Task}.

(** Whether the response says that its body is compressed. *)
Definition says_gzip (resp : Response (Body Ent D E)) : bool :=
  bool_decide (as_bytes <$> hm_get_all (resp_headers resp) CONTENT_ENCODING = [bs "gzip"]).

(** The response says whether the writer compresses. *)
Lemma build_says this (resp : Response (Body Ent D E)) w l :
  build this = Ret (resp, w, l) →
  says_gzip resp = sb_should_gzip this && (0 <? sb_gzip_level this) ∧ as_u16 (resp_status resp) = 200.
Proof.
  unfold build. intros Hb. apply bind_Ret_inv in Hb as ([w0 l0] & _ & Hb). cbv zeta in Hb.
  set (gzip := sb_should_gzip this && (0 <? sb_gzip_level this)) in *.
  assert (∃ l1, resp = (let resp := resp_new (mk_Body (Chunker l1)) in
    let resp := resp_set_headers resp
      (hm_append (resp_headers resp) VARY (from_static (bs "accept-encoding"))) in
    if gzip then
      resp_set_headers resp (hm_append (resp_headers resp) CONTENT_ENCODING (from_static (bs "gzip")))
    else resp)) as [l1 ->].
  { destruct (negb (sb_body_needed this)); [apply bind_Ret_inv in Hb as ([l1 ?] & _ & Hb)|];
      injection Hb as <- _ _; by eexists. }
  assert (CONTENT_ENCODING ≠ VARY) by name_ne. assert (VARY ≠ CONTENT_ENCODING) by name_ne.
  pose proof (as_bytes_static (bs "gzip") eq_refl) as Hgzip. unfold says_gzip. cbv zeta.
  destruct gzip; rewrite ?resp_status_set, ?resp_headers_set, ?resp_status_new, ?resp_headers_new,
    ?hm_get_all_append, ?hm_get_all_new, ?(decide_True (P:=CONTENT_ENCODING = CONTENT_ENCODING)),
    ?(decide_False (P:=VARY = CONTENT_ENCODING)) by done; (split; [|done]).
  - apply bool_decide_true. simpl. by rewrite Hgzip.
  - by apply bool_decide_false.
Qed.

(** The stream starts as a new pipe does. *)
Lemma build_inside this (resp : Response (Body Ent D E)) w l :
  build this = Ret (resp, Some w, l) →
  ∃ w0, with_chunk_size (sb_chunk_size this) = Ret (w0, l) ∧
    inside (says_gzip resp) (initial_stream w l) (initial_pipe w0 l).
Proof.
  intros Hb. destruct (build_says _ _ _ _ Hb) as [-> _].
  unfold build in Hb. apply bind_Ret_inv in Hb as ([w0 l0] & Hn & Hb). cbv zeta in Hb.
  destruct (negb (sb_body_needed this)).
  { by apply bind_Ret_inv in Hb as ([] & _ & ?). }
  injection Hb as _ <- <-. exists w0. split; [done|].
  destruct (sb_should_gzip this && (0 <? sb_gzip_level this)); split_and!; try done.
  simpl. destruct (gz_build_new w0 (Compression_new (sb_gzip_level this))) as (-> & -> & ->). done.
Qed.

(** Every state of the stream is a state of a pipe. *)
Lemma stream_reaches this (resp : Response (Body Ent D E)) w l s :
  sb_chunk_size this <= usize_max / 2 →
  build this = Ret (resp, Some w, l) → rtc (stream_step (D:=D)) (initial_stream w l) s →
  ∃ p, pipe_reachable (D:=D) (sb_chunk_size this) p ∧ inside (says_gzip resp) s p.
Proof.
  intros Hcap Hb Hs. destruct (build_inside this resp w l Hb) as (w0 & Hn & Hin).
  assert (pipe_reachable (D:=D) (sb_chunk_size this) (initial_pipe w0 l)) as Hp0 by (exists w0, l; done).
  destruct (stream_run_inside (D:=D) _ _ s Hs _ Hin (pipe_reachable_inv _ _ Hcap Hp0)) as (p & Hp & Hins).
  exists p. split; [by exists w0, l|done].
Qed.

(** The body of the response gives what the reader gives. *)
Lemma yields_chunker_body cx (l l' : Shared E) bs r :
  yields (D:=D) (Pollable0:=reader_pollable cx) l bs r l' →
  yields (D:=D) (Pollable0:=body_pollable cx) (mk_Body (Chunker l) : Body Ent D E) bs r
    (mk_Body (Chunker l')).
Proof.
  induction 1 as [l l' Hp|l e l' Hp|l l1 bs r l' Hp _ IH|l d l1 bs r l' Hp _ IH];
    unfold poll_next, reader_pollable in Hp.
  - apply yields_done, poll_body. simpl. by rewrite Hp.
  - apply yields_failed, poll_body. simpl. by rewrite Hp.
  - eapply yields_pending; [|exact IH]. apply poll_body. simpl. by rewrite Hp.
  - eapply yields_chunk; [|exact IH]. apply poll_body. simpl. by rewrite Hp.
Qed.

(** After the writer is dropped the body gives the rest, and all of it carries
    what was written. *)
Lemma stream_drains (this : StreamingBodyBuilder) (resp : Response (Body Ent D E))
    (w : BodyWriter E) (l : Shared E) (s : stream_state E) (cx : Waker) :
  sb_chunk_size this <= usize_max / 2 →
  build this = Ret (resp, Some w, l) → rtc (stream_step (D:=D)) (initial_stream w l) s →
  ss_body s = None → ss_aborted s = None → ss_ends s = [] →
  ∃ rest b' fuel,
    drain (D:=D) (Pollable0:=body_pollable cx) fuel (mk_Body (Chunker (ss_shared s)) : Body Ent D E) =
      Ret (Some (rest, Done, b')) ∧
    carries (says_gzip resp) (ss_delivered s ++ rest) (ss_written s).
Proof.
  intros Hcap Hb Hs Hbody Ha He.
  destruct (stream_reaches this resp w l s Hcap Hb Hs) as (p & Hp & Hsh & _ & Hab & Hdel & Hends & Hin).
  rewrite Hbody in Hin. destruct Hin as [Hw Hc].
  destruct (pipe_inv_drains (D:=D) p cx (pipe_reachable_inv _ p Hcap Hp) Hw ltac:(congruence))
    as (rest & r & l' & Hy & Hr).
  rewrite Hab, Ha in Hr. destruct Hr as [-> Hr].
  rewrite Hsh in Hy. destruct (yields_drain _ _ _ _ (yields_chunker_body cx _ _ _ _ Hy)) as [fuel Hd].
  exists rest, (mk_Body (Chunker l')), fuel. split; [by apply Hd|]. rewrite <- Hdel, Hr. by apply Hc.
Qed.

(** C9: the streaming response refines the pipe: for every builder that makes a
    body and every sequence of calls on the writer it hands out (compressing or
    not) and of polls of the response's body, there is a run of the bare
    pipe with the same shared state, the same chunks and ends for the client and
    the same abort, in which the pipe's writer accepted what was written, or, if
    the response says [gzip], what the encoder made of it. *)
Theorem stream_refines_pipe (this : StreamingBodyBuilder) (resp : Response (Body Ent D E))
    (w : BodyWriter E) (l : Shared E) (s : stream_state E) :
  sb_chunk_size this <= usize_max / 2 →
  build this = Ret (resp, Some w, l) → rtc (stream_step (D:=D)) (initial_stream w l) s →
  ∃ p, pipe_reachable (D:=D) (sb_chunk_size this) p ∧ inside (says_gzip resp) s p.
Proof. apply stream_reaches. Qed.

(** C10: the client gets what the handler wrote: when the writer of a streaming
    response was dropped without an abort, and the client has not yet seen the
    end, polling the body gives the end of the stream after finitely many polls,
    and all the client received, decoded as the response's [Content-Encoding]
    says, is exactly the bytes the calls of [write] took, in order. *)
Theorem streamed_content (this : StreamingBodyBuilder) (resp : Response (Body Ent D E))
    (w : BodyWriter E) (l : Shared E) (s : stream_state E) (cx : Waker) :
  sb_chunk_size this <= usize_max / 2 →
  build this = Ret (resp, Some w, l) → rtc (stream_step (D:=D)) (initial_stream w l) s →
  ss_body s = None → ss_aborted s = None → ss_ends s = [] →
  ∃ rest b' fuel,
    drain (D:=D) (Pollable0:=body_pollable cx) fuel (mk_Body (Chunker (ss_shared s)) : Body Ent D E) =
      Ret (Some (rest, Done, b')) ∧
    carries (says_gzip resp) (ss_delivered s ++ rest) (ss_written s).
Proof. apply stream_drains. Qed.
End properties.

(** ** A concrete stream: five bytes written and compressed, the reader polled
    twice, the writer dropped *)

#[local] Existing Instances debug_build plain_http plain_http_laws plain_buf plain_buf_laws
  mem_ops mem_content mem_laws box_error_self test_wakers test_wakers_laws test_allocator
  test_allocator_laws test_task_eq.

Definition test_builder : StreamingBodyBuilder := mk_StreamingBodyBuilder 4 6 true true.
#[local] Existing Instances stored stored_codec stored_laws.

(** The writer's calls and the polls of task 7. *)
Definition finished_stream : Prop :=
  ∃ (resp : Response (Body mem_entity bytes BoxError)) w l s,
    build test_builder = Ret (resp, Some w, l) ∧
    rtc (stream_step (D:=bytes)) (initial_stream w l) s ∧
    ss_body s = None ∧ ss_aborted s = None ∧ ss_ends s = [] ∧
    says_gzip resp = true ∧ ss_delivered s = bs "hell" ∧ ss_written s = bs "hello".

Lemma finished_stream_ok : finished_stream.
Proof.
  eexists _, _, _, _. split; [reflexivity|]. split.
  { eapply rtc_l; [eapply (stream_poll _ (7%nat : @Waker test_wakers)); reflexivity|].
    eapply rtc_l; [eapply (stream_write _ _ (bs "hello")); reflexivity|].
    eapply rtc_l; [eapply (stream_write _ _ (bs "o")); reflexivity|].
    eapply rtc_l; [eapply (stream_poll _ (7%nat : @Waker test_wakers)); reflexivity|].
    eapply rtc_l; [eapply stream_drop; reflexivity|].
    apply rtc_refl. }
  by split_and!.
Qed.

Lemma stream_refines_pipe_witness : ∃ p, pipe_reachable (E:=BoxError) (D:=bytes) 4 p ∧ p_delivered p = bs "hell".
Proof.
  destruct finished_stream_ok as (resp & w & l & s & Hb & Hs & _ & _ & _ & _ & Hd & _).
  destruct (stream_refines_pipe test_builder resp w l s) as (p & Hp & _ & _ & _ & Hdel & _).
  - by vm_compute.
  - exact Hb.
  - exact Hs.
  - exists p. split; [exact Hp|exact (eq_trans Hdel Hd)].
Defined.

Lemma streamed_content_witness : ∃ rest, gunzip (E:=BoxError) (bs "hell" ++ rest) = Some (bs "hello").
Proof.
  destruct finished_stream_ok as (resp & w & l & s & Hb & Hs & Hw & Ha & He & Hg & Hd & Hwr).
  destruct (streamed_content test_builder resp w l s (7%nat : @Waker test_wakers))
    as (rest & b' & fuel & _ & Hc).
  - by vm_compute.
  - exact Hb.
  - exact Hs.
  - exact Hw.
  - exact Ha.
  - exact He.
  - rewrite Hg, Hd, Hwr in Hc. exists rest. exact Hc.
Defined.
