(* ===== verification/Writing.v ===== *)
(** * Writing to a streaming body with [io::Write] (src/gzip.rs, std::io)

    Programs of calls of [write_all] and [flush], as handlers run them.  What
    they add up to, for a body that compresses or not, while the client polls
    it or nobody does. *)

From S2P Require Import Prelude RustStd HttpApi Plain ContentCoding Stream Entity Multipart.
From S2P Require Import Chunker Gzip Body Streaming StreamingBody.

(** What [io::Write] does to the writer and its pipe. *)
Definition io `{Wakers} (E : Type) `{!GzEncoders E} (A : Type) : Type :=
  BodyWriter E * Shared E → outcome (result A io_error * (BodyWriter E * Shared E)).

Section io.
Context `{Build, Wakers, Allocator} {E : Type} `{!GzEncoders E}.

Definition io_ret {A} (a : A) : io E A := λ s, Ret (Ok a, s).

(** [m?; f] *)
Definition io_bind {A B} (m : io E A) (f : A → io E B) : io E B := λ s,
  '(r, s) ← m s;
  match r with Ok a => f a s | Err e => Ret (Err e, s) end.

Definition io_lift {A} (m : outcome A) : io E A := λ s, a ← m; Ret (Ok a, s).

(** The methods of [Write] for a body; the tasks they wake do not touch it. *)
Definition io_write (data : bytes) : io E Z := λ s,
  '(r, w, l, _) ← body_write data s.1 s.2; Ret (r, (w, l)).

Definition io_flush : io E unit := λ s,
  '(r, w, l, _) ← body_flush s.1 s.2; Ret (r, (w, l)).

(** A turn takes a byte, or leaves the body dead, and the next one fails. *)
Definition body_write_all (data : bytes) : io E unit := write_all io_write (length data + 2) data.
End io.

(** ** What has been written to the streaming body

    The pipe's run and the writer's, as [StreamingBody] follows them, when the
    client has received [seen]. *)

Section writes.
Context `{Build, WakersLaws, !Allocator, !AllocatorLaws, HttpLaws}.
Context {Ent D E : Type} `{!Buf D, !BufLaws D, !FromBoxError E, !Entity Ent D E}.
Context `{!GzEncoders E, !GzCodec E, !GzEncodersLaws E, !EqDecision Task}.
Context (this : StreamingBodyBuilder) (resp : Response (Body Ent D E)) (w0 : BodyWriter E) (l0 : Shared E).
Context (Hcap : sb_chunk_size this <= usize_max / 2) (Hbuild : build this = Ret (resp, Some w0, l0)).

Definition wrote (seen text : bytes) (s : BodyWriter E * Shared E) : Prop :=
  rtc (stream_step (D:=D)) (initial_stream w0 l0) (mk_stream s.2 (Some s.1) text None seen []).

Definition is_raw (s : BodyWriter E * Shared E) : Prop := ∃ w, s.1 = Raw w.

(** Until an abort the writer is not dead, and its pipe is open. *)
Lemma wrote_open seen text b l :
  wrote seen text (b, l) → b ≠ Dead ∧
  ∃ p, pipe_inv p ∧ p_shared p = l ∧ p_writer p ≠ None ∧ p_aborted p = None ∧ is_SOk (state l) = true.
Proof.
  intros Hw. destruct (stream_reaches this resp w0 l0 _ Hcap Hbuild Hw) as (p & Hp & Hsh & _ & Hab & _ & _ & Hb).
  simpl in *. pose proof (pipe_reachable_inv (D:=D) _ p Hcap Hp) as Hinv.
  assert (b ≠ Dead ∧ ∃ w, p_writer p = Some w) as [Hd [w Hpw]] by (destruct b; naive_solver).
  split; [done|]. exists p. rewrite <- Hsh. split_and!; try congruence. by apply (live_open p w).
Qed.

Lemma wrote_wf seen text b l : wrote seen text (b, l) → body_wf b.
Proof.
  intros Hw. destruct (stream_reaches this resp w0 l0 _ Hcap Hbuild Hw) as (p & Hp & _ & _ & _ & _ & _ & Hb).
  destruct (pipe_reachable_inv (D:=D) _ p Hcap Hp) as (_ & _ & Hwf).
  destruct b as [w|g|]; [|destruct Hb as (_ & ? & _)..|done]; simpl in *; apply Hwf; naive_solver.
Qed.

(** The pipe of a writer that does not compress: what of the text the client has
    not received is in it. *)
Lemma wrote_raw seen text w l :
  wrote seen text (Raw w, l) →
  ∃ p, pipe_inv p ∧ p_writer p = Some w ∧ p_shared p = l ∧ is_SOk (state l) = true ∧
    text = seen ++ queued p ++ buf w.
Proof.
  intros Hw. destruct (stream_reaches this resp w0 l0 _ Hcap Hbuild Hw)
    as (p & Hp & Hsh & _ & Hab & Hdel & _ & _ & Hpw & Hacc & _). simpl in *.
  pose proof (pipe_reachable_inv (D:=D) _ p Hcap Hp) as Hinv.
  pose proof (live_open p w Hinv Hpw Hab) as Ho. exists p. rewrite <- Hsh. split_and!; try done.
  destruct Hinv as (Hd & _ & _). unfold pipe_data_inv, queued in *.
  destruct (state (p_shared p)); [|done..]. destruct Hd as (_ & _ & _ & _ & _ & Hd & _).
  by rewrite Hdel, (buffered_Some p w Hpw), Hacc in Hd.
Qed.

Lemma wrote_in_memory seen text b l data :
  wrote seen text (b, l) → len text + len data <= usize_max → body_in_memory data b l.
Proof.
  intros Hw Hm. destruct b as [w|g|]; [|done..].
  destruct (wrote_raw seen text w l Hw) as (p & _ & _ & <- & _ & ->). unfold queued in Hm.
  unfold body_in_memory, in_memory. rewrite !len_app in Hm. pose proof (len_nonneg seen). lia.
Qed.

Lemma wrote_write seen text b l data r b' l' wks :
  wrote seen text (b, l) → len text + len data <= usize_max →
  body_write data b l = Ret (r, b', l', wks) → wrote seen (text ++ accepted_by data r) (b', l').
Proof.
  intros Hw Hm Hb. eapply rtc_r; [exact Hw|].
  exact (stream_write (D:=D) (mk_stream l (Some b) text None seen []) b data r b' l' wks eq_refl
           (wrote_in_memory seen text b l data Hw Hm) Hb).
Qed.

(** Uncompressed, a write always takes something. *)
Lemma raw_write seen text w l data :
  wrote seen text (Raw w, l) → data ≠ [] → len text + len data <= usize_max →
  ∃ n w' l' wks, body_write data (Raw w) l = Ret (Ok n, Raw w', l', wks) ∧ 0 < n <= len data.
Proof.
  intros Hw Hne Hm. destruct (wrote_raw seen text w l Hw) as (p & Hinv & Hpw & <- & Ho & ->).
  rewrite !len_app in Hm. pose proof (len_nonneg seen).
  destruct (live_write_progress p w data Hinv Hpw Ho) as (n & w' & l' & wk & Heq & Hn & Hpos); [lia|].
  exists n, w', l', (wakers wk). simpl. rewrite Heq. simpl. split; [done|]. specialize (Hpos Hne). lia.
Qed.

Lemma raw_drop seen text w l : wrote seen text (Raw w, l) → ∃ l' wks, inner_drop (Raw w) l = Ret (l', wks).
Proof.
  intros Hw. destruct (wrote_raw seen text w l Hw) as (p & Hinv & Hpw & <- & Ho & _).
  destruct Hinv as (Hd & _ & _). unfold pipe_data_inv in Hd. simpl.
  destruct (state (p_shared p)) as [ready rb wd| |] eqn:Hst; [|done..].
  destruct Hd as (-> & _ & _ & _ & _ & _ & _ & Hmax). rewrite (buffered_Some p w Hpw) in Hmax.
  pose proof (len_nonneg (concat ready)). rewrite (writer_drop_SOk _ _ _ _ _ Hst) by done. simpl. eauto.
Qed.

Lemma raw_flush seen text w l :
  wrote seen text (Raw w, l) → ∃ w' l' wks, body_flush (Raw w) l = Ret (Ok tt, Raw w', l', wks).
Proof.
  intros Hw. destruct (wrote_raw seen text w l Hw) as (p & Hinv & Hpw & <- & Ho & _).
  destruct Hinv as (Hd & _ & _). unfold pipe_data_inv in Hd. simpl.
  destruct (state (p_shared p)) as [ready rb wd| |] eqn:Hst; [|done..].
  destruct Hd as (-> & _ & _ & _ & _ & _ & _ & Hmax). rewrite (buffered_Some p w Hpw) in Hmax.
  pose proof (len_nonneg (concat ready)). rewrite (writer_flush_SOk _ _ _ _ _ Hst) by done.
  case_bool_decide; simpl; eauto.
Qed.

(** ** The client meanwhile

    It can always poll, and gets [Pending] or a chunk. *)
Definition item_bytes (item : poll_item D E) : bytes :=
  match item with Ready (Some (Ok d)) => buf_bytes d | _ => [] end.

Definition is_end (item : poll_item D E) : bool :=
  match item with Ready (Some (Ok _)) | Pending => false | _ => true end.

Lemma wrote_poll seen text s cx :
  wrote seen text s → ∃ (item : poll_item D E) l', reader_poll_next cx s.2 = Ret (item, l') ∧
    is_end item = false ∧ wrote (seen ++ item_bytes item) text (s.1, l').
Proof.
  destruct s as [b l]. intros Hw. destruct (wrote_open seen text b l Hw) as (_ & p & (Hd & _ & _) & <- & Hpw & _ & Ho).
  assert (∃ (item : poll_item D E) l', reader_poll_next cx (p_shared p) = Ret (item, l') ∧ is_end item = false)
    as (item & l' & Hp & He).
  { unfold pipe_data_inv in Hd. destruct (state (p_shared p)) as [ready rb wd| |] eqn:Hst; [|done..].
    destruct Hd as (-> & _ & Hwd & _ & _ & _ & _ & Hmax). pose proof (len_nonneg (buffered p)).
    destruct ready as [|c ready].
    - unfold reader_poll_next. rewrite Hst. simpl concat. rewrite len_nil, debug_assert_true by done. simpl.
      destruct wd; [destruct (Hpw (proj1 Hwd eq_refl))|]. by eexists _, _.
    - rewrite (reader_poll_SOk_cons (D:=D) _ _ _ _ _ Hst) by lia. by eexists _, _. }
  exists item, l'. split; [done|]. split; [done|]. eapply rtc_r; [exact Hw|].
  pose proof (stream_poll (mk_stream (p_shared p) (Some b) text None seen []) cx item l' Hp) as Hs.
  destruct item as [[[d|e]|]|]; try done. simpl. by rewrite app_nil_r.
Qed.

(** When the writer is dropped the client can get the rest. *)
Lemma wrote_finish seen text b l l' wks cx :
  wrote seen text (b, l) → inner_drop b l = Ret (l', wks) →
  ∃ rest b' fuel,
    drain (D:=D) (Pollable0:=body_pollable cx) fuel (mk_Body (Chunker l') : Body Ent D E) =
      Ret (Some (rest, Done, b')) ∧
    carries (says_gzip resp) (seen ++ rest) text.
Proof.
  intros Hw Hd. apply (stream_drains this resp w0 l0 (mk_stream l' None text None seen []) cx Hcap Hbuild); [|done..].
  eapply rtc_r; [exact Hw|].
  exact (stream_drop (D:=D) (mk_stream l (Some b) text None seen []) b l' wks eq_refl Hd).
Qed.

(** ** Programs that write a text

    Uncompressed they write it and succeed; when they succeed they have written
    it. *)
Definition emits (m : io E unit) (text : bytes) : Prop :=
  ∀ seen t s, wrote seen t s → len t + len text <= usize_max →
  (is_raw s → ∃ s', m s = Ret (Ok tt, s') ∧ is_raw s') ∧
  (∀ s', m s = Ret (Ok tt, s') → wrote seen (t ++ text) s').

Lemma emits_ret : emits (io_ret tt) [].
Proof.
  intros seen t s Hs _. split; [by eexists|]. intros s' [= <-]. by rewrite app_nil_r.
Qed.

Lemma emits_then m k text text' :
  emits m text → emits k text' → emits (io_bind m (λ _, k)) (text ++ text').
Proof.
  intros Hm Hk seen t s Hs Hl. rewrite len_app in Hl. pose proof (len_nonneg text'). pose proof (len_nonneg text).
  destruct (Hm seen t s Hs ltac:(lia)) as [Htot Hpart]. unfold io_bind. split.
  - intros Hraw. destruct (Htot Hraw) as (s1 & Hm1 & Hraw1). rewrite Hm1. simpl.
    apply (Hk seen (t ++ text) s1); [by apply Hpart|rewrite len_app; lia|done].
  - intros s' Hr. apply bind_Ret_inv in Hr as ([[[]|e] s1] & Hm1 & Hr); [|done].
    rewrite app_assoc. apply (Hk seen (t ++ text) s1); [by apply Hpart|rewrite len_app; lia|done].
Qed.

Lemma emits_lift {A} (o : outcome A) (a : A) (f : A → io E unit) text :
  o = Ret a → emits (f a) text → emits (io_bind (io_lift o) f) text.
Proof. intros -> Hf seen t s Hs Hl. apply (Hf seen t s Hs Hl). Qed.

(** What is taken is a number of bytes. *)
Lemma wrote_count seen text b l data n b' l' wks :
  wrote seen text (b, l) → len text + len data <= usize_max → data ≠ [] →
  body_write data b l = Ret (Ok n, b', l', wks) → 0 <= n.
Proof.
  intros Hw Hm Hne Hb. destruct b as [w|g|]; [| |by injection Hb].
  - destruct (raw_write seen text w l data Hw Hne Hm) as (n' & w' & l1 & wks' & Hb' & Hn).
    rewrite Hb in Hb'. injection Hb' as -> _ _ _. lia.
  - simpl in Hb. apply bind_Ret_inv in Hb as ([[[r g'] l1] wks1] & Hg & Hd).
    unfold dead_on_error in Hd. destruct r; simpl in Hd; [|by apply bind_Ret_inv in Hd as ([] & _ & ?)].
    injection Hd as -> _ _ _. apply gz_write_len in Hg. lia.
Qed.

(** A write that fails leaves the body dead. *)
Lemma body_write_err data b l e b' l' wks : body_write data b l = Ret (Err e, b', l', wks) → b' = Dead.
Proof.
  assert (∀ (r : result Z io_error) i l0 wks0,
    dead_on_error r i l0 wks0 = Ret (Err e, b', l', wks) → b' = Dead) as Hdead.
  { intros r i l1 wks1. unfold dead_on_error. destruct r; simpl; [done|]. intros Hd.
    apply bind_Ret_inv in Hd as ([] & _ & Hd). by injection Hd as _ <- _ _. }
  destruct b; simpl; intros Hb; [| |by injection Hb];
    apply bind_Ret_inv in Hb as ([[[r1 ?] l1] wk1] & _ & Hb); by apply Hdead in Hb.
Qed.

Lemma io_write_eq data b l :
  io_write data (b, l) = '(r, w, l, _) ← body_write data b l; Ret (r, (w, l)).
Proof. done. Qed.

Lemma write_all_dead fuel data l s' :
  data ≠ [] → write_all io_write fuel data (Dead, l) ≠ Ret (Ok tt, s').
Proof. destruct data; [done|]. intros _. by destruct fuel. Qed.

Lemma emits_write_all fuel data : (length data <= fuel)%nat → emits (write_all io_write fuel data) data.
Proof.
  revert data. induction fuel as [|fuel IH]; intros data Hf.
  { destruct data; [apply emits_ret|simpl in Hf; lia]. }
  intros seen t [b l] Hs Hl. destruct data as [|x data']; [by apply emits_ret|].
  set (data := x :: data') in *. assert (data ≠ []) as Hne by done.
  assert (∀ n b1 l1 wks1, body_write data b l = Ret (Ok n, b1, l1, wks1) → 0 < n <= len data →
    (is_raw (b1, l1) → ∃ s', write_all io_write fuel (drop (Z.to_nat n) data) (b1, l1) = Ret (Ok tt, s') ∧ is_raw s') ∧
    (∀ s', write_all io_write fuel (drop (Z.to_nat n) data) (b1, l1) = Ret (Ok tt, s') → wrote seen (t ++ data) s')) as Hrest.
  { intros n b1 l1 wks1 Hw Hn. pose proof (wrote_write seen t b l data _ _ _ _ Hs Hl Hw) as Hs1.
    assert (accepted_by data (Ok n) = take (Z.to_nat n) data) as Ha
      by (simpl; unfold slice; by rewrite Z.sub_0_r).
    rewrite Ha in Hs1. assert (len data = n + len (drop (Z.to_nat n) data)) as Hd
      by (unfold len in *; rewrite length_drop; lia).
    assert (len (take (Z.to_nat n) data) = n) as Ht by (unfold len in *; rewrite length_take; lia).
    destruct (IH (drop (Z.to_nat n) data) ltac:(unfold len in *; lia) _ _ _ Hs1) as [Htot Hpart];
      [rewrite len_app; lia|].
    split; [done|]. intros s' Hw'. specialize (Hpart s' Hw'). by rewrite <- app_assoc, take_drop in Hpart. }
  split.
  - intros [w Hb]. simpl in Hb. subst b. destruct (raw_write seen t w l data Hs Hne Hl) as (n & w' & l' & wks & Hw & Hn).
    rewrite write_all_S by done. rewrite io_write_eq, Hw. cbn [mbind outcome_bind].
    rewrite (proj2 (Z.eqb_neq n 0)), (proj2 (Z.leb_le n _)) by lia.
    apply (Hrest _ _ _ _ Hw Hn). by eexists.
  - intros s' Hw. rewrite write_all_S in Hw by done. rewrite io_write_eq, bind_assoc in Hw.
    apply bind_Ret_inv in Hw as ([[[r b1] l1] wks1] & Hw & Hr). rewrite bind_Ret_l in Hr.
    destruct r as [n|e].
    + destruct (Z.eqb_spec n 0); [done|]. destruct (Z.leb_spec n (len data)) as [Hle|]; [|done].
      pose proof (wrote_count _ _ _ _ _ _ _ _ _ Hs Hl Hne Hw). apply (Hrest _ _ _ _ Hw); [lia|done].
    + apply body_write_err in Hw as ->. case_decide; [|done]. by apply write_all_dead in Hr.
Qed.

Lemma emits_flush : emits io_flush [].
Proof.
  assert (∀ b l, io_flush (b, l) = '(r, w, l, _) ← body_flush b l; Ret (r, (w, l))) as Heq by done.
  intros seen t [b l] Hs _. rewrite app_nil_r, Heq. split.
  - intros [w Hb]. cbn [fst] in Hb. subst b. destruct (raw_flush seen t w l Hs) as (w' & l' & wks & Hf).
    rewrite Hf, bind_Ret_l. eexists. split; [done|]. by exists w'.
  - intros s' Hf. apply bind_Ret_inv in Hf as ([[[r b1] l1] wks1] & Hf & [= -> <-]).
    eapply rtc_r; [exact Hs|]. exact (stream_flush (mk_stream l (Some b) t None seen []) b _ b1 l1 wks1 eq_refl Hf).
Qed.
End writes.

(** ** The response of [streaming_body] as it is *)

Lemma chunk_size_fits `{Build} : 4096 <= usize_max / 2.
Proof.
  pose proof usize_max_bounds as [Hu _]. unfold U16_MAX in Hu.
  apply Z.div_le_lower_bound; lia.
Qed.

(** Any builder for a method that needs a body. *)
Lemma build_live `{Build, Wakers, Allocator, Http, !GzEncoders E} {Ent D} size level prefers :
  0 < size →
  ∃ resp w l, build (Ent:=Ent) (D:=D) (E:=E) (mk_StreamingBodyBuilder size level prefers true) =
      Ret (resp, Some w, l) ∧ (prefers && (0 <? level) = false → is_raw (w, l)).
Proof.
  intros Hs. unfold build, with_chunk_size, assert_. cbn [sb_chunk_size sb_body_needed sb_should_gzip sb_gzip_level].
  assert (0 <? size = true) as -> by (by apply Z.ltb_lt). rewrite !bind_Ret_l. eexists _, _, _. split; [reflexivity|].
  intros ->. by eexists.
Qed.

Lemma streaming_body_live `{Build, Http, !AsRequest R} (req : R) prefers :
  should_gzip (req_headers req) = Ret prefers → req_method req ≠ HEAD →
  streaming_body req = Ret (mk_StreamingBodyBuilder 4096 6 prefers true).
Proof. intros Hg Hm. unfold streaming_body. rewrite Hg, bind_Ret_l. by rewrite bool_decide_true. Qed.

Lemma default_builder `{Build, Wakers, Allocator, Http, !GzEncoders E, !AsRequest R} {Ent D} (req : R) prefers :
  should_gzip (req_headers req) = Ret prefers → req_method req ≠ HEAD →
  ∃ resp w l, streaming_body req = Ret (mk_StreamingBodyBuilder 4096 6 prefers true) ∧
    build (Ent:=Ent) (D:=D) (E:=E) (mk_StreamingBodyBuilder 4096 6 prefers true) =
      Ret (resp, Some w, l) ∧ (prefers = false → is_raw (w, l)).
Proof.
  intros Hg Hm. destruct (build_live (Ent:=Ent) (D:=D) 4096 6 prefers eq_refl) as (resp & w & l & Hb & Hraw).
  exists resp, w, l. split; [by apply streaming_body_live|]. split; [done|]. intros ->. by apply Hraw.
Qed.
