(* ===== verification/ChunkedAcceptance.v ===== *)
(** * The handler of the streaming tests (tests/chunked-acceptance.rs)

    The handler answers with a streaming body and leaves its writer to a task
    that carries out the commands it receives; the client polls the body
    meanwhile.  A session is the commands and polls in the order they happen. *)

From S2P Require Import Prelude RustStd HttpApi Plain ContentCoding Stream Entity Multipart.
From S2P Require Import Chunker Gzip Body Streaming StreamingBody Writing.

Inductive Cmd (E : Type) :=
  | WriteAll (s : bytes)
  | Flush
  | Abort (e : E).
Arguments WriteAll {E} _.
Arguments Flush {E}.
Arguments Abort {E} _.

Inductive event `{Wakers} (E : Type) :=
  | Received (c : Cmd E)
  | Polled (cx : Waker).
Arguments Received {_ E} _.
Arguments Polled {_ E} _.

(** The writer with its pipe, and what the client's polls gave. *)
Definition task_state `{Wakers} (D E : Type) `{!GzEncoders E} : Type :=
  (BodyWriter E * Shared E) * list (poll_item D E).

Section handler.
Context `{Build, Wakers, Allocator, Http} {Ent D E : Type} `{!Buf D, !GzEncoders E, !AsRequest R}.

(** The body of the task's loop. *)
Definition run_cmd (cmd : Cmd E) (s : BodyWriter E * Shared E) : outcome (BodyWriter E * Shared E) :=
  match cmd with
  | WriteAll data => '(r, s) ← body_write_all data s; _ ← unwrap_ok r; Ret s
  | Flush => '(r, s) ← io_flush s; _ ← unwrap_ok r; Ret s
  | Abort e => '(w, l, _) ← body_abort e s.1 s.2; Ret (w, l)
  end.

Definition run_event (ev : event E) (s : task_state D E) : outcome (task_state D E) :=
  match ev with
  | Received cmd => t ← run_cmd cmd s.1; Ret (t, s.2)
  | Polled cx => '(item, l) ← reader_poll_next cx s.1.2; Ret ((s.1.1, l), s.2 ++ [item])
  end.

Fixpoint run_events (evs : list (event E)) (s : task_state D E) : outcome (task_state D E) :=
  match evs with
  | [] => Ret s
  | ev :: evs => s ← run_event ev s; run_events evs s
  end.

(** [serve]: the response, and the writer the task is given. *)
Definition start_session (req : R) : outcome (Response (Body Ent D E) * (BodyWriter E * Shared E)) :=
  sb ← streaming_body req;
  '(resp, w, l) ← build sb;
  w ← unwrap w;
  Ret (resp, (w, l)).

(** The session until the commands end and the task drops the writer: the
    response, what the client got so far, and the pipe. *)
Definition session (req : R) (evs : list (event E))
    : outcome (Response (Body Ent D E) * list (poll_item D E) * Shared E) :=
  '(resp, s) ← start_session req;
  '((w, l), got) ← run_events evs (s, []);
  '(l, _) ← inner_drop w l;
  Ret (resp, got, l).
End handler.

(** What the commands write, if none of them is an abort. *)
Definition writes_only `{Wakers} {E} (ev : event E) : Prop :=
  match ev with Received (Abort _) => False | _ => True end.

Definition written_by `{Wakers} {E} (ev : event E) : bytes :=
  match ev with Received (WriteAll data) => data | _ => [] end.

Definition payload `{Wakers} {E} (evs : list (event E)) : bytes := concat (written_by <$> evs).

Section properties.
Context `{Build, WakersLaws, !Allocator, !AllocatorLaws, HttpLaws}.
Context {Ent D E : Type} `{!Buf D, !BufLaws D, !FromBoxError E, !Entity Ent D E, !AsRequest R}.
Context `{!GzEncoders E, !GzCodec E, !GzEncodersLaws E, !EqDecision Task}.

Definition got_bytes (got : list (poll_item D E)) : bytes := concat (item_bytes <$> got).

Lemma got_snoc got item : got_bytes (got ++ [item]) = got_bytes got ++ item_bytes item.
Proof. unfold got_bytes. by rewrite fmap_app, concat_app; simpl; rewrite app_nil_r. Qed.

Section one.
Context (this : StreamingBodyBuilder) (resp : Response (Body Ent D E)) (w0 : BodyWriter E) (l0 : Shared E)
  (Hcap : sb_chunk_size this <= usize_max / 2) (Hbuild : build this = Ret (resp, Some w0, l0)).
Let wrote := wrote (D:=D) w0 l0.

(** A command does what the program of the same writes does. *)
Lemma run_cmd_emits cmd : writes_only (Received cmd) →
  ∃ m : io E unit, emits (D:=D) w0 l0 m (written_by (Received cmd)) ∧
    ∀ s, run_cmd cmd s = '(r, s) ← m s; _ ← unwrap_ok r; Ret s.
Proof.
  destruct cmd as [data| |e]; intros Hc; [exists (body_write_all data)|exists io_flush|done]; (split; [|done]).
  - eapply (emits_write_all this resp w0 l0 Hcap Hbuild _ data). lia.
  - exact (emits_flush this resp w0 l0 Hcap Hbuild).
Qed.

(** One event: uncompressed it always succeeds; when it does, the state is one
    of the stream in which its data has been written. *)
Lemma run_event_wrote ev text s got :
  writes_only ev → wrote (got_bytes got) text s → Forall (λ item, is_end item = false) got →
  len text + len (written_by ev) <= usize_max →
  (is_raw s → ∃ s' got', run_event (D:=D) ev (s, got) = Ret (s', got') ∧ is_raw s') ∧
  ∀ s' got', run_event (D:=D) ev (s, got) = Ret (s', got') →
    wrote (got_bytes got') (text ++ written_by ev) s' ∧ Forall (λ item, is_end item = false) got'.
Proof.
  intros Hev Hs Hgot Hl. destruct ev as [cmd|cx].
  - destruct (run_cmd_emits cmd Hev) as (m & Hm & Heq). destruct (Hm _ _ _ Hs Hl) as [Htot Hpart].
    simpl run_event. rewrite Heq. split.
    + intros Hraw. destruct (Htot Hraw) as (s' & -> & Hraw'). by exists s', got.
    + intros s' got' Hr. apply bind_Ret_inv in Hr as (t & Hr & [= <- <-]).
      apply bind_Ret_inv in Hr as ([[[]|e] t'] & Hm' & [= <-]). split; [by apply Hpart|done].
  - destruct (wrote_poll this resp w0 l0 Hcap Hbuild _ _ _ cx Hs) as (item & l' & Hp & He & Hw).
    rewrite app_nil_r. unfold run_event. cbn [fst snd]. split.
    + intros Hraw. rewrite Hp. by eexists _, _.
    + intros s' got'. rewrite Hp. intros [= <- <-]. rewrite got_snoc. split; [exact Hw|].
      apply Forall_app. split; [done|]. by apply Forall_singleton.
Qed.

Lemma run_events_wrote evs text s got :
  Forall writes_only evs → wrote (got_bytes got) text s → Forall (λ item, is_end item = false) got →
  len text + len (payload evs) <= usize_max →
  (is_raw s → ∃ s' got', run_events (D:=D) evs (s, got) = Ret (s', got') ∧ is_raw s') ∧
  ∀ s' got', run_events (D:=D) evs (s, got) = Ret (s', got') →
    wrote (got_bytes got') (text ++ payload evs) s' ∧ Forall (λ item, is_end item = false) got'.
Proof.
  intros Hevs. induction Hevs as [|ev evs Hev _ IH] in text, s, got |- *; intros Hs Hgot Hl.
  { split; [by eexists _, _|]. intros s' got' [= <- <-]. unfold payload. simpl. by rewrite app_nil_r. }
  assert (payload (ev :: evs) = written_by ev ++ payload evs) as Hp by done.
  rewrite Hp, len_app in Hl. pose proof (len_nonneg (payload evs)).
  destruct (run_event_wrote ev text s got Hev Hs Hgot ltac:(lia)) as [Htot Hpart]. simpl. split.
  - intros Hraw. destruct (Htot Hraw) as (s1 & got1 & Hr & Hraw1). rewrite Hr, bind_Ret_l.
    destruct (Hpart _ _ Hr) as [Hs1 Hgot1]. apply (IH (text ++ written_by ev)); [done..| |done]. rewrite len_app. lia.
  - intros s' got' Hr. apply bind_Ret_inv in Hr as ([s1 got1] & Hr1 & Hr).
    destruct (Hpart _ _ Hr1) as [Hs1 Hgot1]. rewrite Hp, app_assoc.
    apply (IH (text ++ written_by ev) s1 got1); [done..| |done]. rewrite len_app. lia.
Qed.
End one.

(** ** Aborting *)

Lemma run_events_app evs evs' (s : task_state D E) :
  run_events (evs ++ evs') s = s' ← run_events evs s; run_events evs' s'.
Proof.
  induction evs as [|ev evs IH] in s |- *; [done|]. simpl. rewrite bind_assoc.
  destruct (run_event ev s); [|done]. simpl. by rewrite IH.
Qed.

(** After the error the polls give the end. *)
Lemma polls_fused cxs (w : BodyWriter E) wk got :
  run_events (D:=D) (Polled <$> cxs) ((w, mk_Shared ReaderFused wk), got) =
    Ret ((w, mk_Shared ReaderFused wk), got ++ replicate (length cxs) (Ready None)).
Proof.
  induction cxs as [|cx cxs IH] in got |- *; simpl; [by rewrite app_nil_r|].
  etrans; [apply IH|]. by rewrite <- app_assoc.
Qed.

(** On an open pipe, whatever the writer: when the abort returns, the next poll
    gives its error. *)
Lemma abort_polls e cx cxs (b : BodyWriter E) (l : Shared E) (got : list (poll_item D E)) s :
  is_SOk (state l) = true → b ≠ Dead → body_wf b →
  run_events (D:=D) (Received (Abort e) :: (Polled <$> cx :: cxs)) ((b, l), got) = Ret s →
  s.2 = got ++ Ready (Some (Err e)) :: replicate (length cxs) (Ready None).
Proof.
  intros Ho Hb Hwf Hr. apply bind_Ret_inv in Hr as ([[b1 l1] got1] & Ha & Hr).
  apply bind_Ret_inv in Ha as ([b2 l2] & Ha & [= -> -> ->]).
  apply bind_Ret_inv in Ha as ([[b2 l2] wks] & Ha & [= -> ->]).
  destruct (body_abort_is_final (D:=D) e b b1 l l1 wks cx (b1, l1) Ho Hb Hwf Ha (rtc_refl _ _)) as (_ & _ & Hp & _).
  simpl in Hp. rewrite fmap_cons in Hr. cbn [run_events run_event fst snd] in Hr.
  rewrite Hp, !bind_Ret_l, polls_fused in Hr. injection Hr as <-. simpl. by rewrite <- app_assoc.
Qed.

Lemma abort_returns e cx cxs (w : Writer) (l : Shared E) (got : list (poll_item D E)) :
  is_SOk (state l) = true →
  run_events (D:=D) (Received (Abort e) :: (Polled <$> cx :: cxs)) ((Raw w, l), got) =
    Ret ((Dead, mk_Shared ReaderFused None), got ++ Ready (Some (Err e)) :: replicate (length cxs) (Ready None)).
Proof.
  intros Ho. assert (body_abort e (Raw w) l = Ret (Dead, mk_Shared (SErr e) None, wakers (waker l))) as Ha.
  { unfold body_abort, writer_abort. destruct (state l); [|done..]. simpl.
    rewrite writer_drop_dead by done. simpl. by rewrite app_nil_r. }
  cbn [run_events run_event run_cmd fst snd]. rewrite Ha. simpl.
  etrans; [apply polls_fused|]. by rewrite <- app_assoc.
Qed.

End properties.

(** ** The test [abort], with polls in between *)

#[local] Existing Instances debug_build plain_http plain_http_laws plain_buf plain_buf_laws
  mem_ops box_error_self test_wakers test_wakers_laws test_allocator test_allocator_laws test_task_eq
  stored stored_codec stored_laws.

Definition plain_request : @Parts plain_http := @mk_Parts plain_http (bs "GET") [].
Definition test_commands : list (event BoxError) :=
  [Polled (7%nat : @Waker test_wakers); Received (WriteAll (bs "1234")); Received Flush;
   Polled (7%nat : @Waker test_wakers); Received (WriteAll (bs "5678"))].

Definition gzip_request : @Parts plain_http :=
  @mk_Parts plain_http (bs "GET") [(ACCEPT_ENCODING, bs "gzip")].
Definition abort_test : list (event BoxError) :=
  [Received (Abort (StreamTooShortError 4)); Polled (8%nat : @Waker test_wakers)].

(** A compressed session that aborts returns, too. *)
Example gzip_aborts : ∃ (resp : Response (Body mem_entity bytes BoxError)) got l,
  session gzip_request (test_commands ++ abort_test) =
    Ret (resp, got ++ [Ready (Some (Err (StreamTooShortError 4)))], l) ∧ says_gzip resp = true.
Proof. eexists _, [_; _], _. split; reflexivity. Qed.

