(* ===== verification/Serving.v ===== *)
(** * Serving an entity (src/serving.rs)

    [serve] turns a request and an [Entity] into a response.  [now] is the
    answer of [SystemTime::now()], which is called at most once. *)

From S2P Require Import Prelude RustStd HttpApi Plain Range Etag Stream Entity Multipart Chunker Body.

Definition MAX_DECIMAL_U64_BYTES : Z := 20.

Section serving.
Context `{Build, Wakers, Http, HttpDate}.

(** The date of a conditional header, or [ERR]. *)
Definition parse_since (ERR : bytes) (since : HeaderValue) : result SystemTime bytes :=
  and_then (ok_or (to_str since) ERR) (λ s, ok_or (parse_http_date s) ERR).

Definition parse_modified_hdrs (etag : option HeaderValue) (req_hdrs : HeaderMap)
    (last_modified : option SystemTime) : result (bool * bool) bytes :=
  and_then (any_match etag req_hdrs) (λ any,
  and_then
    (if negb any then Ok true
     else
       match last_modified, hm_get req_hdrs IF_UNMODIFIED_SINCE with
       | Some m, Some since =>
           and_then (parse_since (bs "Unparseable If-Unmodified-Since") since)
                    (λ t, Ok (m >? t))
       | _, _ => Ok false
       end) (λ precondition_failed,
  and_then
    (match none_match etag req_hdrs with
     | Some true => Ok false
     | Some false => Ok true
     | None =>
         match last_modified, hm_get req_hdrs IF_MODIFIED_SINCE with
         | Some m, Some since =>
             and_then (parse_since (bs "Unparseable If-Modified-Since") since)
                      (λ t, Ok (m <=? t))
         | _, _ => Ok false
         end
     end) (λ not_modified, Ok (precondition_failed, not_modified)))).

(** The [Range] header still in force after [If-Range], and whether a partial
    response should have the entity's headers. *)
Definition range_after_if_range (etag : option HeaderValue) (req_hdrs : HeaderMap)
    : option HeaderValue * bool :=
  let range_hdr := hm_get req_hdrs RANGE in
  match hm_get req_hdrs IF_RANGE with
  | Some if_range =>
      let if_range := as_bytes if_range in
      if starts_with (bs "W/" ++ [DQUOTE]) if_range || starts_with [DQUOTE] if_range then
        match etag with
        | Some some_etag =>
            if strong_eq if_range (as_bytes some_etag) then (range_hdr, false) else (None, true)
        | None => (None, true)
        end
      else (None, true)
  | None => (range_hdr, true)
  end.

(** The builder with the header fields every answer to a GET or HEAD has. *)
Definition base_builder (now : SystemTime) (last_modified : option SystemTime)
    (etag : option HeaderValue) : Builder :=
  let res := builder_header builder ACCEPT_RANGES (Some (from_static (bs "bytes"))) in
  let res :=
    match last_modified with
    | Some m =>
        let d := now in
        let res := builder_header res DATE (value_try_from (fmt_http_date d)) in
        let clamped_m := Z.min m d in
        builder_header res LAST_MODIFIED (value_try_from (fmt_http_date clamped_m))
    | None => res
    end in
  match etag with
  | Some e => builder_header res ETAG (Some e)
  | None => res
  end.

(** [ranges.iter().try_fold(...)]: the estimated length of a multipart body,
    [None] if it exceeds a [u64]. *)
Fixpoint estimate (acc : Z) (ranges : list range) : outcome (option Z) :=
  match ranges with
  | [] => Ret (Some acc)
  | r :: ranges =>
      match checked_add acc 80 with
      | None => Ret None
      | Some a =>
          l ← u64_sub (end_ r) (start r);
          match checked_add a l with
          | None => Ret None
          | Some acc => estimate acc ranges
          end
      end
  end.

(** The header fields of an entity as they stand in each part. *)
Definition each_part_headers (h : list (HeaderName * HeaderValue)) : bytes :=
  concat ((λ kv : HeaderName * HeaderValue,
             name_as_str kv.1 ++ bs ": " ++ as_bytes kv.2 ++ CRLF) <$> h).

Definition part_header (r : range) (last len : Z) (each : bytes) : bytes :=
  (CRLF ++ bs "--B" ++ CRLF ++ bs "Content-Range: bytes " ++ fmt_dec (start r) ++ bs "-"
   ++ fmt_dec last ++ bs "/" ++ fmt_dec len ++ CRLF) ++ each ++ CRLF.

(** The loop of [prepare_multipart]; [Err] is [MultipartLenOverflowError]. *)
Fixpoint prepare_parts (ranges : list range) (total_len : Z) (each : bytes) (body_len : Z)
    (acc : list bytes) : outcome (result (list bytes * Z) unit) :=
  match ranges with
  | [] => Ret (Ok (acc, body_len))
  | r :: ranges =>
      last ← u64_sub (end_ r) 1;
      let buf := part_header r last total_len each in
      match checked_add body_len (len buf) with
      | None => Ret (Err tt)
      | Some l =>
          n ← u64_sub (end_ r) (start r);
          match checked_add l n with
          | None => Ret (Err tt)
          | Some body_len => prepare_parts ranges total_len each body_len (acc ++ [buf])
          end
      end
  end.

Definition prepare_multipart (res : Builder) (ranges : list range) (total_len : Z)
    (include_entity_headers : option HeaderMap)
    : outcome (result (Builder * list bytes * Z) unit) :=
  let each := match include_entity_headers with
              | Some h => each_part_headers (hm_iter h)
              | None => []
              end in
  parts ← prepare_parts ranges total_len each 0 [];
  match parts with
  | Err e => Ret (Err e)
  | Ok (part_headers, body_len) =>
      match checked_add body_len (len PART_TRAILER) with
      | None => Ret (Err tt)
      | Some body_len =>
          v ← unsafe_fmt_ascii_val MAX_DECIMAL_U64_BYTES (fmt_dec body_len);
          let res := builder_header res CONTENT_LENGTH (Some v) in
          let res := builder_header res CONTENT_TYPE
                       (Some (from_static (bs "multipart/byteranges; boundary=B"))) in
          Ret (Ok (builder_set_status res PARTIAL_CONTENT, part_headers, body_len))
      end
  end.
End serving.

Inductive ServeInner `{Http, Wakers} (Ent D E : Type) :=
  | Simple (res : Response (Body Ent D E))
  | ServeMultipart (res : Builder) (part_headers : list bytes) (ranges : list range) (len : Z).
Arguments Simple {_ _ Ent D E}.
Arguments ServeMultipart {_ _ Ent D E}.

Section serve.
Context `{Build, Wakers, Entity Ent D E, !HttpDate, !Buf D, !FromBoxError E}.

(** [.body(body).unwrap()], as an instruction. *)
Definition simple (res : Builder) (body : Body Ent D E) : outcome (ServeInner Ent D E) :=
  r ← unwrap (builder_body res body); Ret (Simple r).

(** The end of [serve_inner]: the whole entity or one range of it. *)
Definition serve_range (ent : Ent) (method : Method) (res : Builder) (range : range)
    (include_entity_headers : bool) : outcome (ServeInner Ent D E) :=
  len ← u64_sub (end_ range) (start range);
  v ← unsafe_fmt_ascii_val MAX_DECIMAL_U64_BYTES (fmt_dec len);
  let res := builder_header res CONTENT_LENGTH (Some v) in
  body ← (if decide (method = HEAD) then Ret empty
          else
            l ← u64_sub (end_ range) (start range);
            Ret (mk_Body (ExactLen (ExactLenStream_new l (get_range ent range)))));
  r ← unwrap (builder_body res body);
  Ret (Simple (if include_entity_headers
               then resp_set_headers r (add_headers ent (resp_headers r)) else r)).

(** The multipart branch. *)
Definition serve_multipart (ent : Ent) (method : Method) (res : Builder) (ranges : list range)
    (len : Z) (include_entity_headers_on_range : bool) : outcome (ServeInner Ent D E) :=
  let each_part_hdrs :=
    if include_entity_headers_on_range then Some (add_headers ent hm_new) else None in
  m ← prepare_multipart res ranges len each_part_hdrs;
  match m with
  | Err _ =>
      simple (builder_set_status builder PAYLOAD_TOO_LARGE)
             (from_str_literal (bs "Multipart response too large"))
  | Ok (res, part_headers, len) =>
      if decide (method = HEAD) then simple res empty
      else Ret (ServeMultipart res part_headers ranges len)
  end.

(** [serve_inner] from [let len = ent.len()] on. *)
Definition serve_ranges (ent : Ent) (method : Method) (res : Builder)
    (range_hdr : option HeaderValue) (include_entity_headers_on_range : bool)
    : outcome (ServeInner Ent D E) :=
  let len := entity_len ent in
  parsed ← parse range_hdr len;
  match parsed with
  | RNone => serve_range ent method res (mk_range 0 len) true
  | Satisfiable [range] =>
      last ← u64_sub (end_ range) 1;
      v ← unsafe_fmt_ascii_val (MAX_DECIMAL_U64_BYTES * 3 + Prelude.len (bs "bytes -/"))
            (bs "bytes " ++ fmt_dec (start range) ++ bs "-" ++ fmt_dec last ++ bs "/" ++ fmt_dec len);
      let res := builder_header res CONTENT_RANGE (Some v) in
      let res := builder_set_status res PARTIAL_CONTENT in
      serve_range ent method res range include_entity_headers_on_range
  | Satisfiable ranges =>
      est_len ← estimate 0 ranges;
      if match est_len with Some l => l <? len | None => false end then
        serve_multipart ent method res ranges len include_entity_headers_on_range
      else serve_range ent method res (mk_range 0 len) true
  | NotSatisfiable =>
      v ← unsafe_fmt_ascii_val (MAX_DECIMAL_U64_BYTES + Prelude.len (bs "bytes */"))
            (bs "bytes */" ++ fmt_dec len);
      let res := builder_header res CONTENT_RANGE (Some v) in
      simple (builder_set_status res RANGE_NOT_SATISFIABLE) empty
  end.

Definition serve_inner (now : SystemTime) (ent : Ent) (method : Method) (req_hdrs : HeaderMap)
    : outcome (ServeInner Ent D E) :=
  if decide (method ≠ GET ∧ method ≠ HEAD) then
    simple (builder_header (builder_set_status builder METHOD_NOT_ALLOWED) ALLOW
              (Some (from_static (bs "get, head"))))
           (from_str_literal (bs "This resource only supports GET and HEAD."))
  else
    let last_modified := last_modified ent in
    etag ← entity_etag ent;
    match parse_modified_hdrs etag req_hdrs last_modified with
    | Err s => simple (builder_set_status builder BAD_REQUEST) (from_str_literal s)
    | Ok (precondition_failed, not_modified) =>
        let '(range_hdr, include_entity_headers_on_range) := range_after_if_range etag req_hdrs in
        let res := base_builder now last_modified etag in
        if (precondition_failed : bool) then
          simple (builder_set_status res PRECONDITION_FAILED)
                 (from_str_literal (bs "Precondition failed"))
        else if (not_modified : bool) then
          simple (builder_set_status res NOT_MODIFIED) empty
        else serve_ranges ent method res range_hdr include_entity_headers_on_range
    end.

(** What [serve] does with the instruction. *)
Definition finish (entity : Ent) (inner : ServeInner Ent D E) : outcome (Response (Body Ent D E)) :=
  match inner with
  | Simple res => Ret res
  | ServeMultipart res part_headers ranges len =>
      unwrap (builder_body res
        (mk_Body (Multipart (MultipartStream_new entity part_headers ranges len))))
  end.

Definition serve (now : SystemTime) (entity : Ent) (method : Method) (req_hdrs : HeaderMap)
    : outcome (Response (Body Ent D E)) :=
  inner ← serve_inner now entity method req_hdrs; finish entity inner.
End serve.
