(* ===== verification/ServingSpec.v ===== *)
(** * What [serve] promises, and that it keeps it

    [answer] is the decision [serve] takes, without builders, formatting or
    streams: [decide_answer] takes it from the request and the entity, and
    [answer_status], [answer_fields] and [answer_body] say what it means on the
    wire.  [serve_shape] and [serve_is] show that the response of [serve] is that
    answer: the first says which stream its body is, of any entity, the second
    which bytes, of one that keeps its contract. *)

From S2P Require Import Prelude RustStd HttpApi Plain Range Etag Stream Entity Multipart Chunker Body Serving.

(** ** The abstract answer *)

Inductive answer :=
  | AMethodNotAllowed
  | ABadRequest (msg : bytes)
  | APreconditionFailed
  | ANotModified
  | ANotSatisfiable
  | AWhole
  | APartial (r : range) (with_headers : bool)
  | AMultipart (rs : list range) (with_headers : bool)
  | ATooLarge.

Definition answer_status (a : answer) : Z :=
  match a with
  | AMethodNotAllowed => 405
  | ABadRequest _ => 400
  | APreconditionFailed => 412
  | ANotModified => 304
  | ANotSatisfiable => 416
  | AWhole => 200
  | APartial _ _ | AMultipart _ _ => 206
  | ATooLarge => 413
  end.

(** Whether the answer is the entity or part of it. *)
Definition answer_serves (a : answer) : bool :=
  match a with AWhole | APartial _ _ | AMultipart _ _ => true | _ => false end.

Section spec.
Context `{Build, Wakers, Entity Ent D E, !Buf D, !HttpDate}.

(** The text of a byte-content-range. *)
Definition content_range_text (r : range) (len : Z) : bytes :=
  bs "bytes " ++ fmt_dec (start r) ++ bs "-" ++ fmt_dec (end_ r - 1) ++ bs "/" ++ fmt_dec len.

(** The entity's own header fields. *)
Definition entity_fields (ent : Ent) : list (HeaderName * HeaderValue) :=
  hm_iter (add_headers ent hm_new).

(** The headers in front of each part. *)
Definition parts_headers (ent : Ent) (rs : list range) (with_headers : bool) : list bytes :=
  (λ r, part_header r (end_ r - 1) (entity_len ent)
          (each_part_headers (if with_headers then entity_fields ent else []))) <$> rs.

(** The size of the multipart body of [rs], by the estimate of 80 bytes a part. *)
Definition estimated_len (rs : list range) : Z :=
  sum_Z ((λ r, 80 + (end_ r - start r)) <$> rs).

Definition range_answer (ent : Ent) (with_headers : bool) (parsed : ResolvedRanges) : answer :=
  match parsed with
  | RNone => AWhole
  | NotSatisfiable => ANotSatisfiable
  | Satisfiable [r] => APartial r with_headers
  | Satisfiable rs =>
      if estimated_len rs <? entity_len ent then
        if parts_len (parts_headers ent rs with_headers) rs <=? U64_MAX
        then AMultipart rs with_headers else ATooLarge
      else AWhole
  end.

Definition decide_answer (etag : option HeaderValue) (ent : Ent) (method : Method)
    (hdrs : HeaderMap) : outcome answer :=
  if decide (method ≠ GET ∧ method ≠ HEAD) then Ret AMethodNotAllowed
  else
    match parse_modified_hdrs etag hdrs (last_modified ent) with
    | Err msg => Ret (ABadRequest msg)
    | Ok (true, _) => Ret APreconditionFailed
    | Ok (false, true) => Ret ANotModified
    | Ok (false, false) =>
        parsed ← parse (range_after_if_range etag hdrs).1 (entity_len ent);
        Ret (range_answer ent (range_after_if_range etag hdrs).2 parsed)
    end.

(** The header fields every answer to a well-formed GET or HEAD has. *)
Definition base_fields (now : SystemTime) (ent : Ent) (etag : option HeaderValue)
    : list (HeaderName * bytes) :=
  (ACCEPT_RANGES, bs "bytes") ::
  match last_modified ent with
  | Some m => [(DATE, fmt_http_date now); (LAST_MODIFIED, fmt_http_date (Z.min m now))]
  | None => []
  end ++
  match etag with Some e => [(ETAG, as_bytes e)] | None => [] end.

(** The bytes an answer stands for, their number, which the entity's [len()]
    gives, and the stream they come from. *)
Definition answer_body `{!Content Ent} (ent : Ent) (a : answer) : bytes :=
  match a with
  | AMethodNotAllowed => bs "This resource only supports GET and HEAD."
  | ABadRequest msg => msg
  | APreconditionFailed => bs "Precondition failed"
  | ANotModified | ANotSatisfiable => []
  | AWhole => content ent
  | APartial r _ => range_bytes ent r
  | AMultipart rs with_headers => parts_bytes ent (parts_headers ent rs with_headers) rs
  | ATooLarge => bs "Multipart response too large"
  end.

Definition answer_len (ent : Ent) (a : answer) : Z :=
  match a with
  | AMethodNotAllowed => len (bs "This resource only supports GET and HEAD.")
  | ABadRequest msg => len msg
  | APreconditionFailed => len (bs "Precondition failed")
  | ANotModified | ANotSatisfiable => 0
  | AWhole => entity_len ent
  | APartial r _ => end_ r - start r
  | AMultipart rs with_headers => parts_len (parts_headers ent rs with_headers) rs
  | ATooLarge => len (bs "Multipart response too large")
  end.

Definition answer_stream (ent : Ent) (a : answer) : Body Ent D E :=
  match a with
  | AMethodNotAllowed => from_str_literal (bs "This resource only supports GET and HEAD.")
  | ABadRequest msg => from_str_literal msg
  | APreconditionFailed => from_str_literal (bs "Precondition failed")
  | ANotModified | ANotSatisfiable => empty
  | AWhole =>
      mk_Body (ExactLen (ExactLenStream_new (entity_len ent)
                           (get_range ent (mk_range 0 (entity_len ent)))))
  | APartial r _ => mk_Body (ExactLen (ExactLenStream_new (end_ r - start r) (get_range ent r)))
  | AMultipart rs with_headers =>
      let hs := parts_headers ent rs with_headers in
      mk_Body (Multipart (MultipartStream_new ent hs rs (parts_len hs rs)))
  | ATooLarge => from_str_literal (bs "Multipart response too large")
  end.

(** What [decide_answer] makes sure of: a range lies within the entity, and more
    than one range goes out as parts only where the estimate is below the
    entity's length and the sum fits in a [u64]. *)
Definition answer_ok (ent : Ent) (a : answer) : Prop :=
  match a with
  | APartial r _ => range_within (entity_len ent) r
  | AMultipart rs with_headers =>
      Forall (range_within (entity_len ent)) rs ∧
      multipart_ok (parts_headers ent rs with_headers) rs ∧ estimated_len rs < entity_len ent
  | _ => True
  end.

Definition text_fields (l : list (HeaderName * HeaderValue)) : list (HeaderName * bytes) :=
  prod_map id as_bytes <$> l.

Definition answer_fields (now : SystemTime) (ent : Ent) (etag : option HeaderValue) (a : answer)
    : list (HeaderName * bytes) :=
  match a with
  | AMethodNotAllowed => [(ALLOW, bs "get, head")]
  | ABadRequest _ | ATooLarge => []
  | APreconditionFailed | ANotModified => base_fields now ent etag
  | ANotSatisfiable =>
      base_fields now ent etag ++ [(CONTENT_RANGE, bs "bytes */" ++ fmt_dec (entity_len ent))]
  | AWhole =>
      base_fields now ent etag ++ [(CONTENT_LENGTH, fmt_dec (answer_len ent a))] ++
      text_fields (entity_fields ent)
  | APartial r with_headers =>
      base_fields now ent etag ++
      [(CONTENT_RANGE, content_range_text r (entity_len ent));
       (CONTENT_LENGTH, fmt_dec (answer_len ent a))] ++
      (if with_headers then text_fields (entity_fields ent) else [])
  | AMultipart _ _ =>
      base_fields now ent etag ++
      [(CONTENT_LENGTH, fmt_dec (answer_len ent a));
       (CONTENT_TYPE, bs "multipart/byteranges; boundary=B")]
  end.

(** The values of [k] among fields. *)
Definition field_values (k : HeaderName) (l : list (HeaderName * bytes)) : list bytes :=
  (filter (λ kv : HeaderName * bytes, kv.1 = k) l).*2.

End spec.

Section gives.
Context `{Build, Wakers, Entity Ent D E, !Buf D, !Content Ent, !BufLaws D, !FromBoxError E}.

Definition never_fails (ent : Ent) : Prop :=
  ∀ r, 0 <= start r <= end_ r → end_ r <= entity_len ent →
    ∃ bs s, yields (get_range ent r) bs Done s.

(** A body that stands for [bs]: it announces their length, and polling it
    ends after finitely many polls, with all of them, or after a prefix of them
    with an error, which an entity that never fails does not cause. *)
Definition body_gives (ent : Ent) (cx : Waker) (b : Body Ent D E) (bs : bytes) : Prop :=
  sized_ok b ∧ body_size_hint b = with_exact (len bs) ∧
  ∃ got o b' fuel, drain (Pollable0:=body_pollable cx) fuel b = Ret (Some (got, o, b')) ∧
    got `prefix_of` bs ∧ (o = Done → got = bs) ∧ (never_fails ent → o = Done).

(** [serve]'s response is the answer [a], up to what the entity's streams do. *)
Definition response_shape (now : SystemTime) (ent : Ent) (etag : option HeaderValue) (method : Method)
    (a : answer) `{!HttpDate} (r : Response (Body Ent D E)) : Prop :=
  as_u16 (resp_status r) = answer_status a ∧
  (∀ k, as_bytes <$> hm_get_all (resp_headers r) k =
        field_values k (answer_fields now ent etag a)) ∧
  resp_body r = if bool_decide (method = HEAD) && answer_serves a then empty else answer_stream ent a.

(** [serve]'s response is the answer [a]. *)
Definition response_is (now : SystemTime) (ent : Ent) (etag : option HeaderValue) (method : Method)
    (a : answer) `{!HttpDate} (r : Response (Body Ent D E)) : Prop :=
  as_u16 (resp_status r) = answer_status a ∧
  (∀ k, as_bytes <$> hm_get_all (resp_headers r) k =
        field_values k (answer_fields now ent etag a)) ∧
  ∀ cx, body_gives ent cx (resp_body r)
    (if bool_decide (method = HEAD) && answer_serves a then [] else answer_body ent a).
End gives.

(** ** Bodies *)

Section bodies.
Context `{Build, Wakers, Entity Ent D E, !Buf D, !Content Ent, !BufLaws D, !FromBoxError E}.
Context (ent : Ent) `{!EntityLaws ent} (cx : Waker).

(** Polling a body is polling the stream inside. *)
Lemma yields_body {S} `{!Pollable S D E} (f : S → BodyStream Ent D E) s bs o s' :
  (∀ s item s1, poll_next s = Ret (item, s1) →
     body_stream_poll_next cx (f s) = Ret (item, f s1)) →
  yields s bs o s' →
  yields (Pollable0:=body_pollable cx) (mk_Body (f s)) bs o (mk_Body (f s')).
Proof.
  intros Hf. induction 1 as [s s' Hp|s e s' Hp|s s1 bs o s' Hp _ IH|s d s1 bs o s' Hp _ IH];
    pose proof (poll_body cx _ _ _ (Hf _ _ _ Hp)).
  - by apply yields_done.
  - by apply yields_failed.
  - by eapply yields_pending.
  - by eapply yields_chunk.
Qed.

Lemma body_gives_empty : body_gives ent cx empty [].
Proof.
  split; [done|]. split; [done|]. by exists [], Done, empty, 1%nat.
Qed.

Lemma body_gives_once d : body_gives ent cx (mk_Body (Once (Some (Ok d)))) (buf_bytes d).
Proof.
  split; [done|]. split; [done|]. exists (buf_bytes d), Done, empty, 2%nat.
  split; [|done]. simpl. by rewrite app_nil_r.
Qed.

Lemma body_gives_literal s : body_gives ent cx (from_str_literal s) s.
Proof. unfold from_str_literal. rewrite <- (buf_bytes_static s) at 2. apply body_gives_once. Qed.

Lemma body_gives_exact r :
  0 <= start r <= end_ r → end_ r <= entity_len ent →
  body_gives ent cx (mk_Body (ExactLen (ExactLenStream_new (end_ r - start r) (get_range ent r))))
    (range_bytes ent r).
Proof.
  intros Hr Hl. destruct (exact_range_yields ent r Hr Hl) as (bs & o & rem & s & Hy & Hpre & Hd & Hok).
  split; [simpl; lia|]. split; [by unfold body_size_hint; simpl; rewrite len_range_bytes|].
  apply (yields_body ExactLen) in Hy; [|by simpl; intros ??? ->].
  apply yields_drain in Hy as [fuel Hdr].
  exists bs, o, (mk_Body (ExactLen (mk_ExactLenStream s rem))), fuel. split; [by apply Hdr|].
  split; [done|]. split; [by intros ?; apply Hd|]. intros Hn. apply Hok, (Hn r Hr Hl).
Qed.

Lemma parts_len_bytes hs rs :
  Forall (λ r, 0 <= start r <= end_ r ∧ end_ r <= entity_len ent) rs →
  parts_len hs rs = len (parts_bytes ent hs rs).
Proof.
  revert hs. induction rs as [|r rs IH]; intros [|h hs]; try done.
  rewrite Forall_cons. intros [[Hr Hl] Hrs]. simpl. len_simpl.
  rewrite len_range_bytes by done. rewrite IH by done. lia.
Qed.

Lemma body_gives_multipart hs rs :
  multipart_ok hs rs → Forall (λ r, 0 <= start r <= end_ r ∧ end_ r <= entity_len ent) rs →
  body_gives ent cx (mk_Body (Multipart (MultipartStream_new ent hs rs (parts_len hs rs))))
    (parts_bytes ent hs rs).
Proof.
  intros Hm Hrs. pose proof Hm as (Hl & Hok & Hmem & Hmax).
  assert (Forall (λ r, end_ r <= entity_len ent) rs) as Hw by (eapply Forall_impl; [exact Hrs|by intros ? [_ ?]]).
  destruct (part_yields ent rs Hok Hmem Hw (length rs) 0 hs)
    as (bs & o & this & Hy & Hpre & Hd & Hnf); [lia|done|lia|done|].
  split; [by apply multipart_new_ok|].
  split; [by rewrite <- parts_len_bytes|].
  apply (yields_body Multipart) in Hy; [|by simpl; intros ??? ->].
  apply yields_drain in Hy as [fuel Hdr].
  exists bs, o, (mk_Body (Multipart this)), fuel. split; [by apply Hdr|].
  split; [done|]. split; [done|]. intros Hn. apply Hnf, Forall_forall. intros r Hr.
  rewrite Forall_forall in Hrs. destruct (Hrs r Hr). by apply Hn.
Qed.

Lemma range_bytes_whole : range_bytes ent (mk_range 0 (entity_len ent)) = content ent.
Proof. unfold range_bytes. simpl. rewrite <- (content_len ent). apply slice_full. Qed.

(** Ranges as [parse] returns them. *)
Lemma ranges_within rs :
  Forall (range_within (entity_len ent)) rs →
  Forall (λ r, 0 <= start r <= end_ r ∧ end_ r <= entity_len ent) rs.
Proof. intros Hrs. eapply Forall_impl; [exact Hrs|]. by intros ? (? & ? & _). Qed.

Lemma answer_len_body a : answer_ok ent a → answer_len ent a = len (answer_body ent a).
Proof.
  destruct a; simpl; try done.
  - intros _. by rewrite (content_len ent).
  - intros (? & ? & _). by rewrite len_range_bytes.
  - intros (Hrs & _). by apply parts_len_bytes, ranges_within.
Qed.

(** The stream of an answer gives its bytes. *)
Lemma answer_gives a : answer_ok ent a → body_gives ent cx (answer_stream ent a) (answer_body ent a).
Proof.
  pose proof (entity_len_nonneg ent).
  destruct a; simpl; intros Hok; try apply body_gives_literal; try apply body_gives_empty.
  - rewrite <- range_bytes_whole. pose proof (body_gives_exact (mk_range 0 (entity_len ent))) as Hg.
    simpl in Hg. rewrite Z.sub_0_r in Hg. apply Hg; lia.
  - destruct Hok as (? & ? & _). by apply body_gives_exact.
  - destruct Hok as (Hrs & Hm & _). apply body_gives_multipart; [done|by apply ranges_within].
Qed.

Lemma shape_gives now etag method a `{!HttpDate} r :
  answer_ok ent a → response_shape now ent etag method a r →
  body_gives ent cx (resp_body r)
    (if bool_decide (method = HEAD) && answer_serves a then [] else answer_body ent a).
Proof.
  intros Ha (_ & _ & ->). destruct (_ && _); [apply body_gives_empty|by apply answer_gives].
Qed.
End bodies.

(** ** Builders *)

Section builders.
Context `{HttpLaws, !HttpDate, !HttpDateLaws}.

Definition builder_is (b : Builder) (status : Z) (fields : list (HeaderName * bytes)) : Prop :=
  builder_valid b = true ∧ as_u16 (builder_status b) = status ∧
  ∀ k, as_bytes <$> hm_get_all (builder_headers b) k = field_values k fields.

Lemma field_values_app k l l' : field_values k (l ++ l') = field_values k l ++ field_values k l'.
Proof. unfold field_values. by rewrite filter_app, fmap_app. Qed.

Lemma field_values_cons k kv l : field_values k (kv :: l) = field_values k [kv] ++ field_values k l.
Proof. apply (field_values_app k [kv]). Qed.

Lemma field_values_one k k' t : field_values k [(k', t)] = if decide (k' = k) then [t] else [].
Proof. unfold field_values. rewrite filter_cons. simpl. by case_decide. Qed.

(** Reading a field off the front. *)
Lemma field_values_skip k k' t l : k' ≠ k → field_values k ((k', t) :: l) = field_values k l.
Proof. intros. unfold field_values. by rewrite filter_cons, decide_False. Qed.

Lemma field_values_hit k t l : field_values k ((k, t) :: l) = t :: field_values k l.
Proof. unfold field_values. by rewrite filter_cons, decide_True. Qed.

Lemma builder_is_new : builder_is builder 200 [].
Proof.
  destruct builder_new as (Hv & Hs & Hh). split; [done|]. split; [done|].
  intros k. by rewrite Hh, hm_get_all_new.
Qed.

Lemma builder_is_header b st fs k v t :
  builder_is b st fs → as_bytes v = t → builder_is (builder_header b k (Some v)) st (fs ++ [(k, t)]).
Proof.
  intros (Hv & Hs & Hh) <-. unfold builder_is. destruct (builder_header_some b k v) as (-> & -> & ->).
  split; [done|]. split; [done|]. intros k'.
  rewrite hm_get_all_append, field_values_app, field_values_one, <- Hh.
  case_decide; [by rewrite fmap_app | by rewrite app_nil_r].
Qed.

Lemma builder_is_status b st fs s n :
  builder_is b st fs → as_u16 s = n → builder_is (builder_set_status b s) n fs.
Proof.
  intros (Hv & Hs & Hh) <-. unfold builder_is. by destruct (builder_set_status_spec b s) as (-> & -> & ->).
Qed.

(** The text a builder's date field gets. *)
Lemma builder_is_date b st fs k t :
  builder_is b st fs → http_date_range t →
  builder_is (builder_header b k (value_try_from (fmt_http_date t))) st (fs ++ [(k, fmt_http_date t)]).
Proof.
  intros Hb Ht. destruct (value_try_from_ok _ (fmt_http_date_ascii t Ht)) as (v & -> & Hv).
  by apply builder_is_header.
Qed.

Lemma static_ascii s : forallb visible_ascii s = true → as_bytes (from_static s) = s.
Proof. apply as_bytes_static. Qed.

Lemma status_is :
  as_u16 PARTIAL_CONTENT = 206 ∧ as_u16 NOT_MODIFIED = 304 ∧ as_u16 BAD_REQUEST = 400 ∧
  as_u16 METHOD_NOT_ALLOWED = 405 ∧ as_u16 PRECONDITION_FAILED = 412 ∧
  as_u16 PAYLOAD_TOO_LARGE = 413 ∧ as_u16 RANGE_NOT_SATISFIABLE = 416.
Proof. pose proof status_codes as Hs. cbn [fmap list_fmap] in Hs. by injection Hs as -> -> -> -> -> -> ->. Qed.

End builders.

(** ** The steps of [serve_inner] *)

Section steps.
Context `{Build, Wakers, Entity Ent D E, !Buf D, !HttpLaws, !HttpDate, !HttpDateLaws, !FromBoxError E}.

Definition dates_ok (now : SystemTime) (ent : Ent) : Prop :=
  match last_modified ent with
  | Some m => http_date_range m ∧ http_date_range now
  | None => True
  end.

Lemma base_builder_is now ent etag :
  dates_ok now ent →
  builder_is (base_builder now (last_modified ent) etag) 200 (base_fields now ent etag).
Proof.
  intros Hd. unfold base_builder, base_fields, dates_ok in *.
  assert (builder_is (builder_header builder ACCEPT_RANGES (Some (from_static (bs "bytes")))) 200
            [(ACCEPT_RANGES, bs "bytes")]) as Hb.
  { apply (builder_is_header builder 200 []); [apply builder_is_new|by apply static_ascii]. }
  rewrite app_comm_cons.
  assert (∀ b fs, builder_is b 200 fs →
    builder_is (match etag with Some e => builder_header b ETAG (Some e) | None => b end) 200
      (fs ++ match etag with Some e => [(ETAG, as_bytes e)] | None => [] end)) as Htag.
  { intros b fs Hbf. destruct etag; [by apply builder_is_header|by rewrite app_nil_r]. }
  destruct (last_modified ent) as [m|]; apply Htag; [|done].
  destruct Hd as [Hm Hn]. rewrite (app_assoc [_] [_] [_] : _ :: [_; _] = _).
  apply builder_is_date; [by apply builder_is_date|].
  unfold http_date_range in *. lia.
Qed.

Lemma field_values_text k l : field_values k (text_fields l) = as_bytes <$> values_of k l.
Proof.
  unfold field_values, text_fields, values_of. induction l as [|[k' v] l IH]; [done|].
  csimpl. rewrite !filter_cons. simpl. by case_decide; csimpl; rewrite IH.
Qed.

(** What [add_headers] does is what the entity's own fields say. *)
Lemma add_headers_fields ent `{!EntityFrame ent} m k :
  (∀ k', hm_get_all m k' ≠ [] → k' ∈ reserved) →
  hm_get_all (add_headers ent m) k = hm_get_all m k ++ values_of k (entity_fields ent).
Proof.
  intros Hm. destruct (frame_headers ent) as (hs & Hhs & Hres). unfold entity_fields.
  rewrite <- hm_get_all_iter, !Hhs, hm_get_all_new; [done|intros; apply hm_get_all_new|].
  intros k' Hk. destruct (hm_get_all m k') eqn:He; [done|].
  destruct Hk. apply Hres, Hm. by rewrite He.
Qed.

(** Fields all of which are [serve]'s own. *)
Definition fields_reserved (fs : list (HeaderName * bytes)) : Prop :=
  ∀ k, field_values k fs ≠ [] → k ∈ reserved.

Lemma fields_reserved_app fs fs' : fields_reserved fs → fields_reserved fs' → fields_reserved (fs ++ fs').
Proof.
  intros H1' H2' k. rewrite field_values_app. destruct (field_values k fs) eqn:He; simpl; [apply H2'|].
  intros _. apply H1'. by rewrite He.
Qed.

Lemma fields_reserved_nil : fields_reserved [].
Proof. by intros k []. Qed.

Lemma fields_reserved_one k t : k ∈ reserved → fields_reserved [(k, t)].
Proof. intros Hk k'. rewrite field_values_one. by case_decide; subst. Qed.

Lemma base_reserved now ent etag : fields_reserved (base_fields now ent etag).
Proof.
  unfold base_fields. apply (fields_reserved_app [_]); [apply fields_reserved_one; set_solver|].
  apply fields_reserved_app.
  - destruct (last_modified ent); [|apply fields_reserved_nil].
    apply (fields_reserved_app [_] [_]); apply fields_reserved_one; set_solver.
  - destruct etag; [|apply fields_reserved_nil]. apply fields_reserved_one; set_solver.
Qed.

Lemma simple_is b st fs body :
  builder_is b st fs →
  ∃ r, simple (Ent:=Ent) (D:=D) (E:=E) b body = Ret (Simple r) ∧ as_u16 (resp_status r) = st ∧
    (∀ k, as_bytes <$> hm_get_all (resp_headers r) k = field_values k fs) ∧ resp_body r = body.
Proof.
  intros (Hv & Hs & Hh). destruct (builder_body_valid _ b body Hv) as (r & Hr & H1' & H2' & H3').
  exists r. unfold simple. rewrite Hr, H1', H2', H3'. done.
Qed.

Lemma serve_range_is ent `{!EntityFrame ent} method b st fs r incl :
  builder_is b st fs → fields_reserved fs → 0 <= start r <= end_ r → end_ r <= entity_len ent →
  ∃ resp, serve_range ent method b r incl = Ret (Simple resp) ∧ as_u16 (resp_status resp) = st ∧
    (∀ k, as_bytes <$> hm_get_all (resp_headers resp) k =
       field_values k (fs ++ [(CONTENT_LENGTH, fmt_dec (end_ r - start r))] ++
                       (if incl : bool then text_fields (entity_fields ent) else []))) ∧
    resp_body resp = if bool_decide (method = HEAD) then empty
                     else mk_Body (ExactLen (ExactLenStream_new (end_ r - start r) (get_range ent r))).
Proof.
  intros Hb Hfs Hr Hl. pose proof (frame_len ent). unfold serve_range.
  rewrite u64_sub_ok by lia. simpl.
  destruct (fmt_ascii_ok MAX_DECIMAL_U64_BYTES (fmt_dec (end_ r - start r))) as (v & -> & Hv);
    [apply fmt_dec_len; lia|]. simpl.
  apply (λ b, builder_is_header _ _ _ CONTENT_LENGTH v _ b Hv) in Hb.
  set (body := if bool_decide (method = HEAD) then empty
               else mk_Body (ExactLen (ExactLenStream_new (end_ r - start r) (get_range ent r)))
               : Body Ent D E).
  assert ((if decide (method = HEAD) then Ret empty
           else Ret (mk_Body (ExactLen (ExactLenStream_new (end_ r - start r) (get_range ent r)))))
          = Ret body) as ->
    by (unfold body; case_decide; [by rewrite bool_decide_true by done|by rewrite bool_decide_false by done]).
  destruct Hb as (Hval & Hst & Hh).
  destruct (builder_body_valid _ _ body Hval) as (resp & Hresp & Hs & Hhd & Hbody).
  simpl. rewrite Hresp. simpl. eexists. split; [done|].
  destruct incl.
  - rewrite resp_status_set, resp_headers_set, resp_body_set, Hs, Hbody. split_and!; try done.
    intros k. rewrite (add_headers_fields ent).
    2:{ intros k' Hk'. apply (fields_reserved_app fs [(CONTENT_LENGTH, fmt_dec (end_ r - start r))]);
          [done|by apply fields_reserved_one; set_solver|].
        rewrite <- Hh, <- Hhd. by intros ?%fmap_nil_inv. }
    rewrite Hhd, fmap_app, Hh, !field_values_app. rewrite (field_values_cons k (CONTENT_LENGTH, _) (text_fields _)).
    by rewrite field_values_text, app_assoc.
  - rewrite Hs, Hbody. split_and!; try done. intros k. by rewrite Hhd.
Qed.

(** A range [parse] returns. *)
Lemma range_within_ok n r :
  n <= U64_MAX → range_within n r → range_ok r ∧ 1 <= end_ r.
Proof. intros Hn (Hr & He & Hempty). split; [split; lia|]. lia. Qed.

Lemma estimate_is rs acc :
  Forall range_ok rs → 0 <= acc <= U64_MAX →
  estimate acc rs =
    Ret (if acc + estimated_len rs <=? U64_MAX then Some (acc + estimated_len rs) else None).
Proof.
  intros Hrs. revert acc. unfold estimated_len.
  assert (∀ rs, Forall range_ok rs → 0 <= sum_Z ((λ r, 80 + (end_ r - start r)) <$> rs)) as Hpos.
  { clear. induction 1 as [|r rs [Hr _] _ IH]; [done|]. rewrite fmap_cons, sum_Z_cons. lia. }
  induction Hrs as [|r rs [Hr1 Hr2] Hrs IH]; intros acc Hacc.
  { simpl. rewrite Z.add_0_r. by rewrite (proj2 (Z.leb_le _ _)) by lia. }
  specialize (Hpos rs Hrs). cbn [estimate]. rewrite fmap_cons, sum_Z_cons.
  destruct (checked_add acc 80) as [a|] eqn:Ha.
  - apply checked_add_Some in Ha as [Ha ->]. rewrite u64_sub_ok by lia. rewrite bind_Ret_l.
    destruct (checked_add (acc + 80) (end_ r - start r)) as [a|] eqn:Hb.
    + apply checked_add_Some in Hb as [Hb ->]. rewrite IH by lia. by rewrite <- !Z.add_assoc.
    + unfold checked_add in Hb. case_match; [done|]. zbool.
      rewrite (proj2 (Z.leb_gt _ _)); [done|]. lia.
  - unfold checked_add in Ha. case_match; [done|]. zbool.
    rewrite (proj2 (Z.leb_gt _ _)); [done|]. lia.
Qed.

(** The bodies of the parts, without the trailer. *)
Definition parts_sum (hs : list bytes) (rs : list range) : Z := parts_len hs rs - len PART_TRAILER.

Lemma prepare_parts_is rs total each bl acc :
  Forall (λ r, range_ok r ∧ 1 <= end_ r) rs → 0 <= bl <= U64_MAX →
  prepare_parts rs total each bl acc =
    Ret (let hs := (λ r, part_header r (end_ r - 1) total each) <$> rs in
         if bl + parts_sum hs rs <=? U64_MAX then Ok (acc ++ hs, bl + parts_sum hs rs) else Err tt).
Proof.
  intros Hrs. revert bl acc. unfold parts_sum.
  induction Hrs as [|r rs [[Hr1 Hr2] Hr3] Hrs IH]; intros bl acc Hbl.
  { simpl. rewrite Z.sub_diag, Z.add_0_r, app_nil_r. by rewrite (proj2 (Z.leb_le _ _)) by lia. }
  assert (Forall range_ok rs) as Hok by (eapply Forall_impl; [exact Hrs|by intros ? []]).
  pose proof (parts_len_nonneg ((λ r, part_header r (end_ r - 1) total each) <$> rs) rs Hok) as Hpos.
  csimpl. cbn [prepare_parts]. rewrite (u64_sub_ok (end_ r) 1) by lia. rewrite bind_Ret_l.
  set (h := part_header r (end_ r - 1) total each) in *. pose proof (len_nonneg h).
  set (hs := _ <$> rs) in *. rewrite u64_sub_ok by lia.
  destruct (checked_add bl (len h)) as [l|] eqn:Ha.
  - apply checked_add_Some in Ha as [Ha ->]. rewrite bind_Ret_l.
    destruct (checked_add (bl + len h) (end_ r - start r)) as [l|] eqn:Hb.
    + apply checked_add_Some in Hb as [Hb ->]. rewrite IH by lia. cbv zeta. fold hs.
      rewrite <- app_assoc.
      by replace (bl + len h + (end_ r - start r) + (parts_len hs rs - len PART_TRAILER))
        with (bl + (len h + (end_ r - start r) + parts_len hs rs - len PART_TRAILER)) by lia.
    + unfold checked_add in Hb. case_match; [done|]. zbool.
      rewrite (proj2 (Z.leb_gt _ _)); [done|]. lia.
  - unfold checked_add in Ha. case_match; [done|]. zbool.
    rewrite (proj2 (Z.leb_gt _ _)); [done|]. lia.
Qed.
End steps.

(** ** [serve] *)

Section serve.
Context `{Build, Wakers, Entity Ent D E, !Buf D, !HttpLaws, !HttpDate, !HttpDateLaws, !FromBoxError E}.
Context (now : SystemTime) (ent : Ent) `{!EntityFrame ent} (etag : option HeaderValue) (method : Method).

(** An instruction whose response is the answer [a]. *)
Definition inner_is (a : answer) (inner : outcome (ServeInner Ent D E)) : Prop :=
  ∃ resp, (i ← inner; finish ent i) = Ret resp ∧ response_shape now ent etag method a resp.

Lemma inner_simple a b :
  builder_is b (answer_status a) (answer_fields now ent etag a) → answer_serves a = false →
  inner_is a (simple b (answer_stream ent a)).
Proof.
  intros Hb Ha.
  destruct (simple_is (D:=D) (E:=E) (Ent:=Ent) _ _ _ (answer_stream ent a) Hb) as (r & -> & Hs & Hh & Hr).
  exists r. split; [done|]. split; [done|]. split; [done|]. by rewrite Ha, andb_false_r.
Qed.

Lemma inner_range a b st fs r incl :
  builder_is b st fs → fields_reserved fs → 0 <= start r <= end_ r → end_ r <= entity_len ent →
  answer_serves a = true → answer_status a = st →
  answer_stream ent a = mk_Body (ExactLen (ExactLenStream_new (end_ r - start r) (get_range ent r))) →
  answer_fields now ent etag a =
    fs ++ [(CONTENT_LENGTH, fmt_dec (end_ r - start r))] ++
    (if incl : bool then text_fields (entity_fields ent) else []) →
  inner_is a (serve_range ent method b r incl).
Proof.
  intros Hb Hres Hr Hl Ha Hst Hbody Hfs.
  destruct (serve_range_is ent method b st fs r incl Hb Hres Hr Hl) as (resp & -> & Hs & Hh & Hg).
  exists resp. split; [done|]. split; [congruence|]. split; [by rewrite Hfs|].
  by rewrite Ha, andb_true_r, Hbody.
Qed.

(** The whole entity. *)
Lemma inner_whole b :
  builder_is b 200 (base_fields now ent etag) →
  inner_is AWhole (serve_range ent method b (mk_range 0 (entity_len ent)) true).
Proof.
  intros Hb. pose proof (frame_len ent).
  apply (inner_range _ _ 200 (base_fields now ent etag)); simpl; rewrite ?Z.sub_0_r; try done; try lia.
  apply base_reserved.
Qed.

(** One range. *)
Lemma inner_partial b r incl :
  builder_is b 200 (base_fields now ent etag) → range_within (entity_len ent) r →
  inner_is (APartial r incl)
    (last ← u64_sub (end_ r) 1;
     v ← unsafe_fmt_ascii_val (MAX_DECIMAL_U64_BYTES * 3 + len (bs "bytes -/"))
           (bs "bytes " ++ fmt_dec (start r) ++ bs "-" ++ fmt_dec last ++ bs "/" ++
            fmt_dec (entity_len ent));
     serve_range ent method
       (builder_set_status (builder_header b CONTENT_RANGE (Some v)) PARTIAL_CONTENT) r incl).
Proof.
  intros Hb Hr. pose proof (frame_len ent) as [? Hmax].
  destruct (range_within_ok _ _ Hmax Hr) as [[Hr1 Hr2] Hr3]. destruct Hr as (_ & Hr4 & _).
  rewrite u64_sub_ok by lia. rewrite bind_Ret_l. fold (content_range_text r (entity_len ent)).
  destruct (fmt_ascii_ok (MAX_DECIMAL_U64_BYTES * 3 + len (bs "bytes -/"))
              (content_range_text r (entity_len ent))) as (v & -> & Hv).
  { unfold content_range_text. len_simpl.
    pose proof (fmt_dec_len (start r)). pose proof (fmt_dec_len (end_ r - 1)).
    pose proof (fmt_dec_len (entity_len ent)).
    change (len (bs "bytes ")) with 6. change (len (bs "-")) with 1. change (len (bs "/")) with 1.
    change (len (bs "bytes -/")) with 8. unfold MAX_DECIMAL_U64_BYTES. lia. }
  rewrite bind_Ret_l.
  apply (inner_range _ _ 206 (base_fields now ent etag ++
           [(CONTENT_RANGE, content_range_text r (entity_len ent))])); try done.
  2:{ apply fields_reserved_app; [apply base_reserved|]. apply fields_reserved_one; set_solver. }
  - eapply builder_is_status; [by apply builder_is_header|apply status_is].
  - cbn [answer_fields answer_len]. by rewrite <- (app_assoc (base_fields now ent etag)).
Qed.

Lemma inner_unsatisfiable b :
  builder_is b 200 (base_fields now ent etag) →
  inner_is ANotSatisfiable
    (v ← unsafe_fmt_ascii_val (MAX_DECIMAL_U64_BYTES + len (bs "bytes */"))
           (bs "bytes */" ++ fmt_dec (entity_len ent));
     simple (builder_set_status (builder_header b CONTENT_RANGE (Some v)) RANGE_NOT_SATISFIABLE) empty).
Proof.
  intros Hb. pose proof (frame_len ent).
  destruct (fmt_ascii_ok (MAX_DECIMAL_U64_BYTES + len (bs "bytes */"))
              (bs "bytes */" ++ fmt_dec (entity_len ent))) as (v & -> & Hv).
  { len_simpl. pose proof (fmt_dec_len (entity_len ent)).
    change (len (bs "bytes */")) with 8. unfold MAX_DECIMAL_U64_BYTES. lia. }
  rewrite bind_Ret_l. apply (inner_simple ANotSatisfiable); [|done].
  eapply builder_is_status; [by apply builder_is_header|apply status_is].
Qed.

Lemma inner_too_large :
  inner_is ATooLarge (simple (builder_set_status builder PAYLOAD_TOO_LARGE)
    (from_str_literal (bs "Multipart response too large"))).
Proof.
  apply (inner_simple ATooLarge); [|done].
  eapply builder_is_status; [apply builder_is_new|apply status_is].
Qed.

(** Satisfiable ranges, with their part headers, make a multipart body. *)
Lemma parts_ok rs incl :
  Forall (range_within (entity_len ent)) rs → 2 * Z.of_nat (length rs) + 1 <= usize_max →
  parts_len (parts_headers ent rs incl) rs <= U64_MAX → multipart_ok (parts_headers ent rs incl) rs.
Proof.
  intros Hrs Hmem Hl. pose proof (frame_len ent) as [_ Hmax]. split; [apply length_fmap|]. split; [|done].
  eapply Forall_impl; [exact Hrs|]. intros r Hr. by apply (range_within_ok _ _ Hmax).
Qed.

Lemma inner_multipart b rs incl :
  builder_is b 200 (base_fields now ent etag) → Forall (range_within (entity_len ent)) rs →
  inner_is (if parts_len (parts_headers ent rs incl) rs <=? U64_MAX then AMultipart rs incl else ATooLarge)
    (serve_multipart ent method b rs (entity_len ent) incl).
Proof.
  intros Hb Hrs. pose proof (frame_len ent) as [_ Hmax].
  assert (Forall (λ r, range_ok r ∧ 1 <= end_ r) rs) as Hok
    by (eapply Forall_impl; [exact Hrs|intros r Hr; by apply (range_within_ok _ _ Hmax)]).
  assert (Forall range_ok rs) as Hok' by (eapply Forall_impl; [exact Hok|by intros ? []]).
  unfold serve_multipart, prepare_multipart.
  assert (match (if incl then Some (add_headers ent hm_new) else None) with
          | Some h => each_part_headers (hm_iter h) | None => [] end =
          each_part_headers (if incl then entity_fields ent else [])) as ->
    by by destruct incl.
  rewrite prepare_parts_is by done. rewrite bind_Ret_l. cbv zeta. rewrite !Z.add_0_l.
  fold (parts_headers ent rs incl). set (hs := parts_headers ent rs incl).
  pose proof (parts_len_nonneg hs rs Hok') as Hpos. unfold parts_sum.
  pose proof inner_too_large as Hlarge.
  assert (0 <= len PART_TRAILER) by done.
  destruct (Z.leb_spec (parts_len hs rs - len PART_TRAILER) U64_MAX) as [Hl|Hl];
    [|by rewrite (proj2 (Z.leb_gt _ _)) by lia].
  unfold checked_add. rewrite Z.sub_add.
  destruct (Z.leb_spec (parts_len hs rs) U64_MAX) as [Hl'|Hl']; [|done].
  destruct (fmt_ascii_ok MAX_DECIMAL_U64_BYTES (fmt_dec (parts_len hs rs))) as (v & -> & Hv);
    [apply fmt_dec_len; lia|]. rewrite !bind_Ret_l. cbv beta iota zeta. rewrite ?bind_Ret_l.
  set (b' := builder_set_status _ PARTIAL_CONTENT).
  assert (builder_is b' 206 (answer_fields now ent etag (AMultipart rs incl))) as Hb'.
  { unfold b'. eapply builder_is_status; [|apply status_is]. cbn [answer_fields answer_len]. fold hs.
    rewrite (app_assoc (base_fields now ent etag) [_] [_] : _ ++ [_; _] = _).
    apply builder_is_header; [by apply builder_is_header|by apply static_ascii]. }
  destruct Hb' as (Hval & Hst & Hh). case_decide as Hhead.
  - destruct (simple_is (D:=D) (E:=E) (Ent:=Ent) b' _ _ empty (conj Hval (conj Hst Hh)))
      as (resp & -> & Hs' & Hh' & Hbody).
    exists resp. split; [done|]. split; [done|]. split; [done|]. by rewrite bool_decide_true by done.
  - set (body := answer_stream ent (AMultipart rs incl)).
    destruct (builder_body_valid _ b' body Hval) as (resp & Hr & Hs' & Hh' & Hbody).
    exists resp. cbn [mbind outcome_bind finish app]. change (mk_Body (Multipart _)) with body. rewrite Hr.
    split; [done|]. split; [by rewrite Hs'|].
    split; [by rewrite Hh'|]. by rewrite bool_decide_false by done.
Qed.

Lemma inner_ranges b h incl parsed :
  builder_is b 200 (base_fields now ent etag) → parse h (entity_len ent) = Ret parsed →
  inner_is (range_answer ent incl parsed) (serve_ranges ent method b h incl).
Proof.
  intros Hb Hp. pose proof (frame_len ent) as [Hmin Hmax].
  unfold serve_ranges. rewrite Hp, bind_Ret_l.
  destruct parsed as [| |rs]; [by apply inner_whole|by apply inner_unsatisfiable|].
  destruct (parse_satisfiable _ _ _ (conj Hmin Hmax) Hp) as (_ & Hw & _).
  assert (Forall range_ok rs) as Hok.
  { eapply Forall_impl; [exact Hw|]. intros r Hr. by apply (range_within_ok _ _ Hmax). }
  assert (inner_is (if estimated_len rs <? entity_len ent then
            if parts_len (parts_headers ent rs incl) rs <=? U64_MAX then AMultipart rs incl else ATooLarge
            else AWhole)
    (est_len ← estimate 0 rs;
     if match est_len with Some l => l <? entity_len ent | None => false end then
       serve_multipart ent method b rs (entity_len ent) incl
     else serve_range ent method b (mk_range 0 (entity_len ent)) true)) as Hmulti.
  { rewrite estimate_is by done. rewrite bind_Ret_l, Z.add_0_l.
    destruct (Z.leb_spec (estimated_len rs) U64_MAX) as [Hle|Hgt].
    - destruct (estimated_len rs <? entity_len ent); [by apply inner_multipart|by apply inner_whole].
    - rewrite (proj2 (Z.ltb_ge _ _)) by lia. by apply inner_whole. }
  destruct rs as [|r [|r' rs]]; [done| |exact Hmulti].
  apply inner_partial; [done|]. by apply Forall_cons in Hw as [? _].
Qed.

(** The status, the header fields and the body of [serve], of any entity. *)
Lemma serve_shape hdrs a :
  entity_etag ent = Ret etag → dates_ok now ent → decide_answer etag ent method hdrs = Ret a →
  ∃ resp, serve now ent method hdrs = Ret resp ∧ response_shape now ent etag method a resp.
Proof.
  intros Het Hd Ha. change (inner_is a (serve_inner now ent method hdrs)).
  unfold serve_inner, decide_answer in *. case_decide.
  { injection Ha as <-. apply (inner_simple AMethodNotAllowed); [|done].
    apply (builder_is_header _ _ []); [|by apply static_ascii].
    eapply builder_is_status; [apply builder_is_new|apply status_is]. }
  rewrite Het, bind_Ret_l. pose proof (base_builder_is now ent etag Hd) as Hb.
  destruct (parse_modified_hdrs etag hdrs (last_modified ent)) as [[[] []]|msg].
  - injection Ha as <-. destruct (range_after_if_range etag hdrs).
    apply (inner_simple APreconditionFailed); [|done].
    eapply builder_is_status; [exact Hb|apply status_is].
  - injection Ha as <-. destruct (range_after_if_range etag hdrs).
    apply (inner_simple APreconditionFailed); [|done].
    eapply builder_is_status; [exact Hb|apply status_is].
  - injection Ha as <-. destruct (range_after_if_range etag hdrs).
    apply (inner_simple ANotModified); [|done].
    eapply builder_is_status; [exact Hb|apply status_is].
  - apply bind_Ret_inv in Ha as (parsed & Hp & [= <-]).
    destruct (range_after_if_range etag hdrs) as [h incl]. by apply inner_ranges.
  - injection Ha as <-. apply (inner_simple (ABadRequest msg)); [|done].
    eapply builder_is_status; [apply builder_is_new|apply status_is].
Qed.

(** The [Range] header in force is the request's, or there is none. *)
Lemma range_in_force hdrs h incl :
  range_after_if_range etag hdrs = (h, incl) → h = None ∨ h = hm_get hdrs RANGE.
Proof. unfold range_after_if_range. repeat case_match; intros [= <- <-]; auto. Qed.

Lemma decide_ok hdrs a :
  (∀ v, hm_get hdrs RANGE = Some v → 2 * len (as_bytes v) + 1 <= usize_max) →
  decide_answer etag ent method hdrs = Ret a → answer_ok ent a.
Proof.
  intros Hmem. pose proof (frame_len ent) as Hlen. unfold decide_answer. case_decide; [by intros [= <-]|].
  destruct (parse_modified_hdrs _ _ _) as [[[] []]|]; try by intros [= <-].
  destruct (range_after_if_range etag hdrs) as [h incl] eqn:Hif.
  intros (parsed & Hp & [= <-])%bind_Ret_inv. cbn [fst snd] in *.
  destruct parsed as [| |rs]; [done..|].
  destruct (parse_satisfiable _ _ _ Hlen Hp) as (Hne & Hw & es & Hes & Hl).
  assert (2 * Z.of_nat (length rs) + 1 <= usize_max) as Hm.
  { destruct (range_in_force _ _ _ Hif) as [->| ->]; [done|].
    destruct (hm_get hdrs RANGE) as [v|]; [|done]. specialize (Hmem v eq_refl).
    apply range_elements_length in Hes. unfold len in Hmem. lia. }
  pose proof (parts_ok rs incl Hw Hm) as Hok.
  destruct rs as [|r [|r' rs]]; [done|by apply Forall_cons in Hw as [? _]|].
  cbn [range_answer]. destruct (Z.ltb_spec (estimated_len (r :: r' :: rs)) (entity_len ent)); [|done].
  destruct (Z.leb_spec (parts_len (parts_headers ent (r :: r' :: rs) incl) (r :: r' :: rs)) U64_MAX);
    [|done]. cbn [answer_ok]. auto.
Qed.
End serve.

(** The whole of [serve], of an entity that keeps to the trait's contract. *)
Lemma serve_is `{Build, Wakers, Entity Ent D E, !Buf D, !Content Ent, !HttpLaws, !HttpDate,
    !HttpDateLaws, !BufLaws D, !FromBoxError E} now (ent : Ent) `{!EntityLaws ent} etag method hdrs a :
  entity_etag ent = Ret etag → dates_ok now ent →
  (∀ v, hm_get hdrs RANGE = Some v → 2 * len (as_bytes v) + 1 <= usize_max) →
  decide_answer etag ent method hdrs = Ret a →
  ∃ resp, serve now ent method hdrs = Ret resp ∧ response_is now ent etag method a resp.
Proof.
  intros Het Hd Hmem Ha. destruct (serve_shape now ent etag method hdrs a Het Hd Ha) as (resp & Hs & Hr).
  exists resp. split; [done|]. pose proof Hr as (Hst & Hh & _). split; [done|]. split; [done|].
  intros cx. apply (shape_gives ent cx now etag method a); [exact (decide_ok ent etag method hdrs a Hmem Ha)|exact Hr].
Qed.
