(* ===== verification/ServingProps.v ===== *)
(** * Properties of [serve]

    Each follows from the refinement of [ServingSpec]. *)

From S2P Require Import Prelude RustStd HttpApi Plain Range Etag Stream Entity Multipart.
From S2P Require Import Chunker Body Serving ServingSpec.

Section fields.
Context `{Build, Wakers, Entity Ent D E, !Buf D, !HttpLaws, !HttpDate}.
Context (now : SystemTime) (ent : Ent) `{!EntityFrame ent} (etag : option HeaderValue).

Lemma base_field_none k :
  k ≠ ACCEPT_RANGES → k ≠ DATE → k ≠ LAST_MODIFIED → k ≠ ETAG →
  field_values k (base_fields now ent etag) = [].
Proof.
  intros. unfold field_values, base_fields.
  destruct (last_modified ent), etag; simpl; rewrite !filter_cons; simpl;
    rewrite !decide_False by congruence; done.
Qed.

Lemma base_field_etag e : field_values ETAG (base_fields now ent (Some e)) = [as_bytes e].
Proof.
  unfold base_fields. rewrite field_values_skip, field_values_app, field_values_one, decide_True by (done || name_ne).
  destruct (last_modified ent) as [m|]; [|done]. by rewrite !field_values_skip by name_ne.
Qed.

Lemma entity_field_none k :
  k ∈ reserved →
  field_values k (text_fields (entity_fields ent)) = [].
Proof.
  intros Hk. rewrite field_values_text. unfold entity_fields. rewrite <- hm_get_all_iter.
  destruct (frame_headers ent) as (hs & Hhs & Hres). rewrite Hhs, hm_get_all_new, Hres; [done..|].
  intros. apply hm_get_all_new.
Qed.

(** The answers that serve the entity, and only they, announce the length of
    their body. *)
Lemma field_content_length a :
  field_values CONTENT_LENGTH (answer_fields now ent etag a) =
    if answer_serves a then [fmt_dec (answer_len ent a)] else [].
Proof.
  assert (∀ hs : bool, field_values CONTENT_LENGTH
     (if hs then text_fields (entity_fields ent) else []) = []) as Hent
    by (intros []; [apply entity_field_none; set_solver|done]).
  assert (field_values CONTENT_LENGTH (base_fields now ent etag) = []) as Hbase
    by (apply base_field_none; name_ne).
  assert (CONTENT_RANGE ≠ CONTENT_LENGTH) by name_ne.
  assert (CONTENT_TYPE ≠ CONTENT_LENGTH) by name_ne.
  assert (ALLOW ≠ CONTENT_LENGTH) by name_ne.
  destruct a; cbn [answer_fields answer_serves]; try done;
    rewrite ?field_values_app, ?Hbase; simpl.
  - by rewrite field_values_skip.
  - by rewrite field_values_skip.
  - by rewrite field_values_hit, (Hent true).
  - by rewrite field_values_skip, field_values_hit, Hent.
  - by rewrite field_values_hit, field_values_skip.
Qed.
End fields.

(** A request [serve] can answer: the dates can be formatted, and the [Range]
    header takes less than half of the address space. *)
Definition request_ok `{Build, Entity Ent D E} (now : SystemTime) (ent : Ent)
    (etag : option HeaderValue) (hdrs : HeaderMap) : Prop :=
  entity_etag ent = Ret etag ∧ dates_ok now ent ∧
  ∀ v, hm_get hdrs RANGE = Some v → 2 * len (as_bytes v) + 1 <= usize_max.

Section helpers.
Context `{Build, Wakers, Entity Ent D E, !Buf D, !Content Ent, !HttpLaws, !HttpDate, !HttpDateLaws, !BufLaws D,
          !FromBoxError E}.

(** A response of [serve] is the answer that was decided. *)
Lemma serve_inv now (ent : Ent) `{!EntityLaws ent} etag method hdrs resp a :
  request_ok now ent etag hdrs → serve now ent method hdrs = Ret resp →
  decide_answer etag ent method hdrs = Ret a → response_is now ent etag method a resp.
Proof.
  intros (He & Hd & Hm) Hs Ha.
  destruct (serve_is now ent etag method hdrs a He Hd Hm Ha) as (resp' & Hs' & Hr). congruence.
Qed.

Lemma serve_shape_inv now (ent : Ent) `{!EntityFrame ent} etag method hdrs resp a :
  request_ok now ent etag hdrs → serve now ent method hdrs = Ret resp →
  decide_answer etag ent method hdrs = Ret a →
  response_shape now ent etag method a resp ∧ answer_ok ent a.
Proof.
  intros (He & Hd & Hm) Hs Ha.
  destruct (serve_shape now ent etag method hdrs a He Hd Ha) as (resp' & Hs' & Hr).
  rewrite Hs in Hs'. injection Hs' as ->. split; [done|]. by apply (decide_ok ent etag method hdrs).
Qed.

(** The decision does not distinguish [GET] and [HEAD]. *)
Lemma decide_head etag (ent : Ent) hdrs :
  decide_answer etag ent HEAD hdrs = decide_answer etag ent GET hdrs.
Proof.
  unfold decide_answer. by rewrite !decide_False by (intros [? ?]; congruence).
Qed.

Lemma decide_get etag (ent : Ent) hdrs :
  decide_answer etag ent GET hdrs =
    match parse_modified_hdrs etag hdrs (last_modified ent) with
    | Err msg => Ret (ABadRequest msg)
    | Ok (true, _) => Ret APreconditionFailed
    | Ok (false, true) => Ret ANotModified
    | Ok (false, false) =>
        parsed ← parse (range_after_if_range etag hdrs).1 (entity_len ent);
        Ret (range_answer ent (range_after_if_range etag hdrs).2 parsed)
    end.
Proof. unfold decide_answer. by rewrite decide_False by (intros [? ?]; congruence). Qed.

Lemma decide_allowed etag (ent : Ent) hdrs : decide_answer etag ent GET hdrs ≠ Ret AMethodNotAllowed.
Proof.
  rewrite decide_get. destruct (parse_modified_hdrs _ _ _) as [[[] []]|]; [done..| |done].
  destruct (parse _ _) as [p|]; [|done]. simpl. unfold range_answer. by repeat case_match.
Qed.

(** Every decision is taken, or [serve] panics. *)
Lemma serve_decided now ent etag method hdrs resp :
  request_ok now ent etag hdrs → serve now ent method hdrs = Ret resp →
  ∃ a, decide_answer etag ent method hdrs = Ret a.
Proof.
  intros (He & _ & _) Hs. destruct (decide_answer etag ent method hdrs) as [a|w] eqn:Ha; [eauto|].
  unfold decide_answer in Ha. unfold serve, serve_inner in Hs.
  case_decide; [done|]. rewrite He, bind_Ret_l in Hs.
  destruct (parse_modified_hdrs _ _ _) as [[[] []]|]; try done.
  apply bind_Panic_inv in Ha as [Hp|(? & _ & ?)]; [|done].
  destruct (range_after_if_range etag hdrs) as [h incl]. cbn [fst] in Hp.
  unfold serve_ranges in Hs. by rewrite Hp in Hs.
Qed.

Lemma resp_get now ent etag method a (resp : Response (Body Ent D E)) k :
  response_is now ent etag method a resp →
  as_bytes <$> hm_get (resp_headers resp) k = head (field_values k (answer_fields now ent etag a)).
Proof.
  intros (_ & Hh & _). by rewrite get_bytes, Hh.
Qed.

(** A request without conditional headers. *)
Definition unconditional (hdrs : HeaderMap) : Prop :=
  Forall (λ k, hm_get hdrs k = None)
    [IF_MATCH; IF_UNMODIFIED_SINCE; IF_NONE_MATCH; IF_MODIFIED_SINCE; IF_RANGE].

Lemma parse_unconditional etag (ent : Ent) hdrs :
  unconditional hdrs →
  parse_modified_hdrs etag hdrs (last_modified ent) = Ok (false, false) ∧
  range_after_if_range etag hdrs = (hm_get hdrs RANGE, true).
Proof.
  unfold unconditional. rewrite !Forall_cons. intros (Hm & Hu & Hn & Hs & Hr & _).
  unfold parse_modified_hdrs, range_after_if_range, any_match, none_match.
  rewrite Hm, Hu, Hn, Hs, Hr. by destruct (last_modified ent).
Qed.

(** The decision on a byte-range-set. *)
Lemma decide_range_set etag (ent : Ent) `{!EntityLaws ent} hdrs v wss :
  unconditional hdrs → hm_get hdrs RANGE = Some v → to_str v = Some (print_range_set wss) →
  wss ≠ [] →
  Forall (λ ws : bytes * range_spec,
            forallb is_ows ws.1 = true ∧ spec_u64 ws.2 ∧ spec_increments ws.2) wss →
  decide_answer etag ent GET hdrs =
    Ret (range_answer ent true (resolve_all (entity_len ent) (wss.*2))).
Proof.
  intros Hu Hr Hv Hne Hall. pose proof (entity_len_u64 ent). pose proof (entity_len_nonneg ent).
  rewrite decide_get. destruct (parse_unconditional etag ent hdrs Hu) as [-> ->].
  cbn [fst snd]. by rewrite Hr, (parse_printed v wss) by done.
Qed.

(** The date of a header [serve] printed, read back. *)
Lemma parse_since_printed ERR v m :
  http_date_range m → as_bytes v = fmt_http_date m →
  parse_since ERR v = Ok (floor_secs m).
Proof.
  intros Hm Hv. unfold parse_since. rewrite to_str_spec, Hv, fmt_http_date_ascii by done.
  simpl. by rewrite parse_fmt_http_date.
Qed.
(** [serve] answers, or a last position does not fit. *)
Lemma serve_total (now : SystemTime) (ent : Ent) `{!EntityFrame ent} (etag : option HeaderValue)
    (method : Method) (hdrs : HeaderMap) :
  request_ok now ent etag hdrs →
  (∃ resp, serve now ent method hdrs = Ret resp) ∨
  (overflow_checks = true ∧
   ∃ v es e p q, hm_get hdrs RANGE = Some v ∧ range_elements (Some v) = Some es ∧ e ∈ es ∧
     trim_start_matches is_ows e = p ++ x2d :: q ∧ u64_from_str q = Some U64_MAX).
Proof.
  intros (He & Hd & Hm). pose proof (frame_len ent).
  destruct (decide_answer etag ent method hdrs) as [a|w] eqn:Ha.
  - left. destruct (serve_shape now ent etag method) with (hdrs := hdrs) (a := a)
      as (resp & Hs & _); eauto.
  - right. unfold decide_answer in Ha. case_decide; [done|].
    destruct (parse_modified_hdrs _ _ _) as [[[] []]|]; try done.
    apply bind_Panic_inv in Ha as [Hp|(? & _ & ?)]; [|done].
    destruct (parse_panic (range_after_if_range etag hdrs).1 (entity_len ent) ltac:(done))
      as [(r & Hr)|(_ & Hc & es & e & p & q & Hes & Hq)]; [congruence|].
    split; [done|].
    destruct (range_after_if_range etag hdrs) as [[v|] incl] eqn:Hif; [|done].
    exists v, es, e, p, q. split; [|done].
    by destruct (range_in_force _ _ _ _ Hif).
Qed.
End helpers.

Section properties.
Context `{Build, Wakers, Entity Ent D E, !Buf D, !Content Ent, !HttpLaws, !HttpDate, !HttpDateLaws, !BufLaws D,
          !FromBoxError E}.

(** C1: [serve] implements its abstract specification: whenever the decision
    [decide_answer] is taken without a panic, [serve] returns a response with
    the status of that answer, exactly the header fields of that answer, and a
    body that announces and gives the bytes of that answer (nothing, for a
    [HEAD] request that would serve the entity). *)
Theorem serve_refines (now : SystemTime) (ent : Ent) `{!EntityLaws ent} (etag : option HeaderValue)
    (method : Method) (hdrs : HeaderMap) (a : answer) :
  request_ok now ent etag hdrs → decide_answer etag ent method hdrs = Ret a →
  ∃ resp, serve now ent method hdrs = Ret resp ∧ response_is now ent etag method a resp.
Proof. intros (He & Hd & Hm) Ha. by apply serve_is. Qed.

(** C4: for an entity whose tag can be computed, with dates from 1970 to 9999,
    and a [Range] header of less than half of the address space, [serve] panics
    on no request, except that under overflow checks it can panic on a [Range]
    header with the last position [u64::MAX]; in particular every formatted
    header value fits its bound.  If computing the tag panics, as for a file
    modified before 1970, so does [serve] on every [GET] and [HEAD]. *)
Theorem serve_never_panics (now : SystemTime) (ent : Ent) `{!EntityFrame ent} (etag : option HeaderValue)
    (method : Method) (hdrs : HeaderMap) :
  (request_ok now ent etag hdrs →
   (∃ resp, serve now ent method hdrs = Ret resp) ∨
   (overflow_checks = true ∧
    ∃ v es e p q, hm_get hdrs RANGE = Some v ∧ range_elements (Some v) = Some es ∧ e ∈ es ∧
      trim_start_matches is_ows e = p ++ x2d :: q ∧ u64_from_str q = Some U64_MAX)) ∧
  (∀ w, entity_etag ent = Panic w → method = GET ∨ method = HEAD → serve now ent method hdrs = Panic w).
Proof.
  split; [by apply serve_total|]. intros w Hw Hm. unfold serve, serve_inner.
  rewrite decide_False by naive_solver. by rewrite Hw.
Qed.

(** C2: the length [serve] announces is the length it sends: whatever the
    request, a response to a [GET] that has a [Content-Length] has only one,
    and its body announces and, unless it fails, gives exactly that many bytes;
    every 200 and 206 response has it. *)
Theorem serve_content_length (now : SystemTime) (ent : Ent) `{!EntityLaws ent} (etag : option HeaderValue)
    (hdrs : HeaderMap) (resp : Response (Body Ent D E)) (cx : Waker) :
  request_ok now ent etag hdrs → serve now ent GET hdrs = Ret resp →
  ((as_u16 (resp_status resp) = 200 ∨ as_u16 (resp_status resp) = 206) →
     hm_get (resp_headers resp) CONTENT_LENGTH ≠ None) ∧
  ∀ v, v ∈ hm_get_all (resp_headers resp) CONTENT_LENGTH →
    ∃ bs, hm_get_all (resp_headers resp) CONTENT_LENGTH = [v] ∧ as_bytes v = fmt_dec (len bs) ∧
      body_gives ent cx (resp_body resp) bs.
Proof.
  intros Hreq Hs. destruct (serve_decided _ _ _ _ _ _ Hreq Hs) as [a Ha].
  pose proof (serve_inv _ _ _ _ _ _ _ Hreq Hs Ha) as Hr.
  pose proof (resp_get _ _ _ _ _ _ CONTENT_LENGTH Hr) as Hget.
  destruct Hr as (Hst & Hh & Hb). specialize (Hh CONTENT_LENGTH).
  assert (answer_ok ent a) as Hok by (by apply (serve_shape_inv now ent etag GET hdrs resp)).
  rewrite (field_content_length now ent etag), (answer_len_body ent a Hok) in Hh, Hget. split.
  - intros Hcode Hnone. rewrite Hnone, Hst in *. destruct a; simpl in *; first [done|lia].
  - intros v Hv. specialize (Hb cx). rewrite bool_decide_false in Hb by apply GET_not_HEAD.
    simpl in Hb. destruct (answer_serves a); [|by destruct (hm_get_all _ _); [set_solver|]].
    destruct (hm_get_all (resp_headers resp) CONTENT_LENGTH) as [|v' [|]]; try done.
    apply list_elem_of_singleton in Hv as ->. injection Hh as Hh.
    by exists (answer_body ent a).
Qed.

(** C23: [HEAD] is answered like [GET], with the same status and the same
    header fields; where [GET] would serve the entity, or has no body (200, 206,
    304, 416), without a body, and where [GET] has the text of an error (400, 412,
    413), with the same text. *)
Theorem serve_head_like_get (now : SystemTime) (ent : Ent) `{!EntityLaws ent} (etag : option HeaderValue)
    (hdrs : HeaderMap) (rg : Response (Body Ent D E)) :
  request_ok now ent etag hdrs → serve now ent GET hdrs = Ret rg →
  ∃ rh, serve now ent HEAD hdrs = Ret rh ∧
    as_u16 (resp_status rh) = as_u16 (resp_status rg) ∧
    (∀ k, as_bytes <$> hm_get_all (resp_headers rh) k = as_bytes <$> hm_get_all (resp_headers rg) k) ∧
    ((as_u16 (resp_status rh) ∈ [200; 206; 304; 416] ∧ ∀ cx, body_gives ent cx (resp_body rh) []) ∨
     (as_u16 (resp_status rh) ∈ [400; 412; 413] ∧
      ∃ text, ∀ cx, body_gives ent cx (resp_body rg) text ∧ body_gives ent cx (resp_body rh) text)).
Proof.
  intros Hreq Hs. destruct (serve_decided _ _ _ _ _ _ Hreq Hs) as [a Ha].
  destruct (serve_inv _ _ _ _ _ _ _ Hreq Hs Ha) as (Hst & Hh & Hbg).
  destruct Hreq as (He & Hd & Hm).
  destruct (serve_is now ent etag HEAD hdrs a He Hd Hm) as (rh & Hsh & Hst' & Hh' & Hb);
    [by rewrite decide_head|].
  exists rh. split; [done|]. split; [by rewrite Hst, Hst'|]. split; [by intros k; rewrite Hh, Hh'|].
  rewrite Hst'. rewrite bool_decide_true in Hb by done. rewrite bool_decide_false in Hbg by apply GET_not_HEAD.
  destruct a as [|msg| | | | | | |]; cbn [answer_status answer_serves answer_body andb] in *;
    [by destruct (decide_allowed etag ent hdrs)| | | | | | | |];
    first [left; split; [by_compute|done]|right; split; [by_compute|by eexists]].
Qed.

(** [hdrs'] is [hdrs] without the fields named [n]. *)
Definition without (n : HeaderName) (hdrs hdrs' : HeaderMap) : Prop :=
  (∀ k, k ≠ n → hm_get hdrs' k = hm_get hdrs k) ∧ hm_get hdrs' n = None.

(** An [If-Range] value that is not the entity's tag, or is no tag at all. *)
Definition if_range_fails (etag : option HeaderValue) (v : HeaderValue) : Prop :=
  ∀ e, etag = Some e → strong_eq (as_bytes v) (as_bytes e) = true →
    starts_with [DQUOTE] (as_bytes v) = false ∧ starts_with (bs "W/" ++ [DQUOTE]) (as_bytes v) = false.

(** An [If-Range] that is not strongly equal to the entity's tag makes
    [serve] answer as if there were no [Range] header; a date always does. *)
Theorem serve_if_range (now : SystemTime) (ent : Ent) `{!EntityLaws ent} (etag : option HeaderValue)
    (method : Method) (hdrs hdrs' : HeaderMap) (v : HeaderValue) :
  entity_etag ent = Ret etag →
  hm_get hdrs IF_RANGE = Some v →
  if_range_fails etag v → without RANGE hdrs hdrs' →
  serve now ent method hdrs = serve now ent method hdrs'.
Proof.
  unfold if_range_fails. intros He Hv Hne [Hk Hnone]. unfold serve, serve_inner. rewrite He. case_decide; [done|].
  rewrite !bind_Ret_l.
  assert (parse_modified_hdrs etag hdrs (last_modified ent) =
          parse_modified_hdrs etag hdrs' (last_modified ent)) as <-.
  { unfold parse_modified_hdrs, any_match, none_match. rewrite !Hk by name_ne. done. }
  assert (range_after_if_range etag hdrs = (None, true) ∧
          range_after_if_range etag hdrs' = (None, true)) as [-> ->]; [|done].
  unfold range_after_if_range. rewrite (Hk IF_RANGE) by name_ne. rewrite Hv, Hnone.
  destruct (starts_with (bs "W/" ++ [DQUOTE]) (as_bytes v)) eqn:Hw,
    (starts_with [DQUOTE] (as_bytes v)) eqn:Hq; simpl; try done;
    destruct etag as [e|]; try done;
    destruct (strong_eq (as_bytes v) (as_bytes e)) eqn:Hs; try done;
    by destruct (Hne e eq_refl Hs).
Qed.

(** A [GET] for one byte range, with no conditional headers, is answered
    206 with the [Content-Range] and the bytes of the resolved range, or 416
    with the length of the entity if nothing of it is satisfiable. *)
Theorem serve_single_range (now : SystemTime) (ent : Ent) `{!EntityLaws ent} (etag : option HeaderValue)
    (hdrs : HeaderMap) (v : HeaderValue) (s : range_spec) :
  request_ok now ent etag hdrs → unconditional hdrs → hm_get hdrs RANGE = Some v →
  to_str v = Some (bs "bytes=" ++ print_spec s) → spec_u64 s → spec_increments s →
  ∃ resp, serve now ent GET hdrs = Ret resp ∧
    match resolve (entity_len ent) s with
    | Some r =>
        as_u16 (resp_status resp) = 206 ∧
        as_bytes <$> hm_get (resp_headers resp) CONTENT_RANGE = Some (content_range_text r (entity_len ent)) ∧
        ∀ cx, body_gives ent cx (resp_body resp) (range_bytes ent r)
    | None =>
        as_u16 (resp_status resp) = 416 ∧
        as_bytes <$> hm_get (resp_headers resp) CONTENT_RANGE =
          Some (bs "bytes */" ++ fmt_dec (entity_len ent)) ∧
        ∀ cx, body_gives ent cx (resp_body resp) []
    end.
Proof.
  intros (He & Hd & Hm) Hu Hr Hv Hs Hi.
  assert (decide_answer etag ent GET hdrs =
    Ret (match resolve (entity_len ent) s with
         | Some r => APartial r true | None => ANotSatisfiable end)) as Ha.
  { rewrite (decide_range_set etag ent hdrs v [([], s)]); try done; [|by repeat constructor].
    unfold resolve_all. simpl. by destruct (resolve _ _). }
  destruct (serve_is now ent etag GET hdrs _ He Hd Hm Ha) as (resp & Hsv & Hresp).
  exists resp. split; [done|]. pose proof (resp_get _ _ _ _ _ _ CONTENT_RANGE Hresp) as Hcr.
  destruct Hresp as (Hst & _ & Hb). rewrite bool_decide_false in Hb by apply GET_not_HEAD.
  destruct (resolve (entity_len ent) s) as [r|]; cbn [answer_fields answer_status] in *;
    (split; [done|]); (split; [|done]); rewrite Hcr, field_values_app, base_field_none by name_ne; cbn [app].
  - by rewrite field_values_hit.
  - by rewrite field_values_hit.
Qed.

(** A [GET] for a set of ranges of which several are satisfiable is
    answered with a multipart body of exactly those ranges in order if they are
    estimated to be shorter than the entity, and with the whole entity if not. *)
Theorem serve_range_set (now : SystemTime) (ent : Ent) `{!EntityLaws ent} (etag : option HeaderValue)
    (hdrs : HeaderMap) (v : HeaderValue) (wss : list (bytes * range_spec)) (rs : list range) :
  request_ok now ent etag hdrs → unconditional hdrs → hm_get hdrs RANGE = Some v →
  to_str v = Some (print_range_set wss) → wss ≠ [] →
  Forall (λ ws : bytes * range_spec,
            forallb is_ows ws.1 = true ∧ spec_u64 ws.2 ∧ spec_increments ws.2) wss →
  rs = omap (resolve (entity_len ent)) (wss.*2) → (2 <= length rs)%nat →
  parts_len (parts_headers ent rs true) rs <= U64_MAX →
  ∃ resp, serve now ent GET hdrs = Ret resp ∧
    if estimated_len rs <? entity_len ent then
      as_u16 (resp_status resp) = 206 ∧
      as_bytes <$> hm_get (resp_headers resp) CONTENT_TYPE = Some (bs "multipart/byteranges; boundary=B") ∧
      ∀ cx, body_gives ent cx (resp_body resp) (parts_bytes ent (parts_headers ent rs true) rs)
    else
      as_u16 (resp_status resp) = 200 ∧ hm_get (resp_headers resp) CONTENT_RANGE = None ∧
      ∀ cx, body_gives ent cx (resp_body resp) (content ent).
Proof.
  intros (He & Hd & Hm) Hu Hr Hv Hne Hall Hrs Hlen Hmax.
  pose proof (decide_range_set etag ent hdrs v wss Hu Hr Hv Hne Hall) as Ha.
  unfold resolve_all in Ha. rewrite <- Hrs in Ha. destruct rs as [|r [|r' rs]]; simpl in Hlen; [lia..|].
  clear Hrs Hlen. set (rs' := r :: r' :: rs) in *.
  assert (decide_answer etag ent GET hdrs =
    Ret (if estimated_len rs' <? entity_len ent then AMultipart rs' true else AWhole)) as Ha'.
  { rewrite Ha. f_equal. cbn [range_answer rs']. fold rs'. case_match; [|done].
    by rewrite (proj2 (Z.leb_le _ _)). }
  destruct (serve_is now ent etag GET hdrs _ He Hd Hm Ha') as (resp & Hsv & Hresp).
  exists resp. split; [done|].
  pose proof (resp_get _ _ _ _ _ _ CONTENT_TYPE Hresp) as Hct.
  pose proof (resp_get _ _ _ _ _ _ CONTENT_RANGE Hresp) as Hcr.
  destruct Hresp as (Hst & _ & Hb). rewrite bool_decide_false in Hb by apply GET_not_HEAD.
  assert (CONTENT_LENGTH ≠ CONTENT_TYPE) by name_ne.
  assert (CONTENT_LENGTH ≠ CONTENT_RANGE) by name_ne.
  destruct (estimated_len rs' <? entity_len ent); cbn [answer_fields answer_body answer_status] in *.
  - split; [done|]. split; [|done]. rewrite Hct, field_values_app, base_field_none by name_ne. cbn [app].
    by rewrite field_values_skip, field_values_hit.
  - split; [done|]. split; [|done]. apply (fmap_None as_bytes). rewrite Hcr.
    rewrite !field_values_app, base_field_none by name_ne.
    by rewrite field_values_one, decide_False, (entity_field_none ent) by (done || set_solver).
Qed.

(** Entity tags round-trip: sent back in [If-None-Match] the tag of a
    response gives 304; sent back in [If-Match] (alone) it gives the entity if
    it is strong, and 412 if it is weak. *)
Theorem serve_etag_roundtrip (now : SystemTime) (ent : Ent) `{!EntityLaws ent} (e : HeaderValue) (t : entity_tag)
    (hdrs : HeaderMap) :
  request_ok now ent (Some e) hdrs → as_bytes e = print_tag t → valid_tag t →
  hm_get hdrs IF_UNMODIFIED_SINCE = None → hm_get hdrs IF_MODIFIED_SINCE = None →
  hm_get hdrs RANGE = None →
  (hm_get hdrs IF_NONE_MATCH = Some e → hm_get hdrs IF_MATCH = None →
   ∃ resp, serve now ent GET hdrs = Ret resp ∧ as_u16 (resp_status resp) = 304 ∧
     as_bytes <$> hm_get (resp_headers resp) ETAG = Some (print_tag t)) ∧
  (hm_get hdrs IF_MATCH = Some e → hm_get hdrs IF_NONE_MATCH = None →
   ∃ resp, serve now ent GET hdrs = Ret resp ∧
     as_u16 (resp_status resp) = if tag_weak t then 412 else 200).
Proof.
  intros (He & Hd & Hm) Het Ht Hius Hims Hrange.
  assert (valid_tags [(t, [])]) as Hts by by repeat constructor.
  pose proof (match_tags e e t [(t, [])] hdrs Het Het Hts) as [Hnone Hany].
  cbn [fmap list_fmap fst existsb] in Hnone, Hany. rewrite orb_false_r in Hnone, Hany.
  unfold weak_match, strong_match in *. rewrite bool_decide_true in Hnone, Hany by done.
  split.
  - intros Hinm Him.
    assert (decide_answer (Some e) ent GET hdrs = Ret ANotModified) as Ha.
    { rewrite decide_get. unfold parse_modified_hdrs, any_match.
      rewrite Him, Hius, (Hnone Hinm). by destruct (last_modified ent). }
    destruct (serve_is now ent (Some e) GET hdrs _ He Hd Hm Ha) as (resp & Hsv & Hresp).
    exists resp. split; [done|]. split; [by destruct Hresp as (-> & _)|].
    rewrite (resp_get _ _ _ _ _ _ ETAG Hresp). cbn [answer_fields]. by rewrite base_field_etag, <- Het.
  - intros Him Hinm.
    assert (decide_answer (Some e) ent GET hdrs =
            Ret (if tag_weak t then APreconditionFailed else AWhole)) as Ha.
    { rewrite decide_get. unfold parse_modified_hdrs, none_match.
      rewrite (Hany Him), Hinm, Hius, Hims. unfold range_after_if_range. rewrite Hrange.
      destruct (tag_weak t); simpl; [by destruct (last_modified ent)|].
      destruct (last_modified ent); simpl; by repeat case_match. }
    destruct (serve_is now ent (Some e) GET hdrs _ He Hd Hm Ha) as (resp & Hsv & Hst & _).
    exists resp. split; [done|]. rewrite Hst. by destruct (tag_weak t).
Qed.

(** C26: the dates of a response round-trip only for whole seconds: [serve]
    compares the header, which has no fraction, with the unrounded modification
    time, so an unmodified entity whose time has a fraction of a second gets
    200 instead of 304 for the [If-Modified-Since] it caused itself, and 412
    instead of 200 for such an [If-Unmodified-Since].  The modification time is
    not later than the time of the request, which [Last-Modified] never exceeds. *)
Theorem serve_date_roundtrip (now m : SystemTime) (ent : Ent) `{!EntityLaws ent} (etag : option HeaderValue)
    (hdrs : HeaderMap) (v : HeaderValue) :
  request_ok now ent etag hdrs → last_modified ent = Some m → m <= now →
  as_bytes v = fmt_http_date m →
  hm_get hdrs IF_MATCH = None → hm_get hdrs IF_NONE_MATCH = None → hm_get hdrs RANGE = None →
  (hm_get hdrs IF_MODIFIED_SINCE = Some v → hm_get hdrs IF_UNMODIFIED_SINCE = None →
   ∃ resp, serve now ent GET hdrs = Ret resp ∧
     as_u16 (resp_status resp) = (if m mod NANOS_PER_SEC =? 0 then 304 else 200) ∧
     as_bytes <$> hm_get (resp_headers resp) LAST_MODIFIED = Some (as_bytes v)) ∧
  (hm_get hdrs IF_UNMODIFIED_SINCE = Some v → hm_get hdrs IF_MODIFIED_SINCE = None →
   ∃ resp, serve now ent GET hdrs = Ret resp ∧
     as_u16 (resp_status resp) = if m mod NANOS_PER_SEC =? 0 then 200 else 412).
Proof.
  intros (He & Hd & Hm) Hlm Hnow Hv Him Hinm Hrange.
  assert (http_date_range m) as Hmr by (unfold dates_ok in Hd; rewrite Hlm in Hd; apply Hd).
  pose proof (Z.mod_pos_bound m NANOS_PER_SEC ltac:(done)) as Hmod.
  assert (∀ h incl, range_after_if_range etag hdrs = (h, incl) → h = None) as Hif.
  { unfold range_after_if_range. rewrite Hrange. intros h incl. repeat case_match; congruence. }
  assert (∀ ERR, parse_since ERR v = Ok (floor_secs m)) as Hparse
    by (intros; by apply parse_since_printed).
  destruct (range_after_if_range etag hdrs) as [h incl] eqn:Hr. rewrite (Hif _ _ eq_refl) in Hr.
  split.
  - intros Hims Hius.
    assert (decide_answer etag ent GET hdrs =
            Ret (if m mod NANOS_PER_SEC =? 0 then ANotModified else AWhole)) as Ha.
    { rewrite decide_get. unfold parse_modified_hdrs, any_match, none_match.
      rewrite Him, Hinm, Hius, Hims, Hlm. simpl. rewrite Hparse. simpl. rewrite Hr.
      unfold floor_secs. destruct (Z.eqb_spec (m mod NANOS_PER_SEC) 0) as [->|Hne].
      - by rewrite Z.sub_0_r, Z.leb_refl.
      - by rewrite (proj2 (Z.leb_gt _ _)) by lia. }
    destruct (serve_is now ent etag GET hdrs _ He Hd Hm Ha) as (resp & Hsv & Hresp).
    exists resp. split; [done|]. split.
    { destruct Hresp as (-> & _). by destruct (_ =? 0). }
    rewrite (resp_get _ _ _ _ _ _ LAST_MODIFIED Hresp), Hv.
    assert (∀ l, head (field_values LAST_MODIFIED (base_fields now ent etag ++ l)) =
                 Some (fmt_http_date m)) as Hbase.
    { intros l. unfold base_fields. rewrite Hlm. cbn [app].
      rewrite field_values_skip, field_values_skip, field_values_hit by name_ne.
      by rewrite Z.min_l by lia. }
    destruct (_ =? 0); cbn [answer_fields]; [|apply Hbase].
    rewrite <- (app_nil_r (base_fields now ent etag)). apply Hbase.
  - intros Hius Hims.
    assert (decide_answer etag ent GET hdrs =
            Ret (if m mod NANOS_PER_SEC =? 0 then AWhole else APreconditionFailed)) as Ha.
    { rewrite decide_get. unfold parse_modified_hdrs, any_match, none_match.
      rewrite Him, Hinm, Hius, Hims, Hlm. simpl. rewrite Hparse. simpl. rewrite Hr.
      unfold floor_secs. rewrite Z.gtb_ltb. destruct (Z.eqb_spec (m mod NANOS_PER_SEC) 0) as [->|Hne].
      - by rewrite Z.sub_0_r, Z.ltb_irrefl.
      - by rewrite (proj2 (Z.ltb_lt _ _)) by lia. }
    destruct (serve_is now ent etag GET hdrs _ He Hd Hm Ha) as (resp & Hsv & Hst & _).
    exists resp. split; [done|]. rewrite Hst. by destruct (_ =? 0).
Qed.
End properties.

(** ** Concrete requests *)

#[local] Existing Instances debug_build plain_http plain_http_laws plain_date plain_date_laws
  plain_buf plain_buf_laws mem_ops mem_content mem_laws box_error_self test_wakers.

(** 500 bytes, a strong tag, modified 5.5 seconds after the epoch. *)
Definition test_entity : mem_entity :=
  mk_mem_entity (replicate 500 x41) [(bs "content-type", bs "text/plain")]
    (Some (print_tag (Tag false (bs "v1")))) (Some 5500000000) eq_refl.
Definition test_now : SystemTime := 100 * NANOS_PER_SEC.
Definition test_tag : entity_tag := Tag false (bs "v1").
Definition test_etag : option (@HeaderValue plain_http) := Some (print_tag test_tag).
Definition test_value (v : bytes) : @HeaderValue plain_http := v.
Definition test_headers (l : list (bytes * bytes)) : @HeaderMap plain_http := l.

Lemma test_request_ok (hdrs : @HeaderMap plain_http) :
  (match hm_get hdrs RANGE with Some v => 2 * len (as_bytes v) + 1 <=? U64_MAX | None => true end) = true →
  request_ok test_now test_entity test_etag hdrs.
Proof.
  intros Hm. split; [done|]. split; [by repeat split|]. intros v Hv. rewrite Hv in Hm. by zbool.
Qed.

Definition range_request (v : bytes) : @HeaderMap plain_http := [(bs "range", v)].

Lemma unconditional_range v : unconditional (range_request v).
Proof. repeat constructor. Qed.

Lemma serve_refines_witness :
  ∃ resp, serve test_now test_entity GET (range_request (bs "bytes=0-9,-5")) = Ret resp ∧
    as_u16 (resp_status resp) = 206.
Proof.
  destruct (serve_refines test_now test_entity test_etag GET
              (range_request (bs "bytes=0-9,-5")) (AMultipart [mk_range 0 10; mk_range 495 500] true))
    as (resp & Hs & Hst & _).
  - by apply test_request_ok.
  - by vm_compute.
  - exists resp. split; [exact Hs|exact Hst].
Defined.

Lemma serve_never_panics_witness :
  overflow_checks = true ∧
  ∃ v, hm_get (range_request (bs "bytes=0-18446744073709551615")) RANGE = Some v ∧
    range_elements (Some v) = Some [bs "0-18446744073709551615"].
Proof.
  destruct (proj1 (serve_never_panics test_now test_entity test_etag GET
              (range_request (bs "bytes=0-18446744073709551615"))))
    as [(resp & Hs)|(Hc & v & es & e & p & q & Hv & _)].
  - by apply test_request_ok.
  - exfalso. vm_compute in Hs. discriminate Hs.
  - split; [exact Hc|]. exists v. split; [exact Hv|]. injection Hv as <-. reflexivity.
Defined.

Lemma serve_content_length_witness :
  ∃ resp, serve test_now test_entity GET (test_headers []) = Ret resp ∧
    hm_get (resp_headers resp) CONTENT_LENGTH ≠ None.
Proof.
  assert (∃ resp, serve test_now test_entity GET (test_headers []) = Ret resp ∧ as_u16 (resp_status resp) = 200)
    as (resp & Hs & Hst) by (eexists; split; reflexivity).
  exists resp. split; [exact Hs|].
  apply (serve_content_length test_now test_entity test_etag (test_headers []) resp 7%nat).
  - by apply test_request_ok.
  - exact Hs.
  - by left.
Defined.

Lemma serve_head_like_get_witness :
  ∃ rh, serve test_now test_entity HEAD [] = Ret rh ∧ as_u16 (resp_status rh) = 200.
Proof.
  assert (∃ rg, serve test_now test_entity GET (test_headers []) = Ret rg ∧ as_u16 (resp_status rg) = 200)
    as (rg & Hg & Hst) by (eexists; split; reflexivity).
  destruct (serve_head_like_get test_now test_entity test_etag (test_headers []) rg)
    as (rh & Hh & Hst' & _).
  - by apply test_request_ok.
  - exact Hg.
  - exists rh. split; [exact Hh|]. exact (eq_trans Hst' Hst).
Defined.

Lemma serve_if_range_witness :
  serve test_now test_entity GET (test_headers [(bs "range", bs "bytes=0-9"); (bs "if-range", print_tag (Tag true (bs "v1")))]) =
  serve test_now test_entity GET (test_headers [(bs "if-range", print_tag (Tag true (bs "v1")))]).
Proof.
  apply (serve_if_range test_now test_entity test_etag GET _ _
           (test_value (print_tag (Tag true (bs "v1"))))).
  - reflexivity.
  - reflexivity.
  - by intros e [= <-].
  - split; [|reflexivity]. intros k Hk. symmetry.
    change (head (plain_get_all ((bs "range", bs "bytes=0-9") ::
              [(bs "if-range", print_tag (Tag true (bs "v1")))]) k) =
            head (plain_get_all [(bs "if-range", print_tag (Tag true (bs "v1")))] k)).
    unfold plain_get_all. rewrite filter_cons, decide_False; [done|]. simpl. by intros <-.
Defined.

Lemma serve_single_range_witness :
  ∃ resp, serve test_now test_entity GET (range_request (bs "bytes=490-")) = Ret resp ∧
    as_bytes <$> hm_get (resp_headers resp) CONTENT_RANGE = Some (bs "bytes 490-499/500").
Proof.
  destruct (serve_single_range test_now test_entity test_etag
              (range_request (bs "bytes=490-")) (test_value (bs "bytes=490-")) (BytesFrom 490))
    as (resp & Hs & _ & Hcr & _).
  - by apply test_request_ok.
  - apply unconditional_range.
  - reflexivity.
  - by vm_compute.
  - done.
  - done.
  - exists resp. split; [exact Hs|]. exact Hcr.
Defined.

Lemma serve_range_set_witness :
  ∃ resp, serve test_now test_entity GET (range_request (bs "bytes=0-9,-5")) = Ret resp ∧
    as_u16 (resp_status resp) = 206.
Proof.
  destruct (serve_range_set test_now test_entity test_etag
              (range_request (bs "bytes=0-9,-5")) (test_value (bs "bytes=0-9,-5"))
              [([], BytesFromTo 0 9); ([], BytesSuffix 5)] [mk_range 0 10; mk_range 495 500])
    as (resp & Hs & Hst & _).
  - by apply test_request_ok.
  - apply unconditional_range.
  - reflexivity.
  - by vm_compute.
  - done.
  - by repeat constructor.
  - by vm_compute.
  - simpl. lia.
  - by vm_compute.
  - exists resp. split; [exact Hs|exact Hst].
Defined.

Lemma serve_etag_roundtrip_witness :
  ∃ resp, serve test_now test_entity GET (test_headers [(bs "if-none-match", print_tag test_tag)]) = Ret resp ∧
    as_u16 (resp_status resp) = 304.
Proof.
  destruct (serve_etag_roundtrip test_now test_entity (test_value (print_tag test_tag)) test_tag
              (test_headers [(bs "if-none-match", print_tag test_tag)])) as [Hn _].
  - by apply test_request_ok.
  - reflexivity.
  - by apply (bool_decide_unpack _).
  - reflexivity.
  - reflexivity.
  - reflexivity.
  - destruct Hn as (resp & Hs & Hst & _); [reflexivity|reflexivity|].
    exists resp. split; [exact Hs|exact Hst].
Defined.

(** Five and a half seconds: not a whole number. *)
Lemma serve_date_roundtrip_witness :
  ∃ resp, serve test_now test_entity GET (test_headers [(bs "if-modified-since", fmt_http_date 5500000000)]) = Ret resp ∧
    as_u16 (resp_status resp) = 200.
Proof.
  destruct (serve_date_roundtrip test_now 5500000000 test_entity test_etag
              (test_headers [(bs "if-modified-since", fmt_http_date 5500000000)]) (test_value (fmt_http_date 5500000000))) as [Hm _].
  - by apply test_request_ok.
  - reflexivity.
  - by vm_compute.
  - reflexivity.
  - reflexivity.
  - reflexivity.
  - reflexivity.
  - destruct Hm as (resp & Hs & Hst & _); [reflexivity|reflexivity|].
    exists resp. split; [exact Hs|exact Hst].
Defined.
