(* ===== verification/ServingTypes.v ===== *)
(** * The header values of [serve] are valid (src/serving.rs, [unsafe_fmt_ascii_val!])

    [HeaderValue::from_maybe_shared_unchecked] is unsafe: its caller has to know
    that the bytes are those of a header value.  Here: every value in a
    response of [serve] consists of visible ASCII characters, or is the entity's
    own. *)

From S2P Require Import Prelude RustStd HttpApi Plain Range Etag Stream Entity Multipart.
From S2P Require Import Chunker Body Serving ServingSpec ServingProps.

Definition printable (s : bytes) : bool := forallb visible_ascii s.

Lemma printable_app s t : printable (s ++ t) = printable s && printable t.
Proof. apply forallb_app. Qed.

Lemma printable_dec n : 0 <= n → printable (fmt_dec n) = true.
Proof.
  intros Hn. apply fmt_dec_digits in Hn. unfold printable.
  rewrite forallb_Forall_true in *. eapply Forall_impl; [exact Hn|]. intros x Hx. cbv beta in *.
  unfold is_digit, visible_ascii in *. zbool.
  by rewrite (proj2 (Z.leb_le 32 _)), (proj2 (Z.ltb_lt _ 127)) by lia.
Qed.

Section types.
Context `{Build, Wakers, Entity Ent D E, !Buf D, !HttpLaws, !HttpDate, !HttpDateLaws,
          !FromBoxError E}.

(** The values the entity supplies: its tag, and the values of its own fields. *)
Definition entity_value (ent : Ent) (etag : option HeaderValue) (k : HeaderName) (s : bytes) : Prop :=
  (k = ETAG ∧ as_bytes <$> etag = Some s) ∨ s ∈ as_bytes <$> values_of k (entity_fields ent).

(** Each field is made of visible characters, or is the entity's. *)
Definition fields_valid (ent : Ent) (etag : option HeaderValue) (l : list (HeaderName * bytes)) : Prop :=
  Forall (λ kv : HeaderName * bytes, printable kv.2 = true ∨ entity_value ent etag kv.1 kv.2) l.

Lemma base_valid now (ent : Ent) etag : dates_ok now ent → fields_valid ent etag (base_fields now ent etag).
Proof.
  intros Hd. unfold fields_valid, base_fields, dates_ok in *.
  apply Forall_cons. split; [by left|]. apply Forall_app. split.
  - destruct (last_modified ent) as [m|]; [|done]. destruct Hd as [Hm Hn].
    repeat apply List.Forall_cons; [| |done]; left; apply fmt_http_date_ascii; [done|].
    unfold http_date_range in *. lia.
  - destruct etag as [v|]; [|done]. apply Forall_singleton. right. by left.
Qed.

Lemma text_valid (ent : Ent) etag : fields_valid ent etag (text_fields (entity_fields ent)).
Proof.
  unfold fields_valid, text_fields. rewrite Forall_fmap, Forall_forall. intros [k v] Hin. right. right.
  simpl. apply list_elem_of_fmap. exists v. split; [done|]. unfold values_of. apply list_elem_of_fmap.
  exists (k, v). split; [done|]. by apply list_elem_of_filter.
Qed.

Lemma answer_len_nonneg (ent : Ent) `{!EntityFrame ent} a : answer_ok ent a → 0 <= answer_len ent a.
Proof.
  pose proof (frame_len ent). destruct a; simpl; intros Hok; try apply len_nonneg; try lia.
  - destruct Hok. lia.
  - destruct Hok as (_ & (_ & Hrs & _) & _).
    etrans; [|by apply parts_len_nonneg]. apply len_nonneg.
Qed.

Lemma answer_valid now etag (ent : Ent) `{!EntityFrame ent} a :
  dates_ok now ent → answer_ok ent a → fields_valid ent etag (answer_fields now ent etag a).
Proof.
  intros Hd Ha. pose proof (base_valid now ent etag Hd) as Hbase.
  pose proof (text_valid ent etag) as Htext. pose proof (frame_len ent).
  pose proof (printable_dec _ (answer_len_nonneg ent a Ha)) as Hlen.
  unfold fields_valid in *.
  destruct a; cbn [answer_fields]; rewrite ?Forall_app, ?Forall_cons, ?Forall_nil; split_and?;
    try done; try (by left).
  - left. cbn [snd]. rewrite printable_app. by rewrite printable_dec by lia.
  - destruct Ha as (Hr & _ & Hne). left. cbn [snd]. unfold content_range_text.
    rewrite !printable_app, !printable_dec by lia. done.
  - by destruct with_headers.
Qed.

(** C25: every header value in a response of [serve] consists of visible ASCII
    characters, or is one the entity supplies, its tag or the value of a field of
    its own, under the same name and unchanged: so what the crate passes to the
    unsafe constructor is a valid header value, and nothing of the request (its
    range and its conditional headers are not trusted) can break out of a line. *)
Theorem serve_values_printable (now : SystemTime) (ent : Ent) `{!EntityFrame ent} (etag : option HeaderValue)
    (method : Method) (hdrs : HeaderMap) (resp : Response (Body Ent D E)) (k : HeaderName) (v : HeaderValue) :
  request_ok now ent etag hdrs →
  serve now ent method hdrs = Ret resp → v ∈ hm_get_all (resp_headers resp) k →
  to_str v = Some (as_bytes v) ∨ entity_value ent etag k (as_bytes v).
Proof.
  intros Hreq Hs Hv. destruct (serve_decided _ _ _ _ _ _ Hreq Hs) as [a Ha].
  destruct (serve_shape_inv _ _ _ _ _ _ _ Hreq Hs Ha) as [(_ & Hh & _) Hok].
  destruct Hreq as (_ & Hd & _). pose proof (answer_valid now etag ent a Hd Hok) as Hall.
  assert (as_bytes v ∈ field_values k (answer_fields now ent etag a)) as Hin
    by (rewrite <- Hh; by apply list_elem_of_fmap_2).
  rewrite to_str_spec. unfold field_values in Hin.
  apply list_elem_of_fmap in Hin as ([k' t] & Heq & Hin). apply list_elem_of_filter in Hin as [Hk Hin].
  unfold fields_valid in Hall. rewrite Forall_forall in Hall. specialize (Hall _ Hin).
  cbn [fst snd] in *. subst k' t. destruct Hall as [Hall|Hall]; [left|by right].
  unfold printable in Hall. by rewrite Hall.
Qed.
End types.

#[local] Existing Instances debug_build plain_http plain_http_laws plain_date plain_date_laws
  plain_buf plain_buf_laws mem_ops mem_content mem_laws box_error_self test_wakers.

Lemma serve_values_printable_witness :
  ∃ resp, serve test_now test_entity GET (range_request (bs "bytes=490-")) = Ret resp ∧
    to_str (bs "bytes 490-499/500" : @HeaderValue plain_http) = Some (bs "bytes 490-499/500").
Proof.
  assert (∃ resp, serve test_now test_entity GET (range_request (bs "bytes=490-")) = Ret resp ∧
    hm_get_all (resp_headers resp) CONTENT_RANGE = [bs "bytes 490-499/500"])
    as (resp & Hs & Hv) by (eexists; split; reflexivity).
  exists resp. split; [exact Hs|].
  destruct (serve_values_printable test_now test_entity test_etag GET (range_request (bs "bytes=490-")) resp
           CONTENT_RANGE (bs "bytes 490-499/500" : @HeaderValue plain_http)) as [Hstr|Hent].
  - by apply test_request_ok.
  - exact Hs.
  - rewrite Hv. by left.
  - exact Hstr.
  - exfalso. destruct Hent as [[Hk _]|Hin]; [discriminate Hk|]. vm_compute in Hin. inversion Hin.
Defined.
