(* ===== verification/Framing.v ===== *)
(** * The framing and the size of a response (src/serving.rs with src/body.rs)

    What holds of a response whatever the entity's streams do: they may end
    early, give too much, fail or never be ready ([EntityFrame] says nothing of
    them).  Then how much longer than the entity a response can be: several
    ranges are sent as parts only where an estimate of 80 bytes a part allows
    it, but the headers of a part can be longer. *)

From S2P Require Import Prelude RustStd HttpApi Plain Range Etag Stream Entity Multipart.
From S2P Require Import Chunker Body Serving ServingSpec ServingProps.

Section framing.
Context `{Build, Wakers, Entity Ent D E, !Buf D, !HttpLaws, !HttpDate, !HttpDateLaws, !BufLaws D,
          !FromBoxError E}.

(** The body of an answer announces its length. *)
Lemma literal_sized s :
  sized_ok (from_str_literal s : Body Ent D E) ∧ sized_left (from_str_literal s : Body Ent D E) = len s.
Proof. split; [done|]. simpl. unfold remaining. by rewrite buf_bytes_static. Qed.

Lemma answer_sized (ent : Ent) `{!EntityFrame ent} a :
  answer_ok ent a →
  sized_ok (answer_stream (D:=D) (E:=E) ent a) ∧ sized_left (answer_stream (D:=D) (E:=E) ent a) = answer_len ent a.
Proof.
  pose proof (frame_len ent). destruct a; intros Hok; try apply literal_sized; try done.
  - split; [simpl; lia|done].
  - destruct Hok as (Hr & _). split; [simpl; lia|done].
  - destruct Hok as (_ & Hm & _). split; [by apply multipart_new_ok|done].
Qed.

Lemma shape_sized now (ent : Ent) `{!EntityFrame ent} etag method a (resp : Response (Body Ent D E)) :
  answer_ok ent a → response_shape now ent etag method a resp →
  sized_ok (resp_body resp) ∧
  sized_left (resp_body resp) = if bool_decide (method = HEAD) && answer_serves a then 0 else answer_len ent a.
Proof. intros Ha (_ & _ & ->). destruct (_ && _); [done|by apply answer_sized]. Qed.
End framing.

(** ** How long the headers of a part are *)

Section parts.
Context `{Build, HttpLaws}.

Lemma part_header_len r n each :
  range_within n r →
  len (part_header r (end_ r - 1) n each) <= 34 + 3 * len (fmt_dec n) + len each.
Proof.
  intros (Hr & He & Hne). unfold part_header. len_simpl.
  pose proof (fmt_dec_len_le (start r) n). pose proof (fmt_dec_len_le (end_ r - 1) n).
  change (len CRLF) with 2. change (len (bs "--B")) with 3.
  change (len (bs "Content-Range: bytes ")) with 21. change (len (bs "-")) with 1.
  change (len (bs "/")) with 1. lia.
Qed.

(** The headers of a part fit in the buffer they are written to. *)
Lemma part_header_capacity r n each :
  n <= U64_MAX → range_within n r →
  len (part_header r (end_ r - 1) n each) <=
    len (CRLF ++ bs "--B" ++ CRLF ++ bs "Content-Range: bytes -/" ++ CRLF) +
    3 * MAX_DECIMAL_U64_BYTES + len each + len CRLF.
Proof.
  intros Hn Hr. pose proof (part_header_len r n each Hr). destruct Hr as (? & ? & _).
  pose proof (fmt_dec_len n). change (len (CRLF ++ _)) with 32. change (len CRLF) with 2.
  unfold MAX_DECIMAL_U64_BYTES. lia.
Qed.
End parts.

Section size.
Context `{Build, Wakers, Entity Ent D E, !Buf D, !HttpLaws, !HttpDate, !HttpDateLaws, !FromBoxError E}.

(** What a part can have beyond the 80 bytes of the estimate. *)
Definition part_overhead (ent : Ent) (with_headers : bool) : Z :=
  3 * len (fmt_dec (entity_len ent)) +
  len (each_part_headers (if with_headers then entity_fields ent else [])) - 46.

Lemma parts_len_bound (ent : Ent) rs incl :
  Forall (range_within (entity_len ent)) rs →
  parts_len (parts_headers ent rs incl) rs <=
    estimated_len rs + Z.of_nat (length rs) * part_overhead ent incl + len PART_TRAILER.
Proof.
  unfold estimated_len, part_overhead.
  induction 1 as [|r rs Hr _ IH]; [by simpl; lia|].
  unfold parts_headers in *. rewrite !fmap_cons, sum_Z_cons. cbn [parts_len length].
  pose proof (part_header_len r (entity_len ent)
    (each_part_headers (if incl then entity_fields ent else [])) Hr). lia.
Qed.

(** Only a [Range] header in force gives parts. *)
Lemma decide_multipart etag (ent : Ent) method hdrs rs incl :
  decide_answer etag ent method hdrs = Ret (AMultipart rs incl) →
  parse (hm_get hdrs RANGE) (entity_len ent) = Ret (Satisfiable rs) ∧
  incl = match hm_get hdrs IF_RANGE with Some _ => false | None => true end.
Proof.
  unfold decide_answer. case_decide; [done|].
  destruct (parse_modified_hdrs _ _ _) as [[[] []]|]; try done.
  destruct (range_after_if_range etag hdrs) as [h i] eqn:Hif.
  intros (parsed & Hp & [= Ha])%bind_Ret_inv. cbn [fst snd] in *.
  assert (parsed = Satisfiable rs ∧ incl = i) as [-> ->].
  { destruct parsed as [| |[|r [|r' rs']]]; try done; unfold range_answer in Ha;
      repeat case_match; simplify_eq; done. }
  unfold range_after_if_range in Hif. destruct (hm_get hdrs IF_RANGE); [|by injection Hif as <- <-].
  repeat case_match; simplify_eq; done.
Qed.
End size.

Section properties.
Context `{Build, Wakers, Entity Ent D E, !Buf D, !HttpLaws, !HttpDate, !HttpDateLaws, !BufLaws D,
          !FromBoxError E}.

(** C3: the framing of a response is right whatever the entity's streams do:
    if they give too few bytes, too many, fail or stall, the length the body
    announces is the one in [Content-Length], and polled up to its end or its
    first error it never panics, what has been given and what is still announced
    always add up, a body that ends without an error has given exactly that many
    bytes, one that fails no more, and one that says [is_end_stream] none.  Of
    polls after an error it says nothing: they can panic. *)
Theorem serve_framing (now : SystemTime) (ent : Ent) `{!EntityFrame ent} (etag : option HeaderValue)
    (method : Method) (hdrs : HeaderMap) (resp : Response (Body Ent D E)) (cx : Waker) (fuel : nat) :
  request_ok now ent etag hdrs → serve now ent method hdrs = Ret resp →
  ∃ n, body_size_hint (resp_body resp) = with_exact n ∧
    (method ≠ HEAD → ∀ v, v ∈ hm_get_all (resp_headers resp) CONTENT_LENGTH → as_bytes v = fmt_dec n) ∧
    ∃ bs r b', poll_until (Pollable0:=body_pollable cx) fuel (resp_body resp) = Ret (bs, r, b') ∧
      (body_is_end_stream (resp_body resp) = true → bs = []) ∧
      match r with
      | None => len bs + lower (body_size_hint b') = n
      | Some Done => len bs = n
      | Some (Failed _) => len bs <= n
      end.
Proof.
  intros Hreq Hs. destruct (serve_decided _ _ _ _ _ _ Hreq Hs) as [a Ha].
  destruct (serve_shape_inv _ _ _ _ _ _ _ Hreq Hs Ha) as [Hshape Hok].
  destruct (shape_sized now ent etag method a resp Hok Hshape) as [Hsz Hl].
  exists (sized_left (resp_body resp)). split; [by apply sized_hint|]. split.
  - intros Hm v Hv. rewrite Hl, bool_decide_false by done. destruct Hshape as (_ & Hh & _).
    specialize (Hh CONTENT_LENGTH). rewrite (field_content_length now ent etag) in Hh. simpl.
    apply (list_elem_of_fmap_2 as_bytes) in Hv. rewrite Hh in Hv.
    destruct (answer_serves a); [by apply list_elem_of_singleton in Hv|by apply elem_of_nil in Hv].
  - destruct (body_size_hint_exact cx (resp_body resp) fuel Hsz) as (bs & r & b' & Hp & _ & He & Hr).
    rewrite sized_hint in Hr by done. by exists bs, r, b'.
Qed.

(** C20: how much longer than the entity a response can be: every 200 and 206
    response is at most the trailer longer, and, of every part sent, by what the
    part's headers have beyond 80 bytes, which depends on the entity's length
    and, unless [If-Range] was sent, on its own header fields; there are at most
    as many parts as elements in the [Range] header, and one for each 80 bytes
    of the entity. *)
Theorem serve_size_bound (now : SystemTime) (ent : Ent) `{!EntityFrame ent} (etag : option HeaderValue)
    (method : Method) (hdrs : HeaderMap) (resp : Response (Body Ent D E)) :
  request_ok now ent etag hdrs → serve now ent method hdrs = Ret resp →
  as_u16 (resp_status resp) ∈ [200; 206] →
  ∃ parts : nat,
    (parts = 0%nat ∨ ∃ es, range_elements (hm_get hdrs RANGE) = Some es ∧ (parts <= length es)%nat) ∧
    80 * Z.of_nat parts <= entity_len ent ∧
    lower (body_size_hint (resp_body resp)) <=
      entity_len ent + len PART_TRAILER +
      Z.of_nat parts *
        part_overhead ent match hm_get hdrs IF_RANGE with Some _ => false | None => true end.
Proof.
  intros Hreq Hs Hst. destruct (serve_decided _ _ _ _ _ _ Hreq Hs) as [a Ha].
  destruct (serve_shape_inv _ _ _ _ _ _ _ Hreq Hs Ha) as [Hshape Hok].
  destruct (shape_sized now ent etag method a resp Hok Hshape) as [Hsz Hl].
  rewrite (proj1 Hshape) in Hst. rewrite sized_hint by done. cbn [lower with_exact].
  pose proof (frame_len ent) as Hlen. assert (0 <= len PART_TRAILER) by done.
  destruct a as [| | | | | |r incl|rs incl|];
    try (by rewrite !elem_of_cons, elem_of_nil in Hst; destruct Hst as [|[|[]]]).
  - exists 0%nat. split_and!; [by left|lia|]. rewrite Hl. simpl. repeat case_match; lia.
  - exists 0%nat. split_and!; [by left|lia|]. destruct Hok as (? & ? & _). rewrite Hl. simpl.
    repeat case_match; lia.
  - destruct (decide_multipart _ _ _ _ _ _ Ha) as [Hp Hincl].
    destruct (parse_satisfiable _ _ _ Hlen Hp) as (_ & Hw & Hes).
    destruct Hok as (_ & _ & Hest). pose proof (parts_len_bound ent rs incl Hw) as Hb.
    rewrite <- Hincl. exists (length rs). split; [by right|].
    assert (80 * Z.of_nat (length rs) <= estimated_len rs) as H80.
    { unfold estimated_len. clear -Hw. induction Hw as [|r rs (Hr & _) _ IH]; [done|].
      rewrite fmap_cons, sum_Z_cons. cbn [length]. lia. }
    split; [lia|]. rewrite Hl. cbn [answer_len answer_serves]. destruct (_ && _); [|lia].
    assert (0 <= part_overhead ent incl + 80); [|nia].
    unfold part_overhead. pose proof (len_nonneg (fmt_dec (entity_len ent))).
    pose proof (len_nonneg (each_part_headers (if incl then entity_fields ent else []))). lia.
Qed.
End properties.

(** ** Concrete responses *)

#[local] Existing Instances debug_build plain_http plain_http_laws plain_date plain_date_laws
  plain_buf plain_buf_laws mem_ops mem_content mem_laws box_error_self test_wakers.

(** An entity that claims three bytes, and whose streams do what they like. *)
Definition odd_entity : Type := Stream bytes BoxError.
#[local] Instance odd_ops : Entity odd_entity bytes BoxError := {|
  entity_len _ := 3;
  get_range e _ := e;
  add_headers _ m := m;
  entity_etag _ := Ret None;
  last_modified _ := None
|}.
#[local] Instance odd_frame (e : odd_entity) : EntityFrame (D:=bytes) (E:=BoxError) e.
Proof. split; [done|]. exists []. split; [|done]. intros m k _. simpl. by rewrite app_nil_r. Qed.

(** Five bytes of it. *)
Definition too_much : odd_entity := stream_of_list [Pending; Ready (Some (Ok (bs "hello")))].

Lemma serve_framing_witness :
  ∃ resp n b r b', serve test_now too_much GET (test_headers []) = Ret resp ∧
    body_size_hint (resp_body resp) = with_exact n ∧
    poll_until (Pollable0:=body_pollable (7%nat : @Waker test_wakers)) 9 (resp_body resp) = Ret (b, r, b').
Proof.
  destruct (serve test_now too_much GET (test_headers [])) as [resp|] eqn:Hs; [|discriminate Hs].
  destruct (serve_framing test_now too_much None GET (test_headers []) resp (7%nat : @Waker test_wakers) 9)
    as (n & Hn & _ & b & r & b' & Hp & _).
  - split; [reflexivity|]. by split.
  - exact Hs.
  - exists resp, n, b, r, b'. split; [reflexivity|]. split; [exact Hn|exact Hp].
Defined.

(** Two bytes of an entity of two hundred, whose headers take a hundred: more
    than the two hundred. *)
Definition wide_entity : mem_entity :=
  mk_mem_entity (replicate 200 x41) [(bs "content-type", replicate 84 x61)] None None eq_refl.
Definition two_bytes : @HeaderMap plain_http := range_request (bs "bytes=0-0,2-2").

Example multipart_longer_than_entity :
  (resp ← serve test_now wide_entity GET two_bytes;
   Ret (as_u16 (resp_status resp), lower (body_size_hint (resp_body resp)))) = Ret (206, 289).
Proof. by vm_compute. Qed.

Lemma serve_size_bound_witness :
  ∃ resp (parts : nat), serve test_now wide_entity GET two_bytes = Ret resp ∧
    lower (body_size_hint (resp_body resp)) <= 200 + 9 + Z.of_nat parts * 63.
Proof.
  assert (∃ resp, serve test_now wide_entity GET two_bytes = Ret resp ∧ as_u16 (resp_status resp) = 206)
    as (resp & Hs & Hst) by (eexists; split; reflexivity).
  destruct (serve_size_bound test_now wide_entity None GET two_bytes resp) as (parts & _ & _ & Hb).
  - split; [reflexivity|]. split; [done|]. intros v [= <-]. by vm_compute.
  - exact Hs.
  - rewrite Hst. by right; left.
  - exists resp, parts. split; [exact Hs|]. exact Hb.
Defined.
