(* ===== verification/SameBytes.v ===== *)
(** * What [serve] looks at (src/serving.rs, src/range.rs, src/etag.rs)

    The answer is a function of bytes: of the first value of six header fields,
    and of the entity's length, time, tag and header fields.  Stated for two
    implementations of the [http] crate at once, so it also says that none of
    their other behaviour matters, and it lets concrete requests to any of them
    be decided on one that computes. *)

From S2P Require Import Prelude RustStd HttpApi Plain Range Etag Stream Entity Multipart.
From S2P Require Import Chunker Body Serving ServingSpec ServingProps.

(** The header fields of a request that [serve] reads. *)
Definition names_read `{Http} : list HeaderName :=
  [IF_MATCH; IF_NONE_MATCH; IF_MODIFIED_SINCE; IF_UNMODIFIED_SINCE; IF_RANGE; RANGE].

(** The first values of those fields have the same bytes, or are both absent. *)
Definition same_request {hA hB : Http} (a : @HeaderMap hA) (b : @HeaderMap hB) : Prop :=
  Forall2 (λ (k : @HeaderName hA) (k' : @HeaderName hB),
             as_bytes <$> hm_get a k = as_bytes <$> hm_get b k') names_read names_read.

Lemma same_request_refl `{Http} (hdrs : HeaderMap) : same_request hdrs hdrs.
Proof. by repeat constructor. Qed.

Definition same_method {hA hB : Http} (a : @Method hA) (b : @Method hB) : Prop :=
  (a = GET ↔ b = GET) ∧ (a = HEAD ↔ b = HEAD).

(** Header fields as text. *)
Definition text_of `{Http} (l : list (HeaderName * HeaderValue)) : list (bytes * bytes) :=
  prod_map name_as_str as_bytes <$> l.

Section decision.
Context `{Build} {hA hB : Http} {lA : HttpLaws (H:=hA)} {lB : HttpLaws (H:=hB)} `{!HttpDate}.

Lemma to_str_bytes (a : @HeaderValue hA) (b : @HeaderValue hB) : as_bytes a = as_bytes b → to_str a = to_str b.
Proof. intros Hv. by rewrite !to_str_spec, Hv. Qed.

Lemma same_get : same_method (GET (Http:=hA)) (GET (Http:=hB)).
Proof. split; [done|]. split; intros He; [destruct (GET_not_HEAD (H:=hA) He)|destruct (GET_not_HEAD (H:=hB) He)]. Qed.

(** Taking two headers apart together. *)
Lemma bytes_cases (a : option (@HeaderValue hA)) (b : option (@HeaderValue hB)) :
  as_bytes <$> a = as_bytes <$> b →
  (a = None ∧ b = None) ∨ ∃ x y, a = Some x ∧ b = Some y ∧ as_bytes x = as_bytes y.
Proof. destruct a, b; simpl; intros Hv; simplify_eq; [right; eauto 10|by left]. Qed.

Lemma parse_bytes (a : option (@HeaderValue hA)) (b : option (@HeaderValue hB)) n :
  as_bytes <$> a = as_bytes <$> b → parse a n = parse b n.
Proof.
  intros [[-> ->]|(x & y & -> & -> & Hv)]%bytes_cases; [done|].
  unfold parse. by rewrite (to_str_bytes x y Hv).
Qed.

Lemma parse_since_bytes ERR (a : @HeaderValue hA) (b : @HeaderValue hB) :
  as_bytes a = as_bytes b → parse_since ERR a = parse_since ERR b.
Proof. intros Hv. unfold parse_since. by rewrite (to_str_bytes a b Hv). Qed.

Context (etagA : option (@HeaderValue hA)) (etagB : option (@HeaderValue hB))
  (Htag : as_bytes <$> etagA = as_bytes <$> etagB)
  (a : @HeaderMap hA) (b : @HeaderMap hB) (Hreq : same_request a b).

(** The six fields. *)
Lemma same_fields :
  as_bytes <$> hm_get a IF_MATCH = as_bytes <$> hm_get b IF_MATCH ∧
  as_bytes <$> hm_get a IF_NONE_MATCH = as_bytes <$> hm_get b IF_NONE_MATCH ∧
  as_bytes <$> hm_get a IF_MODIFIED_SINCE = as_bytes <$> hm_get b IF_MODIFIED_SINCE ∧
  as_bytes <$> hm_get a IF_UNMODIFIED_SINCE = as_bytes <$> hm_get b IF_UNMODIFIED_SINCE ∧
  as_bytes <$> hm_get a IF_RANGE = as_bytes <$> hm_get b IF_RANGE ∧
  as_bytes <$> hm_get a RANGE = as_bytes <$> hm_get b RANGE.
Proof. unfold same_request, names_read in Hreq. rewrite !Forall2_cons in Hreq. naive_solver. Qed.

Lemma any_match_bytes : any_match etagA a = any_match etagB b.
Proof.
  destruct same_fields as (Hf & _). unfold any_match.
  destruct (bytes_cases _ _ Hf) as [[-> ->]|(x & y & -> & -> & Hv)]; [done|]. rewrite Hv.
  destruct (bytes_cases _ _ Htag) as [[-> ->]|(s & t & -> & -> & Ht)]; [done|]. by rewrite Ht.
Qed.

Lemma none_match_bytes : none_match etagA a = none_match etagB b.
Proof.
  destruct same_fields as (_ & Hf & _). unfold none_match.
  destruct (bytes_cases _ _ Hf) as [[-> ->]|(x & y & -> & -> & Hv)]; [done|]. rewrite Hv.
  destruct (bytes_cases _ _ Htag) as [[-> ->]|(s & t & -> & -> & Ht)]; [done|]. by rewrite Ht.
Qed.

Lemma parse_modified_bytes m : parse_modified_hdrs etagA a m = parse_modified_hdrs etagB b m.
Proof.
  destruct same_fields as (_ & _ & Hm & Hu & _). unfold parse_modified_hdrs.
  rewrite any_match_bytes, none_match_bytes. destruct m as [m|]; [|done].
  destruct (bytes_cases _ _ Hm) as [[-> ->]|(x & y & -> & -> & Hv)];
    [|rewrite (parse_since_bytes _ x y Hv)];
    (destruct (bytes_cases _ _ Hu) as [[-> ->]|(x' & y' & -> & -> & Hv')];
      [done|by rewrite (parse_since_bytes _ x' y' Hv')]).
Qed.

Lemma range_in_force_bytes :
  as_bytes <$> (range_after_if_range etagA a).1 = as_bytes <$> (range_after_if_range etagB b).1 ∧
  (range_after_if_range etagA a).2 = (range_after_if_range etagB b).2.
Proof.
  destruct same_fields as (_ & _ & _ & _ & Hif & Hr). unfold range_after_if_range.
  destruct (bytes_cases _ _ Hif) as [[-> ->]|(x & y & -> & -> & Hv)]; [done|]. rewrite Hv.
  destruct (_ || _); [|done].
  destruct (bytes_cases _ _ Htag) as [[-> ->]|(s & t & -> & -> & Ht)]; [done|]. rewrite Ht.
  by destruct (strong_eq _ _).
Qed.
End decision.

Section answers.
Context `{Build, Wakers} {hA hB : Http} {lA : HttpLaws (H:=hA)} {lB : HttpLaws (H:=hB)} `{!HttpDate}
  {EntA EntB D D' E E' : Type} {eA : Entity (H:=hA) EntA D E} {eB : Entity (H:=hB) EntB D' E'}.

(** Two entities that [serve] cannot tell apart but for their data. *)
Definition same_entity (x : EntA) (y : EntB) : Prop :=
  entity_len x = entity_len y ∧ last_modified x = last_modified y ∧
  text_of (entity_fields x) = text_of (entity_fields y).

Lemma each_part_text `{Http} l l' :
  text_of l = l' →
  each_part_headers l = concat ((λ kv : bytes * bytes, kv.1 ++ bs ": " ++ kv.2 ++ CRLF) <$> l').
Proof. intros <-. unfold each_part_headers, text_of. by rewrite <- list_fmap_compose. Qed.

Context (x : EntA) (y : EntB) (Hent : same_entity x y).

Lemma parts_headers_bytes rs incl : parts_headers x rs incl = parts_headers y rs incl.
Proof.
  destruct Hent as (Hl & _ & Hf). unfold parts_headers. rewrite Hl.
  assert (each_part_headers (if incl then entity_fields x else []) =
          each_part_headers (if incl then entity_fields y else [])) as ->; [|done].
  destruct incl; [|done]. by rewrite !(each_part_text _ _ eq_refl), Hf.
Qed.

Lemma range_answer_bytes incl parsed : range_answer x incl parsed = range_answer y incl parsed.
Proof.
  pose proof (proj1 Hent) as Hl. unfold range_answer.
  destruct parsed as [| |[|r [|r' rs]]]; try done; by rewrite parts_headers_bytes, Hl.
Qed.

Lemma decide_bytes etagA etagB mA mB (a : @HeaderMap hA) (b : @HeaderMap hB) :
  as_bytes <$> etagA = as_bytes <$> etagB → same_method mA mB → same_request a b →
  decide_answer etagA x mA a = decide_answer etagB y mB b.
Proof.
  intros Htag [Hget Hhead] Hreq. destruct Hent as (Hl & Hm & _). unfold decide_answer.
  assert ((mA ≠ GET ∧ mA ≠ HEAD) ↔ (mB ≠ GET ∧ mB ≠ HEAD)) as Hm' by (by rewrite Hget, Hhead).
  destruct (decide (mA ≠ GET ∧ mA ≠ HEAD)) as [Hne|He].
  { by rewrite decide_True by (by apply Hm'). }
  rewrite decide_False by (by intros ?%Hm').
  rewrite (parse_modified_bytes _ _ Htag a b Hreq), Hm.
  destruct (parse_modified_hdrs _ _ _) as [[[] []]|]; try done.
  destruct (range_in_force_bytes _ _ Htag a b Hreq) as [Hr ->].
  rewrite (parse_bytes _ _ _ Hr), Hl. destruct (parse _ _) as [p|]; [|done]. simpl.
  by rewrite range_answer_bytes.
Qed.

Lemma answer_len_bytes a : answer_len x a = answer_len y a.
Proof. destruct a; try done; [apply Hent|]. simpl. by rewrite parts_headers_bytes. Qed.

(** The header fields of an answer, as text. *)
Definition wire_fields `{Http} (l : list (HeaderName * bytes)) : list (bytes * bytes) :=
  prod_map name_as_str id <$> l.

Lemma wire_values `{HttpLaws} k l :
  field_values k l = (filter (λ kv : bytes * bytes, kv.1 = name_as_str k) (wire_fields l)).*2.
Proof.
  induction l as [|[k' t] l IH]; [done|]. unfold wire_fields, field_values in *.
  rewrite fmap_cons, !filter_cons. cbn [prod_map fst snd]. destruct (decide (k' = k)) as [->|Hne].
  - rewrite decide_True by done. csimpl. by rewrite IH.
  - by rewrite decide_False by (intros ?%name_as_str_inj; done).
Qed.

Lemma wire_text `{Http} l : wire_fields (text_fields l) = text_of l.
Proof. unfold wire_fields, text_fields, text_of. rewrite <- list_fmap_compose. by apply list_fmap_ext. Qed.

Lemma same_names :
  name_as_str (Http:=hA) <$> [ACCEPT_RANGES; ALLOW; CONTENT_LENGTH; CONTENT_RANGE; CONTENT_TYPE; DATE; ETAG; LAST_MODIFIED] =
  name_as_str (Http:=hB) <$> [ACCEPT_RANGES; ALLOW; CONTENT_LENGTH; CONTENT_RANGE; CONTENT_TYPE; DATE; ETAG; LAST_MODIFIED].
Proof.
  pose proof (header_names (HttpLaws:=lA)) as HA. pose proof (header_names (HttpLaws:=lB)) as HB.
  cbn [fmap list_fmap] in *.
  injection HA; injection HB; intros; congruence.
Qed.

Lemma base_fields_bytes now etagA etagB :
  as_bytes <$> etagA = as_bytes <$> etagB →
  wire_fields (base_fields now x etagA) = wire_fields (base_fields now y etagB).
Proof.
  intros Htag. destruct Hent as (_ & Hm & _). pose proof same_names as Hn. cbn [fmap list_fmap] in Hn.
  injection Hn as Har _ _ _ _ Hd He Hlm. unfold base_fields, wire_fields. rewrite Hm.
  rewrite !fmap_cons, !fmap_app. unfold prod_map. cbn [fst snd]. rewrite Har. f_equal. f_equal.
  - destruct (last_modified y); [|done]. csimpl. by rewrite Hd, Hlm.
  - destruct (bytes_cases _ _ Htag) as [[-> ->]|(v & w & -> & -> & Hv)]; [done|]. csimpl. by rewrite He, Hv.
Qed.

Lemma answer_fields_bytes now etagA etagB a :
  as_bytes <$> etagA = as_bytes <$> etagB →
  wire_fields (answer_fields now x etagA a) = wire_fields (answer_fields now y etagB a).
Proof.
  intros Htag. pose proof (base_fields_bytes now _ _ Htag) as Hb. destruct Hent as (Hl & _ & Hf).
  pose proof same_names as Hn. cbn [fmap list_fmap] in Hn. injection Hn as _ Hal Hcl Hcr Hct _ _ _.
  pose proof (answer_len_bytes a) as Hlen.
  assert (∀ incl : bool, wire_fields (if incl then text_fields (entity_fields x) else []) =
            wire_fields (if incl then text_fields (entity_fields y) else [])) as Htext
    by (intros []; [by rewrite !wire_text|done]).
  pose proof (Htext true : wire_fields (text_fields _) = wire_fields (text_fields _)) as Hwhole.
  unfold wire_fields in *.
  destruct a; cbn [answer_fields]; rewrite ?fmap_app, ?Hb, ?Hlen, ?Hl, ?Htext, ?Hwhole; try done; csimpl;
    unfold prod_map; cbn [fst snd id]; by rewrite ?Hal, ?Hcl, ?Hcr, ?Hct.
Qed.
End answers.

Section properties.
Context `{Build, Wakers} {hA hB : Http} {lA : HttpLaws (H:=hA)} {lB : HttpLaws (H:=hB)}
  `{!HttpDate, !HttpDateLaws} {EntA EntB D D' E E' : Type}
  `{!Buf D, !BufLaws D, !FromBoxError E, !Buf D', !BufLaws D', !FromBoxError E'}
  {eA : Entity (H:=hA) EntA D E} {eB : Entity (H:=hB) EntB D' E'} `{!Content EntA, !Content EntB}.

(** Requests that look the same are both within bounds. *)
Lemma same_request_ok now (x : EntA) (y : EntB) etagA etagB (a : @HeaderMap hA) (b : @HeaderMap hB) :
  same_entity x y → same_request a b → entity_etag y = Ret etagB → request_ok now x etagA a →
  request_ok now y etagB b.
Proof.
  intros (_ & Hm & _) Hreq He (_ & Hd & Hr). split; [done|]. split; [by unfold dates_ok in *; rewrite <- Hm|].
  intros v Hv. destruct (same_fields a b Hreq) as (_ & _ & _ & _ & _ & Hsame). rewrite Hv in Hsame.
  destruct (hm_get a RANGE) as [w|]; [|done]. injection Hsame as <-. by apply Hr.
Qed.

Lemma answer_body_bytes (x : EntA) (y : EntB) a :
  same_entity x y → content x = content y → answer_body x a = answer_body y a.
Proof.
  intros Hent Hc. destruct a; simpl; [done..| | |done]; unfold range_bytes; rewrite ?Hc; try done.
  rewrite (parts_headers_bytes x y Hent). generalize (parts_headers y rs with_headers). clear -Hc.
  induction rs as [|r rs IH]; intros [|h hs]; simpl; try done. rewrite IH. unfold range_bytes. by rewrite Hc.
Qed.

(** Requests that look the same to [serve] get the same answer. *)
Lemma serve_is_alike now (x : EntA) `{!EntityLaws (H:=hA) x} etag m (a b : @HeaderMap hA) ans :
  entity_etag x = Ret etag → dates_ok now x → same_request a b →
  (∀ v, hm_get b RANGE = Some v → 2 * len (as_bytes v) + 1 <= usize_max) →
  decide_answer etag x m b = Ret ans →
  ∃ resp, serve now x m a = Ret resp ∧ response_is now x etag m ans resp.
Proof.
  intros He Hd Hreq Hr Ha. refine (serve_is now x etag m a ans He Hd _ _).
  - intros v Hv. destruct (same_fields a b Hreq) as (_ & _ & _ & _ & _ & Hsame). rewrite Hv in Hsame.
    destruct (hm_get b RANGE) as [w|] eqn:Hw; [|done]. injection Hsame as ->. by apply Hr.
  - rewrite <- Ha. apply decide_bytes; [by split_and!|done|by split|done].
Qed.

(** C22: the answer of [serve] is a function of bytes: for two requests, to any
    two implementations of the [http] crate, whose methods agree and whose
    first values of six header fields have the same bytes, and two entities of
    the same length, time, tag, header fields and content, the responses have
    the same status, header fields with the same values under the same names,
    and bodies that stand for the same bytes.  No other header field matters,
    and of a field that is repeated only the first line. *)
Theorem serve_same_bytes (now : SystemTime) (x : EntA) (y : EntB)
    `{!EntityLaws (H:=hA) x, !EntityLaws (H:=hB) y} (etagA : option (@HeaderValue hA))
    (etagB : option (@HeaderValue hB)) (mA : @Method hA) (mB : @Method hB)
    (a : @HeaderMap hA) (b : @HeaderMap hB) (respA : @Response hA (@Body _ EntA D E)) :
  same_entity x y → content x = content y → as_bytes <$> etagA = as_bytes <$> etagB →
  same_method mA mB → same_request a b →
  entity_etag y = Ret etagB → request_ok now x etagA a → serve now x mA a = Ret respA →
  ∃ respB : @Response hB (@Body _ EntB D' E'), serve now y mB b = Ret respB ∧
    as_u16 (resp_status respA) = as_u16 (resp_status respB) ∧
    (∀ (k : @HeaderName hA) (k' : @HeaderName hB), name_as_str k = name_as_str k' →
       as_bytes <$> hm_get_all (resp_headers respA) k = as_bytes <$> hm_get_all (resp_headers respB) k') ∧
    ∀ cx, ∃ bs, body_gives x cx (resp_body respA) bs ∧ body_gives y cx (resp_body respB) bs.
Proof.
  intros Hent Hc Htag Hm Hreq He Hok Hs. pose proof (same_request_ok now x y etagA etagB a b Hent Hreq He Hok) as Hok'.
  destruct (serve_decided _ _ _ _ _ _ Hok Hs) as [ans Ha].
  pose proof (serve_inv _ _ _ _ _ _ _ Hok Hs Ha) as (Hst & Hh & Hb).
  rewrite (decide_bytes x y Hent etagA etagB mA mB a b Htag Hm Hreq) in Ha.
  destruct Hok' as (_ & Hd' & Hr').
  destruct (serve_is now y etagB mB b ans He Hd' Hr' Ha) as (respB & Hs' & Hst' & Hh' & Hb').
  exists respB. split; [done|]. split; [congruence|]. split.
  - intros k k' Hk. rewrite Hh, Hh', !wire_values, Hk. by rewrite (answer_fields_bytes x y Hent now etagA etagB).
  - intros cx. exists (if bool_decide (mA = HEAD) && answer_serves ans then [] else answer_body x ans).
    split; [apply Hb|]. specialize (Hb' cx).
    assert (bool_decide (mA = HEAD) = bool_decide (mB = HEAD)) as -> by (apply bool_decide_ext, Hm).
    by rewrite (answer_body_bytes x y ans Hent Hc).
Qed.
End properties.

(** ** A field on two lines *)

#[local] Existing Instances debug_build plain_http plain_http_laws plain_date plain_date_laws
  plain_buf plain_buf_laws mem_ops mem_content mem_laws box_error_self test_wakers.

(** The second tag would match. *)
Definition two_lines : @HeaderMap plain_http :=
  test_headers [(bs "if-none-match", print_tag (Tag false (bs "v0"))); (bs "if-none-match", print_tag test_tag);
                (bs "accept", bs "*/*")].
Definition first_line : @HeaderMap plain_http :=
  test_headers [(bs "if-none-match", print_tag (Tag false (bs "v0")))].

Lemma serve_same_bytes_witness :
  ∃ resp resp', serve test_now test_entity GET two_lines = Ret resp ∧
    serve test_now test_entity GET first_line = Ret resp' ∧
    as_u16 (resp_status resp) = as_u16 (resp_status resp') ∧ as_u16 (resp_status resp) = 200.
Proof.
  assert (∃ resp, serve test_now test_entity GET two_lines = Ret resp ∧ as_u16 (resp_status resp) = 200)
    as (resp & Hs & Hst) by (eexists; split; reflexivity).
  destruct (serve_same_bytes test_now test_entity test_entity test_etag test_etag GET GET two_lines first_line resp)
    as (resp' & Hs' & Hst' & _).
  - by split_and!.
  - reflexivity.
  - reflexivity.
  - by split.
  - by repeat constructor.
  - reflexivity.
  - by apply test_request_ok.
  - exact Hs.
  - exists resp, resp'. split; [exact Hs|]. split; [exact Hs'|]. split; [exact Hst'|exact Hst].
Defined.
