(* ===== verification/Preconditions.v ===== *)
(** * Conditional requests as RFC 7232 specifies them

    [rfc7232_answer] evaluates the four conditional headers of a request in the
    order of section 6 of the RFC, on tags and times instead of header text.
    The theorem relates [serve] to it. *)

From S2P Require Import Prelude RustStd HttpApi Plain Range Etag EtagGrammar Stream Entity Multipart.
From S2P Require Import Chunker Body Serving ServingSpec ServingProps.

(** ** The specification *)

(** The value of an [If-Match] or [If-None-Match] header. *)
Inductive tag_list :=
  | AnyTag
  | TagList (ts : list entity_tag).

(** A date header is absent, has no date, or has one. *)
Record preconditions := mk_preconditions {
  if_match : option tag_list;
  if_none_match : option tag_list;
  if_unmodified_since : option (option SystemTime);
  if_modified_since : option (option SystemTime)
}.

(** Whether the list has the tag of the entity, by one of the comparisons. *)
Definition selects (matches : entity_tag → entity_tag → bool) (t : option entity_tag) (l : tag_list) : bool :=
  match l, t with
  | AnyTag, _ => true
  | TagList ts, Some t => existsb (λ u, matches u t) ts
  | TagList _, None => false
  end.

(** Whether an entity last modified at [m] was modified after the date; a header
    without a date is ignored (sections 3.3 and 3.4). *)
Definition modified_after (m : option SystemTime) (d : option (option SystemTime)) : bool :=
  match m, d with Some m, Some (Some d) => d <? m | _, _ => false end.

Definition not_modified_after (m : option SystemTime) (d : option (option SystemTime)) : bool :=
  match m, d with Some m, Some (Some d) => m <=? d | _, _ => false end.

(** Section 6, for [GET] without [Range], where [m] is the date of the last
    modification. *)
Definition rfc7232_answer (t : option entity_tag) (m : option SystemTime) (p : preconditions) : answer :=
  let failed :=
    match if_match p with
    | Some l => negb (selects strong_match t l)
    | None => modified_after m (if_unmodified_since p)
    end in
  let unchanged :=
    match if_none_match p with
    | Some l => selects weak_match t l
    | None => not_modified_after m (if_modified_since p)
    end in
  if failed then APreconditionFailed else if unchanged then ANotModified else AWhole.

(** The text of such a header: any list of the grammar [tag_list_text]. *)
Inductive means : bytes → tag_list → Prop :=
  | means_any : means (bs "*") AnyTag
  | means_tags s ts : tag_list_text s ts → means s (TagList ts).

(** The first date header that is evaluated and has no date.
    [If-Unmodified-Since] is evaluated unless [If-Match] fails, and
    [If-Modified-Since] without an [If-None-Match]. *)
Definition bad_date (t : option entity_tag) (m : option SystemTime) (p : preconditions) : option bytes :=
  if bool_decide (m = None) then None
  else if bool_decide (if_unmodified_since p = Some None) &&
          match if_match p with Some l => selects strong_match t l | None => true end
  then Some (bs "Unparseable If-Unmodified-Since")
  else if bool_decide (if_modified_since p = Some None) && bool_decide (if_none_match p = None)
  then Some (bs "Unparseable If-Modified-Since")
  else None.

Section headers.
Context `{Http, HttpDate}.

(** The headers of a request. *)
Definition has_tags (h : option HeaderValue) (l : option tag_list) : Prop :=
  match h, l with
  | None, None => True
  | Some v, Some l => means (as_bytes v) l
  | _, _ => False
  end.

Definition says_date (v : HeaderValue) : option SystemTime := s ← to_str v; parse_http_date s.

Definition has_preconditions (hdrs : HeaderMap) (p : preconditions) : Prop :=
  has_tags (hm_get hdrs IF_MATCH) (if_match p) ∧
  has_tags (hm_get hdrs IF_NONE_MATCH) (if_none_match p) ∧
  says_date <$> hm_get hdrs IF_UNMODIFIED_SINCE = if_unmodified_since p ∧
  says_date <$> hm_get hdrs IF_MODIFIED_SINCE = if_modified_since p.
End headers.

(** ** Lemmas *)

Section lemmas.
Context `{Build, Http}.
Context (etag : option HeaderValue) (t : option entity_tag) (hdrs : HeaderMap).
Context (Het : as_bytes <$> etag = print_tag <$> t).

(** The two functions of [Etag] on the header of a list. *)
Lemma match_selects (v : HeaderValue) l :
  means (as_bytes v) l →
  (hm_get hdrs IF_MATCH = Some v → any_match etag hdrs = Ok (selects strong_match t l)) ∧
  (hm_get hdrs IF_NONE_MATCH = Some v → none_match etag hdrs = Some (negb (selects weak_match t l))).
Proof.
  intros Hl. inversion Hl as [Hstar|s ts Hts Hs]; subst.
  - unfold any_match, none_match. split; intros ->; by rewrite decide_True.
  - pose proof (text_not_star _ _ Hts) as Hstar.
    destruct etag as [e|], t as [t'|]; try done.
    + injection Het as Ht. destruct (tag_text_match e v t' ts hdrs Ht Hstar Hts) as [Hn Ha].
      split; intros Hv; [by apply Ha|by apply Hn].
    + unfold any_match, none_match. split; intros ->; by rewrite decide_False.
Qed.

Context `{!HttpDate}.

(** A date header as the code consults it. *)
Lemma date_condition (m : option SystemTime) d (h : option HeaderValue) ERR (f : SystemTime → SystemTime → bool) :
  says_date <$> h = d →
  match m, h with
  | Some m, Some since => and_then (parse_since ERR since) (λ t, Ok (f m t))
  | _, _ => Ok false
  end =
  match m, d with
  | Some m, Some (Some d) => Ok (f m d)
  | Some _, Some None => Err ERR
  | _, _ => Ok false
  end.
Proof.
  intros <-. destruct m as [m|], h as [v|]; [|done..]. simpl. unfold parse_since, says_date.
  destruct (to_str v) as [s|]; [|done]. simpl. by destruct (parse_http_date s).
Qed.

(** The two conditions as the code evaluates them. *)
Lemma parse_modified_hdrs_spec (m : option SystemTime) p :
  has_preconditions hdrs p →
  parse_modified_hdrs etag hdrs m =
    match bad_date t m p with
    | Some msg => Err msg
    | None =>
        Ok (match if_match p with Some l => negb (selects strong_match t l) | None => false end
              || modified_after m (if_unmodified_since p),
            match if_none_match p with
            | Some l => selects weak_match t l
            | None => not_modified_after m (if_modified_since p)
            end)
    end.
Proof.
  intros (Him & Hinm & Hius & Hims). unfold parse_modified_hdrs.
  assert (any_match etag hdrs = Ok (match if_match p with Some l => selects strong_match t l | None => true end)) as ->.
  { destruct (if_match p) as [l|].
    - destruct (hm_get hdrs IF_MATCH) as [v|] eqn:Hv; [|done].
      by apply (match_selects v l Him).
    - unfold any_match. by destruct (hm_get hdrs IF_MATCH). }
  assert (none_match etag hdrs = match if_none_match p with
    Some l => Some (negb (selects weak_match t l)) | None => None end) as ->.
  { destruct (if_none_match p) as [l|].
    - destruct (hm_get hdrs IF_NONE_MATCH) as [v|] eqn:Hv; [|done].
      by apply (match_selects v l Hinm).
    - unfold none_match. by destruct (hm_get hdrs IF_NONE_MATCH). }
  cbn [and_then]. rewrite (date_condition m _ _ _ Z.gtb Hius), (date_condition m _ _ _ Z.leb Hims).
  unfold bad_date, modified_after, not_modified_after.
  destruct m as [m|]; [|by destruct (if_match p) as [l|], (if_none_match p) as [l'|]; simpl;
    repeat match goal with |- context [selects ?f t ?x] => destruct (selects f t x) end].
  destruct (if_match p) as [l|], (if_none_match p) as [l'|], (if_unmodified_since p) as [[u|]|],
    (if_modified_since p) as [[s|]|]; simpl; rewrite ?Z.gtb_ltb;
    repeat match goal with |- context [selects ?f t ?x] => destruct (selects f t x) end; done.
Qed.
End lemmas.

Section properties.
Context `{Build, Wakers, Entity Ent D E, !Buf D, !Content Ent, !HttpLaws, !HttpDate, !HttpDateLaws, !BufLaws D,
          !FromBoxError E}.

(** The date of the last modification, as a response says it. *)
Definition sent_date (now : SystemTime) (ent : Ent) : option SystemTime :=
  (λ m, floor_secs (Z.min m now)) <$> last_modified ent.

(** C24: a conditional [GET] without [Range], whose tag lists are of the grammar,
    and with any date headers, is answered as RFC 7232 says with three
    exceptions: a date header that is evaluated and has no date is answered 400,
    where the RFC has it ignored; [If-Unmodified-Since] is evaluated even next to
    an [If-Match], where the RFC has it ignored, so that a request whose
    [If-Match] matches can still get 412; and dates are compared with the
    unrounded modification time instead of the [Last-Modified] that is sent.
    Where none of these matters, the last because the modification time is a
    whole number of seconds and not in the future, it is the answer of the RFC. *)
Theorem serve_preconditions (now : SystemTime) (ent : Ent) `{!EntityLaws ent} (etag : option HeaderValue)
    (t : option entity_tag) (hdrs : HeaderMap) (p : preconditions) :
  request_ok now ent etag hdrs → as_bytes <$> etag = print_tag <$> t →
  has_preconditions hdrs p → hm_get hdrs RANGE = None →
  let m := last_modified ent in
  let a := match bad_date t m p with
           | Some msg => ABadRequest msg
           | None => if bool_decide (is_Some (if_match p)) && modified_after m (if_unmodified_since p)
                     then APreconditionFailed else rfc7232_answer t m p
           end in
  (∃ resp, serve now ent GET hdrs = Ret resp ∧ as_u16 (resp_status resp) = answer_status a ∧
     ∀ cx, body_gives ent cx (resp_body resp) (answer_body ent a)) ∧
  (if_unmodified_since p ≠ Some None → if_modified_since p ≠ Some None →
   (if_match p = None ∨ if_unmodified_since p = None) →
   (∀ m, last_modified ent = Some m → m <= now ∧ floor_secs m = m) →
   a = rfc7232_answer t (sent_date now ent) p).
Proof.
  intros (He & Hd & Hmem) Het Hh Hr m a. split.
  - assert (decide_answer etag ent GET hdrs = Ret a) as Ha.
    { rewrite decide_get. fold m. rewrite (parse_modified_hdrs_spec etag t hdrs Het m p Hh).
      assert ((range_after_if_range etag hdrs).1 = None) as ->
        by (unfold range_after_if_range; rewrite Hr; by repeat case_match).
      subst a. destruct (bad_date t m p); [done|]. unfold rfc7232_answer. destruct (if_match p) as [l|]; simpl;
        [destruct (selects strong_match t l)|]; simpl;
        destruct (modified_after _ _); simpl; try done; by destruct (if_none_match p); case_match. }
    destruct (serve_is now ent etag GET hdrs a He Hd Hmem Ha) as (resp & Hs & Hst & _ & Hb).
    exists resp. split; [done|]. split; [done|]. intros cx. specialize (Hb cx).
    by rewrite bool_decide_false in Hb by apply GET_not_HEAD.
  - intros Hu Hi Hmu Hm. assert (sent_date now ent = m) as ->.
    { unfold sent_date. subst m. destruct (last_modified ent) as [m|]; [|done]. simpl.
      destruct (Hm m eq_refl) as [Hle Hf]. by rewrite Z.min_l, Hf. }
    subst a. unfold bad_date. rewrite !(bool_decide_false (_ = Some None)) by done. simpl.
    assert (bool_decide (is_Some (if_match p)) && modified_after m (if_unmodified_since p) = false) as ->.
    { destruct Hmu as [->| ->]; [done|]. rewrite andb_comm. by destruct m. }
    by case_bool_decide.
Qed.
End properties.

(** ** A concrete request *)

#[local] Existing Instances debug_build plain_http plain_http_laws plain_date plain_date_laws
  plain_buf plain_buf_laws mem_ops mem_content mem_laws box_error_self test_wakers.

(** The entity has the tag ["v1"] and was modified after 5 s. *)
Definition test_preconditions : preconditions :=
  mk_preconditions (Some (TagList [Tag false (bs "v1")])) None (Some (Some (5 * NANOS_PER_SEC))) None.

Definition conditional_request : @HeaderMap plain_http :=
  test_headers [(bs "if-match", print_tag (Tag false (bs "v1")));
                (bs "if-unmodified-since", @fmt_http_date plain_date (5 * NANOS_PER_SEC))].

(** No date. *)
Definition undated_request : @HeaderMap plain_http := test_headers [(bs "if-modified-since", bs "yesterday")].

Lemma serve_preconditions_witness :
  (∃ resp, serve test_now test_entity GET conditional_request = Ret resp ∧ as_u16 (resp_status resp) = 412 ∧
     rfc7232_answer (Some test_tag) (Some 5500000000) test_preconditions = AWhole) ∧
  ∃ resp, serve test_now test_entity GET undated_request = Ret resp ∧ as_u16 (resp_status resp) = 400.
Proof.
  split.
  - destruct (serve_preconditions test_now test_entity test_etag (Some test_tag) conditional_request
                test_preconditions) as [(resp & Hs & Hst & _) _].
    + by apply test_request_ok.
    + reflexivity.
    + split; [|split_and!; reflexivity]. apply means_tags.
      apply (text_cons (Tag false (bs "v1")) [] []); [by_compute|constructor..].
    + reflexivity.
    + exists resp. split; [exact Hs|]. split; [exact Hst|]. reflexivity.
  - destruct (serve_preconditions test_now test_entity test_etag (Some test_tag) undated_request
                (mk_preconditions None None None (Some None))) as [(resp & Hs & Hst & _) _].
    + by apply test_request_ok.
    + reflexivity.
    + by split_and!.
    + reflexivity.
    + exists resp. split; [exact Hs|exact Hst].
Defined.
