(* ===== verification/FuzzTargets.v ===== *)
(** * The fuzz targets (fuzz/fuzz_targets/)

    What libFuzzer can find with them, answered for every input at once. *)

From S2P Require Import Prelude RustStd HttpApi Plain ContentCoding Range Stream Entity Multipart.
From S2P Require Import Chunker Body Serving ServingSpec ServingProps ServingTypes.

(** The rest of [http] they use: a request builder, which fails in [body] if a
    header value was not valid. *)
Class FuzzHttp `{Http} := {
  OPTIONS : Method;
  RequestBuilder : Type;
  request_builder : RequestBuilder;
  builder_method : RequestBuilder → Method → RequestBuilder;
  builder_header_str : RequestBuilder → HeaderName → bytes → RequestBuilder;
  request_body : RequestBuilder → option (Method * HeaderMap)
}.

(** A request that was built has the method and the header fields it was
    given. *)
Class FuzzHttpLaws `{FuzzHttp} : Prop := {
  request_body_spec : ∀ m l req,
    request_body (foldl (λ b kv, builder_header_str b kv.1 kv.2) (builder_method request_builder m) l)
      = Some req →
    req.1 = m ∧ ∀ k, as_bytes <$> hm_get_all req.2 k =
      (filter (λ kv : HeaderName * bytes, kv.1 = k) l).*2
}.

(** ** should_gzip.rs *)

Definition fuzz_should_gzip `{Build, FuzzHttp} (data : bytes) : outcome unit :=
  match value_from_bytes data with
  | None => Ret tt
  | Some value =>
      let map := hm_insert hm_new ACCEPT_ENCODING value in
      _ ← should_gzip map; Ret tt
  end.

(** ** serve_nonempty.rs *)

Definition DIGITS : bytes := bs "01234567890123456789012345678901234567890123456789012345678901234567890123456789".
Definition BODY : bytes := DIGITS ++ DIGITS ++ DIGITS.

Record FakeEntity `{Http} := mk_FakeEntity {
  fake_etag : option HeaderValue;
  fake_last_modified : SystemTime
}.
Arguments mk_FakeEntity {_}.
Arguments fake_etag {_}.
Arguments fake_last_modified {_}.

Inductive Verb := Get | Head | Options.

Record Req := mk_Req {
  verb : Verb;
  if_unmodified_since : option bytes;
  if_modified_since : option bytes;
  req_range : option bytes;
  if_range : option bytes
}.

Definition SOME_DATE_STR : bytes := bs "Sun, 06 Nov 1994 08:49:37 GMT".

#[local] Existing Instance box_error_self.

Section targets.
Context `{Build, Wakers, FuzzHttp, !HttpDate} {D : Type} `{!Buf D}.

Definition to_method (v : Verb) : Method :=
  match v with Get => GET | Head => HEAD | Options => OPTIONS end.

(** [get_range] slices [BODY], so its caller keeps to [len]. *)
#[export] Instance fake_entity : Entity FakeEntity D BoxError := {|
  entity_len _ := len BODY;
  get_range _ r := stream_of_list [Ready (Some (Ok (from_static_slice (slice BODY (start r) (end_ r)))))];
  add_headers _ m := hm_insert m CONTENT_TYPE (from_static (bs "application/octet-stream"));
  entity_etag e := Ret (fake_etag e);
  last_modified e := Some (fake_last_modified e)
|}.

Definition SOME_DATE : outcome SystemTime := unwrap (parse_http_date SOME_DATE_STR).

Definition ENTITY_STRONG_ETAG : outcome FakeEntity :=
  last_modified ← SOME_DATE;
  Ret (mk_FakeEntity (Some (from_static ([DQUOTE] ++ bs "foo" ++ [DQUOTE]))) last_modified).

Definition header_if (b : RequestBuilder) (name : HeaderName) (v : option bytes) : RequestBuilder :=
  match v with Some v => builder_header_str b name v | None => b end.

Definition build_request (data : Req) : option (Method * HeaderMap) :=
  let builder := builder_method request_builder (to_method (verb data)) in
  let builder := header_if builder IF_UNMODIFIED_SINCE (if_unmodified_since data) in
  let builder := header_if builder IF_MODIFIED_SINCE (if_modified_since data) in
  let builder := header_if builder RANGE (req_range data) in
  let builder := header_if builder IF_RANGE (if_range data) in
  request_body builder.

(** The loop over the body: [panic!] on [Pending] and on an error. *)
Fixpoint poll_all (fuel : nat) (cx : Waker) (body : Body FakeEntity D BoxError) : outcome unit :=
  match fuel with
  | O => Panic OutOfFuel
  | S fuel =>
      '(item, body) ← poll_frame cx body;
      match item with
      | Pending => Panic AssertFailed
      | Ready (Some (Err _)) => Panic AssertFailed
      | Ready (Some (Ok _)) => poll_all fuel cx body
      | Ready None => Ret tt
      end
  end.

(** [waker] is [noop_waker()]. *)
Definition fuzz_serve_nonempty (fuel : nat) (now : SystemTime) (waker : Waker) (data : Req) : outcome unit :=
  match build_request data with
  | None => Ret tt
  | Some (method, headers) =>
      ent ← ENTITY_STRONG_ETAG;
      response ← serve (D:=D) (E:=BoxError) now ent method headers;
      poll_all fuel waker (resp_body response)
  end.
End targets.

(** ** Bodies that are always ready *)

Section ready.
Context `{Build, Wakers, Entity Ent D E, !Buf D, !FromBoxError E}.

Definition never_pending (s : Stream D E) : Prop := ∀ n, s n ≠ Pending.

(** An entity none of whose streams is ever pending. *)
Definition entity_ready (ent : Ent) : Prop := ∀ r, never_pending (get_range ent r).

Definition body_ready (b : Body Ent D E) : Prop :=
  match body_stream b with
  | Once _ => True
  | ExactLen s => never_pending (els_stream s)
  | Multipart s =>
      entity_ready (entity s) ∧
      match cur s with Some c => never_pending (els_stream c) | None => True end
  | Chunker _ => False
  end.

Lemma never_pending_tail s : never_pending s → never_pending (stream_tail s).
Proof. intros Hs n. apply Hs. Qed.

Lemma exact_ready (s : ExactLenStream D E) item s' :
  never_pending (els_stream s) → poll_next s = Ret (item, s') →
  item ≠ Pending ∧ never_pending (els_stream s').
Proof.
  intros Hs. unfold poll_next, exact_len_poll. pose proof (Hs 0%nat). pose proof (never_pending_tail _ Hs).
  repeat case_match; intros [= <- <-]; done.
Qed.

(** A turn of a multipart body, up to the state of its numbers. *)
Definition ms_ready (s : MultipartStream Ent D E) : Prop := body_ready (mk_Body (Multipart s)).

Lemma state_ready (s s' : MultipartStream Ent D E) item :
  ms_ready s → multipart_state s = Ret (item, s') → item ≠ Some Pending ∧ ms_ready s'.
Proof.
  unfold ms_ready, body_ready, multipart_state. simpl. intros [He Hc] Hs.
  repeat case_hyp Hs; outcome_inv; simpl; naive_solver.
Qed.

Lemma turn_ready (s s' : MultipartStream Ent D E) item :
  ms_ready s → multipart_turn s = Ret (item, s') → item ≠ Some Pending ∧ ms_ready s'.
Proof.
  intros Hs. unfold multipart_turn. destruct (cur s) as [c|] eqn:Hcur; [|by apply state_ready].
  pose proof Hs as [He Hc]. simpl in He, Hc. rewrite Hcur in Hc. intros Ht.
  apply bind_Ret_inv in Ht as ([it c'] & Hp & Ht). destruct (exact_ready _ _ _ Hc Hp) as [Hit Hc'].
  destruct it as [[[d|e]|]|]; [| | |done]; [outcome_inv; split; [done|by split]..|].
  apply bind_Ret_inv in Ht as (st & _ & Ht). eapply state_ready; [|exact Ht]. by split.
Qed.

Lemma multipart_ready (s s' : MultipartStream Ent D E) item :
  ms_ready s → poll_next s = Ret (item, s') → item ≠ Pending ∧ ms_ready s'.
Proof.
  unfold poll_next, multipart_poll. generalize 2%nat. intros fuel. revert s.
  induction fuel as [|fuel IH]; intros s Hs Hp; [done|]. cbn [multipart_loop] in Hp.
  apply bind_Ret_inv in Hp as ([it s1] & Ht & Hp). destruct (turn_ready _ _ _ Hs Ht) as [Hit Hs1].
  destruct it as [it|]; [|by apply (IH s1)]. injection Hp as <- <-. split; [congruence|done].
Qed.

Lemma poll_ready cx (b b' : Body Ent D E) item :
  body_ready b → poll_next (Pollable:=body_pollable cx) b = Ret (item, b') →
  item ≠ Pending ∧ body_ready b'.
Proof.
  intros Hb Hp. destruct b as [st]. destruct (body_stream_poll_next cx st) as [[it st']|] eqn:Hst.
  - rewrite (poll_body cx _ _ _ Hst) in Hp. injection Hp as <- <-.
    destruct st as [c|s|s|l]; simpl in Hst; [| | |done].
    + by injection Hst as <- <-.
    + apply bind_Ret_inv in Hst as ([i s'] & Hs & [= <- <-]). exact (exact_ready _ _ _ Hb Hs).
    + apply bind_Ret_inv in Hst as ([i s'] & Hs & [= <- <-]). exact (multipart_ready _ _ _ Hb Hs).
  - unfold poll_next, body_pollable, poll_frame in Hp. simpl in Hp. by rewrite Hst in Hp.
Qed.
End ready.

(** The bodies [serve] makes of such an entity. *)
Lemma answer_ready `{Build, Wakers, Entity Ent D E, !Buf D} (ent : Ent) a :
  entity_ready ent → body_ready (answer_stream (D:=D) (E:=E) ent a).
Proof. intros He. destruct a; done || apply He. Qed.

(** ** The fuzz target's entity and requests *)

Section fuzz.
Context `{Build, Wakers, FuzzHttpLaws, !HttpLaws, !HttpDate, !HttpDateLaws} {D : Type} `{!Buf D, !BufLaws D}.

#[export] Instance fake_content : Content FakeEntity := λ _, BODY.

(** The fuzz target's entity keeps the contract. *)
#[export] Instance fake_laws (e : FakeEntity) : EntityLaws (D:=D) (E:=BoxError) e.
Proof.
  split.
  - by vm_compute.
  - done.
  - intros r Hr Hl. exists (range_bytes e r), Done, (stream_tail (stream_tail (get_range e r))).
    split; [|done]. eapply yields_chunk_eq with (bs' := []); [done|by apply yields_done|].
    by rewrite app_nil_r, buf_bytes_static.
  - apply insert_header_laws. not_reserved.
Qed.

Lemma fake_ready (e : FakeEntity) : entity_ready (D:=D) (E:=BoxError) e.
Proof. by intros r [|[|n]]. Qed.

Lemma fake_never_fails (e : FakeEntity) : never_fails (D:=D) (E:=BoxError) e.
Proof.
  intros r Hr Hl. eexists _, _. eapply yields_chunk_eq with (bs' := []); [done|by apply yields_done|done].
Qed.

(** The header fields of the request. *)
Definition fields_if (name : HeaderName) (v : option bytes) : list (HeaderName * bytes) :=
  match v with Some v => [(name, v)] | None => [] end.

Lemma build_request_spec data req :
  build_request data = Some req →
  req.1 = to_method (verb data) ∧
  ∀ v, hm_get req.2 RANGE = Some v → req_range data = Some (as_bytes v).
Proof.
  intros Hb. set (l := fields_if IF_UNMODIFIED_SINCE (if_unmodified_since data) ++
    fields_if IF_MODIFIED_SINCE (if_modified_since data) ++ fields_if RANGE (req_range data) ++
    fields_if IF_RANGE (if_range data)).
  assert (∀ b n v, header_if b n v = foldl (λ b kv, builder_header_str b kv.1 kv.2) b (fields_if n v)) as Hif
    by (by intros ?? []).
  destruct (request_body_spec (to_method (verb data)) l req) as [Hm Hh].
  { unfold l. rewrite !foldl_app, <- !Hif. exact Hb. }
  split; [done|]. intros v Hv. specialize (Hh RANGE).
  assert ((filter (λ kv : HeaderName * bytes, kv.1 = RANGE) l).*2 = option_list (req_range data)) as Hl.
  { unfold l. rewrite !filter_app.
    assert (IF_UNMODIFIED_SINCE ≠ RANGE) by name_ne. assert (IF_MODIFIED_SINCE ≠ RANGE) by name_ne.
    assert (IF_RANGE ≠ RANGE) by name_ne.
    assert (∀ k o, k ≠ RANGE → filter (λ kv : HeaderName * bytes, kv.1 = RANGE) (fields_if k o) = []) as Hno
      by (intros k []; simpl; intros; rewrite ?filter_cons, ?decide_False by done; done).
    rewrite (Hno IF_UNMODIFIED_SINCE), (Hno IF_MODIFIED_SINCE), (Hno IF_RANGE), app_nil_r by done. simpl.
    destruct (req_range data); simpl; [|done]. by rewrite filter_cons, decide_True. }
  rewrite Hl in Hh. rewrite hm_get_head in Hv. destruct (hm_get_all req.2 RANGE) as [|v' vs]; [done|].
  injection Hv as ->. destruct (req_range data); [|done]. simpl in Hh. by injection Hh as -> _.
Qed.

(** Where the body ends well, so does the loop. *)
Lemma poll_all_drain fuel cx (b b' : Body FakeEntity D BoxError) got :
  body_ready b → drain (Pollable0:=body_pollable cx) fuel b = Ret (Some (got, Done, b')) →
  poll_all fuel cx b = Ret tt.
Proof.
  revert b got. induction fuel as [|fuel IH]; intros b got Hb Hd; [done|]. cbn [drain poll_all] in *.
  apply bind_Ret_inv in Hd as ([item b1] & Hp & Hd).
  destruct (poll_ready cx _ _ _ Hb Hp) as [Hit Hb1].
  unfold poll_next, body_pollable in Hp. apply bind_Ret_inv in Hp as ([frame b2] & Hp & [= <- <-]).
  rewrite Hp, bind_Ret_l. destruct frame as [[[[d]|e]|]|]; [|done|done|done].
  apply bind_Ret_inv in Hd as (o & Hd & Ho). destruct o as [[[got' o'] b'']|]; [|done].
  injection Ho as _ -> ->. by apply (IH b2 got').
Qed.

(** C38: the fuzz target never fails but where [serve] overflows: for every
    request the fuzzer can make, it ends, and no body is pending, fails, or
    goes on for ever, unless the range names the last position [u64::MAX] and
    overflow is checked (as [cargo fuzz] does). *)
Theorem fuzz_serve_nonempty_passes (now t : SystemTime) (cx : Waker) (data : Req) :
  parse_http_date SOME_DATE_STR = Some t → http_date_range t → http_date_range now →
  (∀ v, req_range data = Some v → 2 * len v + 1 <= usize_max) →
  (∃ fuel, ∀ n, (fuel <= n)%nat → fuzz_serve_nonempty (D:=D) n now cx data = Ret tt) ∨
  (overflow_checks = true ∧
   ∃ v es e p q, req_range data = Some (as_bytes v) ∧ range_elements (Some v) = Some es ∧ e ∈ es ∧
     trim_start_matches is_ows e = p ++ x2d :: q ∧ u64_from_str q = Some U64_MAX).
Proof.
  intros Ht Hdt Hdn Hlen. unfold fuzz_serve_nonempty.
  destruct (build_request data) as [[m hdrs]|] eqn:Hb; [|by left; exists 0%nat].
  destruct (build_request_spec _ _ Hb) as [_ Hr]. cbn [fst snd] in Hr.
  set (ent := mk_FakeEntity (Some (from_static ([DQUOTE] ++ bs "foo" ++ [DQUOTE]))) t).
  assert (ENTITY_STRONG_ETAG = Ret ent) as ->
    by (unfold ENTITY_STRONG_ETAG, SOME_DATE; by rewrite Ht).
  assert (request_ok (D:=D) (E:=BoxError) now ent (fake_etag ent) hdrs) as Hreq.
  { split; [done|]. split; [by split|]. intros v Hv. by apply Hlen, Hr. }
  destruct (serve_total now ent _ m hdrs Hreq) as [[resp Hs]|(Hc & v & es & e & p & q & Hv & Hrest)].
  - left. destruct (serve_decided _ _ _ _ _ _ Hreq Hs) as [a Ha].
    destruct (serve_shape_inv _ _ _ _ _ _ _ Hreq Hs Ha) as [Hshape _].
    destruct (serve_inv _ _ _ _ _ _ _ Hreq Hs Ha) as (_ & _ & Hg).
    destruct (Hg cx) as (_ & _ & got & o & b' & fuel & Hd & _ & _ & Ho).
    rewrite (Ho (fake_never_fails ent)) in Hd. apply drain_yields, yields_drain in Hd as [fuel' Hd].
    exists fuel'. intros n Hn. rewrite bind_Ret_l, Hs, bind_Ret_l.
    apply (poll_all_drain n cx _ b' got); [|by apply Hd].
    rewrite (proj2 (proj2 Hshape)). case_match; [done|]. apply answer_ready, fake_ready.
  - right. split; [done|]. exists v, es, e, p, q. split; [by apply Hr|done].
Qed.

(** So does the other one, on every input. *)
Lemma fuzz_should_gzip_passes (data : bytes) : fuzz_should_gzip data = Ret tt.
Proof.
  unfold fuzz_should_gzip. destruct (value_from_bytes data); [|done].
  by destruct (should_gzip_total (hm_insert hm_new ACCEPT_ENCODING h)) as [b ->].
Qed.
End fuzz.

(** ** Concrete inputs *)

#[local] Existing Instances debug_build plain_http plain_http_laws plain_buf plain_buf_laws test_wakers.

#[local] Instance plain_fuzz : FuzzHttp := {|
  OPTIONS := bs "OPTIONS";
  RequestBuilder := option (bytes * list (bytes * bytes));
  request_builder := Some (bs "GET", []);
  builder_method b m := (λ r, (m, r.2)) <$> b;
  builder_header_str b k v :=
    '(m, hs) ← b; if printable v then Some (m, hs ++ [(k, v)]) else None;
  request_body := id
|}.
#[local] Instance plain_fuzz_laws : FuzzHttpLaws.
Proof.
  split. intros m l req. simpl.
  assert (∀ (b : option (bytes * list (bytes * bytes))) req,
    foldl (λ b kv, '(m, hs) ← b; if printable kv.2 then Some (m, hs ++ [(kv.1, kv.2)]) else None) b l = Some req →
    ∃ hs, b = Some (req.1, hs) ∧ req.2 = hs ++ l) as Hfold.
  { clear req. induction l as [|[k v] l IH]; intros b req; simpl.
    - intros ->. exists req.2. by rewrite app_nil_r, <- surjective_pairing.
    - intros (hs & Hb & Hreq)%IH. destruct b as [[m' hs']|]; [|done]. simpl in Hb.
      destruct (printable v); [|done]. injection Hb as -> <-. exists hs'. by rewrite <- app_assoc in Hreq. }
  intros (hs & Hb & Hreq)%Hfold. injection Hb as -> <-. split; [done|]. intros k. simpl in *.
  rewrite Hreq. unfold plain_get_all. by rewrite list_fmap_id.
Qed.

(** The dates of [plain_date], and that of the target. *)
#[local] Instance fuzz_date : HttpDate := {|
  fmt_http_date := fmt_http_date (HttpDate:=plain_date);
  parse_http_date s :=
    if bool_decide (s = SOME_DATE_STR) then Some (784111777 * NANOS_PER_SEC)
    else parse_http_date (HttpDate:=plain_date) s
|}.
#[local] Instance fuzz_date_laws : HttpDateLaws.
Proof.
  split; intros t Ht; simpl; [|by apply (fmt_http_date_ascii (HttpDateLaws:=plain_date_laws))].
  rewrite bool_decide_false; [by apply (parse_fmt_http_date (HttpDateLaws:=plain_date_laws))|].
  intros He. pose proof (fmt_dec_digits (t / NANOS_PER_SEC)) as Hd. simpl in He. rewrite He in Hd.
  discriminate Hd. destruct Ht. by apply Z.div_pos.
Qed.

Definition fuzz_input (range : string) : Req := mk_Req Get None None (Some (bs range)) None.

(** What the fuzzer can find. *)
Example fuzz_overflow :
  fuzz_serve_nonempty (D:=bytes) 9 0 (7%nat : @Waker test_wakers) (fuzz_input "bytes=0-18446744073709551615")
  = Panic ArithmeticOverflow.
Proof. by vm_compute. Qed.

Lemma fuzz_serve_nonempty_passes_witness :
  ∃ fuel, fuzz_serve_nonempty (D:=bytes) fuel 0 (7%nat : @Waker test_wakers) (fuzz_input "bytes=0-9, 20-29") = Ret tt.
Proof.
  destruct (fuzz_serve_nonempty_passes (D:=bytes) 0 (784111777 * NANOS_PER_SEC) (7%nat : @Waker test_wakers)
              (fuzz_input "bytes=0-9, 20-29")) as [[fuel Hf]|(_ & v & es & e & p & q & Hv & Hes & He & Hp & Hq)].
  - reflexivity.
  - by split.
  - by split.
  - intros v [= <-]. by vm_compute.
  - exists fuel. apply Hf. lia.
  - exfalso. injection Hv as <-. injection Hes as <-.
    rewrite !elem_of_cons, elem_of_nil in He.
    destruct He as [->|[->|[]]]; vm_compute in Hp;
      do 6 (destruct p as [|? p]; [injection Hp as; subst; discriminate|try discriminate Hp]).
Defined.
