(* ===== verification/EntityAcceptance.v ===== *)
(** * The acceptance tests of [serve] (tests/entity-acceptance.rs)

    Each test is a list of exchanges: the header fields a client sends and what
    it asserts of the response.  The server and the client (hyper and reqwest)
    are taken to pass on what they are given: the handler's response is the
    client's, and its body is polled to the end.  The client adds header fields
    of its own, which [serve] does not read ([SameBytes]). *)

From S2P Require Import Prelude RustStd HttpApi Plain Range Etag Stream Entity Multipart.
From S2P Require Import Chunker Body Serving ServingSpec ServingProps SameBytes FuzzTargets.

#[local] Existing Instance box_error_self.

(** ** The tests *)

(** The header fields the tests look at. *)
Inductive asserted := ContentType | ContentLength | ContentRange.

Inductive assertion :=
  | HeaderIs (k : asserted) (v : option bytes)
  | HeaderPresent (k : asserted)
  | BytesAre (b : bytes).

Record exchange := mk_exchange {
  ex_fields : list (bytes * bytes);
  ex_status : Z;
  ex_assertions : list assertion
}.

Section server.
Context `{Build, Wakers, Http, !HttpDate} {D : Type} `{!Buf D}.

(** The statics: [FakeEntity] and [BODY] are those of the fuzz target. *)
Definition static_entity (etag : option bytes) : outcome FakeEntity :=
  t ← SOME_DATE; Ret (mk_FakeEntity (from_static <$> etag) t).

Definition path_etag (path : bytes) : outcome (option bytes) :=
  if decide (path = bs "/none") then Ret None
  else if decide (path = bs "/strong") then Ret (Some (quoted (bs "foo")))
  else if decide (path = bs "/weak") then Ret (Some (bs "W/" ++ quoted (bs "foo")))
  else Panic AssertFailed.

(** The handler, [serve] of the test. *)
Definition handle_path (now : SystemTime) (path : bytes) (hdrs : HeaderMap)
    : outcome (Response (Body FakeEntity D BoxError)) :=
  etag ← path_etag path;
  entity ← static_entity etag;
  serve now entity GET hdrs.

Definition asserted_name (k : asserted) : HeaderName :=
  match k with ContentType => CONTENT_TYPE | ContentLength => CONTENT_LENGTH | ContentRange => CONTENT_RANGE end.

Definition check_assertion (fuel : nat) (cx : Waker) (resp : Response (Body FakeEntity D BoxError))
    (a : assertion) : outcome unit :=
  match a with
  | HeaderIs k v => assert_ (bool_decide (as_bytes <$> hm_get (resp_headers resp) (asserted_name k) = v))
  | HeaderPresent k => assert_ (bool_decide (is_Some (as_bytes <$> hm_get (resp_headers resp) (asserted_name k))))
  | BytesAre b =>
      o ← drain (Pollable0:=body_pollable cx) fuel (resp_body resp);
      match o with
      | Some (buf, Done, _) => assert_ (bool_decide (buf = b))
      | Some (_, Failed _, _) => Panic UnwrapFailed
      | None => Panic OutOfFuel
      end
  end.

Fixpoint check_assertions (fuel : nat) (cx : Waker) (resp : Response (Body FakeEntity D BoxError))
    (l : list assertion) : outcome unit :=
  match l with
  | [] => Ret tt
  | a :: l => _ ← check_assertion fuel cx resp a; check_assertions fuel cx resp l
  end.

(** [sent] is what arrives of a request with the given fields. *)
Definition run_exchange (sent : list (bytes * bytes) → HeaderMap) (fuel : nat) (now : SystemTime) (cx : Waker)
    (path : bytes) (e : exchange) : outcome unit :=
  resp ← handle_path now path (sent (ex_fields e));
  _ ← assert_ (as_u16 (resp_status resp) =? ex_status e);
  check_assertions fuel cx resp (ex_assertions e).
End server.

Definition MIME : bytes := bs "application/octet-stream".
Definition LATER_DATE_STR : bytes := bs "Sun, 06 Nov 1994 09:49:37 GMT".

Definition no_range : assertion := HeaderIs ContentRange None.
Definition mime : assertion := HeaderIs ContentType (Some MIME).
Definition with_length : assertion := HeaderPresent ContentLength.

(** What most exchanges of whole bodies and of no body assert. *)
Definition whole (fields : list (bytes * bytes)) : exchange :=
  mk_exchange fields 200 [mime; no_range; BytesAre BODY].
Definition whole_untyped (fields : list (bytes * bytes)) : exchange :=
  mk_exchange fields 200 [no_range; BytesAre BODY].
Definition not_modified (fields : list (bytes * bytes)) : exchange :=
  mk_exchange fields 304 [no_range; BytesAre []].
Definition failed (fields : list (bytes * bytes)) : exchange := mk_exchange fields 412 [].

Definition two_parts : bytes :=
  CRLF ++ bs "--B" ++ CRLF ++ bs "Content-Range: bytes 0-1/240" ++ CRLF ++
  bs "content-type: application/octet-stream" ++ CRLF ++ CRLF ++
  bs "01" ++ CRLF ++ bs "--B" ++ CRLF ++ bs "Content-Range: bytes 3-4/240" ++ CRLF ++
  bs "content-type: application/octet-stream" ++ CRLF ++ CRLF ++
  bs "34" ++ CRLF ++ bs "--B--" ++ CRLF.

Definition serve_without_etag : list exchange := [
  mk_exchange [] 200 [mime; with_length; no_range; BytesAre BODY];
  mk_exchange [(bs "if-match", bs "*")] 200 [mime; with_length; no_range; BytesAre BODY];
  failed [(bs "if-match", quoted (bs "foo"))];
  not_modified [(bs "if-none-match", bs "*")];
  whole [(bs "if-none-match", quoted (bs "foo"))];
  not_modified [(bs "if-modified-since", SOME_DATE_STR)];
  mk_exchange [(bs "range", bs "bytes=1-3")] 206
    [with_length; HeaderIs ContentRange (Some (bs "bytes 1-3/240")); BytesAre (bs "123")];
  mk_exchange [(bs "range", bs "bytes=0-1, 3-4")] 206
    [no_range; with_length; HeaderIs ContentType (Some (bs "multipart/byteranges; boundary=B"));
     BytesAre two_parts];
  mk_exchange [(bs "range", bs "bytes=0-100, 120-240")] 200 [no_range; with_length; mime; BytesAre BODY];
  mk_exchange [(bs "range", bs "bytes=500-")] 416
    [HeaderIs ContentRange (Some (bs "bytes */240")); BytesAre []];
  mk_exchange [(bs "range", bs "bytes=1-3"); (bs "if-range", SOME_DATE_STR)] 200 [mime; BytesAre BODY];
  whole [(bs "range", bs "bytes=1-3"); (bs "if-range", LATER_DATE_STR)];
  whole [(bs "range", bs "bytes=1-3"); (bs "if-range", quoted (bs "foo"))]].

Definition serve_with_strong_etag : list exchange := [
  whole [(bs "if-match", bs "*")];
  whole [(bs "if-match", quoted (bs "foo"))];
  failed [(bs "if-match", quoted (bs "bar"))];
  not_modified [(bs "if-none-match", quoted (bs "foo"))];
  whole_untyped [(bs "if-none-match", quoted (bs "bar"))];
  whole_untyped [(bs "if-none-match", quoted (bs "bar")); (bs "if-modified-since", SOME_DATE_STR)];
  mk_exchange [(bs "range", bs "bytes=1-3"); (bs "if-range", quoted (bs "foo"))] 206
    [HeaderIs ContentType None; HeaderIs ContentRange (Some (bs "bytes 1-3/240")); BytesAre (bs "123")];
  whole [(bs "range", bs "bytes=1-3"); (bs "if-range", quoted (bs "bar"))]].

Definition serve_with_weak_etag : list exchange := [
  whole [(bs "if-match", bs "*")];
  failed [(bs "if-match", bs "W/" ++ quoted (bs "foo"))];
  not_modified [(bs "if-none-match", bs "W/" ++ quoted (bs "foo"))];
  whole_untyped [(bs "if-none-match", bs "W/" ++ quoted (bs "bar"))];
  whole [(bs "range", bs "bytes=1-3"); (bs "if-range", quoted (bs "foo"))]].

Definition acceptance_tests : list (bytes * list exchange) :=
  [(bs "/none", serve_without_etag); (bs "/strong", serve_with_strong_etag); (bs "/weak", serve_with_weak_etag)].

(** ** They pass *)

(** The tests' entity with byte strings for header values, to decide on. *)
#[local] Existing Instances plain_http plain_http_laws plain_buf.
Definition plain_entity (etag : option bytes) (t : SystemTime) : @FakeEntity plain_http :=
  mk_FakeEntity (etag : option (@HeaderValue plain_http)) t.

(** What an assertion says of an answer. *)
Definition answer_header `{!HttpDate} (now t : SystemTime) (etag : option bytes) (a : answer) (k : asserted)
    : option bytes :=
  head (filter (λ kv : bytes * bytes, kv.1 = asserted_name k)
          (wire_fields (answer_fields (D:=bytes) (E:=BoxError) now (plain_entity etag t)
             (etag : option (@HeaderValue plain_http)) a))).*2.

Definition answer_meets `{!HttpDate} (now t : SystemTime) (etag : option bytes) (a : answer) (x : assertion) : bool :=
  match x with
  | HeaderIs k v => bool_decide (answer_header now t etag a k = v)
  | HeaderPresent k => bool_decide (is_Some (answer_header now t etag a k))
  | BytesAre b => bool_decide (answer_body (D:=bytes) (E:=BoxError) (plain_entity etag t) a = b)
  end.

Definition exchange_meets `{Build, !HttpDate} (now t : SystemTime) (etag : option bytes) (e : exchange) : Prop :=
  ∃ a, decide_answer (D:=bytes) (E:=BoxError) (etag : option (@HeaderValue plain_http)) (plain_entity etag t) GET
         (ex_fields e : @HeaderMap plain_http) = Ret a ∧
    answer_status a = ex_status e ∧ forallb (answer_meets now t etag a) (ex_assertions e) = true ∧
    (∀ v, hm_get (ex_fields e : @HeaderMap plain_http) RANGE = Some v → len v <= 1000).

(** Decides an exchange whose dates are not compared. *)
Ltac meets_exchange :=
  eexists; split; [vm_compute; reflexivity|]; split; [reflexivity|]; split; [vm_compute; reflexivity|];
  intros ? Hv; vm_compute in Hv; first [discriminate Hv | injection Hv as <-; by vm_compute].

(** The one that compares them. *)
Lemma unmodified_meets `{Build, !HttpDate} now t :
  parse_http_date SOME_DATE_STR = Some t →
  exchange_meets now t None (not_modified [(bs "if-modified-since", SOME_DATE_STR)]).
Proof.
  intros Ht. exists ANotModified. split; [|split; [reflexivity|]; split; [by vm_compute|done]].
  set (hdrs := ex_fields _ : @HeaderMap plain_http).
  assert (decide_answer (D:=bytes) (E:=BoxError) (None : option (@HeaderValue plain_http)) (plain_entity None t)
            GET hdrs = Ret ANotModified) as Hd; [|exact Hd]. rewrite decide_get.
  assert (any_match None hdrs = Ok true) as Hany by (by vm_compute).
  assert (none_match None hdrs = None) as Hnone by (by vm_compute).
  assert (hm_get hdrs IF_UNMODIFIED_SINCE = None) as Hus by (by vm_compute).
  assert (hm_get hdrs IF_MODIFIED_SINCE = Some (SOME_DATE_STR : @HeaderValue plain_http)) as Hms by (by vm_compute).
  assert (parse_since (bs "Unparseable If-Modified-Since") (SOME_DATE_STR : @HeaderValue plain_http) = Ok t) as Hp.
  { unfold parse_since. by assert (to_str (SOME_DATE_STR : @HeaderValue plain_http) = Some SOME_DATE_STR) as ->
      by (by vm_compute); simpl; rewrite Ht. }
  unfold parse_modified_hdrs. rewrite Hany, Hnone, Hus, Hms. simpl. rewrite Hp. simpl. by rewrite Z.leb_refl.
Qed.

(** Every exchange of the tests does. *)
Lemma tests_meet `{Build, !HttpDate} now t :
  parse_http_date SOME_DATE_STR = Some t →
  Forall (λ test : bytes * list exchange,
            ∃ etag, path_etag test.1 = Ret etag ∧ Forall (exchange_meets now t etag) test.2) acceptance_tests.
Proof.
  intros Ht. pose proof (unmodified_meets now t Ht) as Hdate.
  repeat apply Forall_cons_2; [..|apply Forall_nil_2]; (eexists; split; [reflexivity|]);
    (unfold serve_without_etag, serve_with_strong_etag, serve_with_weak_etag;
     repeat apply Forall_cons_2; [..|apply Forall_nil_2]; first [exact Hdate|meets_exchange]).
Qed.

(** The header map of one field. *)
Lemma values_one `{Http} k v (l : list (HeaderName * HeaderValue)) :
  (∀ k', values_of k' l = if decide (k = k') then [v] else []) → l = [(k, v)].
Proof.
  intros Hl. assert (∀ kv, kv ∈ l → kv.1 = k) as Hk.
  { intros [k' v'] Hin. destruct (decide (k = k')) as [|Hne]; [done|]. specialize (Hl k').
    rewrite decide_False in Hl by done. assert (v' ∈ values_of k' l) as Hv; [|by rewrite Hl in Hv; apply elem_of_nil in Hv].
    apply list_elem_of_fmap. exists (k', v'). split; [done|]. by apply list_elem_of_filter. }
  specialize (Hl k). rewrite decide_True in Hl by done. unfold values_of in Hl.
  destruct l as [|[k1 v1] [|[k2 v2] l]]; [done|..].
  - rewrite (Hk (k1, v1) ltac:(by left) : k1 = k) in *. rewrite filter_cons, decide_True in Hl by done.
    by injection Hl as ->.
  - rewrite (Hk (k1, v1) ltac:(by left) : k1 = k), (Hk (k2, v2) ltac:(by right; left) : k2 = k) in Hl.
    by rewrite !filter_cons, !decide_True in Hl by done.
Qed.

Section pass.
Context `{Build, Wakers, HttpLaws, !HttpDate, !HttpDateLaws} {D : Type} `{!Buf D, !BufLaws D}.

(** The entity of the tests. *)
Definition test_fake (etag : option bytes) (t : SystemTime) : FakeEntity :=
  mk_FakeEntity (from_static <$> etag) t.

Lemma fake_same etag t :
  same_entity (D:=D) (E:=BoxError) (D':=bytes) (E':=BoxError) (test_fake etag t) (plain_entity etag t).
Proof.
  split; [done|]. split; [done|]. unfold entity_fields. cbn [add_headers fake_entity].
  set (v := from_static (bs "application/octet-stream")).
  assert (hm_iter (hm_insert hm_new CONTENT_TYPE v) = [(CONTENT_TYPE, v)]) as ->.
  { apply values_one. intros k. by rewrite <- hm_get_all_iter, hm_get_all_insert, hm_get_all_new. }
  unfold text_of. csimpl. unfold prod_map, v. cbn [fst snd]. rewrite as_bytes_static by done.
  pose proof header_names as Hn. cbn [fmap list_fmap] in Hn. by injection Hn as _ _ _ _ _ _ -> _.
Qed.

Lemma asserted_names k : name_as_str (asserted_name k) = asserted_name (H1:=plain_http) k.
Proof.
  pose proof header_names as Hn. cbn [fmap list_fmap] in Hn. injection Hn; intros. by destruct k.
Qed.
(** A header field of the response to a request with answer [a]. *)
Lemma response_header now t etag a k (resp : Response (Body FakeEntity D BoxError)) :
  as_bytes <$> (from_static <$> etag) = etag →
  response_is now (test_fake etag t) (from_static <$> etag) GET a resp →
  as_bytes <$> hm_get (resp_headers resp) (asserted_name k) = answer_header now t etag a k.
Proof.
  intros He Hr. rewrite (resp_get _ _ _ _ _ _ _ Hr), wire_values. unfold answer_header. do 2 f_equal.
  rewrite asserted_names.
  rewrite (answer_fields_bytes _ _ (fake_same etag t) now _ (etag : option (@HeaderValue plain_http)) a); [done|].
  rewrite He. by destruct etag.
Qed.

(** The assertions of an exchange hold of a response that is the answer. *)
Lemma assertion_passes now t etag a cx x (resp : Response (Body FakeEntity D BoxError)) :
  as_bytes <$> (from_static <$> etag) = etag → answer_meets now t etag a x = true →
  response_is now (test_fake etag t) (from_static <$> etag) GET a resp →
  ∃ fuel, ∀ n, (fuel <= n)%nat → check_assertion n cx resp x = Ret tt.
Proof.
  intros He Hm Hr. destruct x as [k v|k|b]; simpl in Hm.
  - exists 0%nat. intros n _. simpl. rewrite (response_header now t etag a k resp He Hr). by rewrite Hm.
  - exists 0%nat. intros n _. simpl. rewrite (response_header now t etag a k resp He Hr). by rewrite Hm.
  - apply bool_decide_eq_true in Hm as <-. destruct Hr as (_ & _ & Hb). specialize (Hb cx).
    rewrite bool_decide_false in Hb by apply GET_not_HEAD. simpl in Hb.
    destruct Hb as (_ & _ & got & o & b' & fuel & Hd & _ & Hall & Hok).
    specialize (Hok (fake_never_fails _)). subst o. rewrite (Hall eq_refl) in Hd.
    apply drain_yields, yields_drain in Hd as [fuel' Hd]. exists fuel'. intros n Hn. simpl.
    rewrite (Hd n Hn), bind_Ret_l.
    assert (answer_body (D:=D) (E:=BoxError) (test_fake etag t) a =
            answer_body (D:=bytes) (E:=BoxError) (plain_entity etag t) a) as ->
      by (apply answer_body_bytes; [apply fake_same|reflexivity]).
    by rewrite bool_decide_true.
Qed.

Lemma assertions_pass now t etag a cx l (resp : Response (Body FakeEntity D BoxError)) :
  as_bytes <$> (from_static <$> etag) = etag → forallb (answer_meets now t etag a) l = true →
  response_is now (test_fake etag t) (from_static <$> etag) GET a resp →
  ∃ fuel, ∀ n, (fuel <= n)%nat → check_assertions n cx resp l = Ret tt.
Proof.
  intros He Hl Hr. induction l as [|x l IH]; [by exists 0%nat|].
  apply andb_prop in Hl as [Hx Hl]. destruct (IH Hl) as [f1 Hf1].
  destruct (assertion_passes now t etag a cx x resp He Hx Hr) as [f2 Hf2].
  exists (f1 + f2)%nat. intros n Hn. simpl. by rewrite Hf2, bind_Ret_l, Hf1 by lia.
Qed.

Lemma exchange_passes sent now t cx path etag e :
  parse_http_date SOME_DATE_STR = Some t → http_date_range t → http_date_range now →
  path_etag path = Ret etag → as_bytes <$> (from_static <$> etag) = etag →
  same_request (sent (ex_fields e)) (ex_fields e : @HeaderMap plain_http) →
  exchange_meets now t etag e →
  ∃ fuel, ∀ n, (fuel <= n)%nat → run_exchange (D:=D) sent n now cx path e = Ret tt.
Proof.
  intros Ht Htr Hnow Hp He Hreq (a & Ha & Hst & Hmeets & Hlen).
  set (x := test_fake etag t). set (tag := from_static <$> etag : option HeaderValue).
  assert (decide_answer (D:=D) (E:=BoxError) tag x GET (sent (ex_fields e)) = Ret a) as Hdec.
  { rewrite <- Ha. apply (decide_bytes x (plain_entity etag t) (fake_same etag t)); [|apply same_get|done].
    unfold tag. rewrite He. by destruct etag. }
  destruct (serve_is now x tag GET (sent (ex_fields e)) a) as (resp & Hs & Hr); [done|by split| |exact Hdec|].
  { intros v Hv. destruct (same_fields _ _ Hreq) as (_ & _ & _ & _ & _ & Hr). rewrite Hv in Hr.
    destruct (hm_get (ex_fields e : @HeaderMap plain_http) RANGE) as [w|]; [|done]. injection Hr as Hw.
    specialize (Hlen w eq_refl). rewrite Hw. pose proof usize_max_bounds. unfold U16_MAX in *. simpl in *. unfold id. lia. }
  destruct (assertions_pass now t etag a cx _ resp He Hmeets Hr) as [fuel Hf].
  exists fuel. intros n Hn. unfold run_exchange, handle_path, static_entity, SOME_DATE. rewrite Hp, bind_Ret_l, Ht.
  simpl unwrap. rewrite !bind_Ret_l. change (mk_FakeEntity (from_static <$> etag) t) with x.
  rewrite Hs, bind_Ret_l, (proj1 Hr), Hst, Z.eqb_refl.
  change (assert_ true) with (Ret tt). rewrite bind_Ret_l. by apply Hf.
Qed.

(** What arrives of the requests of the tests: the fields they were given, and
    whatever else that [serve] does not read. *)
Definition delivers (sent : list (bytes * bytes) → HeaderMap) : Prop :=
  ∀ test e, test ∈ acceptance_tests → e ∈ test.2 →
    same_request (sent (ex_fields e)) (ex_fields e : @HeaderMap plain_http).

(** C39: the acceptance tests of [serve] pass: every status, header field and
    body that the 26 exchanges of the three tests assert is what the handler
    answers, whatever the time, the implementation of the [http] crate and the
    other header fields the client sends. *)
Theorem entity_acceptance_passes (sent : list (bytes * bytes) → HeaderMap) (now t : SystemTime) (cx : Waker) :
  parse_http_date SOME_DATE_STR = Some t → http_date_range t → http_date_range now → delivers sent →
  Forall (λ test : bytes * list exchange,
    Forall (λ e, ∃ fuel, ∀ n, (fuel <= n)%nat → run_exchange (D:=D) sent n now cx test.1 e = Ret tt) test.2)
    acceptance_tests.
Proof.
  intros Ht Htr Hnow Hsent. pose proof (tests_meet now t Ht) as Hall. rewrite Forall_forall in *.
  intros test Hin. destruct (Hall test Hin) as (etag & Hp & Hes). rewrite Forall_forall in *.
  intros e He. apply (exchange_passes sent now t cx test.1 etag e Ht Htr Hnow Hp); [|by apply (Hsent test)|by apply Hes].
  unfold path_etag in Hp. repeat case_decide; simplify_eq; [done|..]; cbn [fmap option_fmap option_map];
    by rewrite as_bytes_static.
Qed.
End pass.

(** ** The tests on a concrete [http] *)

#[local] Existing Instances debug_build plain_buf_laws fuzz_date fuzz_date_laws test_wakers.

(** A client that adds a header field of its own. *)
Definition with_accept (fields : list (bytes * bytes)) : @HeaderMap plain_http :=
  fields ++ [(bs "accept", bs "*/*")].

Lemma with_accept_delivers : delivers with_accept.
Proof.
  intros test e _ _. unfold same_request, with_accept, names_read.
  assert (∀ l k, k ≠ bs "accept" →
    as_bytes <$> hm_get (l ++ [(bs "accept", bs "*/*")] : @HeaderMap plain_http) k =
    as_bytes <$> hm_get (l : @HeaderMap plain_http) k) as Hl.
  { intros l k Hk. simpl. by rewrite plain_get_all_app, plain_get_all_one, decide_False, app_nil_r. }
  repeat constructor; by apply Hl.
Qed.

Lemma entity_acceptance_passes_witness :
  Forall (λ e, ∃ fuel, run_exchange (D:=bytes) with_accept fuel 0 (7%nat : @Waker test_wakers) (bs "/weak") e
                       = Ret tt) serve_with_weak_etag.
Proof.
  assert (parse_http_date SOME_DATE_STR = Some (784111777 * NANOS_PER_SEC)) as Ht by reflexivity.
  assert (http_date_range (784111777 * NANOS_PER_SEC)) as Hd by by split.
  assert (http_date_range 0) as Hnow by by split.
  pose proof (entity_acceptance_passes (D:=bytes) with_accept 0 (784111777 * NANOS_PER_SEC)
    (7%nat : @Waker test_wakers) Ht Hd Hnow with_accept_delivers) as Hall.
  apply Forall_cons in Hall as [_ Hall]. apply Forall_cons in Hall as [_ Hall]. apply Forall_cons in Hall as [Hall _].
  eapply Forall_impl; [exact Hall|]. intros e [fuel Hf]. exists fuel. by apply Hf.
Defined.
