(* ===== verification/FileServing.v ===== *)
(** * Serving files over HTTP (src/serving.rs with src/file.rs)

    [serve] was proved correct against the contract of [Entity], and
    [ChunkedReadFile] keeps that contract ([file_laws]); here the two are
    put together. *)

From S2P Require Import Prelude RustStd HttpApi Plain Range Etag Stream Entity Multipart.
From S2P Require Import Chunker Body Platform File Serving ServingSpec ServingProps.

Section file_serving.
Context `{Build, Wakers, HttpLaws, !HttpDate, !HttpDateLaws, UnixLaws, !StableFiles, !StableFilesLaws}
  {D E : Type} `{!Buf D, !BufLaws D, !FromBoxError E}.

(** The request of a client that has the first [n] bytes and the tag [v]. *)
Definition resumes (hdrs : HeaderMap) (n : Z) (v : HeaderValue) : Prop :=
  (∃ r, hm_get hdrs RANGE = Some r ∧ to_str r = Some (bs "bytes=" ++ print_spec (BytesFrom n))) ∧
  hm_get hdrs IF_RANGE = Some v ∧
  Forall (λ k, hm_get hdrs k = None) [IF_MATCH; IF_UNMODIFIED_SINCE; IF_NONE_MATCH; IF_MODIFIED_SINCE].

(** The bytes of the entity tag. *)
Definition tag_bytes (e : ChunkedReadFile) : bytes := print_tag (Tag false (etag_text e)).

Lemma crf_etag_bytes (e : ChunkedReadFile) v : stat_ok e → crf_etag e = Ret (Some v) → as_bytes v = tag_bytes e.
Proof. intros Hs He. destruct (crf_etag_print e Hs) as (v1 & He1 & Hv). rewrite He in He1. by injection He1 as ->. Qed.

(** Decisions are taken on the tag the client has. *)
Lemma resume_range (e e' : ChunkedReadFile) (v v' : HeaderValue) hdrs n :
  stat_ok e → stat_ok e' → as_bytes v = tag_bytes e → as_bytes v' = tag_bytes e' →
  resumes hdrs n v →
  range_after_if_range (Some v') hdrs =
    if decide (same_version e e') then (hm_get hdrs RANGE, false) else (None, true).
Proof.
  intros Hs Hs' Hv Hv' (_ & Hif & _).
  unfold range_after_if_range. rewrite Hif, Hv, Hv'. unfold tag_bytes. rewrite strong_eq_tags. cbn.
  unfold strong_match. cbn [tag_weak negb andb tag_opaque]. case_bool_decide as Ht.
  - by rewrite decide_True by (by apply etag_text_inj).
  - rewrite decide_False; [done|]. intros Hsame. by destruct Ht; apply etag_text_same.
Qed.

(** The decision [serve] takes on such a request. *)
Lemma resume_decision (f f' : ChunkedReadFile) (v : HeaderValue) hdrs n :
  EntityLaws (D:=D) (E:=E) f' →
  stat_ok f → stat_ok f' → as_bytes v = tag_bytes f → resumes hdrs n v →
  0 <= n < crf_len f →
  ∃ v', entity_etag (D:=D) (E:=E) f' = Ret (Some v') ∧ as_bytes v' = tag_bytes f' ∧
    decide_answer (D:=D) (E:=E) (Some v') f' GET hdrs =
      Ret (if decide (same_version f f') then APartial (mk_range n (crf_len f')) false else AWhole).
Proof.
  intros Hlaws Hs Hs' Hv Hres Hn. destruct (crf_etag_print f' Hs') as (v' & He' & Hv').
  exists v'. split; [done|]. split; [done|].
  pose proof (resume_range _ _ v v' hdrs n Hs Hs' Hv Hv' Hres) as Hif.
  destruct Hres as ((r & Hr & Hstr) & _ & Hnone). rewrite !Forall_cons in Hnone.
  destruct Hnone as (Him & Hius & Hinm & Hims & _).
  rewrite decide_get. unfold parse_modified_hdrs, any_match, none_match. rewrite Him, Hius, Hinm, Hims.
  simpl. rewrite Hif, Hr. case_decide as Hsame; [|done].
  assert (crf_len f = crf_len f') as Hl by apply Hsame.
  assert (0 <= crf_len f' <= U64_MAX) as Hmax by apply Hs'.
  cbn [fst snd]. rewrite (parse_printed r [([], BytesFrom n)]); [|done|done|by repeat constructor; simpl; lia|done].
  unfold resolve_all. simpl. by rewrite (proj2 (Z.ltb_lt _ _)) by lia.
Qed.

(** Its [Range] header is short. *)
Lemma resume_small hdrs n v (e : ChunkedReadFile) :
  stat_ok e → resumes hdrs n v → 0 <= n < crf_len e →
  ∀ r, hm_get hdrs RANGE = Some r → 2 * len (as_bytes r) + 1 <= usize_max.
Proof.
  intros (_ & Hl & _) ((r' & Hr' & Hs) & _) Hn r Hr. rewrite Hr in Hr'. injection Hr' as <-.
  apply to_str_Some in Hs as [-> _]. cbn [print_spec].
  pose proof (fmt_dec_len n ltac:(lia)). pose proof usize_max_bounds.
  rewrite !len_app. unfold U16_MAX in *.
  change (len (bs "bytes=")) with 6. change (len [x2d]) with 1. lia.
Qed.

Lemma range_bytes_rest (f : ChunkedReadFile) n :
  file_ok f → 0 <= n <= crf_len f →
  range_bytes f (mk_range n (crf_len f)) = drop (Z.to_nat n) (file_content (crf_f f)).
Proof.
  intros (Hl & Hmax & Hh) Hn. unfold range_bytes, slice. simpl in *.
  apply firstn_all2. rewrite length_drop. unfold len in Hl. lia.
Qed.

(** A file all of whose reads succeed. *)
Lemma file_never_fails (f : ChunkedReadFile) :
  CHUNK_SIZE <= usize_max → file_ok f → reads_ok f (crf_len f) → never_fails (D:=D) (E:=E) f.
Proof.
  intros Hmem (Hl & _) Hreads r Hr Hle. simpl in Hle.
  destruct (file_yields (D:=D) (E:=E) Hmem f _ 0 r eq_refl Hr) as (b & o & s' & Hy & _ & _ & Hok); [by rewrite <- Hl|].
  rewrite (Hok (reads_ok_le f _ _ Hle Hreads)) in Hy. by exists b, s'.
Qed.

(** The response to such a request. *)
Lemma resume_served now (f f' : ChunkedReadFile) (v : HeaderValue) hdrs n :
  CHUNK_SIZE <= usize_max → file_ok f' → stat_ok f → stat_ok f' → dates_ok (D:=D) (E:=E) now f' →
  as_bytes v = tag_bytes f → resumes hdrs n v → 0 <= n < crf_len f →
  ∃ v' resp, as_bytes v' = tag_bytes f' ∧ serve (D:=D) (E:=E) now f' GET hdrs = Ret resp ∧
    response_is now f' (Some v') GET
      (if decide (same_version f f') then APartial (mk_range n (crf_len f')) false else AWhole) resp.
Proof.
  intros Hmem Hf' Hs Hs' Hd Hv Hres Hn. pose proof (file_laws (D:=D) (E:=E) Hmem f' Hf') as Hlaws.
  destruct (resume_decision f f' v hdrs n Hlaws Hs Hs' Hv Hres Hn) as (v' & He' & Hv' & Ha).
  destruct (serve_is now f' (Some v') GET hdrs _ He' Hd (resume_small hdrs n v f Hs Hres Hn) Ha)
    as (resp & Hsv & Hr). by exists v', resp.
Qed.

(** Resuming a download is safe.  A client that has the first [n] bytes of
    a file and the entity tag they came with, and asks for the rest with
    [Range] and [If-Range], gets 206 with exactly the remaining bytes if the
    file has still the same inode, length and modification time, and otherwise
    200 with the whole of the file as it is now. *)
Theorem resume_download (now : SystemTime) (f f' : ChunkedReadFile) (v : HeaderValue)
    (hdrs : HeaderMap) (n : Z) :
  CHUNK_SIZE <= usize_max → file_ok f' → stat_ok f → stat_ok f' → dates_ok (D:=D) (E:=E) now f' →
  crf_etag f = Ret (Some v) → resumes hdrs n v → 0 <= n < crf_len f →
  ∃ resp, serve (D:=D) (E:=E) now f' GET hdrs = Ret resp ∧
    if decide (same_version f f') then
      as_u16 (resp_status resp) = 206 ∧
      ∀ cx, body_gives f' cx (resp_body resp) (drop (Z.to_nat n) (file_content (crf_f f')))
    else
      as_u16 (resp_status resp) = 200 ∧
      ∀ cx, body_gives f' cx (resp_body resp) (file_content (crf_f f')).
Proof.
  intros Hmem Hf' Hs Hs' Hd He Hres Hn. pose proof (crf_etag_bytes f v Hs He) as Hv.
  destruct (resume_served now f f' v hdrs n) as (v' & resp & _ & Hsv & Hst & _ & Hb); [done..|].
  exists resp. split; [done|]. rewrite bool_decide_false in Hb by apply GET_not_HEAD.
  case_decide as Hsame; (split; [done|]); [|done]. intros cx. specialize (Hb cx). cbn in Hb.
  destruct Hsame as (_ & Hl & _). by rewrite range_bytes_rest in Hb by (done || lia).
Qed.
End file_serving.

(** ** Any file that does not change *)

Section any_file.
Context `{Build, Wakers, HttpLaws, !HttpDate, !HttpDateLaws, UnixLaws, !StableFiles, !StableFilesLaws}
  {D E : Type} `{!Buf D, !BufLaws D, !FromBoxError E}.

(** The metadata a file has while its content does not change. *)
Definition stat_agrees (f : UnixFile) (m : UnixMetadata) (info : FileInfo) : Prop :=
  is_file m = true ∧ file_info m = Ok info ∧
  fi_len info = len (file_content f) ∧ fi_len info <= U64_MAX ∧ 0 <= fi_inode info <= U64_MAX ∧
  http_date_range (fi_mtime info).

(** What is served then, with the header fields [h]. *)
Definition file_of (f : UnixFile) (info : FileInfo) (h : HeaderMap) : ChunkedReadFile :=
  mk_ChunkedReadFile (fi_len info) (fi_inode info) (fi_mtime info) f h.

Definition headers_free (h : HeaderMap) : Prop := ∀ k, k ∈ reserved → hm_get_all h k = [].

Lemma new_file_of f m info h : stat_agrees f m info → new_with_metadata f m h = Ok (file_of f info h).
Proof. intros (Hf & Hi & _). unfold new_with_metadata. rewrite Hf. simpl. by rewrite Hi. Qed.

Lemma file_of_ok f m info h : stat_agrees f m info → headers_free h → file_ok (file_of f info h).
Proof.
  intros (_ & _ & Hl & Hmax & _) Hh. split; [done|]. split; [done|]. intros k Hk. simpl.
  rewrite <- hm_get_all_iter. by apply Hh.
Qed.

Lemma file_of_stat f m info h : stat_agrees f m info → stat_ok (file_of f info h).
Proof.
  intros (_ & _ & Hl & Hmax & Hi & Ht1 & Ht2). unfold stat_ok, as_secs. simpl.
  pose proof (len_nonneg (file_content f)). unfold U64_MAX, NANOS_PER_SEC in *.
  pose proof (Z.div_lt_upper_bound (fi_mtime info) 1000000000 253402300800 ltac:(done) ltac:(lia)).
  split_and!; done || lia.
Qed.

(** [serve] on it gives the specified answer. *)
Lemma file_served now f m info h etag method hdrs a :
  CHUNK_SIZE <= usize_max → http_date_range now → stat_agrees f m info → headers_free h →
  crf_etag (file_of f info h) = Ret etag →
  (∀ v, hm_get hdrs RANGE = Some v → 2 * len (as_bytes v) + 1 <= usize_max) →
  decide_answer (D:=D) (E:=E) etag (file_of f info h) method hdrs = Ret a →
  ∃ resp, serve (D:=D) (E:=E) now (file_of f info h) method hdrs = Ret resp ∧
    response_is now (file_of f info h) etag method a resp.
Proof.
  intros Hmem Hnow Hs Hh He Hr Ha. set (e := file_of f info h) in *.
  pose proof (file_laws (D:=D) (E:=E) Hmem e (file_of_ok f m info h Hs Hh)) as Hlaws.
  change (entity_etag (D:=D) (E:=E) e = Ret etag) in He.
  assert (dates_ok (D:=D) (E:=E) now e) as Hd
    by (split; [by destruct Hs as (_ & _ & _ & _ & _ & Ht)|done]).
  exact (serve_is (D:=D) (E:=E) now e etag method hdrs a He Hd Hr Ha).
Qed.

(** An unconditional request for it is answered with the whole of it. *)
Lemma file_whole f m info h hdrs :
  stat_agrees f m info → unconditional hdrs → hm_get hdrs RANGE = None →
  ∃ v, crf_etag (file_of f info h) = Ret (Some v) ∧
    decide_answer (D:=D) (E:=E) (Some v) (file_of f info h) GET hdrs = Ret AWhole.
Proof.
  intros Hs Hu Hr. destruct (crf_etag_print _ (file_of_stat f m info h Hs)) as (v & He & _).
  exists v. split; [done|].
  destruct (parse_unconditional (D:=D) (E:=E) (Some v) (file_of f info h) hdrs Hu) as [Hp Hif].
  by rewrite decide_get, Hp, Hif, Hr.
Qed.

(** The answers that have the entity's header fields. *)
Definition answer_describes (a : answer) : bool :=
  match a with AWhole => true | APartial _ with_headers => with_headers | _ => false end.

Lemma own_field (f : ChunkedReadFile) k :
  field_values k (text_fields (entity_fields (D:=D) (E:=E) f)) = as_bytes <$> hm_get_all (crf_headers f) k.
Proof.
  rewrite field_values_text. unfold entity_fields. rewrite <- hm_get_all_iter. simpl.
  rewrite hm_get_all_extend, hm_get_all_new. by rewrite <- hm_get_all_iter.
Qed.

(** The header fields of the response that are not [serve]'s own. *)
Lemma entity_field now (f : ChunkedReadFile) etag a k :
  k ∉ reserved → k ≠ ALLOW → k ≠ CONTENT_TYPE →
  field_values k (answer_fields (D:=D) (E:=E) now f etag a) =
    if answer_describes a then as_bytes <$> hm_get_all (crf_headers f) k else [].
Proof.
  unfold reserved. rewrite !not_elem_of_cons. intros (? & ? & ? & ? & ? & ? & _) ? ?.
  destruct a as [| | | | | |r []|rs incl|]; cbn [answer_fields answer_describes];
    rewrite ?field_values_app, ?base_field_none by done; repeat rewrite field_values_skip by done; by rewrite ?own_field.
Qed.

Lemma whole_field now (f : ChunkedReadFile) etag k :
  k ∉ reserved →
  field_values k (answer_fields (D:=D) (E:=E) now f etag AWhole) = as_bytes <$> hm_get_all (crf_headers f) k.
Proof.
  unfold reserved. rewrite !not_elem_of_cons. intros (? & ? & ? & ? & ? & ? & _).
  cbn [answer_fields]. rewrite field_values_app, base_field_none by done.
  by rewrite field_values_app, field_values_one, decide_False, own_field by done.
Qed.

(** The content coding a file is served with. *)
Definition coding_of (f : ChunkedReadFile) : option bytes := as_bytes <$> hm_get (crf_headers f) CONTENT_ENCODING.

Lemma whole_coding now (f : ChunkedReadFile) etag method (resp : Response (Body ChunkedReadFile D E)) :
  response_is (D:=D) (E:=E) now f etag method AWhole resp →
  as_bytes <$> hm_get (resp_headers resp) CONTENT_ENCODING = coding_of f.
Proof.
  intros Hr. rewrite (resp_get _ _ _ _ _ _ CONTENT_ENCODING Hr), whole_field by not_reserved.
  symmetry. apply get_bytes.
Qed.
End any_file.

(** ** A file that is replaced during a download *)

#[local] Existing Instances debug_build plain_http plain_http_laws plain_date plain_date_laws
  plain_buf plain_buf_laws box_error_self test_wakers test_unix test_unix_laws test_content
  test_content_laws.

Lemma hello_ok : file_ok hello_file.
Proof. split_and!; [reflexivity|done|]. intros k _. reflexivity. Qed.

(** Another content, a second later. *)
Definition world_file : ChunkedReadFile := mk_ChunkedReadFile 5 7 6500000000 (bs "world" : UnixFile) [].
Lemma world_ok : file_ok world_file.
Proof. split_and!; [reflexivity|done|]. intros k _. reflexivity. Qed.

Definition resume_request : @HeaderMap plain_http :=
  test_headers [(bs "range", bs "bytes=2-"); (bs "if-range", print_tag (Tag false (etag_text hello_file)))].

Lemma resume_download_witness :
  ∃ resp resp', serve (D:=bytes) (E:=BoxError) test_now hello_file GET resume_request = Ret resp ∧
    as_u16 (resp_status resp) = 206 ∧
    serve (D:=bytes) (E:=BoxError) test_now world_file GET resume_request = Ret resp' ∧
    as_u16 (resp_status resp') = 200.
Proof.
  set (v := test_value (print_tag (Tag false (etag_text hello_file)))).
  assert (crf_etag hello_file = Ret (Some v)) as He by reflexivity.
  assert (resumes resume_request 2 v) as Hr.
  { split; [by eexists; split; reflexivity|]. split; [reflexivity|]. by repeat constructor. }
  assert (stat_ok world_file) as Hw by (split_and!; by vm_compute).
  destruct (resume_download (D:=bytes) (E:=BoxError) test_now hello_file hello_file v resume_request 2)
    as (resp & Hs & Hresp); [by vm_compute|exact hello_ok|exact hello_stat|exact hello_stat|by split_and!|exact He|exact Hr|by split|].
  destruct (resume_download (D:=bytes) (E:=BoxError) test_now hello_file world_file v resume_request 2)
    as (resp' & Hs' & Hresp'); [by vm_compute|exact world_ok|exact hello_stat|exact Hw|by split_and!|exact He|exact Hr|by split|].
  rewrite decide_True in Hresp by by split_and!.
  rewrite decide_False in Hresp' by (intros (_ & _ & Hm); discriminate Hm).
  exists resp, resp'. split; [exact Hs|]. split; [exact (proj1 Hresp)|]. split; [exact Hs'|].
  exact (proj1 Hresp').
Defined.
