(* ===== verification/Download.v ===== *)
(** * Downloads over several requests (src/serving.rs with src/file.rs)

    A client fetches a file with one request after another: each connection may
    break at any byte, and the file may be replaced by another version between
    two requests.  The client asks for the bytes it does not have, with the tag
    the others came with in [If-Range], as RFC 7233 section 3.2 describes.  Its
    states and the requests are the steps of a system with [serve]. *)

From S2P Require Import Prelude RustStd HttpApi Plain Range Etag Stream Entity Multipart.
From S2P Require Import Chunker Body Platform File Serving ServingSpec ServingProps SameBytes FileServing.

(** ** The client *)

Section client.
Context `{Http}.

(** What it has, the tag and the content coding that came with it, and the
    length that was announced. *)
Record client := mk_client { have : bytes; tag : option HeaderValue; coding : option bytes; total : Z }.

Definition fresh : client := mk_client [] None None 0.

Definition client_request (c : client) : HeaderMap :=
  match tag c with
  | Some v =>
      if len (have c) <? total c then
        let range := from_static (bs "bytes=" ++ print_spec (BytesFrom (len (have c)))) in
        hm_insert (hm_insert hm_new RANGE range) IF_RANGE v
      else hm_new
  | None => hm_new
  end.

(** The client after a response of whose body it got the bytes [got]. *)
Definition client_take {B} (resp : Response B) (got : bytes) (c : client) : client :=
  let status := as_u16 (resp_status resp) in
  if status =? 206 then mk_client (have c ++ got) (tag c) (coding c) (total c)
  else if status =? 200 then
    mk_client got (hm_get (resp_headers resp) ETAG)
      (as_bytes <$> hm_get (resp_headers resp) CONTENT_ENCODING)
      (match hm_get (resp_headers resp) CONTENT_LENGTH with
       | Some v => default 0 (u64_from_str (as_bytes v))
       | None => 0
       end)
  else c.
End client.

Section session.
Context `{Build, Wakers, HttpLaws, !HttpDate, !HttpDateLaws, UnixLaws, !StableFiles, !StableFilesLaws}
  {D E : Type} `{!Buf D, !BufLaws D, !FromBoxError E}.
Context (Hmem : CHUNK_SIZE <= usize_max).

(** Which versions of the file the server has at which times; each can be
    served, and what [stat] cannot tell apart has the same content. *)
Context (served : SystemTime → ChunkedReadFile → Prop).
Definition versions_ok : Prop :=
  (∀ now f, served now f → file_ok f ∧ stat_ok f ∧ dates_ok (D:=D) (E:=E) now f) ∧
  (∀ now f now' f', served now f → served now' f' → same_version f f' →
     file_content (crf_f f) = file_content (crf_f f')).

(** One request, with any other header fields: the connection breaks after [k]
    bytes of what polling the body gives, if there are so many. *)
Inductive session_step (c : client) : client → Prop :=
  | request now f hdrs resp cx fuel got o b' k :
      served now f → same_request hdrs (client_request c) →
      serve (D:=D) (E:=E) now f GET hdrs = Ret resp →
      drain (Pollable0:=body_pollable cx) fuel (resp_body resp) = Ret (Some (got, o, b')) →
      session_step c (client_take resp (take k got) c).

(** ** Invariant *)

(** What the client has is of one version, that of the tag and the coding. *)
Definition holds_version (c : client) (w : HeaderValue) (now : SystemTime) (f : ChunkedReadFile) : Prop :=
  served now f ∧ as_bytes w = tag_bytes f ∧ coding c = coding_of f ∧ total c = crf_len f ∧
  have c `prefix_of` file_content (crf_f f).

Definition client_inv (c : client) : Prop :=
  ∀ w, tag c = Some w → ∃ now f, holds_version c w now f.

Context (Hv : versions_ok).

(** With the announced length it is the whole version. *)
Lemma holds_all c w now f :
  holds_version c w now f → len (have c) = total c → have c = file_content (crf_f f).
Proof.
  intros (Hs & _ & _ & Htot & [rest Hrest]) Hl. destruct (proj1 Hv now f Hs) as ((Hlen & _) & _).
  rewrite Hrest, len_app in Hlen. rewrite Hrest.
  assert (rest = []) as -> by (apply len_0_inv; lia). by rewrite app_nil_r.
Qed.

(** The tag and the length that a whole response has. *)
Lemma whole_headers now f v' (resp : Response (Body ChunkedReadFile D E)) :
  served now f → as_bytes v' = tag_bytes f →
  response_is (D:=D) (E:=E) now f (Some v') GET AWhole resp →
  ∃ w cl, hm_get (resp_headers resp) ETAG = Some w ∧ as_bytes w = tag_bytes f ∧
    hm_get (resp_headers resp) CONTENT_LENGTH = Some cl ∧ u64_from_str (as_bytes cl) = Some (crf_len f).
Proof.
  intros Hs Hv' Hr. destruct (proj1 Hv now f Hs) as ((Hl & Hmax & Hh) & Hst & Hd).
  pose proof (file_laws (D:=D) (E:=E) Hmem f (conj Hl (conj Hmax Hh))) as Hlaws.
  pose proof (resp_get _ _ _ _ _ _ ETAG Hr) as Htag. pose proof (resp_get _ _ _ _ _ _ CONTENT_LENGTH Hr) as Hcl.
  rewrite (field_content_length now f (Some v')) in Hcl. cbn [answer_serves head answer_len] in Hcl.
  cbn [answer_fields] in Htag. rewrite field_values_app, base_field_etag in Htag. simpl in Htag.
  destruct (hm_get (resp_headers resp) ETAG) as [w|]; [|done]. injection Htag as Hw.
  destruct (hm_get (resp_headers resp) CONTENT_LENGTH) as [cl|]; [|done]. injection Hcl as Hcl.
  exists w, cl. split; [done|]. split; [by rewrite Hw|]. split; [done|].
  rewrite Hcl. change (entity_len f) with (crf_len f).
  unfold u64_from_str. pose proof (len_nonneg (file_content (crf_f f))).
  rewrite from_str_fmt_dec by (done || lia). by rewrite (proj2 (Z.leb_le _ _)).
Qed.

(** A whole response starts the client again. *)
Lemma take_whole now f v' (resp : Response (Body ChunkedReadFile D E)) got c :
  served now f → as_bytes v' = tag_bytes f →
  response_is (D:=D) (E:=E) now f (Some v') GET AWhole resp →
  ∃ w, client_take resp got c = mk_client got (Some w) (coding_of f) (crf_len f) ∧ as_bytes w = tag_bytes f.
Proof.
  intros Hs Hv' Hr. destruct (whole_headers now f v' resp Hs Hv' Hr) as (w & cl & Ht & Hw & Hcl & Hn).
  exists w. split; [|done]. unfold client_take. by rewrite (proj1 Hr), Ht, Hcl, Hn, (whole_coding _ _ _ _ _ Hr).
Qed.

(** What polling a body to the end gives, if it stands for [s]. *)
Lemma drained f cx (b : Body ChunkedReadFile D E) s fuel got o b' :
  body_gives (D:=D) (E:=E) f cx b s →
  drain (Pollable0:=body_pollable cx) fuel b = Ret (Some (got, o, b')) →
  got `prefix_of` s ∧ (never_fails (D:=D) (E:=E) f → got = s).
Proof.
  intros (_ & _ & got' & o' & b'' & fuel' & Hd & Hp & Hdone & Hok) Hd'.
  apply drain_yields in Hd, Hd'. destruct (yields_functional _ _ _ _ _ _ _ Hd Hd') as (-> & -> & _).
  split; [done|]. intros Hn. auto.
Qed.

(** The request of a client that does not resume. *)
Lemma whole_served now f hdrs :
  served now f → same_request hdrs hm_new →
  ∃ v' resp, as_bytes v' = tag_bytes f ∧ serve (D:=D) (E:=E) now f GET hdrs = Ret resp ∧
    response_is (D:=D) (E:=E) now f (Some v') GET AWhole resp.
Proof.
  intros Hs Hreq. destruct (proj1 Hv now f Hs) as (Hf & Hst & Hd). pose proof (file_laws (D:=D) (E:=E) Hmem f Hf) as Hlaws.
  destruct (crf_etag_print f Hst) as (v' & He & Hv'). exists v'.
  destruct (parse_unconditional (D:=D) (E:=E) (Some v') f hm_new) as [Hp Hif];
    [by repeat constructor; apply get_new|].
  destruct (serve_is_alike (D:=D) (E:=E) now f (Some v') GET hdrs hm_new AWhole) as (resp & Hsv & Hr); [done|done|done| | |].
  - intros r. by rewrite get_new.
  - by rewrite decide_get, Hp, Hif, get_new.
  - by exists resp.
Qed.

(** The request of one that does. *)
Lemma client_request_other c k : k ≠ RANGE → k ≠ IF_RANGE → hm_get (client_request c) k = None.
Proof.
  intros. unfold client_request. destruct (tag c); [|apply get_new]. case_match; [|apply get_new].
  by rewrite get_insert, decide_False, get_insert, decide_False, get_new by congruence.
Qed.

Lemma client_resumes c hdrs w :
  tag c = Some w → len (have c) < total c → same_request hdrs (client_request c) →
  ∃ w', as_bytes w' = as_bytes w ∧ resumes hdrs (len (have c)) w'.
Proof.
  intros Ht Hl Hreq. destruct (same_fields _ _ Hreq) as (H1' & H2' & H3' & H4' & H5' & H6').
  rewrite client_request_other in H1', H2', H3', H4' by name_ne.
  unfold client_request in H5', H6'. rewrite Ht, (proj2 (Z.ltb_lt _ _)) in H5', H6' by done.
  pose proof (len_nonneg (have c)). cbn [print_spec] in H5', H6'. set (text := bs "bytes=" ++ _) in H5', H6'.
  assert (forallb visible_ascii text = true) as Htext.
  { unfold text. rewrite !forallb_app, (digits_visible (fmt_dec _)) by by apply fmt_dec_digits. done. }
  rewrite get_insert, decide_True in H5' by done.
  rewrite get_insert, decide_False, get_insert, decide_True in H6' by (done || name_ne).
  destruct (hm_get hdrs IF_RANGE) as [w'|] eqn:Hw; [|done]. destruct (hm_get hdrs RANGE) as [r|] eqn:Hr; [|done].
  injection H5' as Hw'. injection H6' as Hr'. exists w'. split; [done|]. split; [|split; [done|]].
  - exists r. split; [done|]. apply to_str_Some. split; [|done]. rewrite Hr'. by apply as_bytes_static.
  - by repeat (apply List.Forall_cons; [by eapply fmap_None|]).
Qed.

(** The two responses a client can get. *)
Lemma request_served c now f hdrs :
  client_inv c → served now f → same_request hdrs (client_request c) →
  ∃ v' resp, as_bytes v' = tag_bytes f ∧ serve (D:=D) (E:=E) now f GET hdrs = Ret resp ∧
    (response_is (D:=D) (E:=E) now f (Some v') GET AWhole resp ∨
     ∃ w now0 f0, tag c = Some w ∧ holds_version c w now0 f0 ∧ same_version f0 f ∧
       response_is (D:=D) (E:=E) now f (Some v') GET (APartial (mk_range (len (have c)) (crf_len f)) false) resp).
Proof.
  intros Hinv Hs Hreq. destruct (proj1 Hv now f Hs) as (Hf & Hst & Hd).
  assert (client_request c = hm_new ∨ ∃ w, tag c = Some w ∧ len (have c) < total c) as [Hnew|(w & Ht & Hl)].
  { unfold client_request. destruct (tag c) as [w|]; [|by left].
    destruct (Z.ltb_spec (len (have c)) (total c)); [right; by exists w|by left]. }
  - rewrite Hnew in Hreq. destruct (whole_served now f hdrs Hs Hreq) as (v' & resp & Hv' & Hsv & Hr).
    exists v', resp. by auto.
  - destruct (Hinv w Ht) as (now0 & f0 & Hh). pose proof Hh as (Hs0 & Hw & _ & Htot & _).
    destruct (client_resumes c hdrs w Ht Hl Hreq) as (w' & Hw' & Hres). rewrite Hw in Hw'.
    destruct (proj1 Hv now0 f0 Hs0) as (_ & Hst0 & _). pose proof (len_nonneg (have c)).
    destruct (resume_served (D:=D) (E:=E) now f0 f w' hdrs (len (have c)))
      as (v' & resp & Hv' & Hsv & Hr); [done..|lia|].
    exists v', resp. split; [done|]. split; [done|]. case_decide as Hsame; [right|by left].
    by exists w, now0, f0.
Qed.

(** After any of them the client has some of one version; all of it if neither
    the connection nor a read failed. *)
Lemma request_keeps c now f hdrs resp cx fuel got o b' k :
  client_inv c → served now f → same_request hdrs (client_request c) →
  serve (D:=D) (E:=E) now f GET hdrs = Ret resp →
  drain (Pollable0:=body_pollable cx) fuel (resp_body resp) = Ret (Some (got, o, b')) →
  client_inv (client_take resp (take k got) c) ∧
  (never_fails (D:=D) (E:=E) f → k = length got →
   have (client_take resp (take k got) c) = file_content (crf_f f) ∧
   total (client_take resp (take k got) c) = crf_len f).
Proof.
  intros Hinv Hs Hreq Hsv Hdr. destruct (request_served c now f hdrs Hinv Hs Hreq) as (v' & resp' & Hv' & Hsv' & Hr).
  rewrite Hsv in Hsv'. injection Hsv' as <-.
  assert (take k got `prefix_of` got) as Htk by (exists (drop k got); by rewrite take_drop).
  destruct Hr as [Hr|(w & now0 & f0 & Ht & Hh & Hsame & Hr)].
  - pose proof (proj2 (proj2 Hr) cx) as Hb. rewrite bool_decide_false in Hb by apply GET_not_HEAD. cbn in Hb.
    destruct (drained _ _ _ _ _ _ _ _ Hb Hdr) as [Hp Hall].
    destruct (take_whole now f v' resp (take k got) c) as (w & -> & Hw); [done..|].
    split.
    + intros w' [= <-]. exists now, f. by split_and!; [..|etrans].
    + intros Hn ->. simpl. rewrite firstn_all. auto.
  - pose proof (proj2 (proj2 Hr) cx) as Hb. rewrite bool_decide_false in Hb by apply GET_not_HEAD. cbn in Hb.
    pose proof Hh as (Hs0 & _ & _ & Htot & [rest Hrest]). pose proof (proj2 Hv _ _ _ _ Hs0 Hs Hsame) as Hc.
    destruct (proj1 Hv now f Hs) as (Hf & _ & _). pose proof (len_nonneg (have c)).
    assert (drop (Z.to_nat (len (have c))) (file_content (crf_f f)) = rest) as Hdrop
      by (rewrite <- Hc, Hrest; unfold len; by rewrite Nat2Z.id, drop_app_length).
    rewrite range_bytes_rest, Hdrop in Hb; [|done|].
    2: { pose proof (proj1 Hf) as Hl. rewrite <- Hc, Hrest, len_app in Hl. pose proof (len_nonneg rest). lia. }
    destruct (drained _ _ _ _ _ _ _ _ Hb Hdr) as [Hp Hall].
    unfold client_take. rewrite (proj1 Hr). cbn [answer_status]. rewrite Z.eqb_refl. cbn [have tag coding total]. split.
    + intros w' Hw'. rewrite Ht in Hw'. injection Hw' as <-. destruct Hh as (_ & Hw & Hc' & _).
      exists now0, f0. split_and!; [done..|]. simpl. rewrite Hrest. apply prefix_app. by etrans.
    + intros Hn ->. rewrite firstn_all, (Hall Hn), <- Hrest, Hc. split; [done|]. by rewrite Htot, (proj1 (proj2 Hsame)).
Qed.

Lemma session_inv c : rtc session_step fresh c → client_inv c.
Proof.
  assert (∀ c1 c2, session_step c1 c2 → client_inv c1 → client_inv c2) as Hstep.
  { intros c1 c2 [now f hdrs resp cx fuel got o b' k Hs Hreq Hsv Hdr] Hinv.
    by apply (request_keeps c1 now f hdrs resp cx fuel got o b' k). }
  intros Hr. assert (client_inv fresh) as Hinv by by intros w. revert Hinv.
  induction Hr as [|c1 c2 c3 Hs _ IH]; [done|]. intros Hinv. apply IH. by eapply Hstep.
Qed.

(** The request that finishes. *)
Lemma session_finishes c now f hdrs (cx : Waker) :
  rtc session_step fresh c → served now f → never_fails (D:=D) (E:=E) f → same_request hdrs (client_request c) →
  ∃ resp got fuel o b', serve (D:=D) (E:=E) now f GET hdrs = Ret resp ∧
    drain (Pollable0:=body_pollable cx) fuel (resp_body resp) = Ret (Some (got, o, b')) ∧
    have (client_take resp got c) = file_content (crf_f f) ∧
    total (client_take resp got c) = len (file_content (crf_f f)).
Proof.
  intros Hinv%session_inv Hs Hn Hreq. destruct (proj1 Hv now f Hs) as (Hf & _ & _).
  destruct (request_served c now f hdrs Hinv Hs Hreq) as (v' & resp & _ & Hsv & Hr).
  assert (∃ s, body_gives (D:=D) (E:=E) f cx (resp_body resp) s) as (s & _ & _ & got & o & b' & fuel & Hdr & _)
    by (destruct Hr as [(_ & _ & Hb)|(_ & _ & _ & _ & _ & _ & _ & _ & Hb)]; eexists; apply Hb).
  destruct (request_keeps c now f hdrs resp cx fuel got o b' (length got) Hinv Hs Hreq Hsv Hdr) as [_ Hdone].
  destruct (Hdone Hn eq_refl) as [Hhave Htotal]. rewrite firstn_all in Hhave, Htotal.
  exists resp, got, fuel, o, b'. split_and!; [done..|]. by rewrite Htotal, (proj1 Hf).
Qed.
End session.

Section properties.
Context `{Build, Wakers, HttpLaws, !HttpDate, !HttpDateLaws, UnixLaws, !StableFiles, !StableFilesLaws}
  {D E : Type} `{!Buf D, !BufLaws D, !FromBoxError E}.

(** C12: a download over any number of requests never mixes versions: whatever
    versions the server has at each request, wherever the connections break and
    the reads fail, what a client has at any time is the start of one version
    that was served, the one its tag and its content coding are of, and the whole
    of it once it has the announced length; and from any such state one more
    request that is not cut short, to a server whose reads succeed, completes the
    version it then has.  The requests may have any other header fields. *)
Theorem download_session (served : SystemTime → ChunkedReadFile → Prop) (c : client) :
  CHUNK_SIZE <= usize_max → versions_ok (D:=D) (E:=E) served →
  rtc (session_step (D:=D) (E:=E) served) fresh c →
  (∀ w, tag c = Some w → ∃ now f, served now f ∧ as_bytes w = tag_bytes f ∧ coding c = coding_of f ∧
     have c `prefix_of` file_content (crf_f f) ∧
     (len (have c) = total c → have c = file_content (crf_f f))) ∧
  (∀ now f (cx : Waker), served now f → never_fails (D:=D) (E:=E) f →
     ∃ c', session_step (D:=D) (E:=E) served c c' ∧ have c' = file_content (crf_f f) ∧
       total c' = len (have c')).
Proof.
  intros Hmem Hv Hr. split.
  - intros w Hw. destruct (session_inv Hmem served Hv c Hr w Hw) as (now & f & Hh).
    pose proof Hh as (Hs & Hwf & Hc & _ & Hp). exists now, f. split_and!; [done..|].
    by apply (holds_all served Hv c w now f).
  - intros now f cx Hs Hn.
    destruct (session_finishes Hmem served Hv c now f (client_request c) cx Hr Hs Hn (same_request_refl _))
      as (resp & got & fuel & o & b' & Hsv & Hdr & Hhave & Htotal).
    exists (client_take resp (take (length got) got) c). rewrite firstn_all, Hhave. split; [|done].
    rewrite <- (firstn_all got) at 1. by eapply request; [|apply same_request_refl|..].
Qed.
End properties.

(** ** A download that is interrupted by a new version *)

#[local] Existing Instances debug_build plain_http plain_http_laws plain_date plain_date_laws
  plain_buf plain_buf_laws box_error_self test_wakers test_unix test_unix_laws test_content
  test_content_laws.

Definition test_served (now : SystemTime) (f : ChunkedReadFile) : Prop :=
  now = test_now ∧ (f = hello_file ∨ f = world_file).

Lemma test_versions : versions_ok (D:=bytes) (E:=BoxError) test_served.
Proof.
  split.
  - intros now f [-> [-> | ->]]; (split; [apply hello_ok || apply world_ok|]);
      (split; [split_and!; by vm_compute|by split_and!]).
  - intros now f now' f' [_ [-> | ->]] [_ [-> | ->]] (_ & _ & Hm); done || discriminate Hm.
Qed.

Lemma world_reads : reads_ok world_file (crf_len world_file).
Proof.
  split; [by vm_compute|]. intros t n off Hn Hoff. eexists. split; [reflexivity|]. simpl in *.
  intros Hnil%(f_equal length). rewrite length_take, length_drop in Hnil. simpl in Hnil. lia.
Qed.

(** The connection breaks after two bytes. *)
Definition broken : client :=
  mk_client (bs "he") (Some (tag_bytes hello_file : @HeaderValue plain_http)) None 5.

Lemma broken_reachable : rtc (session_step (D:=bytes) (E:=BoxError) test_served) fresh broken.
Proof.
  apply rtc_once.
  destruct (serve (D:=bytes) (E:=BoxError) test_now hello_file GET (client_request fresh)) as [resp|] eqn:Hs; [|discriminate Hs].
  assert (client_take resp (take 2 (bs "hello")) fresh = broken) as <- by (injection Hs as <-; by vm_compute).
  eapply (request (D:=bytes) (E:=BoxError) test_served fresh test_now hello_file (client_request fresh) resp (7%nat : @Waker test_wakers)
            9 (bs "hello") Done); [by split; [|left]|apply same_request_refl|exact Hs|].
  injection Hs as <-. reflexivity.
Qed.

Lemma download_session_witness :
  ∃ c', session_step (D:=bytes) (E:=BoxError) test_served broken c' ∧ have c' = bs "world".
Proof.
  destruct (download_session (D:=bytes) (E:=BoxError) test_served broken) as [_ Hfin].
  - by vm_compute.
  - exact test_versions.
  - exact broken_reachable.
  - destruct (Hfin test_now world_file (7%nat : @Waker test_wakers)) as (c' & Hs & Hh & _).
    + by split; [|right].
    + apply file_never_fails; [by vm_compute|exact world_ok|exact world_reads].
    + exists c'. split; [exact Hs|exact Hh].
Defined.
