(* ===== verification/Revalidate.v ===== *)
(** * A cache that revalidates its copy (src/serving.rs with src/file.rs)

    A client keeps the last complete response it got for a file and asks with
    the tag and the date of that response whether it is still current
    (RFC 7232 section 2.4, RFC 7234 section 4.3), over any number of requests:
    between two of them the file may be replaced, and each connection may break
    at any byte. *)

From S2P Require Import Prelude RustStd HttpApi Plain Range Etag Stream Entity Multipart.
From S2P Require Import Chunker Body Platform File Serving ServingSpec ServingProps SameBytes FileServing Download.

(** ** The cache *)

Section cache.
Context `{Http}.

Record copy := mk_copy {
  copy_body : bytes;
  copy_tag : HeaderValue;
  copy_date : option HeaderValue;
  copy_coding : option bytes
}.

Definition revalidation (c : option copy) : HeaderMap :=
  match c with
  | None => hm_new
  | Some p =>
      let hdrs := hm_insert hm_new IF_NONE_MATCH (copy_tag p) in
      match copy_date p with
      | Some d => hm_insert hdrs IF_MODIFIED_SINCE d
      | None => hdrs
      end
  end.

(** A response of whose body [got] arrived: only complete ones are kept. *)
Definition cache_take {B} (resp : Response B) (got : bytes) (c : option copy) : option copy :=
  if as_u16 (resp_status resp) =? 200 then
    match hm_get (resp_headers resp) ETAG, hm_get (resp_headers resp) CONTENT_LENGTH with
    | Some t, Some n =>
        if bool_decide (u64_from_str (as_bytes n) = Some (len got))
        then Some (mk_copy got t (hm_get (resp_headers resp) LAST_MODIFIED)
                     (as_bytes <$> hm_get (resp_headers resp) CONTENT_ENCODING))
        else c
    | _, _ => c
    end
  else c.
End cache.

Section revalidating.
Context `{Build, Wakers, HttpLaws, !HttpDate, !HttpDateLaws, UnixLaws, !StableFiles, !StableFilesLaws}
  {D E : Type} `{!Buf D, !BufLaws D, !FromBoxError E}.
Context (Hmem : CHUNK_SIZE <= usize_max).
Context (served : SystemTime → ChunkedReadFile → Prop).

(** One request, with any other header fields, broken after [k] bytes of the body
    if there are so many. *)
Inductive cache_step (c : option copy) : option copy → Prop :=
  | revalidate now f hdrs resp cx fuel got o b' k :
      served now f → same_request hdrs (revalidation c) →
      serve (D:=D) (E:=E) now f GET hdrs = Ret resp →
      drain (Pollable0:=body_pollable cx) fuel (resp_body resp) = Ret (Some (got, o, b')) →
      cache_step c (cache_take resp (take k got) c).

(** ** Invariant *)

(** A copy is of one version, that of its tag. *)
Definition copy_of (p : copy) (f : ChunkedReadFile) : Prop :=
  as_bytes (copy_tag p) = tag_bytes f ∧ copy_coding p = coding_of f ∧ copy_body p = file_content (crf_f f).

Definition cache_inv (c : option copy) : Prop :=
  ∀ p, c = Some p → ∃ now f, served now f ∧ copy_of p f.

Context (Hv : versions_ok (D:=D) (E:=E) served).

(** The request is not a ranged one, and its other fields are absent. *)
Lemma revalidation_get c k :
  hm_get (revalidation c) k =
    match c with
    | None => None
    | Some p => if decide (k = IF_MODIFIED_SINCE) then copy_date p
                else if decide (k = IF_NONE_MATCH) then Some (copy_tag p) else None
    end.
Proof.
  assert (IF_NONE_MATCH ≠ IF_MODIFIED_SINCE) by name_ne.
  destruct c as [p|]; simpl; [|apply get_new].
  destruct (copy_date p) as [d|]; rewrite ?get_insert, ?get_new; repeat case_decide; congruence.
Qed.

(** The decision of [serve] on it. *)
Lemma revalidation_decision c now f v' :
  cache_inv c → served now f → as_bytes v' = tag_bytes f →
  decide_answer (D:=D) (E:=E) (Some v') f GET (revalidation c) =
    Ret (if bool_decide ((as_bytes ∘ copy_tag <$> c) = Some (tag_bytes f)) then ANotModified else AWhole).
Proof.
  intros Hinv Hs Hv'. rewrite decide_get.
  assert (∀ k, k ≠ IF_MODIFIED_SINCE → k ≠ IF_NONE_MATCH → hm_get (revalidation c) k = None) as Hnone.
  { intros k H1' H2'. rewrite revalidation_get. destruct c; [|done]. by rewrite !decide_False. }
  unfold parse_modified_hdrs, any_match, range_after_if_range. rewrite (Hnone IF_MATCH), (Hnone IF_UNMODIFIED_SINCE), (Hnone IF_RANGE), (Hnone RANGE) by name_ne.
  destruct c as [p|].
  - destruct (Hinv p eq_refl) as (now0 & f0 & Hs0 & Hp & _).
    destruct (proj1 Hv now0 f0 Hs0) as (_ & Hst0 & _).
    assert (IF_NONE_MATCH ≠ IF_MODIFIED_SINCE) by name_ne.
    destruct (match_tags v' (copy_tag p) (Tag false (etag_text f)) [(Tag false (etag_text f0), [])]
                (revalidation (Some p)) Hv' Hp) as [Hm _]; [by repeat constructor; apply etag_text_valid|].
    rewrite Hm by (by rewrite revalidation_get, decide_False, decide_True). cbn [fmap option_fmap option_map list_fmap compose existsb fst].
    rewrite orb_false_r, Hp. unfold weak_match. cbn [tag_opaque].
    assert (bool_decide (Some (tag_bytes f0) = Some (tag_bytes f)) = bool_decide (etag_text f0 = etag_text f)) as ->.
    { apply bool_decide_ext. unfold tag_bytes. split; [intros [= Hq]; by apply app_inj_tail in Hq as [? _]|by intros ->]. }
    case_bool_decide; by destruct (last_modified f).
  - unfold none_match. rewrite !revalidation_get. by destruct (last_modified f).
Qed.

(** What is not changed by a request that is answered 304, and what the others
    leave. *)
Lemma revalidation_served c now f hdrs :
  cache_inv c → served now f → same_request hdrs (revalidation c) →
  ∃ v' resp, as_bytes v' = tag_bytes f ∧ serve (D:=D) (E:=E) now f GET hdrs = Ret resp ∧
    response_is (D:=D) (E:=E) now f (Some v') GET
      (if bool_decide ((as_bytes ∘ copy_tag <$> c) = Some (tag_bytes f)) then ANotModified else AWhole) resp.
Proof.
  intros Hinv Hs Hreq. destruct (proj1 Hv now f Hs) as (Hf & Hst & Hd). pose proof (file_laws (D:=D) (E:=E) Hmem f Hf) as Hlaws.
  destruct (crf_etag_print f Hst) as (v' & He & Hv'). exists v'.
  pose proof (revalidation_decision c now f v' Hinv Hs Hv') as Ha.
  destruct (serve_is_alike (D:=D) (E:=E) now f (Some v') GET hdrs (revalidation c)
              (if bool_decide ((as_bytes ∘ copy_tag <$> c) = Some (tag_bytes f)) then ANotModified else AWhole))
    as (resp & Hsv & Hr); [done|done|done| |done|by exists resp].
  intros r. rewrite revalidation_get. destruct c; [|done]. by rewrite !decide_False by name_ne.
Qed.

Lemma cache_take_whole c now f v' (resp : Response (Body ChunkedReadFile D E)) got :
  served now f → as_bytes v' = tag_bytes f →
  response_is (D:=D) (E:=E) now f (Some v') GET AWhole resp → got `prefix_of` file_content (crf_f f) →
  (got ≠ file_content (crf_f f) ∧ cache_take resp got c = c) ∨
  ∃ p, cache_take resp got c = Some p ∧ got = file_content (crf_f f) ∧ copy_of p f.
Proof.
  intros Hs Hv' Hr [rest Hgot]. destruct (proj1 Hv now f Hs) as ((Hl & _) & _).
  destruct (whole_headers Hmem served Hv now f v' resp Hs Hv' Hr) as (w & cl & Ht & Hw & Hcl & Hn).
  unfold cache_take. rewrite (proj1 Hr), Ht, Hcl, Hn, Hl, (whole_coding _ _ _ _ _ Hr). cbn [answer_status]. rewrite Z.eqb_refl.
  case_bool_decide as Hlen.
  - right. eexists. split; [done|]. injection Hlen as Hlen. rewrite Hgot, len_app in Hlen.
    assert (rest = []) as -> by (apply len_0_inv; lia). rewrite app_nil_r in Hgot. by split_and!.
  - left. split; [|done]. intros ->. congruence.
Qed.

(** A copy with the tag of a version is that version. *)
Lemma current_copy p now f :
  cache_inv (Some p) → served now f → Some (as_bytes (copy_tag p)) = Some (tag_bytes f) →
  copy_body p = file_content (crf_f f).
Proof.
  intros Hinv Hs [= Htag]. destruct (Hinv p eq_refl) as (now0 & f0 & Hs0 & Hp & _ & ->).
  apply (proj2 Hv now0 f0 now f); [done..|].
  destruct (proj1 Hv now f Hs) as (_ & Hst & _), (proj1 Hv now0 f0 Hs0) as (_ & Hst0 & _).
  rewrite Hp in Htag. apply print_tag_inj in Htag as [= Htext]. by apply etag_text_inj.
Qed.

(** One request. *)
Lemma revalidate_keeps c now f hdrs resp cx fuel got o b' k :
  cache_inv c → served now f → same_request hdrs (revalidation c) →
  serve (D:=D) (E:=E) now f GET hdrs = Ret resp →
  drain (Pollable0:=body_pollable cx) fuel (resp_body resp) = Ret (Some (got, o, b')) →
  cache_inv (cache_take resp (take k got) c) ∧
  (never_fails (D:=D) (E:=E) f → k = length got →
   ∃ p, cache_take resp (take k got) c = Some p ∧ copy_body p = file_content (crf_f f)).
Proof.
  intros Hinv Hs Hreq Hsv Hdr. destruct (revalidation_served c now f hdrs Hinv Hs Hreq) as (v' & resp' & Hv' & Hsv' & Hr).
  rewrite Hsv in Hsv'. injection Hsv' as <-. pose proof (proj2 (proj2 Hr) cx) as Hb.
  rewrite bool_decide_false in Hb by apply GET_not_HEAD. simpl in Hb. case_bool_decide as Htag.
  - assert (cache_take resp (take k got) c = c) as -> by (unfold cache_take; by rewrite (proj1 Hr)).
    split; [done|]. intros _ _. destruct c as [p|]; [|done]. exists p. split; [done|]. by apply (current_copy p now f).
  - destruct (drained (D:=D) (E:=E) f cx _ _ _ _ _ _ Hb Hdr) as [Hpre Hall].
    assert (take k got `prefix_of` file_content (crf_f f)) as Hk by (etrans; [|exact Hpre]; exists (drop k got); by rewrite take_drop).
    destruct (cache_take_whole c now f v' resp _ Hs Hv' Hr Hk) as [[Hne ->]|(p & -> & Hgot & Hp)].
    + split; [done|]. intros Hn ->. rewrite firstn_all in Hne. destruct Hne. auto.
    + split; [|intros _ _; exists p; split; [done|apply Hp]]. intros p' [= <-]. by exists now, f.
Qed.

Lemma cache_reach_inv c : rtc cache_step None c → cache_inv c.
Proof.
  assert (∀ c1 c2, cache_step c1 c2 → cache_inv c1 → cache_inv c2) as Hstep.
  { intros c1 c2 [now f hdrs resp cx fuel got o b' k Hs Hreq Hsv Hdr] Hinv.
    by apply (revalidate_keeps c1 now f hdrs resp cx fuel got o b' k). }
  intros Hr. assert (cache_inv None) as Hinv by done. revert Hinv.
  induction Hr as [|c1 c2 c3 Hs _ IH]; [done|]. intros Hinv. apply IH. by eapply Hstep.
Qed.

(** The next exchange. *)
Lemma cache_refreshes c now f hdrs (cx : Waker) :
  rtc cache_step None c → served now f → never_fails (D:=D) (E:=E) f → same_request hdrs (revalidation c) →
  ∃ resp got fuel o b' p, serve (D:=D) (E:=E) now f GET hdrs = Ret resp ∧
    drain (Pollable0:=body_pollable cx) fuel (resp_body resp) = Ret (Some (got, o, b')) ∧
    cache_take resp got c = Some p ∧ copy_body p = file_content (crf_f f).
Proof.
  intros Hinv%cache_reach_inv Hs Hn Hreq.
  destruct (revalidation_served c now f hdrs Hinv Hs Hreq) as (v' & resp & _ & Hsv & _ & _ & Hb).
  destruct (Hb cx) as (_ & _ & got & o & b' & fuel & Hdr & _).
  destruct (revalidate_keeps c now f hdrs resp cx fuel got o b' (length got) Hinv Hs Hreq Hsv Hdr) as [_ Hdone].
  destruct (Hdone Hn eq_refl) as (p & Hp & Hbody). rewrite firstn_all in Hp.
  by exists resp, got, fuel, o, b', p.
Qed.
End revalidating.

Section properties.
Context `{Build, Wakers, HttpLaws, !HttpDate, !HttpDateLaws, UnixLaws, !StableFiles, !StableFilesLaws}
  {D E : Type} `{!Buf D, !BufLaws D, !FromBoxError E}.

(** C13: a cache that revalidates is never stale and never mixed up: whatever
    versions the server has at each request and wherever connections break, a
    kept copy is the whole content of the one version its tag and its content
    coding are of; to a cache
    in any such state the server answers 304, with no body, exactly if the copy
    has the tag of the version it now has, whose content the copy then is, and
    otherwise 200 with that version's content; so one exchange with a server
    whose reads succeed leaves the copy current.  The requests may have any
    other header fields. *)
Theorem revalidation_session (served : SystemTime → ChunkedReadFile → Prop) (c : option copy) :
  CHUNK_SIZE <= usize_max → versions_ok (D:=D) (E:=E) served →
  rtc (cache_step (D:=D) (E:=E) served) None c →
  (∀ p, c = Some p → ∃ now f, served now f ∧ copy_of p f) ∧
  ∀ now f, served now f →
    (∃ resp, serve (D:=D) (E:=E) now f GET (revalidation c) = Ret resp ∧
       if bool_decide ((as_bytes ∘ copy_tag <$> c) = Some (tag_bytes f)) then
         as_u16 (resp_status resp) = 304 ∧ (∀ cx, body_gives (D:=D) (E:=E) f cx (resp_body resp) []) ∧
         ∃ p, c = Some p ∧ copy_body p = file_content (crf_f f)
       else
         as_u16 (resp_status resp) = 200 ∧
         ∀ cx, body_gives (D:=D) (E:=E) f cx (resp_body resp) (file_content (crf_f f))) ∧
    (∀ cx : Waker, never_fails (D:=D) (E:=E) f →
       ∃ p, cache_step (D:=D) (E:=E) served c (Some p) ∧ copy_body p = file_content (crf_f f)).
Proof.
  intros Hmem Hv Hr. pose proof (cache_reach_inv Hmem served Hv c Hr) as Hinv. split; [exact Hinv|].
  intros now f Hs. split.
  2: { intros cx Hn.
    destruct (cache_refreshes Hmem served Hv c now f (revalidation c) cx Hr Hs Hn (same_request_refl _))
      as (resp & got & fuel & o & b' & p & Hsv & Hdr & Hp & Hbody).
    exists p. split; [|done]. rewrite <- Hp, <- (firstn_all got). by eapply revalidate; [|apply same_request_refl|..]. }
  destruct (revalidation_served Hmem served Hv c now f (revalidation c) Hinv Hs (same_request_refl _)) as (v' & resp & Hv' & Hsv & Hst & _ & Hb).
  rewrite bool_decide_false in Hb by apply GET_not_HEAD.
  exists resp. split; [done|]. case_bool_decide as Htag; (split; [done|]); [|done]. split; [done|].
  destruct c as [p|]; [|done]. exists p. split; [done|]. by apply (current_copy served Hv p now f).
Qed.
End properties.

(** ** A copy, the same file, and a new version *)

#[local] Existing Instances debug_build plain_http plain_http_laws plain_date plain_date_laws
  plain_buf plain_buf_laws box_error_self test_wakers test_unix test_unix_laws test_content
  test_content_laws.

(** What the first exchange leaves. *)
Definition hello_copy : copy :=
  mk_copy (bs "hello") (tag_bytes hello_file : @HeaderValue plain_http)
    (Some (fmt_http_date (Z.min (crf_mtime hello_file) test_now) : @HeaderValue plain_http)) None.

Lemma hello_copy_reachable : rtc (cache_step (D:=bytes) (E:=BoxError) test_served) None (Some hello_copy).
Proof.
  apply rtc_once.
  destruct (serve (D:=bytes) (E:=BoxError) test_now hello_file GET (revalidation None)) as [resp|] eqn:Hs; [|discriminate Hs].
  assert (cache_take resp (take 5 (bs "hello")) None = Some hello_copy) as <- by (injection Hs as <-; by vm_compute).
  eapply (revalidate (D:=bytes) (E:=BoxError) test_served None test_now hello_file (revalidation None) resp (7%nat : @Waker test_wakers)
            9 (bs "hello") Done); [by split; [|left]|apply same_request_refl|exact Hs|].
  injection Hs as <-. reflexivity.
Qed.

Lemma revalidation_session_witness :
  (∃ resp, serve (D:=bytes) (E:=BoxError) test_now hello_file GET (revalidation (Some hello_copy)) = Ret resp ∧
     as_u16 (resp_status resp) = 304) ∧
  ∃ p, cache_step (D:=bytes) (E:=BoxError) test_served (Some hello_copy) (Some p) ∧ copy_body p = bs "world".
Proof.
  destruct (revalidation_session (D:=bytes) (E:=BoxError) test_served (Some hello_copy)) as [_ Hnext].
  - by vm_compute.
  - exact test_versions.
  - exact hello_copy_reachable.
  - split.
    + destruct (Hnext test_now hello_file) as [(resp & Hs & Hst) _]; [by split; [|left]|].
      rewrite bool_decide_true in Hst by reflexivity. exists resp. split; [exact Hs|exact (proj1 Hst)].
    + destruct (Hnext test_now world_file) as [_ Hfresh]; [by split; [|right]|].
      destruct (Hfresh (7%nat : @Waker test_wakers)) as (p & Hs & Hp).
      * apply file_never_fails; [by vm_compute|exact world_ok|exact world_reads].
      * exists p. split; [exact Hs|exact Hp].
Defined.
