(* ===== verification/ServeFile.v ===== *)
(** * The example server of one file (examples/serve_file.rs) *)

From S2P Require Import Prelude RustStd HttpApi Plain Range Etag Stream Entity Multipart.
From S2P Require Import Chunker Body Platform File Serving ServingSpec ServingProps FileServing.

(** [std::fs::File::open]. *)
Class OpenFile `{Unix} := open_path : bytes → result UnixFile io_error.

Record Context := mk_Context { ctx_path : bytes }.

#[local] Existing Instance box_error_self.

Section serve_file.
Context `{Build, Wakers, Http, !HttpDate, Unix, !OpenFile} {D : Type} `{!Buf D}.

Definition octet_stream : HeaderMap :=
  hm_insert hm_new CONTENT_TYPE (from_static (bs "application/octet-stream")).

(** The closure run by [block_in_place]. *)
Definition open_entity (ctx : Context) : result ChunkedReadFile BoxError :=
  match and_then (open_path (ctx_path ctx)) (λ f, crf_new f octet_stream) with
  | Ok f => Ok f
  | Err e => Err (BoxIo e)
  end.

Definition serve_file (now : SystemTime) (ctx : Context) (method : Method) (req_hdrs : HeaderMap)
    : outcome (result (Response (Body ChunkedReadFile D BoxError)) BoxError) :=
  match open_entity ctx with
  | Err e => Ret (Err e)
  | Ok f => resp ← serve now f method req_hdrs; Ret (Ok resp)
  end.
End serve_file.

Section properties.
Context `{Build, Wakers, HttpLaws, !HttpDate, !HttpDateLaws, UnixLaws, !StableFiles, !StableFilesLaws, !OpenFile}
  {D : Type} `{!Buf D, !BufLaws D}.

Lemma octet_stream_free : headers_free octet_stream.
Proof.
  intros k Hk. unfold octet_stream. rewrite hm_get_all_insert, hm_get_all_new, decide_False; [done|].
  intros <-. assert (CONTENT_TYPE ∉ reserved) as Hn by not_reserved. done.
Qed.

Lemma open_entity_ok ctx f md info :
  open_path (ctx_path ctx) = Ok f → file_metadata f = Ok md → stat_agrees f md info →
  open_entity ctx = Ok (file_of f info octet_stream).
Proof.
  intros Ho Hm Hs. unfold open_entity, crf_new. rewrite Ho. simpl. rewrite Hm. simpl.
  by rewrite (new_file_of f md info octet_stream Hs).
Qed.

(** What the example server answers: an error of [open], of [fstat], or a
    path that is no regular file is the error of the handler (hyper then closes
    the connection); for a file that does not change, the response to any
    request is the specified answer of [serve] for the file's bytes, served as
    [application/octet-stream], and an unconditional GET gets all of them. *)
Theorem serve_file_spec (now : SystemTime) (ctx : Context) :
  CHUNK_SIZE <= usize_max → http_date_range now →
  (∀ e m hdrs, open_path (ctx_path ctx) = Err e →
     serve_file (D:=D) now ctx m hdrs = Ret (Err (BoxIo e))) ∧
  (∀ f md m hdrs, open_path (ctx_path ctx) = Ok f → file_metadata f = Ok md → is_file md = false →
     serve_file (D:=D) now ctx m hdrs = Ret (Err (BoxIo expected_a_file))) ∧
  (∀ f md info etag method hdrs a, open_path (ctx_path ctx) = Ok f → file_metadata f = Ok md →
     stat_agrees f md info →
     let e := file_of f info octet_stream in
     crf_etag e = Ret etag → (∀ v, hm_get hdrs RANGE = Some v → 2 * len (as_bytes v) + 1 <= usize_max) →
     decide_answer (D:=D) (E:=BoxError) etag e method hdrs = Ret a →
     ∃ resp, serve_file (D:=D) now ctx method hdrs = Ret (Ok resp) ∧
       response_is now e etag method a resp) ∧
  (∀ f md info hdrs, open_path (ctx_path ctx) = Ok f → file_metadata f = Ok md → stat_agrees f md info →
     unconditional hdrs → hm_get hdrs RANGE = None →
     ∃ resp, serve_file (D:=D) now ctx GET hdrs = Ret (Ok resp) ∧
       as_u16 (resp_status resp) = 200 ∧
       as_bytes <$> hm_get_all (resp_headers resp) CONTENT_TYPE = [bs "application/octet-stream"] ∧
       ∀ cx, body_gives (file_of f info octet_stream) cx (resp_body resp) (file_content f)).
Proof.
  intros Hmem Hnow. split_and!.
  - intros e m hdrs Ho. unfold serve_file, open_entity. by rewrite Ho.
  - intros f md m hdrs Ho Hm Hf. unfold serve_file, open_entity, crf_new, new_with_metadata.
    rewrite Ho. simpl. rewrite Hm. simpl. by rewrite Hf.
  - intros f md info etag method hdrs a Ho Hm Hs e He Hr Ha.
    unfold serve_file. rewrite (open_entity_ok ctx f md info Ho Hm Hs).
    destruct (file_served now f md info octet_stream etag method hdrs a Hmem Hnow Hs octet_stream_free He Hr Ha)
      as (resp & Hsv & Hresp). exists resp. by rewrite Hsv.
  - intros f md info hdrs Ho Hm Hs Hu Hr.
    unfold serve_file. rewrite (open_entity_ok ctx f md info Ho Hm Hs).
    destruct (file_whole (D:=D) (E:=BoxError) f md info octet_stream hdrs Hs Hu Hr) as (v & He & Ha).
    destruct (file_served now f md info octet_stream _ GET hdrs _ Hmem Hnow Hs octet_stream_free He
                ltac:(intros v'; by rewrite Hr) Ha) as (resp & Hsv & Hst & Hh & Hb).
    exists resp. rewrite Hsv. split; [done|]. split; [done|]. split.
    + rewrite Hh, whole_field by not_reserved. unfold octet_stream. cbn [crf_headers file_of].
      rewrite hm_get_all_insert, decide_True by done. simpl. by rewrite as_bytes_static.
    + intros cx. specialize (Hb cx). by rewrite bool_decide_false in Hb by apply GET_not_HEAD.
Qed.
End properties.

(** ** A file of five bytes *)

#[local] Existing Instances debug_build plain_http plain_http_laws plain_date plain_date_laws
  plain_buf plain_buf_laws test_wakers test_unix test_unix_laws test_content test_content_laws.
#[local] Instance test_open : OpenFile := λ p,
  if bool_decide (p = bs "hello.txt") then Ok (bs "hello" : UnixFile) else Err (IoError NotFound []).

Lemma serve_file_spec_witness :
  ∃ resp, serve_file (D:=bytes) test_now (mk_Context (bs "hello.txt")) GET (test_headers []) = Ret (Ok resp) ∧
    as_u16 (resp_status resp) = 200.
Proof.
  destruct (serve_file_spec (D:=bytes) test_now (mk_Context (bs "hello.txt"))) as (_ & _ & _ & Hget).
  - by vm_compute.
  - by split.
  - destruct (Hget (bs "hello" : @UnixFile test_unix) (5 : @UnixMetadata test_unix) (mk_FileInfo 7 5 (5 * NANOS_PER_SEC)) (test_headers []))
      as (resp & Hs & Hst & _).
    + reflexivity.
    + reflexivity.
    + by split_and!.
    + by repeat constructor.
    + reflexivity.
    + exists resp. split; [exact Hs|exact Hst].
Defined.
