(* ===== verification/ServeDir.v ===== *)
(** * The example server of a directory (examples/serve_dir.rs)

    The program, the page a listing is meant to be, and a concrete directory;
    DirListing, DirServer, DirClients and Negotiation have the theorems.

    [serve] opens what the path names with [FsDir], and [reply] redirects to,
    lists or serves it.  The listing is written to a streaming body before the
    response is returned, so nobody polls it meanwhile. *)

From stdpp Require Import sorting.
From S2P Require Import Prelude RustStd HttpApi Plain ContentCoding Range Etag Stream Entity Multipart.
From S2P Require Import Chunker Platform File Dir Gzip Body Streaming StreamingBody Writing.
From S2P Require Import Serving ServingSpec ServingProps FileServing.

(** ** The crates it uses: [http], [nix], [htmlescape], [mime_guess] *)

(** [HeaderValue::from_maybe_shared] fails on a byte that cannot be in a value. *)
Class DirHttp `{Http} := {
  MOVED_PERMANENTLY : StatusCode;
  NOT_FOUND : StatusCode;
  INTERNAL_SERVER_ERROR : StatusCode;
  LOCATION : HeaderName;
  from_maybe_shared : bytes → option HeaderValue
}.

Class DirHttpLaws `{DirHttp} : Prop := {
  dir_status_codes :
    as_u16 <$> [MOVED_PERMANENTLY; NOT_FOUND; INTERNAL_SERVER_ERROR] = [301; 404; 500];
  location_name : name_as_str LOCATION = bs "location";
  from_maybe_shared_ok : ∀ s, forallb value_byte s = true →
    ∃ v, from_maybe_shared s = Some v ∧ as_bytes v = s
}.

(** [nix::dir]: a directory stream and its entries; [mode_bits] are the bits
    [SFlag] has a name for. *)
Class NixDirs `{Unix} := {
  NixDir : Type;
  DirEntry : Type;
  FileType : Type;
  file_type_eq_dec : EqDecision FileType;
  Directory : FileType;
  Errno : Type;
  dir_from : UnixFile → result NixDir Errno;
  dir_entries : NixDir → list (result DirEntry Errno);
  file_name : DirEntry → bytes;
  ent_file_type : DirEntry → option FileType;
  fstatat_mode : NixDir → bytes → result Z Errno;
  mode_bits : Z
}.
#[export] Existing Instance file_type_eq_dec.

(** [htmlescape::encode_minimal_w] writes these pieces of text, and
    [mime_guess::from_ext(ext).first_raw()]. *)
Class WebCrates := {
  minimal_pieces : bytes → list bytes;
  first_raw : bytes → option bytes
}.

(** A request, as far as the example looks at it. *)
Class UriRequest (R : Type) := uri_path : R → bytes.

Definition LF : byte := x0a.

(** ** [is_dir] *)

Section is_dir.
Context `{NixDirs}.

Definition S_IFDIR : Z := 16384.

(** [SFlag::from_bits]: [None] if a bit has no name. *)
Definition sflag_from_bits (bits : Z) : option Z :=
  if Z.ldiff bits mode_bits =? 0 then Some bits else None.

Definition entry_is_dir (dir : NixDir) (ent : DirEntry) : outcome (result bool Errno) :=
  match ent_file_type ent with
  | Some t => Ret (Ok (bool_decide (t = Directory)))
  | None =>
      match fstatat_mode dir (file_name ent) with
      | Err e => Ret (Err e)
      | Ok st_mode =>
          mode ← unwrap (sflag_from_bits st_mode);
          Ret (Ok (Z.land mode S_IFDIR =? S_IFDIR))
      end
  end.
End is_dir.

(** Where the file system does not tell the type: [SFlag] names the bits of the
    file type only, so every mode with a permission bit panics, and the one bit
    looked at is set for block devices and sockets too. *)
Lemma entry_is_dir_mode `{NixDirs} dir ent mode :
  mode_bits = 61440 → ent_file_type ent = None → fstatat_mode dir (file_name ent) = Ok mode →
  entry_is_dir dir ent =
    if Z.ldiff mode 61440 =? 0 then Ret (Ok (Z.land mode S_IFDIR =? S_IFDIR)) else Panic UnwrapFailed.
Proof.
  intros Hb Ht Hf. unfold entry_is_dir, sflag_from_bits. rewrite Ht, Hf, Hb. by destruct (_ =? 0).
Qed.

(** ** Writing to a body *)

Section io.
Context `{Build, Wakers, Allocator} {E : Type} `{!GzEncoders E}.

(** [write!] of a string. *)
Definition write_str (data : bytes) : io E unit := body_write_all data.

Fixpoint write_pieces (pieces : list bytes) : io E unit :=
  match pieces with
  | [] => io_ret tt
  | p :: ps => io_bind (write_str p) (λ _, write_pieces ps)
  end.

Definition encode_minimal_w `{!WebCrates} (p : bytes) : io E unit := write_pieces (minimal_pieces p).
End io.

Notation "m ;;; k" := (io_bind m (λ _, k)) (at level 100, right associativity) : serve_dir_scope.
Open Scope serve_dir_scope.

(** ** [reply] *)

Definition page_start : bytes :=
  bs "<!DOCTYPE html>" ++ [LF] ++ bs "<title>directory listing</title>" ++ [LF] ++ bs "<ul>" ++ [LF].
Definition page_end : bytes := bs "</ul>" ++ [LF].
Definition link_start : bytes := bs "<li><a href=" ++ [DQUOTE].
Definition link_middle : bytes := [DQUOTE] ++ bs ">".
Definition link_end : bytes := bs "</a>" ++ [LF].

(** [a.file_name().cmp(b.file_name())]; the names in a directory differ, so it
    does not matter that the sort is not stable. *)
Definition name_le `{NixDirs} (a b : DirEntry) : Prop := bytes_leb (file_name a) (file_name b) = true.
#[export] Instance name_le_dec `{NixDirs} : RelDecision name_le.
Proof. intros a b. unfold name_le. apply _. Defined.
#[export] Instance name_le_total `{NixDirs} : Total name_le.
Proof. intros a b. apply bytes_le_total. Qed.
#[export] Instance name_le_trans `{NixDirs} : Transitive name_le.
Proof. intros a b c. apply bytes_le_trans. Qed.

Section reply.
Context `{Build, Wakers, Allocator, DirHttp, !HttpDate, NixDirs, !WebCrates} {D E : Type}
  `{!Buf D, !FromBoxError E, !GzEncoders E, !AsRequest R, !UriRequest R}.

(** One entry of the listing, which [continue]s past some. *)
Definition list_entry (path : bytes) (dir : NixDir) (ent : DirEntry) : io E unit :=
  let p := file_name ent in
  if negb (valid_utf8 p) then io_ret tt
  else if bool_decide (p = bs ".") then io_ret tt
  else if bool_decide (p = bs "..") && bool_decide (path = bs "/") then io_ret tt
  else
    write_str link_start;;;
    encode_minimal_w p;;;
    io_bind (io_lift (d ← entry_is_dir dir ent; unwrap_ok d)) (λ is_dir : bool,
    (if is_dir then write_str (bs "/") else io_ret tt);;;
    write_str link_middle;;;
    encode_minimal_w p;;;
    (if is_dir then write_str (bs "/") else io_ret tt);;;
    write_str link_end).

Fixpoint list_entries (path : bytes) (dir : NixDir) (ents : list DirEntry) : io E unit :=
  match ents with
  | [] => io_ret tt
  | ent :: ents => list_entry path dir ent;;; list_entries path dir ents
  end.

Fixpoint unwrap_all {A Er} (l : list (result A Er)) : outcome (list A) :=
  match l with
  | [] => Ret []
  | r :: l => a ← unwrap_ok r; l ← unwrap_all l; Ret (a :: l)
  end.

(** The block that writes the listing. *)
Definition write_listing (path : bytes) (file : UnixFile) : io E unit :=
  io_bind (io_lift (unwrap_ok (dir_from file))) (λ dir,
  write_str page_start;;;
  io_bind (io_lift (unwrap_all (dir_entries dir))) (λ ents,
  list_entries path dir (merge_sort name_le ents);;;
  write_str page_end)).

(** A response, and the pipe its body reads when it is returned. *)
Definition reply_result : Type := Response (Body ChunkedReadFile D E) * option (Shared E).

(** [w] is dropped at the end of the block and by [?]. *)
Definition reply_listing (req : R) (node : Node) : outcome (result reply_result io_error) :=
  b ← streaming_body req;
  '(resp, stream, l) ← build (Ent:=ChunkedReadFile) (D:=D) (E:=E) b;
  '(r, l) ← match stream with
            | None => Ret (Ok tt, l)
            | Some w =>
                '(r, (w, l)) ← write_listing (uri_path req) (into_file node) (w, l);
                '(l, _) ← inner_drop w l;
                Ret (r, l)
            end;
  Ret (and_then r (λ _,
    Ok (resp_set_headers resp
          (hm_insert (resp_headers resp) CONTENT_TYPE (from_static (bs "text/html"))), Some l))).

(** The header fields of a file. *)
Definition node_headers (node : Node) (path : bytes) : HeaderMap :=
  let h := add_encoding_headers node hm_new in
  match rfind x2e path with
  | Some dot =>
      match first_raw (drop (dot + 1) path) with
      | Some mime_type => hm_insert h CONTENT_TYPE (from_static mime_type)
      | None => h
      end
  | None => h
  end.

Definition reply_file (now : SystemTime) (req : R) (node : Node) : outcome (result reply_result io_error) :=
  match into_file_entity node (node_headers node (uri_path req)) with
  | Err e => Ret (Err e)
  | Ok f => resp ← serve now f (req_method req) (req_headers req); Ret (Ok (resp, None))
  end.

Definition reply (now : SystemTime) (req : R) (node : Node) : outcome (result reply_result io_error) :=
  if is_dir (metadata node) then
    if negb (bool_decide (last (uri_path req) = Some SLASH)) then
      loc ← unwrap (from_maybe_shared (uri_path req ++ bs "/"));
      resp ← unwrap (builder_body (builder_header (builder_set_status builder MOVED_PERMANENTLY)
                                     LOCATION (Some loc)) empty);
      Ret (Ok (resp, None))
    else reply_listing req node
  else reply_file now req node.
End reply.

(** ** [serve] *)

Section serve_dir.
Context `{Build, Wakers, Allocator, DirHttp, !HttpDate, UnixDirs, !NixDirs, !WebCrates} {D E : Type}
  `{!Buf D, !FromBoxError E, !GzEncoders E, !AsRequest R, !UriRequest R}.

(** The name [FsDir::get] is asked for. *)
Definition request_name (path : bytes) : outcome bytes :=
  if bool_decide (path = bs "/") then Ret (bs ".") else str_from 1 path.

(** [Display] of the error is its message. *)
Definition error_response (e : io_error) : outcome (Response (Body ChunkedReadFile D E)) :=
  let status := if bool_decide (kind e = NotFound) then NOT_FOUND else INTERNAL_SERVER_ERROR in
  unwrap (builder_body (builder_set_status builder status)
            (from_string (bs "I/O error: " ++ message e))).

(** The response, its pipe, and the paths opened below the directory. *)
Definition serve_dir (now : SystemTime) (fs_dir : FsDir) (req : R)
    : outcome (reply_result (D:=D) (E:=E) * list bytes) :=
  p ← request_name (uri_path req);
  '(node, opened) ← get fs_dir p (req_headers req);
  r ← match node with Ok node => reply now req node | Err e => Ret (Err e) end;
  match r with
  | Ok res => Ret (res, opened)
  | Err e => resp ← error_response e; Ret ((resp, None), opened)
  end.
End serve_dir.

(** ** The page *)

(** What [htmlescape] promises: nothing of the text can end an attribute or
    start a tag.  A MIME type is ASCII. *)
Definition escaped `{WebCrates} (s : bytes) : bytes := concat (minimal_pieces s).
Class WebLaws `{WebCrates} : Prop := {
  escaped_safe : ∀ s, DQUOTE ∉ escaped s ∧ x3c ∉ escaped s;
  first_raw_ascii : ∀ ext t, first_raw ext = Some t → forallb visible_ascii t = true
}.

Section page.
Context `{NixDirs, WebLaws}.

Definition slash_if (d : bool) : bytes := if d then bs "/" else [].

(** The row of an entry: its name, and whether it is a directory. *)
Definition row_text (row : bytes * bool) : bytes :=
  link_start ++ escaped row.1 ++ slash_if row.2 ++ link_middle ++ escaped row.1 ++ slash_if row.2 ++ link_end.
Definition page_text (rows : list (bytes * bool)) : bytes :=
  page_start ++ concat (row_text <$> rows) ++ page_end.

(** Whether an entry is listed at a path. *)
Definition listed (path p : bytes) : bool :=
  valid_utf8 p && negb (bool_decide (p = bs ".")) &&
  negb (bool_decide (p = bs "..") && bool_decide (path = bs "/")).

(** The rows of a directory, given which entries are directories. *)
Definition rows_of (path : bytes) (is_directory : DirEntry → bool) (ents : list DirEntry) : list (bytes * bool) :=
  (λ ent, (file_name ent, is_directory ent)) <$>
    filter (λ ent, listed path (file_name ent) = true) (merge_sort name_le ents).

(** An HTML reader of such a page: the address and the text of each link. *)
Definition read_row (s : bytes) : option (bytes * bytes * bytes) :=
  s ← strip_prefix link_start s;
  i ← find DQUOTE s;
  t ← strip_prefix link_middle (drop i s);
  j ← find x3c t;
  rest ← strip_prefix link_end (drop j t);
  Some (take i s, take j t, rest).

Fixpoint read_rows (fuel : nat) (s : bytes) : option (list (bytes * bytes)) :=
  match fuel with
  | O => None
  | S fuel =>
      if decide (s = page_end) then Some []
      else
        '(href, text, rest) ← read_row s;
        rows ← read_rows fuel rest;
        Some ((href, text) :: rows)
  end.

Definition read_page (s : bytes) : option (list (bytes * bytes)) :=
  s ← strip_prefix page_start s; read_rows (length s) s.

Lemma read_row_text row rest :
  read_row (row_text row ++ rest) =
    Some (escaped row.1 ++ slash_if row.2, escaped row.1 ++ slash_if row.2, rest).
Proof.
  destruct row as [p d]. unfold row_text. simpl fst. simpl snd.
  assert (∀ c, c ∉ bs "/" → c ∉ escaped p → c ∉ escaped p ++ slash_if d) as Hno.
  { intros c Hc He [?|Hd]%elem_of_app; [done|]. destruct d; [done|by apply elem_of_nil in Hd]. }
  destruct (escaped_safe p) as [Hq Hl].
  assert (DQUOTE ∉ escaped p ++ slash_if d) as Hq' by (apply Hno; [by_compute|done]).
  assert (x3c ∉ escaped p ++ slash_if d) as Hl' by (apply Hno; [by_compute|done]).
  set (e := escaped p ++ slash_if d) in *.
  assert (link_start ++ escaped p ++ slash_if d ++ link_middle ++ escaped p ++ slash_if d ++ link_end =
          link_start ++ e ++ link_middle ++ e ++ link_end) as ->
    by (unfold e; by rewrite <- !app_assoc).
  unfold read_row. rewrite <- !app_assoc, strip_prefix_app. cbn [mbind option_bind].
  change (link_middle ++ e ++ link_end ++ rest) with (DQUOTE :: x3e :: e ++ link_end ++ rest).
  rewrite find_app by done. cbn [mbind option_bind]. rewrite drop_app_length, take_app_length.
  change (DQUOTE :: x3e :: e ++ link_end ++ rest) with (link_middle ++ e ++ link_end ++ rest).
  rewrite strip_prefix_app. cbn [mbind option_bind].
  change (link_end ++ rest) with (x3c :: (drop 1 link_end ++ rest)).
  rewrite find_app by done. cbn [mbind option_bind]. rewrite drop_app_length, take_app_length.
  change (x3c :: (drop 1 link_end ++ rest)) with (link_end ++ rest).
  by rewrite strip_prefix_app.
Qed.

Lemma row_text_long row : (0 < length (row_text row))%nat.
Proof. by unfold row_text; rewrite length_app; simpl; lia. Qed.

Lemma row_not_end row rest : row_text row ++ rest ≠ page_end.
Proof. done. Qed.

(** The reader sees the names, whatever they are. *)
Lemma read_page_text rows :
  read_page (page_text rows) =
    Some ((λ row, (escaped row.1 ++ slash_if row.2, escaped row.1 ++ slash_if row.2)) <$> rows).
Proof.
  unfold read_page, page_text. rewrite strip_prefix_app. cbn [mbind option_bind].
  assert (∀ fuel, (length (concat (row_text <$> rows)) < fuel)%nat →
    read_rows fuel (concat (row_text <$> rows) ++ page_end) =
      Some ((λ row, (escaped row.1 ++ slash_if row.2, escaped row.1 ++ slash_if row.2)) <$> rows)) as Hrows.
  { induction rows as [|row rows IH]; intros [|fuel] Hf; [lia|by simpl|lia|].
    cbn [fmap list_fmap concat] in *. rewrite length_app in Hf. pose proof (row_text_long row).
    cbn [read_rows]. rewrite <- app_assoc, decide_False by apply row_not_end.
    rewrite read_row_text. cbn [mbind option_bind]. by rewrite IH by lia. }
  apply Hrows. rewrite length_app. unfold page_end. simpl. lia.
Qed.
End page.

(** ** A directory of two files, one of them with a gzipped copy, and a directory *)

#[local] Existing Instances debug_build plain_http plain_http_laws plain_date plain_date_laws
  plain_buf plain_buf_laws box_error_self test_wakers test_wakers_laws test_allocator test_allocator_laws
  test_task_eq stored stored_codec stored_laws.

#[local] Instance site_http : DirHttp := {|
  MOVED_PERMANENTLY := 301; NOT_FOUND := 404; INTERNAL_SERVER_ERROR := 500;
  LOCATION := bs "location";
  from_maybe_shared s := if forallb value_byte s then Some s else None
|}.
#[local] Instance site_http_laws : DirHttpLaws.
Proof. split; [done..|]. intros s Hs. simpl. rewrite Hs. eauto. Qed.

(** A file is its content, a directory is [/]. *)
Definition site_is_dir (f : bytes) : bool := bool_decide (f = [SLASH]).
#[local] Instance site_unix : Unix := {|
  UnixFile := bytes;
  UnixMetadata := bytes;
  off_t_max := I64_MAX;
  pread f _ n off := Ok (take (Z.to_nat n) (drop (Z.to_nat off) f));
  is_file m := negb (site_is_dir m);
  Platform.is_dir := site_is_dir;
  metadata_ino _ := 7;
  metadata_len := len;
  metadata_modified _ := Ok (5 * NANOS_PER_SEC);
  file_metadata f := Ok f
|}.
#[local] Instance site_unix_laws : UnixLaws.
Proof. intros f t n off b Hn [= <-]. unfold len. rewrite length_take. lia. Qed.
#[local] Instance site_content : StableFiles := λ f : bytes, f.
#[local] Instance site_content_laws : StableFilesLaws.
Proof.
  intros f t n off b Hn Ho Hp. simpl in Hp. injection Hp as <-.
  exists (drop (Z.to_nat n) (drop (Z.to_nat off) f)). by rewrite take_drop.
Qed.

Definition site_files : list (bytes * bytes) :=
  [(bs ".", [SLASH]); (bs "sub", [SLASH]); (bs "b.txt", bs "plain b"); (bs "b.txt.gz", bs "zipped b");
   (bs "<i>", bs "markup")].
#[local] Instance site_dirs : UnixDirs := {|
  RawFd := Z;
  PATH_MAX := 4096;
  open_directory _ := Ok 3;
  openat _ p :=
    match filter (λ f : bytes * bytes, f.1 = p) site_files with
    | (_, f) :: _ => Ok (f : @UnixFile site_unix)
    | [] => Err (IoError NotFound (bs "no such file"))
    end
|}.
Definition site_names : list bytes := bs <$> ["sub"; "."; "<i>"; ".."; "b.txt.gz"; "b.txt"]%string.
#[local] Instance site_nix : NixDirs := {|
  NixDir := unit;
  DirEntry := bytes;
  FileType := bool;
  file_type_eq_dec := _;
  Directory := true;
  Errno := Z;
  dir_from _ := Ok tt;
  dir_entries _ := Ok <$> site_names;
  file_name := id;
  ent_file_type p := Some (bool_decide (p ∈ bs <$> ["sub"; "."; ".."]%string));
  fstatat_mode _ _ := Err 0;
  mode_bits := 61440
|}.

Definition escape_byte (c : byte) : bytes :=
  match c with
  | x22 => bs "&quot;" | x26 => bs "&amp;" | x27 => bs "&#x27;" | x3c => bs "&lt;" | x3e => bs "&gt;"
  | c => [c]
  end.
#[local] Instance site_web : WebCrates := {|
  minimal_pieces s := escape_byte <$> s;
  first_raw ext := if bool_decide (ext = bs "txt") then Some (bs "text/plain") else None
|}.
#[local] Instance site_web_laws : WebLaws.
Proof.
  split.
  - intros s. unfold escaped. simpl.
    induction s as [|c s [IH1 IH2]]; [split; apply not_elem_of_nil|]. csimpl.
    rewrite !not_elem_of_app. split; (split; [by destruct c; by_compute|done]).
  - intros ext t. simpl. by case_bool_decide; intros [= <-].
Qed.

#[local] Instance site_uri : UriRequest (bytes * @Parts plain_http) := fst.
#[local] Instance site_request : AsRequest (bytes * @Parts plain_http) :=
  {| req_method r := parts_method r.2; req_headers r := parts_header_map r.2 |}.
Definition site_get (path : string) (hdrs : list (bytes * bytes)) : bytes * @Parts plain_http :=
  (bs path, @mk_Parts plain_http (bs "GET") (test_headers hdrs)).
Definition site : FsDir := mk_FsDir true 3.
Definition site_root : Node := mk_Node ([SLASH] : @UnixFile site_unix) ([SLASH] : @UnixMetadata site_unix) true false.

(** The whole answer to a request that is not compressed. *)
Definition site_body (path : string) (hdrs : list (bytes * bytes)) : outcome (Z * option bytes) :=
  match serve_dir (D:=bytes) (E:=BoxError) test_now site (site_get path hdrs) with
  | Panic w => Panic w
  | Ret ((resp, l), _) =>
      let body := match l with Some l => mk_Body (Chunker l) | None => resp_body resp end in
      match drain (Pollable0:=body_pollable (7%nat : @Waker test_wakers)) 30 body with
      | Panic w => Panic w
      | Ret r => Ret (as_u16 (resp_status resp), option_map (λ o, o.1.1) r)
      end
  end.

Example site_examples :
  site_body "/sub" [] = Ret (301, Some []) ∧
  site_body "/b.txt" [] = Ret (200, Some (bs "plain b")) ∧
  site_body "/b.txt" [(bs "accept-encoding", bs "gzip")] = Ret (200, Some (bs "zipped b")) ∧
  site_body "/c.txt" [] = Ret (404, Some (bs "I/O error: no such file")) ∧
  site_body "/../b.txt" [] = Ret (500, Some (bs "I/O error: path contains .. segment")) ∧
  site_body "/" [] = Ret (200, Some (page_start ++
    bs "<li><a href=" ++ [DQUOTE] ++ bs "&lt;i&gt;" ++ [DQUOTE] ++ bs ">&lt;i&gt;</a>" ++ [LF] ++
    bs "<li><a href=" ++ [DQUOTE] ++ bs "b.txt" ++ [DQUOTE] ++ bs ">b.txt</a>" ++ [LF] ++
    bs "<li><a href=" ++ [DQUOTE] ++ bs "b.txt.gz" ++ [DQUOTE] ++ bs ">b.txt.gz</a>" ++ [LF] ++
    bs "<li><a href=" ++ [DQUOTE] ++ bs "sub/" ++ [DQUOTE] ++ bs ">sub/</a>" ++ [LF] ++ page_end)).
Proof. split_and!; by vm_compute. Qed.
