(* ===== verification/DirListing.v ===== *)
(** * The listing of a directory (examples/serve_dir.rs, [reply])

    What the calls of [write!] add up to: the page, which a reader of its own
    parses into the links it should have, or the panic where the system does not
    say what an entry is. *)

From stdpp Require Import sorting.
From S2P Require Import Prelude RustStd HttpApi Plain ContentCoding Range Etag Stream Entity Multipart.
From S2P Require Import Chunker Platform File Dir Gzip Body Streaming StreamingBody Writing.
From S2P Require Import Serving ServingSpec ServingProps FileServing.
From S2P Require Import ServeDir.

(** ** What the system says of the entries *)

Section kinds.
Context `{NixDirs}.

(** Whether an entry is a directory: by its type, if the entry has one, and else
    by the mode [fstatat] gives, which says it if it has only the bits [SFlag] has
    names for. *)
Definition kind_told (dir : NixDir) (ent : DirEntry) : option bool :=
  match ent_file_type ent with
  | Some t => Some (bool_decide (t = Directory))
  | None =>
      match fstatat_mode dir (file_name ent) with
      | Ok mode => if Z.ldiff mode mode_bits =? 0 then Some (Z.land mode S_IFDIR =? S_IFDIR) else None
      | Err _ => None
      end
  end.

Definition is_directory (dir : NixDir) (ent : DirEntry) : bool := default false (kind_told dir ent).

(** The entries that need to be told are. *)
Definition kinds_told (path : bytes) (dir : NixDir) (ents : list DirEntry) : Prop :=
  Forall (λ ent, listed path (file_name ent) = true → kind_told dir ent ≠ None) ents.

Lemma entry_kind dir ent :
  (d ← entry_is_dir dir ent; unwrap_ok d) =
    match kind_told dir ent with Some d => Ret d | None => Panic UnwrapFailed end.
Proof.
  unfold entry_is_dir, kind_told, sflag_from_bits. destruct (ent_file_type ent); [done|].
  destruct (fstatat_mode dir (file_name ent)) as [mode|]; [|done]. by destruct (_ =? 0).
Qed.
End kinds.

(** ** The listing is the page *)

Section listing.
Context `{Build, WakersLaws, !Allocator, !AllocatorLaws, HttpLaws, !DirHttp, !DirHttpLaws, !HttpDate}.
Context `{NixDirs, !WebCrates, !WebLaws} {D E : Type} `{!Buf D, !BufLaws D, !FromBoxError E}.
Context `{!GzEncoders E, !GzCodec E, !GzEncodersLaws E, !EqDecision Task, !AsRequest R, !UriRequest R}.

Section emitted.
Context (this : StreamingBodyBuilder) (resp : Response (Body ChunkedReadFile D E)) (w0 : BodyWriter E)
  (l0 : Shared E) (Hcap : sb_chunk_size this <= usize_max / 2) (Hbuild : build this = Ret (resp, Some w0, l0)).
Let emits := emits (D:=D) w0 l0.

Lemma emits_str s : emits (write_str s) s.
Proof. eapply emits_write_all; [exact Hcap|exact Hbuild|lia]. Qed.

Lemma emits_escaped p : emits (encode_minimal_w p) (escaped p).
Proof.
  unfold encode_minimal_w, escaped. induction (minimal_pieces p) as [|s ps IH]; [apply emits_ret|].
  apply emits_then; [apply emits_str|exact IH].
Qed.

Lemma emits_slash (d : bool) : emits (if d then write_str (bs "/") else io_ret tt) (slash_if d).
Proof. destruct d; [apply emits_str|apply emits_ret]. Qed.

(** The text of an entry in the listing. *)
Definition entry_text (path : bytes) (dir : NixDir) (ent : DirEntry) : bytes :=
  if listed path (file_name ent) then row_text (file_name ent, is_directory dir ent) else [].

Lemma emits_entry path dir ent :
  (listed path (file_name ent) = true → kind_told dir ent ≠ None) →
  emits (list_entry path dir ent) (entry_text path dir ent).
Proof.
  intros Hd. unfold list_entry, entry_text, listed in *. destruct (valid_utf8 (file_name ent)); simpl in *; [|apply emits_ret].
  case_bool_decide; simpl in *; [apply emits_ret|].
  destruct (bool_decide (file_name ent = bs "..") && bool_decide (path = bs "/")); simpl in *; [apply emits_ret|].
  unfold row_text, is_directory. cbn [fst snd].
  destruct (kind_told dir ent) as [d|] eqn:Hk; [|by destruct Hd].
  change (default false (Some d)) with d.
  apply emits_then; [apply emits_str|]. apply emits_then; [apply emits_escaped|].
  apply emits_lift with (a := d); [by rewrite entry_kind, Hk|].
  apply emits_then; [apply emits_slash|]. apply emits_then; [apply emits_str|].
  apply emits_then; [apply emits_escaped|]. apply emits_then; [apply emits_slash|apply emits_str].
Qed.

Lemma entries_text path dir ents :
  concat (entry_text path dir <$> ents) =
    concat (row_text <$> ((λ ent, (file_name ent, is_directory dir ent)) <$>
       filter (λ ent, listed path (file_name ent) = true) ents)).
Proof.
  induction ents as [|ent ents IH]; [done|]. csimpl. rewrite filter_cons, IH. unfold entry_text.
  destruct (listed path (file_name ent)); [by rewrite decide_True|by rewrite decide_False].
Qed.

Lemma emits_entries path dir ents :
  kinds_told path dir ents → emits (list_entries path dir ents) (concat (entry_text path dir <$> ents)).
Proof.
  induction 1 as [|ent ents Hent _ IH]; [apply emits_ret|]. cbn [list_entries].
  apply (emits_then _ _ _ _ (entry_text path dir ent)); [by apply emits_entry|exact IH].
Qed.

(** ** An entry that is not told *)

Lemma io_bind_ok {A B} (m : io E A) (f : A → io E B) s b s' :
  io_bind m f s = Ret (Ok b, s') → ∃ a s1, m s = Ret (Ok a, s1) ∧ f a s1 = Ret (Ok b, s').
Proof.
  unfold io_bind. intros Hb. apply bind_Ret_inv in Hb as ([[a|e] s1] & Hm & Hb); [|done]. by exists a, s1.
Qed.

Lemma io_bind_lift {A B} (o : outcome A) a (f : A → io E B) s :
  o = Ret a → io_bind (io_lift o) f s = f a s.
Proof. by intros ->. Qed.

(** The code for an entry that is shown. *)
Lemma list_entry_shown path dir ent :
  listed path (file_name ent) = true →
  ∃ rest, list_entry path dir ent = (write_str link_start;;; encode_minimal_w (file_name ent);;;
    io_bind (io_lift match kind_told dir ent with Some d => Ret d | None => Panic UnwrapFailed end) rest).
Proof.
  intros Hl. unfold list_entry, listed in *. rewrite entry_kind. eexists.
  destruct (valid_utf8 (file_name ent)); [|done]. simpl in *. case_bool_decide; [done|]. simpl in *.
  by destruct (bool_decide (file_name ent = bs "..") && bool_decide (path = bs "/")).
Qed.

(** A listing that succeeds has been told of all. *)
Lemma list_entries_told path dir ents s s' :
  list_entries path dir ents s = Ret (Ok tt, s') → kinds_told path dir ents.
Proof.
  revert s. induction ents as [|ent ents IH]; intros s; [constructor|]. cbn [list_entries].
  intros ([] & s1 & Hent & Hrest)%io_bind_ok. constructor; [|by eapply IH]. intros Hl.
  destruct (list_entry_shown path dir ent Hl) as (rest & Heq). rewrite Heq in Hent.
  apply io_bind_ok in Hent as (? & s2 & _ & Hent). apply io_bind_ok in Hent as (? & s3 & _ & Hent).
  apply io_bind_ok in Hent as (? & s4 & Hk & _). by destruct (kind_told dir ent).
Qed.

(** Uncompressed, nothing else goes wrong before the panic. *)
Lemma list_entries_panic path dir ents seen t s :
  wrote (D:=D) w0 l0 seen t s → is_raw s → len t + len (concat (entry_text path dir <$> ents)) <= usize_max →
  ¬ kinds_told path dir ents → list_entries path dir ents s = Panic UnwrapFailed.
Proof.
  revert t s. induction ents as [|ent ents IH]; intros t s Hs Hraw Hl Hno; [by destruct Hno; constructor|].
  csimpl in Hl. rewrite len_app in Hl. pose proof (len_nonneg (concat (entry_text path dir <$> ents))).
  cbn [list_entries]. unfold io_bind at 1.
  destruct (decide (listed path (file_name ent) = true ∧ kind_told dir ent = None)) as [[Hlist Hk]|Hok].
  - destruct (list_entry_shown path dir ent Hlist) as (rest & ->). rewrite Hk.
    assert (entry_text path dir ent = row_text (file_name ent, is_directory dir ent)) as Htext
      by (unfold entry_text; by rewrite Hlist).
    rewrite Htext in Hl. unfold row_text in Hl. cbn [fst snd] in Hl. rewrite !len_app in Hl.
    pose proof (len_nonneg (slash_if (is_directory dir ent))). pose proof (len_nonneg link_middle).
    pose proof (len_nonneg (escaped (file_name ent))). pose proof (len_nonneg link_end).
    destruct (emits_str link_start _ _ _ Hs ltac:(lia)) as [Htot Hpart]. destruct (Htot Hraw) as (s1 & Hw1 & Hraw1).
    destruct (emits_escaped (file_name ent) _ _ _ (Hpart _ Hw1) ltac:(rewrite len_app; lia)) as [Htot1 _].
    destruct (Htot1 Hraw1) as (s2 & Hw2 & _). unfold io_bind. by rewrite Hw1, bind_Ret_l, Hw2.
  - assert (listed path (file_name ent) = true → kind_told dir ent ≠ None) as Hent by tauto.
    destruct (emits_entry path dir ent Hent _ _ _ Hs ltac:(lia)) as [Htot Hpart].
    destruct (Htot Hraw) as (s1 & Hw & Hraw1). rewrite Hw, bind_Ret_l.
    apply (IH (t ++ entry_text path dir ent) s1); [by apply Hpart|done|rewrite len_app; lia|].
    contradict Hno. by constructor.
Qed.

Lemma unwrap_all_ok {A Er} (l : list A) : unwrap_all (Er:=Er) (Ok <$> l) = Ret l.
Proof. induction l as [|a l IH]; [done|]. csimpl. by rewrite IH. Qed.

Lemma kinds_told_sorted path dir ents :
  kinds_told path dir (merge_sort name_le ents) ↔ kinds_told path dir ents.
Proof. unfold kinds_told. by rewrite (merge_sort_Permutation name_le ents). Qed.

Lemma listing_text path dir ents :
  page_text (rows_of path (is_directory dir) ents) =
    page_start ++ concat (entry_text path dir <$> merge_sort name_le ents) ++ page_end.
Proof. by rewrite entries_text. Qed.

Section readable.
Context (path : bytes) (file : UnixFile) (dir : NixDir) (ents : list DirEntry)
  (Hdir : dir_from file = Ok dir) (Hents : dir_entries dir = Ok <$> ents).

Lemma emits_listing :
  kinds_told path dir ents → emits (write_listing path file) (page_text (rows_of path (is_directory dir) ents)).
Proof.
  intros Hk. rewrite listing_text. unfold write_listing.
  apply emits_lift with (a := dir); [by rewrite Hdir|]. apply emits_then; [apply emits_str|].
  apply emits_lift with (a := ents); [by rewrite Hents, unwrap_all_ok|].
  apply emits_then; [|apply emits_str]. apply emits_entries. by apply kinds_told_sorted.
Qed.

Lemma listing_told s s' : write_listing path file s = Ret (Ok tt, s') → kinds_told path dir ents.
Proof.
  unfold write_listing. intros (? & s1 & Hd & Hw)%io_bind_ok. unfold io_lift in Hd. rewrite Hdir in Hd.
  simpl in Hd. injection Hd as <- <-. apply io_bind_ok in Hw as (? & s2 & _ & Hw).
  apply io_bind_ok in Hw as (es & s3 & He & Hw). unfold io_lift in He. rewrite Hents, unwrap_all_ok in He.
  injection He as <- <-. apply io_bind_ok in Hw as ([] & s4 & Hw & _).
  apply kinds_told_sorted. by eapply list_entries_told.
Qed.

Lemma listing_panic :
  is_raw (w0, l0) → len (page_text (rows_of path (is_directory dir) ents)) <= usize_max →
  ¬ kinds_told path dir ents → write_listing path file (w0, l0) = Panic UnwrapFailed.
Proof.
  intros Hraw Hl Hno. rewrite listing_text, !len_app in Hl. pose proof (len_nonneg page_end).
  pose proof (len_nonneg (concat (entry_text path dir <$> merge_sort name_le ents))).
  unfold write_listing. rewrite (io_bind_lift _ dir) by (by rewrite Hdir).
  destruct (emits_str page_start [] [] (w0, l0) (rtc_refl _ _) ltac:(rewrite len_nil; lia)) as [Htot Hpart].
  destruct (Htot Hraw) as (s1 & Hw & Hraw1). unfold io_bind at 1. rewrite Hw, bind_Ret_l.
  rewrite (io_bind_lift _ ents) by (by rewrite Hents, unwrap_all_ok).
  unfold io_bind at 1. erewrite list_entries_panic; [done|exact (Hpart _ Hw)|done|simpl; lia|].
  by rewrite kinds_told_sorted.
Qed.
End readable.
End emitted.

(** The rows are those of the listed entries, in the order of their names. *)
Lemma rows_of_permutation path is_directory ents :
  rows_of path is_directory ents ≡ₚ
    (λ ent, (file_name ent, is_directory ent)) <$> filter (λ ent, listed path (file_name ent) = true) ents.
Proof. unfold rows_of. by rewrite (merge_sort_Permutation name_le ents). Qed.

Lemma rows_of_sorted path is_directory ents :
  StronglySorted (λ a b : bytes * bool, bytes_leb a.1 b.1 = true) (rows_of path is_directory ents).
Proof.
  unfold rows_of. assert (StronglySorted name_le (merge_sort name_le ents)) as Hs
    by (apply StronglySorted_merge_sort; apply _).
  induction Hs as [|ent l Hl IH Hent]; [constructor|]. rewrite filter_cons. case_decide; [|done].
  csimpl. constructor; [done|]. rewrite Forall_fmap, Forall_forall in *. intros e [_ He]%list_elem_of_filter. exact (Hent e He).
Qed.

(** What the block that writes the listing leaves behind. *)
Lemma listing_written this (resp : Response (Body ChunkedReadFile D E)) w l file path dir ents :
  sb_chunk_size this <= usize_max / 2 → build this = Ret (resp, Some w, l) →
  dir_from file = Ok dir → dir_entries dir = Ok <$> ents → kinds_told path dir ents →
  len (page_text (rows_of path (is_directory dir) ents)) <= usize_max →
  (is_raw (w, l) → ∃ w1 l1 l2 wks, write_listing path file (w, l) = Ret (Ok tt, (w1, l1)) ∧
     inner_drop w1 l1 = Ret (l2, wks)) ∧
  (∀ w1 l1 l2 wks cx, write_listing path file (w, l) = Ret (Ok tt, (w1, l1)) →
     inner_drop w1 l1 = Ret (l2, wks) →
     ∃ content b' fuel,
       drain (D:=D) (Pollable0:=body_pollable cx) fuel (mk_Body (Chunker l2) : Body ChunkedReadFile D E) =
         Ret (Some (content, Done, b')) ∧
       carries (says_gzip resp) content (page_text (rows_of path (is_directory dir) ents))).
Proof.
  intros Hcap Hb Hdir Hents Hk Hl.
  destruct (emits_listing this resp w l Hcap Hb path file dir ents Hdir Hents Hk
              [] [] (w, l) (rtc_refl _ _) Hl) as [Htot Hpart]. split.
  - intros Hraw. destruct (Htot Hraw) as ([w1 l1] & Hw & [w1' Hw1]). simpl in Hw1. subst w1.
    destruct (raw_drop this resp w l Hcap Hb _ _ _ _ (Hpart _ Hw)) as (l2 & wks & Hd).
    by exists (Raw w1'), l1, l2, wks.
  - intros w1 l1 l2 wks cx Hw Hd. specialize (Hpart _ Hw). rewrite app_nil_l in Hpart.
    exact (wrote_finish this resp w l Hcap Hb _ _ _ _ _ _ cx Hpart Hd).
Qed.

(** The answer of a directory, given the response and the writer of its body. *)
Definition listing_answer (resp : Response (Body ChunkedReadFile D E)) (path : bytes) (file : UnixFile)
    (s : BodyWriter E * Shared E) : outcome (result reply_result io_error) :=
  '(r, (w, l)) ← write_listing path file s;
  '(l, _) ← inner_drop w l;
  Ret (and_then r (λ _,
    Ok (resp_set_headers resp
          (hm_insert (resp_headers resp) CONTENT_TYPE (from_static (bs "text/html"))), Some l))).

Lemma reply_listing_of now (req : R) node (resp : Response (Body ChunkedReadFile D E)) w l sb :
  Platform.is_dir (metadata node) = true → last (uri_path req) = Some SLASH →
  streaming_body req = Ret sb → build sb = Ret (resp, Some w, l) →
  reply (D:=D) (E:=E) now req node = listing_answer resp (uri_path req) (into_file node) (w, l).
Proof.
  intros Hisdir Hpath Hsb Hb. unfold reply, listing_answer. rewrite Hisdir, bool_decide_true by done. simpl.
  unfold reply_listing. rewrite Hsb, bind_Ret_l, Hb, bind_Ret_l.
  destruct (write_listing _ _ _) as [[r [w1 l1]]|]; [|done]. rewrite !bind_Ret_l.
  by destruct (inner_drop w1 l1) as [[l2 wks]|].
Qed.

Lemma listing_answered resp path file s resp' ol :
  listing_answer resp path file s = Ret (Ok (resp', ol)) →
  ∃ w1 l1 l2 wks, write_listing path file s = Ret (Ok tt, (w1, l1)) ∧ inner_drop w1 l1 = Ret (l2, wks) ∧
    resp' = resp_set_headers resp (hm_insert (resp_headers resp) CONTENT_TYPE (from_static (bs "text/html"))) ∧
    ol = Some l2.
Proof.
  intros ([r [w1 l1]] & Hw & Hr)%bind_Ret_inv. apply bind_Ret_inv in Hr as ([l2 wks] & Hd & Hr).
  destruct r as [[]|e]; [|done]. injection Hr as <- <-. by exists w1, l1, l2, wks.
Qed.

(** C35: what a request other than HEAD gets for a directory, at a path that
    ends in a slash, when the directory can be opened and its entries read.  If
    the system says of every listed entry whether it is a directory, a client
    that does not prefer gzip is answered without an error, and whenever any
    client is answered, the response is a 200 of type text/html whose body
    gives, decoded as the response says, one page; an HTML reader finds in it
    exactly one link for each listed entry (valid UTF-8, not [.], and not [..]
    at the root), in the order of the names, its name escaped, with a slash
    after what has the type of a directory or, without a type, a mode with the
    bit of one, so no file name can put markup of its own into the page.  If of
    one listed entry the system gives neither a type nor a mode without other
    bits than those of a type, no request gets a response, and one that does
    not prefer gzip panics.  The text of the page is to fit the address space. *)
Theorem directory_listing (now : SystemTime) (req : R) (node : Node) (dir : NixDir) (ents : list DirEntry)
    (prefers : bool) (cx : Waker) :
  Platform.is_dir (metadata node) = true → last (uri_path req) = Some SLASH → req_method req ≠ HEAD →
  dir_from (into_file node) = Ok dir → dir_entries dir = Ok <$> ents →
  should_gzip (req_headers req) = Ret prefers →
  let rows := rows_of (uri_path req) (is_directory dir) ents in
  len (page_text rows) <= usize_max →
  (kinds_told (uri_path req) dir ents →
     (prefers = false → ∃ res, reply (D:=D) (E:=E) now req node = Ret (Ok res)) ∧
     (∀ resp ol, reply (D:=D) (E:=E) now req node = Ret (Ok (resp, ol)) →
        as_u16 (resp_status resp) = 200 ∧
        as_bytes <$> hm_get_all (resp_headers resp) CONTENT_TYPE = [bs "text/html"] ∧
        says_gzip resp = prefers ∧
        ∃ l content b' fuel, ol = Some l ∧
          drain (D:=D) (Pollable0:=body_pollable cx) fuel (mk_Body (Chunker l) : Body ChunkedReadFile D E) =
            Ret (Some (content, Done, b')) ∧
          carries prefers content (page_text rows))) ∧
  (¬ kinds_told (uri_path req) dir ents →
     (∀ res, reply (D:=D) (E:=E) now req node ≠ Ret (Ok res)) ∧
     (prefers = false → reply (D:=D) (E:=E) now req node = Panic UnwrapFailed)) ∧
  read_page (page_text rows) =
    Some ((λ row, (escaped row.1 ++ slash_if row.2, escaped row.1 ++ slash_if row.2)) <$> rows) ∧
  StronglySorted (λ a b : bytes * bool, bytes_leb a.1 b.1 = true) rows ∧
  rows ≡ₚ (λ ent, (file_name ent, is_directory dir ent)) <$>
            filter (λ ent, listed (uri_path req) (file_name ent) = true) ents.
Proof.
  intros Hisdir Hpath Hm Hdir Hents Hg rows Hl.
  destruct (default_builder (Ent:=ChunkedReadFile) (D:=D) (E:=E) req prefers Hg Hm) as (resp & w & l & Hsb & Hb & Hraw).
  rewrite (reply_listing_of now req node resp w l _ Hisdir Hpath Hsb Hb).
  set (sb := mk_StreamingBodyBuilder 4096 6 prefers true) in *.
  split; [|split; [|split; [apply read_page_text|split; [apply rows_of_sorted|apply rows_of_permutation]]]].
  - intros Hk. destruct (listing_written sb resp w l (into_file node) (uri_path req) dir ents
                chunk_size_fits Hb Hdir Hents Hk Hl) as [Htot Hpart]. split.
    + intros Hp. destruct (Htot (Hraw Hp)) as (w1 & l1 & l2 & wks & Hw & Hd).
      unfold listing_answer. rewrite Hw, bind_Ret_l, Hd. simpl. by eexists.
    + intros resp' ol (w1 & l1 & l2 & wks & Hw & Hd & -> & ->)%listing_answered.
      destruct (build_says _ _ _ _ Hb) as [Hsays Hst].
      destruct (Hpart w1 l1 l2 wks cx Hw Hd) as (content & b' & fuel & Hdr & Hc).
      assert (CONTENT_TYPE ≠ CONTENT_ENCODING) by name_ne.
      unfold says_gzip in *. rewrite resp_status_set, resp_headers_set, !hm_get_all_insert.
      rewrite decide_True, decide_False by done.
      split; [done|]. split; [simpl; by rewrite as_bytes_static|].
      rewrite Hsays in *. simpl in *. rewrite andb_true_r in *. split; [done|].
      by exists l2, content, b', fuel.
  - intros Hno. split.
    + intros [resp' ol] (w1 & l1 & l2 & wks & Hw & _)%listing_answered. apply Hno. by eapply listing_told.
    + intros Hp. unfold listing_answer. by rewrite (listing_panic sb resp w l chunk_size_fits Hb (uri_path req) (into_file node) dir ents
                               Hdir Hents (Hraw Hp) Hl Hno).
Qed.
End listing.

(** ** The listing of the concrete directory *)

#[local] Existing Instances debug_build plain_http plain_http_laws plain_date plain_date_laws
  plain_buf plain_buf_laws box_error_self test_wakers test_wakers_laws test_allocator test_allocator_laws
  test_task_eq stored stored_codec stored_laws site_http site_http_laws site_unix site_unix_laws site_content
  site_content_laws site_dirs site_nix site_web site_web_laws site_uri site_request.

(** A directory whose one entry has no type the system tells. *)
Definition blind_nix : NixDirs := {|
  NixDir := unit;
  DirEntry := bytes;
  FileType := bool;
  file_type_eq_dec := _;
  Directory := true;
  Errno := Z;
  dir_from _ := Ok tt;
  dir_entries _ := [Ok (bs "b.txt")];
  file_name := id;
  ent_file_type _ := None;
  fstatat_mode _ _ := Ok 33188;
  mode_bits := 61440
|}.

(** What the handler gives for the root over some directories. *)
Definition root_reply (nix : NixDirs) : outcome (result (reply_result (D:=bytes) (E:=BoxError)) io_error) :=
  reply test_now (site_get "/" []) site_root.

Lemma directory_listing_witness :
  (∃ res, root_reply site_nix = Ret (Ok res) ∧
    read_page (page_text (rows_of (bs "/") (is_directory (tt : @NixDir _ site_nix)) site_names)) =
      Some [(bs "&lt;i&gt;", bs "&lt;i&gt;"); (bs "b.txt", bs "b.txt"); (bs "b.txt.gz", bs "b.txt.gz");
            (bs "sub/", bs "sub/")]) ∧
  root_reply blind_nix = Panic UnwrapFailed.
Proof.
  split.
  - destruct (directory_listing (D:=bytes) (E:=BoxError) test_now (site_get "/" []) site_root (tt : @NixDir _ site_nix)
                site_names false (7%nat : @Waker test_wakers)) as (Hok & _ & Hp & _ & _).
    + reflexivity.
    + reflexivity.
    + by_compute.
    + reflexivity.
    + reflexivity.
    + reflexivity.
    + by vm_compute.
    + destruct Hok as [(res & Hr) _]; [by repeat constructor|reflexivity|].
      exists res. split; [exact Hr|]. refine (eq_trans Hp _). by vm_compute.
  - destruct (directory_listing (D:=bytes) (E:=BoxError) test_now (site_get "/" []) site_root
                (tt : @NixDir _ blind_nix) [bs "b.txt"] false (7%nat : @Waker test_wakers)) as (_ & Hno & _ & _ & _).
    + reflexivity.
    + reflexivity.
    + by_compute.
    + reflexivity.
    + reflexivity.
    + reflexivity.
    + by vm_compute.
    + apply Hno; [|reflexivity]. intros Hk. apply Forall_inv in Hk. by apply Hk.
Defined.
