(* ===== verification/DirServer.v ===== *)
(** * What the example server of a directory answers (examples/serve_dir.rs, [serve]) *)

From S2P Require Import Prelude RustStd HttpApi Plain ContentCoding Range Etag Stream Entity Multipart.
From S2P Require Import Chunker Platform File Dir Gzip Body Streaming StreamingBody.
From S2P Require Import Serving ServingSpec ServingProps FileServing.
From S2P Require Import ServeDir.

(** ** The server *)

Section server.
Context `{Build, WakersLaws, !Allocator, !AllocatorLaws, HttpLaws, !DirHttp, !DirHttpLaws, !HttpDate, !HttpDateLaws}.
Context `{UnixDirs, !UnixLaws, !StableFiles, !StableFilesLaws, !NixDirs, !WebCrates, !WebLaws} {D E : Type}.
Context `{!Buf D, !BufLaws D, !FromBoxError E, !GzEncoders E, !AsRequest R, !UriRequest R}.

(** The name the server looks up for a path [/name]. *)
Definition looked_up (name : bytes) : bytes := if bool_decide (name = []) then bs "." else name.

(** A path as [http::Uri] gives it for [/name]. *)
Definition uri_ok (req : R) (name : bytes) : Prop :=
  uri_path req = SLASH :: name ∧ forallb value_byte (uri_path req) = true ∧
  match name with x :: _ => is_continuation x = false | [] => True end.

Lemma request_name_ok req name : uri_ok req name → request_name (uri_path req) = Ret (looked_up name).
Proof.
  intros (-> & _ & Hc). unfold request_name, looked_up, str_from. destruct name as [|x name]; [done|].
  rewrite bool_decide_false by done. simpl. by rewrite Hc.
Qed.

Lemma dir_status :
  as_u16 MOVED_PERMANENTLY = 301 ∧ as_u16 NOT_FOUND = 404 ∧ as_u16 INTERNAL_SERVER_ERROR = 500.
Proof. pose proof dir_status_codes as Hs. cbn [fmap list_fmap] in Hs. by injection Hs as -> -> ->. Qed.

Lemma error_response_is e :
  ∃ resp, error_response (D:=D) (E:=E) e = Ret resp ∧
    as_u16 (resp_status resp) = (if decide (kind e = NotFound) then 404 else 500) ∧
    resp_body resp = from_string (bs "I/O error: " ++ message e) ∧
    ∀ k, hm_get_all (resp_headers resp) k = [].
Proof.
  destruct dir_status as (_ & Hnf & Hise). unfold error_response.
  set (st := if bool_decide _ then _ else _).
  destruct (builder_set_status_spec builder st) as (Hv & Hs & Hh). destruct builder_new as (Hn & _ & Hh0).
  destruct (builder_body_valid _ (builder_set_status builder st)
    (from_string (bs "I/O error: " ++ message e) : Body ChunkedReadFile D E)) as (r & Hr & Hst & Hhd & Hb);
    [congruence|].
  exists r. rewrite Hr. split; [done|].
  split; [|split; [done|]; intros k; by rewrite Hhd, Hh, Hh0, hm_get_all_new]. rewrite Hst, Hs. unfold st.
  case_bool_decide; by rewrite ?decide_True, ?decide_False by done.
Qed.

Lemma serve_dir_get now fs (req : R) name node opened :
  uri_ok req name → get fs (looked_up name) (req_headers req) = Ret (Ok node, opened) →
  serve_dir (D:=D) (E:=E) now fs req =
    (r ← reply now req node;
     match r with
     | Ok res => Ret (res, opened)
     | Err e => resp ← error_response e; Ret ((resp, None), opened)
     end).
Proof. intros Hu Hg. unfold serve_dir. by rewrite (request_name_ok req name Hu), bind_Ret_l, Hg. Qed.

Lemma redirect_is now (req : R) node name :
  uri_ok req name → Platform.is_dir (metadata node) = true → last (uri_path req) ≠ Some SLASH →
  ∃ resp, reply (D:=D) (E:=E) now req node = Ret (Ok (resp, None)) ∧ as_u16 (resp_status resp) = 301 ∧
    ∀ k, as_bytes <$> hm_get_all (resp_headers resp) k =
         if decide (k = LOCATION) then [uri_path req ++ bs "/"] else [].
Proof.
  intros (_ & Hval & _) Hd Hl. unfold reply. rewrite Hd, bool_decide_false by done. simpl negb. cbv iota.
  destruct (from_maybe_shared_ok (uri_path req ++ bs "/")) as (loc & Hloc & Hlb);
    [by rewrite forallb_app, Hval|].
  rewrite Hloc. simpl unwrap. rewrite bind_Ret_l.
  destruct builder_new as (Hn & _ & Hh). set (b0 := builder_set_status builder MOVED_PERMANENTLY).
  destruct (builder_set_status_spec builder MOVED_PERMANENTLY) as (Hv & Hs & Hh0). fold b0 in Hv, Hs, Hh0.
  destruct (builder_header_some b0 LOCATION loc) as (Hv1 & Hs1 & Hh1).
  destruct (builder_body_valid _ (builder_header b0 LOCATION (Some loc)) (empty : Body ChunkedReadFile D E))
    as (r & -> & Hst & Hhd & _); [congruence|].
  exists r. split; [done|]. rewrite Hst, Hs1, Hs. split; [apply dir_status|].
  intros k. rewrite Hhd, Hh1, Hh0, Hh, hm_get_all_append, hm_get_all_new.
  repeat case_decide; subst; simpl; by rewrite ?Hlb.
Qed.

(** The MIME type the extension of a path stands for. *)
Definition mime_of (path : bytes) : option bytes :=
  i ← rfind x2e path; first_raw (drop (i + 1) path).

Lemma node_headers_mime node path :
  node_headers node path =
    match mime_of path with
    | Some t => hm_insert (add_encoding_headers node hm_new) CONTENT_TYPE (from_static t)
    | None => add_encoding_headers node hm_new
    end.
Proof. unfold node_headers, mime_of. by destruct (rfind x2e path). Qed.

Lemma encoding_field node k :
  as_bytes <$> hm_get_all (add_encoding_headers node hm_new) k =
    if decide (k = CONTENT_ENCODING ∧ is_gzipped node = true) then [bs "gzip"]
    else if decide (k = VARY ∧ encoding_varies node = true) then [bs "accept-encoding"]
    else [].
Proof. rewrite encoding_fields, hm_get_all_new. done. Qed.

Lemma node_field node path k :
  as_bytes <$> hm_get_all (node_headers node path) k =
    match mime_of path with
    | Some t => if decide (k = CONTENT_TYPE) then [t] else as_bytes <$> hm_get_all (add_encoding_headers node hm_new) k
    | None => as_bytes <$> hm_get_all (add_encoding_headers node hm_new) k
    end.
Proof.
  rewrite node_headers_mime. destruct (mime_of path) as [t|] eqn:Ht; [|done]. rewrite hm_get_all_insert.
  destruct (decide (k = CONTENT_TYPE)) as [->|Hne]; [|by rewrite decide_False].
  rewrite decide_True by done. simpl. rewrite as_bytes_static; [done|].
  unfold mime_of in Ht. apply bind_Some in Ht as (i & _ & Ht). by eapply first_raw_ascii.
Qed.

Lemma node_headers_free node path : headers_free (node_headers node path).
Proof.
  intros k Hk. assert (as_bytes <$> hm_get_all (node_headers node path) k = []) as Hn; [|by apply fmap_nil_inv in Hn].
  assert (CONTENT_TYPE ∉ reserved) as Hct by not_reserved.
  assert (CONTENT_ENCODING ∉ reserved) as Hce by not_reserved. assert (VARY ∉ reserved) as Hv by not_reserved.
  rewrite node_field, encoding_field. rewrite !(decide_False (P:=k = _ ∧ _)) by (by intros [-> _]).
  destruct (mime_of path); [|done]. by rewrite decide_False by (by intros ->).
Qed.

(** A file [get] chose is served. *)
Lemma serve_dir_file now fs (req : R) name node opened f resp :
  uri_ok req name → get fs (looked_up name) (req_headers req) = Ret (Ok node, opened) →
  Platform.is_dir (metadata node) = false → into_file_entity node (node_headers node (uri_path req)) = Ok f →
  serve (D:=D) (E:=E) now f (req_method req) (req_headers req) = Ret resp →
  serve_dir (D:=D) (E:=E) now fs req = Ret ((resp, None), opened).
Proof.
  intros Hu Hg Hd Hf Hs. rewrite (serve_dir_get now fs req name node opened Hu Hg).
  unfold reply, reply_file. by rewrite Hd, Hf, Hs.
Qed.

(** Every answer for a path that does not end in a slash is that of a file, or a
    redirection or an error, with no other header field than [Location]. *)
Lemma serve_dir_cases now fs (req : R) name resp l opened :
  uri_ok req name → last (uri_path req) ≠ Some SLASH →
  serve_dir (D:=D) (E:=E) now fs req = Ret ((resp, l), opened) →
  l = None ∧
  ((∃ node f, get fs (looked_up name) (req_headers req) = Ret (Ok node, opened) ∧
      Platform.is_dir (metadata node) = false ∧
      into_file_entity node (node_headers node (uri_path req)) = Ok f ∧
      serve (D:=D) (E:=E) now f (req_method req) (req_headers req) = Ret resp) ∨
   (as_u16 (resp_status resp) ∈ [301; 404; 500] ∧ ∀ k, k ≠ LOCATION → hm_get_all (resp_headers resp) k = [])).
Proof.
  intros Hu Hl Hs. destruct (get_opens fs (looked_up name) (req_headers req)) as (r & op & Hg & _).
  assert (∀ e, error_response (D:=D) (E:=E) e = Ret resp →
    as_u16 (resp_status resp) ∈ [301; 404; 500] ∧ ∀ k, k ≠ LOCATION → hm_get_all (resp_headers resp) k = []) as Herr.
  { intros e He. destruct (error_response_is e) as (resp' & He' & Hst & _ & Hh). rewrite He in He'.
    injection He' as <-. split; [|done]. rewrite Hst. case_decide; set_solver. }
  destruct r as [node|e].
  - rewrite (serve_dir_get now fs req name node op Hu Hg) in Hs.
    destruct (Platform.is_dir (metadata node)) eqn:Hd.
    + destruct (redirect_is now req node name Hu Hd Hl) as (resp' & Hr & Hst & Hh). rewrite Hr in Hs.
      injection Hs as <- <- <-. split; [done|]. right. rewrite Hst. split; [set_solver|].
      intros k Hk. specialize (Hh k). rewrite decide_False in Hh by done. by apply fmap_nil_inv in Hh.
    + unfold reply, reply_file in Hs. rewrite Hd in Hs.
      destruct (into_file_entity node (node_headers node (uri_path req))) as [f|e] eqn:Hf.
      * destruct (serve now f (req_method req) (req_headers req)) as [resp'|] eqn:Hsv; [|done].
        injection Hs as <- <- <-. split; [done|]. left. by exists node, f.
      * rewrite bind_Ret_l in Hs. destruct (error_response e) as [resp'|] eqn:He; [|done].
        injection Hs as <- <- <-. split; [done|]. right. by eapply Herr.
  - unfold serve_dir in Hs. rewrite (request_name_ok req name Hu), bind_Ret_l, Hg, !bind_Ret_l in Hs.
    destruct (error_response e) as [resp'|] eqn:He; [|done].
    injection Hs as <- <- <-. split; [done|]. right. by eapply Herr.
Qed.

(** C36: what the directory server answers for a file: for one that does not
    change, the response to any request is the specified answer of [serve] for
    the bytes of the file [get] chose, and an unconditional GET gets all of them,
    with [Content-Encoding] exactly if that is the gzipped file, [Vary] if the
    directory negotiates, and the MIME type of the extension of the path that
    was asked for. *)
Theorem directory_file (now : SystemTime) (fs : FsDir) (req : R) (name : bytes) (node : Node)
    (opened : list bytes) (info : FileInfo) :
  CHUNK_SIZE <= usize_max → http_date_range now → uri_ok req name →
  get fs (looked_up name) (req_headers req) = Ret (Ok node, opened) →
  Platform.is_dir (metadata node) = false → stat_agrees (into_file node) (metadata node) info →
  let e := file_of (into_file node) info (node_headers node (uri_path req)) in
  (∀ etag a, crf_etag e = Ret etag →
     (∀ v, hm_get (req_headers req) RANGE = Some v → 2 * len (as_bytes v) + 1 <= usize_max) →
     decide_answer (D:=D) (E:=E) etag e (req_method req) (req_headers req) = Ret a →
     ∃ resp, serve_dir (D:=D) (E:=E) now fs req = Ret ((resp, None), opened) ∧
       response_is now e etag (req_method req) a resp) ∧
  (req_method req = GET → unconditional (req_headers req) → hm_get (req_headers req) RANGE = None →
     ∃ resp, serve_dir (D:=D) (E:=E) now fs req = Ret ((resp, None), opened) ∧
       as_u16 (resp_status resp) = 200 ∧
       as_bytes <$> hm_get_all (resp_headers resp) CONTENT_ENCODING =
         (if is_gzipped node then [bs "gzip"] else []) ∧
       as_bytes <$> hm_get_all (resp_headers resp) VARY =
         (if encoding_varies node then [bs "accept-encoding"] else []) ∧
       as_bytes <$> hm_get_all (resp_headers resp) CONTENT_TYPE = option_list (mime_of (uri_path req)) ∧
       ∀ cx, body_gives e cx (resp_body resp) (file_content (into_file node))).
Proof.
  intros Hmem Hnow Hu Hg Hd Hs e. pose proof (node_headers_free node (uri_path req)) as Hfree.
  assert (∀ etag a, crf_etag e = Ret etag →
     (∀ v, hm_get (req_headers req) RANGE = Some v → 2 * len (as_bytes v) + 1 <= usize_max) →
     decide_answer (D:=D) (E:=E) etag e (req_method req) (req_headers req) = Ret a →
     ∃ resp, serve_dir (D:=D) (E:=E) now fs req = Ret ((resp, None), opened) ∧
       response_is now e etag (req_method req) a resp) as Hserve.
  { intros etag a He Hr Ha.
    destruct (file_served now _ _ info _ etag _ _ a Hmem Hnow Hs Hfree He Hr Ha) as (resp & Hsv & Hresp).
    exists resp. split; [|done]. apply (serve_dir_file now fs req name node opened e); [done..| |exact Hsv].
    by apply new_file_of. }
  split; [exact Hserve|]. intros Hm Hun Hr.
  destruct (file_whole (D:=D) (E:=E) _ _ info (node_headers node (uri_path req)) (req_headers req) Hs Hun Hr)
    as (v & He & Ha). rewrite <- Hm in Ha.
  destruct (Hserve _ _ He ltac:(intros v'; by rewrite Hr) Ha) as (resp & Hsv & Hst & Hh & Hb).
  exists resp. split; [done|]. split; [done|]. rewrite !Hh. unfold e.
  rewrite !whole_field by not_reserved. cbn [crf_headers file_of]. rewrite !node_field, !encoding_field.
  assert (CONTENT_ENCODING ≠ CONTENT_TYPE) by name_ne. assert (VARY ≠ CONTENT_TYPE) by name_ne.
  assert (VARY ≠ CONTENT_ENCODING) by name_ne.
  split_and!.
  - destruct (mime_of _), (is_gzipped node); repeat case_decide; naive_solver.
  - destruct (mime_of _), (encoding_varies node); repeat case_decide; naive_solver.
  - destruct (mime_of _); repeat case_decide; naive_solver.
  - intros cx. specialize (Hb cx).
    rewrite bool_decide_false in Hb by (rewrite Hm; apply GET_not_HEAD). exact Hb.
Qed.

(** A listing that is written without an error. *)
Lemma reply_listing_ok (req : R) node (resp : Response (Body ChunkedReadFile D E)) l :
  reply_listing req node = Ret (Ok (resp, l)) →
  as_u16 (resp_status resp) = 200 ∧ as_bytes <$> hm_get_all (resp_headers resp) CONTENT_TYPE = [bs "text/html"].
Proof.
  unfold reply_listing. intros Hr. apply bind_Ret_inv in Hr as (b & _ & Hr).
  apply bind_Ret_inv in Hr as ([[resp0 w] l0] & Hb & Hr). destruct (build_says _ _ _ _ Hb) as [_ Hst].
  apply bind_Ret_inv in Hr as ([r l1] & _ & Hr). destruct r as [[]|e]; [|done]. injection Hr as <- _.
  rewrite resp_status_set, resp_headers_set, hm_get_all_insert, decide_True by done.
  split; [done|]. simpl. by rewrite as_bytes_static.
Qed.

(** The answer for an error: 404 if something does not exist and 500 otherwise,
    and the error as text. *)
Definition answers_error (now : SystemTime) (fs : FsDir) (req : R) (opened : list bytes) (e : io_error) : Prop :=
  ∃ resp, serve_dir (D:=D) (E:=E) now fs req = Ret ((resp, None), opened) ∧
    as_u16 (resp_status resp) = (if decide (kind e = NotFound) then 404 else 500) ∧
    resp_body resp = from_string (bs "I/O error: " ++ message e).

(** An error of [reply] is answered. *)
Lemma reply_error now fs (req : R) name node opened e :
  uri_ok req name → get fs (looked_up name) (req_headers req) = Ret (Ok node, opened) →
  reply (D:=D) (E:=E) now req node = Ret (Err e) → answers_error now fs req opened e.
Proof.
  intros Hu Hg Hr. destruct (error_response_is e) as (resp & He & Hst & Hb & _). exists resp.
  split; [|done]. by rewrite (serve_dir_get now fs req name node opened Hu Hg), Hr, bind_Ret_l, He.
Qed.

(** C37: the answer of the directory server to every request for a path [/name].
    It opens only paths whose text stays in the directory.  What [get] cannot
    open is answered with the error, 404 if it does not exist and 500 otherwise;
    so is, with 500, a name that does not stay in the directory.  A directory
    without a final slash is redirected to the same path with one, which is
    never another host (the name does not start with a slash); with one, the
    listing is the answer, 200 and of type [text/html], or the error of writing
    it.  A file that can be served is answered as [serve] does, and one that
    cannot with the error.  It panics exactly if the listing or [serve] does, or
    if the request has no path (as [CONNECT] has). *)
Theorem serve_dir_dispatch (now : SystemTime) (fs : FsDir) (req : R) (name : bytes) :
  (uri_path req = [] → serve_dir (D:=D) (E:=E) now fs req = Panic IndexOutOfBounds) ∧
  (uri_ok req name →
   ∃ r opened, get fs (looked_up name) (req_headers req) = Ret (r, opened) ∧
     Forall (λ p, path_safe p ∧ (p = looked_up name ∨ p = looked_up name ++ bs ".gz")) opened ∧
     (name ≠ [] → ¬ path_safe name → opened = [] ∧ ∃ e, r = Err e ∧ kind e ≠ NotFound) ∧
     match r with
     | Err e => answers_error now fs req opened e
     | Ok node =>
         if Platform.is_dir (metadata node) then
           if decide (last (uri_path req) = Some SLASH) then
             match reply_listing (D:=D) (E:=E) req node with
             | Ret (Ok (resp, l)) =>
                 serve_dir (D:=D) (E:=E) now fs req = Ret ((resp, l), opened) ∧
                 as_u16 (resp_status resp) = 200 ∧
                 as_bytes <$> hm_get_all (resp_headers resp) CONTENT_TYPE = [bs "text/html"]
             | Ret (Err e) => answers_error now fs req opened e
             | Panic w => serve_dir (D:=D) (E:=E) now fs req = Panic w
             end
           else
             head name ≠ Some SLASH ∧
             ∃ resp, serve_dir (D:=D) (E:=E) now fs req = Ret ((resp, None), opened) ∧
               as_u16 (resp_status resp) = 301 ∧
               as_bytes <$> hm_get_all (resp_headers resp) LOCATION = [uri_path req ++ bs "/"]
         else
           match into_file_entity node (node_headers node (uri_path req)) with
           | Err e => answers_error now fs req opened e
           | Ok f =>
               match serve (D:=D) (E:=E) now f (req_method req) (req_headers req) with
               | Ret resp => serve_dir (D:=D) (E:=E) now fs req = Ret ((resp, None), opened)
               | Panic w => serve_dir (D:=D) (E:=E) now fs req = Panic w
               end
           end
     end).
Proof.
  split; [by unfold serve_dir, request_name; intros ->|]. intros Hu.
  destruct (get_opens fs (looked_up name) (req_headers req)) as (r & opened & Hg & Hop & Hunsafe).
  exists r, opened. split; [done|]. split; [done|]. split.
  { intros Hne Hns. assert (looked_up name = name) as Hl by (unfold looked_up; by rewrite bool_decide_false).
    rewrite Hl in Hunsafe. destruct (Hunsafe Hns) as (-> & msg & ->). split; [done|]. by eexists. }
  destruct r as [node|e].
  2: { destruct (error_response_is e) as (resp & He & Hst & Hb & _). exists resp. split; [|done].
       unfold serve_dir. rewrite (request_name_ok req name Hu), bind_Ret_l, Hg. simpl. by rewrite He. }
  pose proof (serve_dir_get now fs req name node opened Hu Hg) as Hget.
  pose proof (λ e, reply_error now fs req name node opened e Hu Hg) as Herr.
  destruct (Platform.is_dir (metadata node)) eqn:Hd; [case_decide as Hl|].
  - assert (reply (D:=D) (E:=E) now req node = reply_listing req node) as Hr
      by (unfold reply; by rewrite Hd, bool_decide_true).
    rewrite Hr in Hget, Herr. destruct (reply_listing req node) as [[[resp l]|e]|w] eqn:Hlist; [| |by rewrite Hget].
    + split; [by rewrite Hget|]. by eapply reply_listing_ok.
    + by apply Herr.
  - split.
    + intros Hh. destruct Hunsafe as (_ & msg & ?); [|done]. intros (_ & Hs & _).
      revert Hs Hh. clear. unfold looked_up. by destruct name.
    + destruct (redirect_is now req node name Hu Hd Hl) as (resp & Hr & Hst & Hh).
      exists resp. rewrite Hget, Hr, Hh, decide_True by done. done.
  - assert (reply (D:=D) (E:=E) now req node = reply_file now req node) as Hr by (unfold reply; by rewrite Hd).
    rewrite Hr in Hget, Herr. unfold reply_file in *.
    destruct (into_file_entity node (node_headers node (uri_path req))) as [f|e]; [|by apply Herr].
    rewrite Hget. by destruct (serve now f (req_method req) (req_headers req)).
Qed.
End server.

(** ** Requests to the concrete directory *)

#[local] Existing Instances debug_build plain_http plain_http_laws plain_date plain_date_laws
  plain_buf plain_buf_laws box_error_self test_wakers test_wakers_laws test_allocator test_allocator_laws
  test_task_eq stored stored_codec stored_laws site_http site_http_laws site_unix site_unix_laws site_content
  site_content_laws site_dirs site_nix site_web site_web_laws site_uri site_request.

Definition zipped_node : Node :=
  mk_Node (bs "zipped b" : @UnixFile site_unix) (bs "zipped b" : @UnixMetadata site_unix) true true.

Lemma site_uri_ok : uri_ok (site_get "/b.txt" [(bs "accept-encoding", bs "gzip")]) (bs "b.txt").
Proof. by split_and!. Qed.

Lemma directory_file_witness :
  ∃ resp, serve_dir (D:=bytes) (E:=BoxError) test_now site
      (site_get "/b.txt" [(bs "accept-encoding", bs "gzip")]) = Ret ((resp, None), [bs "b.txt.gz"]) ∧
    as_bytes <$> hm_get_all (resp_headers resp) CONTENT_ENCODING = [bs "gzip"] ∧
    as_bytes <$> hm_get_all (resp_headers resp) CONTENT_TYPE = [bs "text/plain"].
Proof.
  destruct (directory_file (D:=bytes) (E:=BoxError) test_now site
    (site_get "/b.txt" [(bs "accept-encoding", bs "gzip")]) (bs "b.txt") zipped_node [bs "b.txt.gz"]
    (mk_FileInfo 7 8 (5 * NANOS_PER_SEC))) as [_ Hget].
  - by vm_compute.
  - by split.
  - exact site_uri_ok.
  - reflexivity.
  - reflexivity.
  - by split_and!.
  - destruct Hget as (resp & Hs & _ & Hce & _ & Hct & _).
    + reflexivity.
    + by repeat constructor.
    + reflexivity.
    + exists resp. split; [exact Hs|]. split; [exact Hce|exact Hct].
Defined.

Lemma serve_dir_dispatch_witness :
  (∃ resp, serve_dir (D:=bytes) (E:=BoxError) test_now site (site_get "/../b.txt" []) = Ret ((resp, None), []) ∧
     as_u16 (resp_status resp) = 500) ∧
  ∃ resp, serve_dir (D:=bytes) (E:=BoxError) test_now site (site_get "/sub" []) = Ret ((resp, None), [bs "sub"]) ∧
    as_u16 (resp_status resp) = 301.
Proof.
  split.
  - destruct (serve_dir_dispatch (D:=bytes) (E:=BoxError) test_now site (site_get "/../b.txt" []) (bs "../b.txt"))
      as [_ (r & opened & Hg & _ & _ & Hr)]; [by split_and!|].
    assert (get site (looked_up (bs "../b.txt")) (req_headers (site_get "/../b.txt" [])) =
      Ret (Err (IoError InvalidInput (bs "path contains .. segment")), [])) as Hg' by by vm_compute.
    rewrite Hg' in Hg. injection Hg as <- <-. destruct Hr as (resp & Hs & Hst & _).
    exists resp. split; [exact Hs|exact Hst].
  - destruct (serve_dir_dispatch (D:=bytes) (E:=BoxError) test_now site (site_get "/sub" []) (bs "sub"))
      as [_ (r & opened & Hg & _ & _ & Hr)]; [by split_and!|].
    assert (get site (looked_up (bs "sub")) (req_headers (site_get "/sub" [])) =
      Ret (Ok (mk_Node ([SLASH] : @UnixFile site_unix) ([SLASH] : @UnixMetadata site_unix) true false), [bs "sub"])) as Hg'
      by by vm_compute.
    rewrite Hg' in Hg. injection Hg as <- <-. destruct Hr as (_ & resp & Hs & Hst & _).
    exists resp. split; [exact Hs|exact Hst].
Defined.
