(* ===== verification/DirClients.v ===== *)
(** * Clients of the directory server over several requests (examples/serve_dir.rs)

    The clients of Download and Revalidate, of a path the example server of a
    directory serves.  Between two requests the directory may change, and each
    request may have another [Accept-Encoding], so that one gets the file and
    another its gzipped copy.  For these clients the server is simulated by
    [serve] on the files [FsDir::get] can choose, so what was proved of them
    carries over. *)

From S2P Require Import Prelude RustStd HttpApi Plain ContentCoding Range Etag Stream Entity Multipart.
From S2P Require Import Chunker Platform File Dir Gzip Body Streaming StreamingBody.
From S2P Require Import Serving ServingSpec ServingProps SameBytes FileServing Download Revalidate.
From S2P Require Import ServeDir DirServer.

(** ** The directory at the time of a request *)

Record dir_state `{Unix} := mk_dir_state { state_dirs : UnixDirs; state_fs : FsDir (H2:=state_dirs) }.

Section clients.
Context `{Build, WakersLaws, !Allocator, !AllocatorLaws, HttpLaws, !DirHttp, !DirHttpLaws, !HttpDate, !HttpDateLaws}.
Context `{UnixLaws, !StableFiles, !StableFilesLaws, !NixDirs, !WebCrates, !WebLaws} {D E : Type}.
Context `{!Buf D, !BufLaws D, !FromBoxError E, !GzEncoders E, !AsRequest R, !UriRequest R}.

(** The name of the path [/name] that is asked for, which does not end in a
    slash, and the states the directory has at which times. *)
Context (name : bytes) (site : SystemTime → dir_state → Prop).

Definition chooses (w : dir_state) (hdrs : HeaderMap) (node : Node) : Prop :=
  ∃ opened, get (state_fs w) (looked_up name) hdrs = Ret (Ok node, opened) ∧ Platform.is_dir (metadata node) = false.

(** The entities that are served, whatever is asked for. *)
Definition dir_version (now : SystemTime) (f : ChunkedReadFile) : Prop :=
  ∃ w hdrs node, site now w ∧ chooses w hdrs node ∧
    into_file_entity node (node_headers node (SLASH :: name)) = Ok f.

(** Each file that is chosen can be served, and what [stat] cannot tell apart has
    the same content. *)
Definition site_ok : Prop :=
  last (SLASH :: name) ≠ Some SLASH ∧
  (∀ now w, site now w → http_date_range now) ∧
  (∀ now w hdrs node, site now w → chooses w hdrs node → is_file (metadata node) = true →
     ∃ info, stat_agrees (into_file node) (metadata node) info) ∧
  (∀ now f now' f', dir_version now f → dir_version now' f' → same_version f f' →
     file_content (crf_f f) = file_content (crf_f f')).

Lemma into_file_entity_inv node h f :
  into_file_entity node h = Ok f →
  is_file (metadata node) = true ∧ crf_f f = into_file node ∧ crf_headers f = h.
Proof.
  unfold into_file_entity, new_with_metadata, metadata. destruct (is_file (node_metadata node)); [|done].
  simpl. destruct (file_info _); [|done]. by intros [= <-].
Qed.

Lemma dir_versions_ok : site_ok → versions_ok (D:=D) (E:=E) dir_version.
Proof.
  intros (_ & Hnow & Hfiles & Hsame). split; [|exact Hsame]. intros now f (w & hdrs & node & Hs & Hc & Hf).
  destruct (into_file_entity_inv _ _ _ Hf) as (Hfile & _).
  destruct (Hfiles now w hdrs node Hs Hc Hfile) as [info Hi].
  unfold into_file_entity in Hf. unfold into_file, metadata in Hi. rewrite (new_file_of _ _ info _ Hi) in Hf.
  injection Hf as <-. split; [|split].
  - apply (file_of_ok _ _ info _ Hi), node_headers_free.
  - exact (file_of_stat _ _ info _ Hi).
  - split; [by destruct Hi as (_ & _ & _ & _ & _ & Ht)|]. by eapply Hnow.
Qed.

(** The coding a client learns is the one of the file it gets. *)
Lemma version_coding node f :
  into_file_entity node (node_headers node (SLASH :: name)) = Ok f →
  coding_of f = if is_gzipped node then Some (bs "gzip") else None.
Proof.
  intros (_ & _ & Hh)%into_file_entity_inv. unfold coding_of. rewrite Hh, get_bytes, node_field, encoding_field.
  assert (CONTENT_ENCODING ≠ CONTENT_TYPE) by name_ne. assert (CONTENT_ENCODING ≠ VARY) by name_ne.
  destruct (mime_of _), (is_gzipped node); repeat case_decide; naive_solver.
Qed.

(** ** The clients and the server *)

(** A request for the path, with the header fields [hdrs] and any others that
    [serve] does not read, and what is answered. *)
Definition exchange (now : SystemTime) (w : dir_state) (req : R) (hdrs : HeaderMap)
    (resp : Response (Body ChunkedReadFile D E)) : Prop :=
  site now w ∧ uri_ok req name ∧ req_method req = GET ∧ same_request (req_headers req) hdrs ∧
  ∃ l opened, serve_dir (D:=D) (E:=E) now (state_fs w) req = Ret ((resp, l), opened).

(** One request, broken after [k] bytes of the body if there are so many. *)
Inductive dir_session_step (c : client) : client → Prop :=
  | dir_request now w req resp cx fuel got o b' k :
      exchange now w req (client_request c) resp →
      drain (Pollable0:=body_pollable cx) fuel (resp_body resp) = Ret (Some (got, o, b')) →
      dir_session_step c (client_take resp (take k got) c).

Inductive dir_cache_step (c : option copy) : option copy → Prop :=
  | dir_revalidate now w req resp cx fuel got o b' k :
      exchange now w req (revalidation c) resp →
      drain (Pollable0:=body_pollable cx) fuel (resp_body resp) = Ret (Some (got, o, b')) →
      dir_cache_step c (cache_take resp (take k got) c).

(** An exchange is one with [serve] on a file, or fails. *)
Lemma exchange_served now w req hdrs resp :
  site_ok → exchange now w req hdrs resp →
  (∃ f, dir_version now f ∧ serve (D:=D) (E:=E) now f GET (req_headers req) = Ret resp) ∨
  as_u16 (resp_status resp) ∈ [301; 404; 500].
Proof.
  intros (Hl & _) (Hs & Hu & Hm & _ & l & opened & Hsd). pose proof (proj1 Hu) as Hp. rewrite <- Hp in Hl.
  destruct (serve_dir_cases now (state_fs w) req name resp l opened Hu Hl Hsd)
    as [_ [(node & f & Hg & Hd & Hf & Hsv)|[Hst _]]]; [left|by right].
  rewrite Hm in Hsv. exists f. split; [|done]. exists w, (req_headers req), node. rewrite <- Hp.
  split; [done|]. split; [by exists opened|done].
Qed.

(** Of a failed exchange nothing is kept. *)
Lemma failed_take (resp : Response (Body ChunkedReadFile D E)) got c :
  as_u16 (resp_status resp) ∈ [301; 404; 500] → client_take resp got c = c.
Proof. intros Hst. unfold client_take. repeat (apply elem_of_cons in Hst as [->|Hst]; [done|]). set_solver. Qed.

Lemma failed_cache_take (resp : Response (Body ChunkedReadFile D E)) got c :
  as_u16 (resp_status resp) ∈ [301; 404; 500] → cache_take resp got c = c.
Proof. intros Hst. unfold cache_take. repeat (apply elem_of_cons in Hst as [->|Hst]; [done|]). set_solver. Qed.

(** The simulations. *)
Lemma dir_session_simulated c :
  site_ok → rtc dir_session_step fresh c → rtc (session_step (D:=D) (E:=E) dir_version) fresh c.
Proof.
  intros Hok. apply rtc_ind_r; [done|]. intros c1 c2 _ [now w req resp cx fuel got o b' k He Hdr] IH.
  pose proof He as (_ & _ & _ & Hreq & _).
  destruct (exchange_served _ _ _ _ _ Hok He) as [(f & Hf & Hs)|Hst]; [|by rewrite failed_take].
  eapply rtc_r; [exact IH|]. by eapply request.
Qed.

Lemma dir_cache_simulated c :
  site_ok → rtc dir_cache_step None c → rtc (cache_step (D:=D) (E:=E) dir_version) None c.
Proof.
  intros Hok. apply rtc_ind_r; [done|]. intros c1 c2 _ [now w req resp cx fuel got o b' k He Hdr] IH.
  pose proof He as (_ & _ & _ & Hreq & _).
  destruct (exchange_served _ _ _ _ _ Hok He) as [(f & Hf & Hs)|Hst]; [|by rewrite failed_cache_take].
  eapply rtc_r; [exact IH|]. by eapply revalidate.
Qed.

(** The other way: what [serve] answers for the file that is chosen. *)
Lemma chosen_exchange now w req node hdrs :
  site_ok → site now w → uri_ok req name → req_method req = GET → same_request (req_headers req) hdrs →
  chooses w (req_headers req) node → is_file (metadata node) = true →
  ∃ f, dir_version now f ∧ into_file_entity node (node_headers node (SLASH :: name)) = Ok f ∧
    ∀ resp, serve (D:=D) (E:=E) now f GET (req_headers req) = Ret resp → exchange now w req hdrs resp.
Proof.
  intros (Hl & _ & Hfiles & _) Hs Hu Hm Hreq Hc Hfile. destruct (Hfiles now w _ node Hs Hc Hfile) as [info Hi].
  pose proof (new_file_of _ _ info (node_headers node (SLASH :: name)) Hi) as Hf. eexists. split; [|split; [exact Hf|]].
  - by exists w, (req_headers req), node.
  - intros resp Hsv. split_and!; [done..|]. destruct Hc as (opened & Hg & Hd). exists None, opened.
    rewrite <- Hm in Hsv. rewrite <- (proj1 Hu) in Hsv, Hf. by apply (serve_dir_file now _ req name node opened _ resp Hu Hg Hd Hf).
Qed.
End clients.

Section properties.
Context `{Build, WakersLaws, !Allocator, !AllocatorLaws, HttpLaws, !DirHttp, !DirHttpLaws, !HttpDate, !HttpDateLaws}.
Context `{UnixLaws, !StableFiles, !StableFilesLaws, !NixDirs, !WebCrates, !WebLaws} {D E : Type}.
Context `{!Buf D, !BufLaws D, !FromBoxError E, !GzEncoders E, !AsRequest R, !UriRequest R}.

(** A request for the path that gets the node, which is a file whose reads
    succeed. *)
Definition gets_file (name : bytes) (site : SystemTime → dir_state → Prop) (now : SystemTime) (w : dir_state)
    (req : R) (node : Node) : Prop :=
  site now w ∧ uri_ok req name ∧ req_method req = GET ∧ chooses name w (req_headers req) node ∧
  is_file (metadata node) = true ∧
  ∀ f, into_file_entity node (node_headers node (SLASH :: name)) = Ok f → never_fails (D:=D) (E:=E) f.


End properties.

(** ** A file with a gzipped copy *)

#[local] Existing Instances debug_build plain_http plain_http_laws plain_date plain_date_laws
  plain_buf plain_buf_laws box_error_self test_wakers test_wakers_laws test_allocator test_allocator_laws
  test_task_eq stored stored_codec stored_laws site_http site_http_laws site_unix site_unix_laws site_content
  site_content_laws site_dirs site_nix site_web site_web_laws site_uri site_request.

Definition plain_node : Node :=
  mk_Node (bs "plain b" : @UnixFile site_unix) (bs "plain b" : @UnixMetadata site_unix) true false.
Definition site_state : dir_state := mk_dir_state site_unix site_dirs site.
Definition site_at (now : SystemTime) (w : dir_state) : Prop := now = test_now ∧ w = site_state.
Definition site_b : bytes := bs "b.txt".

Lemma site_gets hdrs node opened :
  get site (looked_up site_b) hdrs = Ret (Ok node, opened) → node = plain_node ∨ node = zipped_node.
Proof.
  intros [Hp|(_ & _ & _ & file & m & Ho & Hm & ->)]%get_chosen; [left|right].
  - by injection Hp.
  - injection Ho as <-. by injection Hm as <-.
Qed.

Lemma site_chooses hdrs node : chooses site_b site_state hdrs node → node = plain_node ∨ node = zipped_node.
Proof. intros (opened & Hg & _). by eapply site_gets. Qed.

Lemma site_is_ok : site_ok site_b site_at.
Proof.
  assert (∀ now f, dir_version site_b site_at now f →
    into_file_entity plain_node (node_headers plain_node (SLASH :: site_b)) = Ok f ∨
    into_file_entity zipped_node (node_headers zipped_node (SLASH :: site_b)) = Ok f) as Hvs.
  { intros now f (w & hdrs & node & [_ ->] & [-> | ->]%site_chooses & Hf); auto. }
  split; [done|]. split; [|split].
  - by intros now w [-> _].
  - intros now w hdrs node [_ ->] [-> | ->]%site_chooses _;
      [exists (mk_FileInfo 7 7 (5 * NANOS_PER_SEC))|exists (mk_FileInfo 7 8 (5 * NANOS_PER_SEC))]; by split_and!.
  - intros now f now' f' [[= <-] | [= <-]]%Hvs [[= <-] | [= <-]]%Hvs (_ & Hl & _); by vm_compute in Hl.
Qed.

Definition site_file (content : bytes) (h : @HeaderMap plain_http) : ChunkedReadFile :=
  mk_ChunkedReadFile (len content) 7 (5 * NANOS_PER_SEC) (content : @UnixFile site_unix) h.

Lemma site_reads content h : len content <= I64_MAX → reads_ok (site_file content h) (crf_len (site_file content h)).
Proof.
  intros Hmax. split; [simpl; lia|]. intros t n off Hn Hoff. eexists. split; [reflexivity|]. cbn [crf_len site_file crf_f] in *.
  intros Hnil%(f_equal length). rewrite length_take, length_drop in Hnil. unfold len in Hoff. simpl in Hnil. lia.
Qed.

Lemma site_never_fails node h f :
  into_file_entity node h = Ok f → len (node_metadata node : bytes) = len (node_file node : bytes) →
  headers_free h → len (node_file node : bytes) <= I64_MAX → never_fails (D:=bytes) (E:=BoxError) f.
Proof.
  intros Hf Hl Hh Hmax. assert (f = site_file (node_file node) h) as ->.
  { unfold into_file_entity, new_with_metadata in Hf. destruct (negb _); [done|].
    simpl in Hf. injection Hf as <-. unfold site_file. by rewrite <- Hl. }
  apply file_never_fails; [by vm_compute| |by apply site_reads].
  split; [done|]. split; [by etrans; [exact Hmax|]|]. intros k Hk.
  pose proof (Hh k Hk) as Hn. by rewrite hm_get_all_iter in Hn.
Qed.

(** A request for the gzipped copy is cut off after three bytes. *)
Definition zipped_client : client :=
  mk_client (bs "zip")
    (Some (tag_bytes (site_file (bs "zipped b") []) : @HeaderValue plain_http)) (Some (bs "gzip")) 8.

Lemma zipped_client_reachable :
  rtc (dir_session_step (D:=bytes) (E:=BoxError) (R:=bytes * @Parts plain_http) site_b site_at) fresh zipped_client.
Proof.
  apply rtc_once.
  assert (∃ resp, serve_dir (D:=bytes) (E:=BoxError) test_now site
      (site_get "/b.txt" [(bs "accept-encoding", bs "gzip")]) = Ret ((resp, None), [bs "b.txt.gz"]) ∧
      client_take resp (take 3 (bs "zipped b")) fresh = zipped_client ∧
      ∃ b', drain (Pollable0:=body_pollable (7%nat : @Waker test_wakers)) 9 (resp_body resp)
              = Ret (Some (bs "zipped b", Done, b')))
    as (resp & Hs & <- & b' & Hd) by (eexists; split; [reflexivity|split; [by vm_compute|eexists; reflexivity]]).
  eapply dir_request; [|exact Hd]. split; [by split|]. split; [exact site_uri_ok|]. split; [done|].
  split; [by repeat constructor|]. by eexists _, _.
Qed.

(** The next request does not accept gzip. *)
Definition plain_request (hdrs : @HeaderMap plain_http) : bytes * @Parts plain_http :=
  (bs "/b.txt", @mk_Parts plain_http (bs "GET") hdrs).

Lemma plain_request_gets hdrs :
  hm_get hdrs ACCEPT_ENCODING = None →
  gets_file (D:=bytes) (E:=BoxError) site_b site_at test_now site_state (plain_request hdrs) plain_node.
Proof.
  intros Ha. split; [done|]. split; [by split_and!|]. split; [done|]. split; [|split; [done|]].
  - exists [bs "b.txt"]. split; [|done]. cbv [get state_fs site_state site fd_auto_gzip].
    assert (should_gzip (req_headers (plain_request hdrs)) = Ret false) as ->
      by (unfold should_gzip; simpl in *; by rewrite Ha).
    by vm_compute.
  - intros f Hf. eapply site_never_fails; [exact Hf|done|apply node_headers_free|done].
Qed.


(** What the first exchange leaves in a cache. *)
Definition zipped_copy : copy :=
  mk_copy (bs "zipped b") (tag_bytes (site_file (bs "zipped b") []) : @HeaderValue plain_http)
    (Some (fmt_http_date (Z.min (5 * NANOS_PER_SEC) test_now) : @HeaderValue plain_http)) (Some (bs "gzip")).

Lemma zipped_copy_reachable :
  rtc (dir_cache_step (D:=bytes) (E:=BoxError) (R:=bytes * @Parts plain_http) site_b site_at) None (Some zipped_copy).
Proof.
  apply rtc_once.
  assert (∃ resp, serve_dir (D:=bytes) (E:=BoxError) test_now site
      (site_get "/b.txt" [(bs "accept-encoding", bs "gzip")]) = Ret ((resp, None), [bs "b.txt.gz"]) ∧
      cache_take resp (take 8 (bs "zipped b")) None = Some zipped_copy ∧
      ∃ b', drain (Pollable0:=body_pollable (7%nat : @Waker test_wakers)) 9 (resp_body resp)
              = Ret (Some (bs "zipped b", Done, b')))
    as (resp & Hs & <- & b' & Hd) by (eexists; split; [reflexivity|split; [by vm_compute|eexists; reflexivity]]).
  eapply dir_revalidate; [|exact Hd]. split; [by split|]. split; [exact site_uri_ok|]. split; [done|].
  split; [by repeat constructor|]. by eexists _, _.
Qed.

