(* ===== verification/Negotiation.v ===== *)
(** * Negotiating with the directory server (examples/serve_dir.rs, src/dir.rs)

    One request chooses between a file and its gzipped copy by its
    [Accept-Encoding]; what the response says of that in [Vary] and
    [Content-Encoding], and what a shared cache may make of it (RFC 7234
    section 4.1). *)

From S2P Require Import Prelude RustStd HttpApi Plain ContentCoding Range Etag Stream Entity Multipart.
From S2P Require Import Chunker Platform File Dir Gzip Body Streaming StreamingBody.
From S2P Require Import Serving ServingSpec ServingProps SameBytes FileServing ServeDir DirServer DirClients.

(** ** What a cache looks at *)

Section vary.
Context `{HttpLaws}.

(** The fields that [Vary] of a stored response names have the same first value
    in both requests. *)
Definition selected {B} (resp : Response B) (a b : HeaderMap) : Prop :=
  ∀ k, name_as_str k ∈ as_bytes <$> hm_get_all (resp_headers resp) VARY →
       as_bytes <$> hm_get a k = as_bytes <$> hm_get b k.

Lemma accept_encoding_name : name_as_str ACCEPT_ENCODING = bs "accept-encoding".
Proof. pose proof header_names as Hn. cbn [fmap list_fmap] in Hn. by injection Hn. Qed.
End vary.

Section negotiation.
Context `{Build, WakersLaws, !Allocator, !AllocatorLaws, HttpLaws, !DirHttp, !DirHttpLaws, !HttpDate, !HttpDateLaws}.
Context `{UnixDirs, !UnixLaws, !StableFiles, !StableFilesLaws, !NixDirs, !WebCrates, !WebLaws} {D E : Type}.
Context `{!Buf D, !BufLaws D, !FromBoxError E, !GzEncoders E, !AsRequest R, !UriRequest R}.

(** The regular files of the directory with that name can be served. *)
Definition servable (fs : FsDir) (name : bytes) : Prop :=
  ∀ hdrs node opened, get fs (looked_up name) hdrs = Ret (Ok node, opened) →
    is_file (metadata node) = true → ∃ info, stat_agrees (into_file node) (metadata node) info.

Lemma not_location : VARY ≠ LOCATION ∧ CONTENT_ENCODING ≠ LOCATION.
Proof. pose proof location_name. split; name_ne. Qed.

(** The two fields, in any answer for a file. *)
Lemma negotiated_fields now node path f etag a :
  into_file_entity node (node_headers node path) = Ok f →
  field_values VARY (answer_fields (D:=D) (E:=E) now f etag a) =
    (if answer_describes a && encoding_varies node then [bs "accept-encoding"] else []) ∧
  field_values CONTENT_ENCODING (answer_fields (D:=D) (E:=E) now f etag a) =
    (if answer_describes a && is_gzipped node then [bs "gzip"] else []).
Proof.
  intros (_ & _ & Hh)%into_file_entity_inv. assert (VARY ≠ CONTENT_ENCODING) by name_ne.
  assert (VARY ≠ CONTENT_TYPE) as Hv by name_ne. assert (CONTENT_ENCODING ≠ CONTENT_TYPE) as Hc by name_ne.
  assert (VARY ≠ ALLOW) as Hva by name_ne. assert (CONTENT_ENCODING ≠ ALLOW) as Hca by name_ne.
  rewrite (entity_field now f etag a VARY), (entity_field now f etag a CONTENT_ENCODING), Hh by (done || not_reserved).
  rewrite !node_field, !encoding_field.
  destruct (answer_describes a); [|done]. simpl.
  split; destruct (mime_of path), (is_gzipped node), (encoding_varies node); repeat case_decide; naive_solver.
Qed.

(** An answer for a file, as specified. *)
Lemma file_answered now fs (req : R) node opened f resp name :
  CHUNK_SIZE <= usize_max → http_date_range now → servable fs name →
  (∀ v, hm_get (req_headers req) RANGE = Some v → 2 * len (as_bytes v) + 1 <= usize_max) →
  get fs (looked_up name) (req_headers req) = Ret (Ok node, opened) →
  into_file_entity node (node_headers node (uri_path req)) = Ok f →
  serve (D:=D) (E:=E) now f (req_method req) (req_headers req) = Ret resp →
  EntityLaws (D:=D) (E:=E) f ∧
  ∃ etag a, request_ok (D:=D) (E:=E) now f etag (req_headers req) ∧
    decide_answer (D:=D) (E:=E) etag f (req_method req) (req_headers req) = Ret a ∧
    response_is (D:=D) (E:=E) now f etag (req_method req) a resp.
Proof.
  intros Hmem Hnow Hsv Hr Hg Hf Hs. destruct (into_file_entity_inv _ _ _ Hf) as (Hfile & _).
  destruct (Hsv _ _ _ Hg Hfile) as [info Hi].
  unfold into_file_entity in Hf. unfold into_file, metadata in Hi. rewrite (new_file_of _ _ info _ Hi) in Hf.
  injection Hf as <-. set (f := file_of _ _ _) in *.
  pose proof (file_laws (D:=D) (E:=E) Hmem f (file_of_ok _ _ info _ Hi (node_headers_free _ _))) as Hlaws.
  split; [done|]. destruct (crf_etag_print f (file_of_stat _ _ info _ Hi)) as (v & He & _).
  assert (request_ok (D:=D) (E:=E) now f (Some v) (req_headers req)) as Hok.
  { split; [exact He|]. split; [|exact Hr]. split; [by destruct Hi as (_ & _ & _ & _ & _ & Ht)|done]. }
  destruct (serve_decided (D:=D) (E:=E) _ _ _ _ _ _ Hok Hs) as [a Ha]. exists (Some v), a.
  split; [done|]. split; [done|]. by apply (serve_inv _ _ _ _ (req_headers req)).
Qed.

Lemma answer_status_whole a : answer_status a = 200 → a = AWhole.
Proof. by destruct a. Qed.

(** A range is only described to a client that did not name a version. *)
Lemma partial_describes etag (f : ChunkedReadFile) m hdrs r :
  decide_answer (D:=D) (E:=E) etag f m hdrs = Ret (APartial r true) → hm_get hdrs IF_RANGE = None.
Proof.
  unfold decide_answer, range_after_if_range. case_decide; [done|].
  destruct (parse_modified_hdrs _ _ _) as [[[] []]|]; [done..| |done].
  destruct (hm_get hdrs IF_RANGE); [|done]. intros Ha. exfalso. revert Ha.
  assert (∀ p, range_answer (D:=D) (E:=E) f false p ≠ APartial r true) as Hfalse.
  { intros [| |[|? []]]; simpl; repeat case_match; done. }
  repeat case_match; cbn [fst snd]; try done;
    (destruct (parse _ _) as [p|]; [|done]); simpl; intros [= Hp]; by eapply Hfalse.
Qed.

(** A request the stored response is selected for gets the same file. *)
Lemma selected_get fs name (resp : Response (Body ChunkedReadFile D E)) now node f etag (a b : HeaderMap) opened :
  get fs (looked_up name) a = Ret (Ok node, opened) → into_file_entity node (node_headers node (SLASH :: name)) = Ok f →
  (∀ k, as_bytes <$> hm_get_all (resp_headers resp) k = field_values k (answer_fields (D:=D) (E:=E) now f etag AWhole)) →
  selected resp a b → get fs (looked_up name) b = Ret (Ok node, opened).
Proof.
  intros Hg Hf Hh Hsel. rewrite <- Hg. apply get_alike. intros Hauto. symmetry. apply Hsel.
  destruct (negotiated_fields now node _ f etag AWhole Hf) as [Hvary _]. rewrite Hh, Hvary, accept_encoding_name.
  unfold encoding_varies. rewrite (proj1 (get_node _ _ _ _ _ Hg)), Hauto. by left.
Qed.

(** C15: what the directory server says of its choice, for a path that does not
    end in a slash.  A 200 has [Vary: accept-encoding] exactly if the directory
    negotiates, and then speaks for other requests: one with the same method and
    the same first values of the conditional fields, [Range] and [If-Range], that
    also agrees on the fields [Vary] names, gets the same status, header fields
    and body at that time, whatever other fields it has.  [Content-Encoding: gzip]
    is only sent to a client that prefers gzip, for the [.gz] file.  Every other
    response, but for a 206 to a request without [If-Range], does not say what it
    was chosen by: a 304, a redirection and every error lack [Vary], although
    they may depend on [Accept-Encoding] too. *)
Theorem negotiation_cacheable (now : SystemTime) (fs : FsDir) (name : bytes) (req req' : R)
    (resp : Response (Body ChunkedReadFile D E)) (l : option (Shared E)) (opened : list bytes) :
  CHUNK_SIZE <= usize_max → http_date_range now → servable fs name →
  uri_ok req name → uri_ok req' name → last (SLASH :: name) ≠ Some SLASH →
  (∀ v, hm_get (req_headers req) RANGE = Some v → 2 * len (as_bytes v) + 1 <= usize_max) →
  serve_dir (D:=D) (E:=E) now fs req = Ret ((resp, l), opened) →
  (as_u16 (resp_status resp) = 200 →
   as_bytes <$> hm_get_all (resp_headers resp) VARY = if fd_auto_gzip fs then [bs "accept-encoding"] else []) ∧
  (as_u16 (resp_status resp) = 200 →
   req_method req' = req_method req → same_request (req_headers req') (req_headers req) →
   selected resp (req_headers req) (req_headers req') →
   ∃ resp' f s, serve_dir (D:=D) (E:=E) now fs req' = Ret ((resp', None), opened) ∧
     as_u16 (resp_status resp') = 200 ∧
     (∀ k, as_bytes <$> hm_get_all (resp_headers resp') k = as_bytes <$> hm_get_all (resp_headers resp) k) ∧
     ∀ cx, body_gives (D:=D) (E:=E) f cx (resp_body resp) s ∧ body_gives (D:=D) (E:=E) f cx (resp_body resp') s) ∧
  (as_bytes <$> hm_get_all (resp_headers resp) CONTENT_ENCODING = [] ∨
   should_gzip (req_headers req) = Ret true ∧ opened = [looked_up name ++ bs ".gz"] ∧
   as_bytes <$> hm_get_all (resp_headers resp) CONTENT_ENCODING = [bs "gzip"]) ∧
  (as_u16 (resp_status resp) ≠ 200 → (as_u16 (resp_status resp) = 206 → hm_get (req_headers req) IF_RANGE ≠ None) →
   as_bytes <$> hm_get_all (resp_headers resp) VARY = []).
Proof.
  intros Hmem Hnow Hsv Hu Hu' Hl Hr Hs. pose proof (proj1 Hu) as Hp. pose proof (proj1 Hu') as Hp'.
  rewrite <- Hp in Hl. destruct not_location as [Hvl Hcl].
  destruct (serve_dir_cases now fs req name resp l opened Hu Hl Hs) as [-> [(node & f & Hg & Hd & Hf & Hsf)|[Hst Hh]]].
  2: { rewrite (Hh VARY), (Hh CONTENT_ENCODING) by done. assert (as_u16 (resp_status resp) ≠ 200) as Hne
         by (intros Hst'; rewrite Hst' in Hst; set_solver).
       split_and!; [done..|by left|done]. }
  destruct (file_answered now fs req node opened f resp name) as (Hlaws & etag & a & Hok & Ha & Hresp); [done..|].
  pose proof Hresp as (Hst & Hh & Hb). destruct (negotiated_fields now node _ f etag a Hf) as [Hvary Hcod].
  split_and!.
  - rewrite Hst, Hh, Hvary. intros ->%answer_status_whole. unfold encoding_varies.
    by rewrite (proj1 (get_node _ _ _ _ _ Hg)).
  - rewrite Hst. intros ->%answer_status_whole Hm Hreq Hsel. rewrite Hp in Hf.
    pose proof (selected_get fs name resp now node f etag _ _ opened Hg Hf Hh Hsel) as Hg'.
    destruct Hok as (He & Hdt & _).
    destruct (serve_is_alike (D:=D) (E:=E) now f etag (req_method req) (req_headers req') (req_headers req) AWhole)
      as (resp' & Hs' & Hst' & Hh' & Hb'); [done..|].
    exists resp', f. eexists. split; [|split; [exact Hst'|split; [intros k; by rewrite Hh, Hh'|intros cx; split; [apply Hb|apply Hb']]]].
    rewrite <- Hm in Hs'. rewrite <- Hp' in Hf. by apply (serve_dir_file now fs req' name node opened f).
  - rewrite !Hh, Hcod. destruct (is_gzipped node) eqn:Hz; [|left; by rewrite andb_false_r].
    destruct (answer_describes a); [right|by left].
    destruct (get_node _ _ _ _ _ Hg) as [_ Hgz]. by destruct (Hgz Hz) as (_ & Hpref & Ho).
  - rewrite Hst, Hh, Hvary. intros Hne Hin. destruct a as [| | | | | |r []| |]; simpl in Hin |- *; try done.
    apply partial_describes in Ha. by destruct Hin.
Qed.
End negotiation.

(** ** Two clients of the concrete directory *)

#[local] Existing Instances debug_build plain_http plain_http_laws plain_date plain_date_laws
  plain_buf plain_buf_laws box_error_self test_wakers test_wakers_laws test_allocator test_allocator_laws
  test_task_eq stored stored_codec stored_laws site_http site_http_laws site_unix site_unix_laws site_content
  site_content_laws site_nix site_web site_web_laws site_uri site_request.

(** The status of an answer and what it says of the choice. *)
Definition said {U : UnixDirs} (fs : FsDir) (path : string) (hdrs : list (bytes * bytes)) :
    outcome (Z * list bytes * list bytes) :=
  '(resp, _, _) ← serve_dir (D:=bytes) (E:=BoxError) test_now fs (site_get path hdrs);
  Ret (as_u16 (resp_status resp), as_bytes <$> hm_get_all (resp_headers resp) VARY,
       as_bytes <$> hm_get_all (resp_headers resp) CONTENT_ENCODING).

(** The gzipped copy of a file that is not there itself. *)
Definition copies_only : UnixDirs := {|
  RawFd := Z;
  PATH_MAX := 4096;
  open_directory _ := Ok 3;
  openat _ p := if bool_decide (p = bs "b.txt.gz") then Ok (bs "zipped b" : @UnixFile site_unix)
                else Err (IoError NotFound (bs "no such file"))
|}.

(** A 404 that only some clients get, and a 304, neither of which says so. *)
Example said_examples :
  said (U:=copies_only) (@mk_FsDir _ copies_only true 3) "/b.txt" [] = Ret (404, [], []) ∧
  said (U:=copies_only) (@mk_FsDir _ copies_only true 3) "/b.txt" [(bs "accept-encoding", bs "gzip")]
    = Ret (200, [bs "accept-encoding"], [bs "gzip"]) ∧
  said (U:=site_dirs) site "/b.txt" [(bs "if-none-match", bs "*")] = Ret (304, [], []) ∧
  said (U:=site_dirs) site "/b.txt" [] = Ret (200, [bs "accept-encoding"], []).
Proof. split_and!; by vm_compute. Qed.

#[local] Existing Instance site_dirs.

Lemma site_servable : servable site site_b.
Proof.
  intros hdrs node opened [-> | ->]%site_gets _.
  - exists (mk_FileInfo 7 7 (5 * NANOS_PER_SEC)). by split_and!.
  - exists (mk_FileInfo 7 8 (5 * NANOS_PER_SEC)). by split_and!.
Qed.

Lemma negotiation_cacheable_witness :
  ∃ resp resp',
    serve_dir (D:=bytes) (E:=BoxError) test_now site (site_get "/b.txt" [(bs "accept-encoding", bs "gzip")])
      = Ret ((resp, None), [bs "b.txt.gz"]) ∧
    serve_dir (D:=bytes) (E:=BoxError) test_now site
      (site_get "/b.txt" [(bs "accept", bs "text/plain"); (bs "accept-encoding", bs "gzip")])
      = Ret ((resp', None), [bs "b.txt.gz"]) ∧
    as_bytes <$> hm_get_all (resp_headers resp') CONTENT_ENCODING =
      as_bytes <$> hm_get_all (resp_headers resp) CONTENT_ENCODING ∧
    should_gzip (test_headers [(bs "accept-encoding", bs "gzip")]) = Ret true.
Proof.
  set (req := site_get "/b.txt" [(bs "accept-encoding", bs "gzip")]).
  set (req' := site_get "/b.txt" [(bs "accept", bs "text/plain"); (bs "accept-encoding", bs "gzip")]).
  assert (∃ resp, serve_dir (D:=bytes) (E:=BoxError) test_now site req = Ret ((resp, None), [bs "b.txt.gz"]) ∧
    as_u16 (resp_status resp) = 200 ∧ as_bytes <$> hm_get_all (resp_headers resp) VARY = [bs "accept-encoding"] ∧
    as_bytes <$> hm_get_all (resp_headers resp) CONTENT_ENCODING = [bs "gzip"])
    as (resp & Hs & Hst & Hv & Hc) by (eexists; split_and!; reflexivity).
  destruct (negotiation_cacheable (D:=bytes) (E:=BoxError) test_now site site_b req req' resp None [bs "b.txt.gz"])
    as (_ & Hsel & Hcod & _).
  - by vm_compute.
  - by split.
  - exact site_servable.
  - exact site_uri_ok.
  - by split_and!.
  - done.
  - intros v Hr. discriminate Hr.
  - exact Hs.
  - destruct Hsel as (resp' & f & s & Hs' & _ & Hh & _).
    + exact Hst.
    + reflexivity.
    + by repeat constructor.
    + intros k Hk. rewrite Hv in Hk. apply list_elem_of_singleton in Hk. simpl in Hk. subst k. reflexivity.
    + exists resp, resp'. split; [exact Hs|]. split; [exact Hs'|]. split; [exact (Hh CONTENT_ENCODING)|].
      destruct Hcod as [Hnone|(Hp & _)]; [rewrite Hc in Hnone; discriminate Hnone|exact Hp].
Defined.
