(* ===== verification/Bench.v ===== *)
(** * The servers of the benchmarks (benches/inmem.rs, benches/file.rs)

    Their request handlers: data built into the program, served as an entity or
    written to a streaming body before or after the response is returned, and a
    file. *)

From S2P Require Import Prelude RustStd HttpApi Plain ContentCoding Range Etag Stream Entity Multipart.
From S2P Require Import Chunker Platform File Gzip Body Streaming StreamingBody Writing ChunkedAcceptance.
From S2P Require Import Serving ServingSpec ServingProps FileServing ServeFile ServeDir.

#[local] Existing Instance box_error_self.

(** ** benches/inmem.rs *)

Record BytesEntity := mk_BytesEntity { entity_bytes : bytes }.

Definition COLON : byte := x3a.

Section inmem.
Context `{Build, Wakers, Allocator, Http, !HttpDate} {D : Type} `{!Buf D, !GzEncoders BoxError, !AsRequest R, !UriRequest R}.

(** [Bytes::slice], of a range within [len]. *)
#[export] Instance bytes_entity : Entity BytesEntity D BoxError := {|
  entity_len e := len (entity_bytes e);
  get_range e r := stream_of_list [Ready (Some (Ok (from_static_slice (slice (entity_bytes e) (start r) (end_ r)))))];
  add_headers _ m := hm_insert m CONTENT_TYPE (from_static (bs "text/plain"));
  entity_etag _ := Ret None;
  last_modified _ := None
|}.
#[export] Instance bytes_content : Content BytesEntity := entity_bytes.

(** What the handler leaves: a response, with the pipe it wrote to or the task
    that will write. *)
Inductive bench_reply :=
  | Served (resp : Response (Body BytesEntity D BoxError))
  | Written (resp : Response (Body BytesEntity D BoxError)) (l : Shared BoxError)
  | Spawned (resp : Response (Body BytesEntity D BoxError)) (w : option (BodyWriter BoxError)) (l : Shared BoxError).

(** The chunk size and the level in the path. *)
Definition bench_params (path : bytes) : outcome (Z * Z) :=
  colon ← unwrap (find COLON path);
  if Z.of_nat colon <? 2 then Panic IndexOutOfBounds
  else
    s ← unwrap (from_str usize_max (slice path 2 (Z.of_nat colon)));
    l ← unwrap (from_str U32_MAX (drop (colon + 1) path));
    Ret (s, l).

Definition bench_stream (req : R)
    : outcome (Response (Body BytesEntity D BoxError) * option (BodyWriter BoxError) * Shared BoxError) :=
  '(s, l) ← bench_params (uri_path req);
  sb ← streaming_body req;
  build (builder_with_gzip_level (builder_with_chunk_size sb s) l).

Context (WONDERLAND : bytes).

Definition bench_serve (now : SystemTime) (req : R) : outcome bench_reply :=
  match uri_path req !! 1%nat with
  | None => Panic IndexOutOfBounds
  | Some c =>
      if decide (c = x73 ∨ c = x63) then
        resp ← serve now (mk_BytesEntity WONDERLAND) (req_method req) (req_headers req);
        Ret (Served resp)
      else if decide (c = x62) then
        '(resp, w, l) ← bench_stream req;
        match w with
        | Some w =>
            '(r, (w, l)) ← body_write_all WONDERLAND (w, l);
            _ ← unwrap_ok r;
            '(l, _) ← inner_drop w l;
            Ret (Written resp l)
        | None => Ret (Written resp l)
        end
      else if decide (c = x61) then
        '(resp, w, l) ← bench_stream req;
        Ret (Spawned resp w l)
      else Panic AssertFailed
  end.

(** The spawned task, with the client's polls before and after it writes. *)
Definition bench_task (before after : list Waker) (w : option (BodyWriter BoxError)) (l : Shared BoxError)
    : outcome (Shared BoxError * list (poll_item D BoxError)) :=
  match w with
  | Some w =>
      '((w, l), got) ← run_events ((Polled <$> before) ++ [Received (WriteAll WONDERLAND)] ++ (Polled <$> after))
                         ((w, l), []);
      '(l, _) ← inner_drop w l;
      Ret (l, got)
  | None => Ret (l, [])
  end.
End inmem.

(** ** benches/file.rs *)

(** The path is in a global; there are no header fields of the file's own. *)
Definition bench_serve_file `{Build, Wakers, Http, !HttpDate, Unix, !OpenFile} {D} `{!Buf D}
    (now : SystemTime) (PATH : bytes) (method : Method) (req_hdrs : HeaderMap)
    : outcome (result (Response (Body ChunkedReadFile D BoxError)) BoxError) :=
  match and_then (open_path PATH) (λ f, crf_new f hm_new) with
  | Err e => Ret (Err (BoxIo e))
  | Ok f => resp ← serve now f method req_hdrs; Ret (Ok resp)
  end.

Section inmem_properties.
Context `{Build, WakersLaws, !Allocator, !AllocatorLaws, HttpLaws, !HttpDate, !HttpDateLaws} {D : Type}
  `{!Buf D, !BufLaws D, !GzEncoders BoxError, !GzCodec BoxError, !GzEncodersLaws BoxError, !EqDecision Task,
    !AsRequest R, !UriRequest R}.

(** The entity keeps the contract, and its streams never fail. *)
#[export] Instance bytes_laws (e : BytesEntity) : len (entity_bytes e) <= U64_MAX → EntityLaws (D:=D) (E:=BoxError) e.
Proof.
  intros Hl. split.
  - exact Hl.
  - done.
  - intros r Hr Hle. exists (range_bytes e r), Done, (stream_tail (stream_tail (get_range e r))).
    split; [|done]. eapply yields_chunk_eq with (bs' := []); [done|by apply yields_done|].
    by rewrite app_nil_r, buf_bytes_static.
  - apply insert_header_laws. not_reserved.
Qed.

Context (WONDERLAND : bytes) (Hlen : len WONDERLAND <= usize_max).

Lemma wonderland_u64 : len WONDERLAND <= U64_MAX.
Proof. pose proof usize_max_bounds. lia. Qed.

(** The paths of the benchmarks. *)
Definition bench_path (kind : byte) (s l : Z) : bytes := x2f :: kind :: fmt_dec s ++ bs ":" ++ fmt_dec l.

Lemma bench_params_path kind s l :
  kind ≠ COLON → 0 <= s <= usize_max → 0 <= l <= U32_MAX → bench_params (bench_path kind s l) = Ret (s, l).
Proof.
  intros Hk Hs Hl. unfold bench_params, bench_path. set (p := x2f :: kind :: fmt_dec s).
  assert (x2f :: kind :: fmt_dec s ++ bs ":" ++ fmt_dec l = p ++ COLON :: fmt_dec l) as -> by done.
  rewrite find_app.
  - assert (length p = S (S (length (fmt_dec s)))) as Hp by done. cbn [unwrap]. rewrite bind_Ret_l.
    destruct (Z.ltb_spec (Z.of_nat (length p)) 2) as [|_]; [lia|].
    assert (slice (p ++ COLON :: fmt_dec l) 2 (Z.of_nat (length p)) = fmt_dec s) as ->
      by (unfold slice, p; cbn [drop app Z.to_nat Pos.to_nat Pos.iter_op Init.Nat.add]; apply take_app_length'; simpl; lia).
    rewrite <- drop_drop, drop_app_length. cbn [drop]. rewrite drop_0, !from_str_fmt_dec by (unfold U32_MAX in *; lia).
    by rewrite !(proj2 (Z.leb_le _ _)) by lia.
  - unfold p. rewrite !not_elem_of_cons. split; [done|]. split; [done|]. intros Hin.
    pose proof (fmt_dec_digits s ltac:(lia)) as Hd. rewrite forallb_forall in Hd.
    apply list_elem_of_In in Hin. by specialize (Hd _ Hin).
Qed.

(** What is served as an entity. *)
Theorem bench_entity_served (now : SystemTime) (req : R) (c : byte) :
  uri_path req !! 1%nat = Some c → c = x73 ∨ c = x63 → req_method req = GET →
  unconditional (req_headers req) → hm_get (req_headers req) RANGE = None →
  ∃ resp, bench_serve (D:=D) WONDERLAND now req = Ret (Served resp) ∧ as_u16 (resp_status resp) = 200 ∧
    ∀ cx, body_gives (mk_BytesEntity WONDERLAND) cx (resp_body resp) WONDERLAND.
Proof.
  intros Hp Hc Hm Hu Hr. set (e := mk_BytesEntity WONDERLAND). pose proof (bytes_laws e wonderland_u64) as Hlaws.
  destruct (serve_is now e None GET (req_headers req) AWhole) as (resp & Hs & Hst & _ & Hb);
    [done|done|by rewrite Hr| |].
  { rewrite decide_get. destruct (parse_unconditional (D:=D) (E:=BoxError) None e _ Hu) as [-> ->]. by rewrite Hr. }
  exists resp. unfold bench_serve. rewrite Hp, decide_True, Hm by done. fold e. rewrite Hs, bind_Ret_l.
  split; [done|]. split; [done|]. intros cx. specialize (Hb cx). by rewrite bool_decide_false in Hb by apply GET_not_HEAD.
Qed.

(** The response and the writer of the streaming benchmarks. *)
Lemma bench_stream_ok (req : R) kind s l prefers :
  kind ≠ COLON → 0 < s <= usize_max / 2 → 0 <= l <= U32_MAX → uri_path req = bench_path kind s l →
  should_gzip (req_headers req) = Ret prefers → req_method req ≠ HEAD →
  ∃ resp w l0, bench_stream (D:=D) req = Ret (resp, Some w, l0) ∧
    build (mk_StreamingBodyBuilder s l prefers true) = Ret (resp, Some w, l0) ∧
    (prefers && (0 <? l) = false → is_raw (w, l0)).
Proof.
  intros Hk Hs Hl Hp Hg Hm. destruct (build_live (Ent:=BytesEntity) (D:=D) s l prefers (proj1 Hs)) as (resp & w & l0 & Hb & Hraw).
  exists resp, w, l0. split; [|by split]. unfold bench_stream.
  assert (0 <= s <= usize_max) as Hs' by (pose proof usize_max_bounds; pose proof (Z.mul_div_le usize_max 2); lia).
  rewrite Hp, bench_params_path, bind_Ret_l by done. by rewrite (streaming_body_live req prefers) by done.
Qed.

(** What is written before the response is returned reaches the client, and
    with level 0, or to a client that does not prefer gzip, always is. *)
Theorem bench_before_served (now : SystemTime) (req : R) (s l : Z) (prefers : bool) :
  0 < s <= usize_max / 2 → 0 <= l <= U32_MAX → uri_path req = bench_path x62 s l →
  should_gzip (req_headers req) = Ret prefers → req_method req ≠ HEAD →
  (prefers && (0 <? l) = false → ∃ resp l', bench_serve (D:=D) WONDERLAND now req = Ret (Written resp l')) ∧
  ∀ resp l' cx, bench_serve (D:=D) WONDERLAND now req = Ret (Written resp l') →
    as_u16 (resp_status resp) = 200 ∧ ∃ text b' fuel,
      drain (D:=D) (Pollable0:=body_pollable cx) fuel (mk_Body (Chunker l') : Body BytesEntity D BoxError) =
        Ret (Some (text, Done, b')) ∧ carries (says_gzip resp) text WONDERLAND.
Proof.
  intros Hs Hl Hp Hg Hm.
  destruct (bench_stream_ok req x62 s l prefers ltac:(done) Hs Hl Hp Hg Hm) as (resp & w & l0 & Hst & Hb & Hraw).
  set (sb := mk_StreamingBodyBuilder s l prefers true) in *. assert (sb_chunk_size sb <= usize_max / 2) as Hcap by apply Hs.
  assert (bench_serve (D:=D) WONDERLAND now req =
    '(r, (w, l)) ← body_write_all WONDERLAND (w, l0); _ ← unwrap_ok r; '(l, _) ← inner_drop w l; Ret (Written resp l)) as ->.
  { unfold bench_serve. rewrite Hp at 1. cbn [bench_path lookup list_lookup]. rewrite decide_False, decide_True by (clear; naive_solver).
    by rewrite Hst, bind_Ret_l. }
  destruct (emits_write_all (D:=D) sb resp w l0 Hcap Hb _ WONDERLAND (Nat.le_add_r _ 2) [] [] (w, l0) (rtc_refl _ _) Hlen)
    as [Htot Hpart]. fold (body_write_all (E:=BoxError) WONDERLAND) in *. split.
  - intros Hno. destruct (Htot (Hraw Hno)) as ([w1 l1] & Hw & [w1' Hw1]). simpl in Hw1. subst w1.
    destruct (raw_drop sb resp w l0 Hcap Hb _ _ _ _ (Hpart _ Hw)) as (l2 & wks & Hd).
    exists resp, l2. by rewrite Hw, !bind_Ret_l, Hd.
  - intros resp' l' cx Hr. apply bind_Ret_inv in Hr as ([r [w1 l1]] & Hw & Hr).
    apply bind_Ret_inv in Hr as ([] & Hok & Hr). destruct r as [[]|]; [|done].
    apply bind_Ret_inv in Hr as ([l2 wks] & Hd & [= <- <-]).
    split; [by apply (build_says sb resp (Some w) l0)|].
    exact (wrote_finish sb resp w l0 Hcap Hb _ _ _ _ _ _ cx (Hpart _ Hw) Hd).
Qed.

(** What the spawned task writes does too, however often the client polls
    meanwhile. *)
Theorem bench_after_served (now : SystemTime) (req : R) (s l : Z) (prefers : bool) (before after : list Waker) :
  0 < s <= usize_max / 2 → 0 <= l <= U32_MAX → uri_path req = bench_path x61 s l →
  should_gzip (req_headers req) = Ret prefers → req_method req ≠ HEAD →
  ∃ resp w l0, bench_serve (D:=D) WONDERLAND now req = Ret (Spawned resp w l0) ∧ as_u16 (resp_status resp) = 200 ∧
  (prefers && (0 <? l) = false → ∃ l' got, bench_task (D:=D) WONDERLAND before after w l0 = Ret (l', got)) ∧
  ∀ l' got cx, bench_task (D:=D) WONDERLAND before after w l0 = Ret (l', got) → ∃ rest b' fuel,
    drain (D:=D) (Pollable0:=body_pollable cx) fuel (mk_Body (Chunker l') : Body BytesEntity D BoxError) =
      Ret (Some (rest, Done, b')) ∧ carries (says_gzip resp) (got_bytes got ++ rest) WONDERLAND.
Proof.
  intros Hs Hl Hp Hg Hm.
  destruct (bench_stream_ok req x61 s l prefers ltac:(done) Hs Hl Hp Hg Hm) as (resp & w & l0 & Hst & Hb & Hraw).
  set (sb := mk_StreamingBodyBuilder s l prefers true) in *. assert (sb_chunk_size sb <= usize_max / 2) as Hcap by apply Hs.
  exists resp, (Some w), l0. split.
  { unfold bench_serve. rewrite Hp at 1. cbn [bench_path lookup list_lookup].
    rewrite !decide_False, decide_True by (clear; naive_solver). by rewrite Hst, bind_Ret_l. }
  split; [by apply (build_says sb resp (Some w) l0)|]. unfold bench_task.
  set (evs := (Polled <$> before) ++ [Received (WriteAll WONDERLAND)] ++ (Polled <$> after) : list (event BoxError)).
  assert (∀ cxs, payload (E:=BoxError) (Polled <$> cxs) = []) as Hpolls
    by (intros cxs; unfold payload; induction cxs; [done|by csimpl]).
  assert (payload evs = WONDERLAND) as Hpay.
  { unfold evs, payload in *. rewrite !fmap_app, !concat_app, !Hpolls. simpl. by rewrite !app_nil_r. }
  assert (Forall writes_only evs) as Hevs
    by (unfold evs; rewrite !Forall_app, !Forall_fmap; split_and!; [by apply Forall_true|by repeat constructor|by apply Forall_true]).
  rewrite <- Hpay in Hlen.
  destruct (run_events_wrote sb resp w l0 Hcap Hb evs [] (w, l0) [] Hevs (rtc_refl _ _) (Forall_nil_2 _) Hlen) as [Htot Hpart].
  rewrite Hpay in Hpart. split.
  - intros Hno. destruct (Htot (Hraw Hno)) as ([w1 l1] & got & Hr & [w1' Hw1]). simpl in Hw1. subst w1.
    destruct (Hpart _ _ Hr) as [Hw _]. destruct (raw_drop sb resp w l0 Hcap Hb _ _ _ _ Hw) as (l2 & wks & Hd).
    exists l2, got. by rewrite Hr, bind_Ret_l, Hd.
  - intros l' got cx Hr. apply bind_Ret_inv in Hr as ([[w1 l1] got1] & Hr & Hd).
    apply bind_Ret_inv in Hd as ([l2 wks] & Hd & [= <- <-]). destruct (Hpart _ _ Hr) as [Hw _].
    exact (wrote_finish sb resp w l0 Hcap Hb _ _ _ _ _ _ cx Hw Hd).
Qed.
End inmem_properties.

Section file_properties.
Context `{Build, Wakers, HttpLaws, !HttpDate, !HttpDateLaws, UnixLaws, !StableFiles, !StableFilesLaws, !OpenFile}
  {D : Type} `{!Buf D, !BufLaws D}.
Context (Hmem : CHUNK_SIZE <= usize_max).

Lemma no_headers_free : headers_free hm_new.
Proof. intros k _. apply hm_get_all_new. Qed.

Lemma bench_file_is (now : SystemTime) PATH f md info method hdrs :
  open_path PATH = Ok f → file_metadata f = Ok md → stat_agrees f md info →
  bench_serve_file (D:=D) now PATH method hdrs =
    resp ← serve (D:=D) (E:=BoxError) now (file_of f info hm_new) method hdrs; Ret (Ok resp).
Proof.
  intros Ho Hm Hs. unfold bench_serve_file, crf_new. rewrite Ho. simpl. rewrite Hm. simpl.
  by rewrite (new_file_of f md info hm_new Hs).
Qed.

(** What the benchmarks of files assert: the whole of the file, and its last
    byte. *)
Theorem bench_file_served (now : SystemTime) PATH f md info hdrs :
  http_date_range now → open_path PATH = Ok f → file_metadata f = Ok md → stat_agrees f md info →
  unconditional hdrs →
  (hm_get hdrs RANGE = None →
   ∃ resp, bench_serve_file (D:=D) now PATH GET hdrs = Ret (Ok resp) ∧ as_u16 (resp_status resp) = 200 ∧
     ∀ cx, body_gives (file_of f info hm_new) cx (resp_body resp) (file_content f)) ∧
  (∀ v, hm_get hdrs RANGE = Some v → to_str v = Some (bs "bytes=-1") → 1 < len (file_content f) →
   ∃ resp byte, bench_serve_file (D:=D) now PATH GET hdrs = Ret (Ok resp) ∧ as_u16 (resp_status resp) = 206 ∧
     last (file_content f) = Some byte ∧ ∀ cx, body_gives (file_of f info hm_new) cx (resp_body resp) [byte]).
Proof.
  intros Hnow Ho Hm Hs Hu. set (e := file_of f info hm_new).
  pose proof (file_laws (D:=D) (E:=BoxError) Hmem e (file_of_ok f md info hm_new Hs no_headers_free)) as Hlaws.
  split.
  - intros Hr. destruct (file_whole (D:=D) (E:=BoxError) f md info hm_new hdrs Hs Hu Hr) as (v & He & Ha).
    destruct (file_served now f md info hm_new _ GET hdrs _ Hmem Hnow Hs no_headers_free He
                ltac:(intros v'; by rewrite Hr) Ha) as (resp & Hsv & Hst & _ & Hb).
    exists resp. rewrite (bench_file_is now PATH f md info) by done. rewrite Hsv. split; [done|]. split; [done|].
    intros cx. specialize (Hb cx). by rewrite bool_decide_false in Hb by apply GET_not_HEAD.
  - intros v Hr Hv Hl. destruct (crf_etag_print e (file_of_stat f md info hm_new Hs)) as (t & He & _).
    pose proof (decide_range_set (D:=D) (E:=BoxError) (Some t) e hdrs v [([], BytesSuffix 1)] Hu Hr Hv
                  ltac:(done) ltac:(by repeat constructor)) as Ha.
    destruct Hs as (Hfile & Hi & Hfl & Hmax & Hrest). pose proof (conj Hfile (conj Hi (conj Hfl (conj Hmax Hrest)))) as Hs.
    assert (resolve_all (entity_len e) [BytesSuffix 1] = Satisfiable [mk_range (len (file_content f) - 1) (len (file_content f))]) as Hres.
    { unfold resolve_all. simpl. rewrite Hfl. by rewrite (proj2 (Z.ltb_lt _ _)) by done. }
    cbn [fmap list_fmap snd] in Ha. rewrite Hres in Ha. cbn [range_answer] in Ha.
    assert (∀ v', hm_get hdrs RANGE = Some v' → 2 * len (as_bytes v') + 1 <= usize_max) as Hsmall.
    { intros v' Hv'. rewrite Hr in Hv'. injection Hv' as <-. apply to_str_Some in Hv as [-> _].
      pose proof usize_max_bounds. unfold U16_MAX in *. change (len (bs "bytes=-1")) with 8. lia. }
    destruct (file_served now f md info hm_new _ GET hdrs _ Hmem Hnow Hs no_headers_free He Hsmall Ha)
      as (resp & Hsv & Hst & _ & Hb).
    destruct (last (file_content f)) as [byte|] eqn:Hlast; [|by apply last_None in Hlast; rewrite Hlast in Hl].
    exists resp, byte. rewrite (bench_file_is now PATH f md info) by done. rewrite Hsv. split; [done|]. split; [done|].
    split; [done|]. intros cx. specialize (Hb cx). rewrite bool_decide_false in Hb by apply GET_not_HEAD. cbn in Hb.
    apply last_Some in Hlast as [l Hl']. unfold range_bytes, slice in Hb. cbn in Hb. rewrite Hl' in Hb.
    replace (Z.to_nat (len (l ++ [byte]) - 1)) with (length l) in Hb by (rewrite len_app; unfold len; simpl; lia).
    change (content (file_of f info hm_new)) with (file_content f) in Hb. rewrite Hl', drop_app_length in Hb.
    by replace (Z.to_nat _) with 1%nat in Hb by lia.
Qed.
End file_properties.
