(* ===== verification/UnitTests.v ===== *)
(** * The unit tests of the crate ([mod tests] of each file under src/)

    Every test is a program of [outcome unit]: a failed assertion, an [unwrap]
    of the wrong variant and a wait that never ends are panics.  A test takes
    from its surroundings what it cannot fix itself: the crates it calls, the
    capacity the allocator gives, and what the operating system does with the
    temporary directory.  [cargo test] builds with the debug profile. *)

From S2P Require Import Prelude RustStd HttpApi Plain ContentCoding Range Etag Stream Entity.
From S2P Require Import Chunker Platform File Dir FileServing.

#[local] Existing Instance debug_build.
#[local] Existing Instance box_error_self.

(** ** Assertions *)

#[local] Instance result_eq_decision {A E} `{EqDecision A, EqDecision E} : EqDecision (result A E).
Proof. solve_decision. Defined.

(** [assert_eq!(m, a)] and [assert!(m)]. *)
Definition assert_eq {A} `{EqDecision A} (m : outcome A) (a : A) : outcome unit :=
  x ← m; assert_ (bool_decide (x = a)).
Definition assert_true (m : outcome bool) : outcome unit := assert_eq m true.
Definition assert_false (m : outcome bool) : outcome unit := assert_eq m false.

Fixpoint all_of (l : list (outcome unit)) : outcome unit :=
  match l with
  | [] => Ret tt
  | m :: l => _ ← m; all_of l
  end.

Definition passes (t : outcome unit) : Prop := t = Ret tt.

(** Running a test by steps. *)
Lemma step {A} (m : outcome A) (a : A) (f : A → outcome unit) :
  m = Ret a → passes (f a) → passes (m ≫= f).
Proof. by intros ->. Qed.

Lemma step_assert c (f : unit → outcome unit) : c = true → passes (f tt) → passes (assert_ c ≫= f).
Proof. by intros ->. Qed.

Ltac step H := eapply step; [exact H|]; cbn beta.
Ltac step_assert := apply step_assert; [try by vm_compute|]; cbn beta.

(** ** range.rs, etag.rs and lib.rs *)

Section headers.
Context `{Http}.

Definition parses_to (text : bytes) (len : Z) (r : ResolvedRanges) : outcome unit :=
  assert_eq (parse (Some (from_static text)) len) r.

Definition test_resolve_ranges_rfc : outcome unit := all_of [
  parses_to (bs "bytes=0-499") 10000 (Satisfiable [mk_range 0 500]);
  parses_to (bs "bytes=500-999") 10000 (Satisfiable [mk_range 500 1000]);
  parses_to (bs "bytes=-500") 10000 (Satisfiable [mk_range 9500 10000]);
  parses_to (bs "bytes=9500-") 10000 (Satisfiable [mk_range 9500 10000]);
  parses_to (bs "bytes=0-0,-1") 10000 (Satisfiable [mk_range 0 1; mk_range 9999 10000]);
  parses_to (bs "bytes=500-600, 601-999") 10000 (Satisfiable [mk_range 500 601; mk_range 601 1000]);
  parses_to (bs "bytes=500-700, 601-999") 10000 (Satisfiable [mk_range 500 701; mk_range 601 1000])].

Definition test_resolve_ranges_satisfiability : outcome unit := all_of [
  parses_to (bs "bytes=10000-") 10000 NotSatisfiable;
  parses_to (bs "bytes=0-499,10000-") 10000 (Satisfiable [mk_range 0 500]);
  parses_to (bs "bytes=-1") 0 NotSatisfiable;
  parses_to (bs "bytes=0-0") 0 NotSatisfiable;
  parses_to (bs "bytes=0-") 0 NotSatisfiable;
  parses_to (bs "bytes=0-0") 1 (Satisfiable [mk_range 0 1]);
  parses_to (bs "bytes=0-10000") 500 (Satisfiable [mk_range 0 500])].

Definition test_resolve_ranges_absent_or_invalid : outcome unit :=
  assert_eq (parse None 10000) RNone.

Definition test_nonascii : outcome unit :=
  v ← unwrap (value_from_bytes [xff]); assert_eq (parse (Some v) 10000) RNone.

Definition test_weak_eq : outcome unit := all_of [
  assert_true (Ret (weak_eq (quoted (bs "foo")) (quoted (bs "foo"))));
  assert_false (Ret (weak_eq (quoted (bs "foo")) (quoted (bs "bar"))));
  assert_true (Ret (weak_eq (bs "W/" ++ quoted (bs "foo")) (quoted (bs "foo"))));
  assert_true (Ret (weak_eq (quoted (bs "foo")) (bs "W/" ++ quoted (bs "foo"))));
  assert_true (Ret (weak_eq (bs "W/" ++ quoted (bs "foo")) (bs "W/" ++ quoted (bs "foo"))));
  assert_false (Ret (weak_eq (bs "W/" ++ quoted (bs "foo")) (bs "W/" ++ quoted (bs "bar"))))].

Definition test_strong_eq : outcome unit := all_of [
  assert_true (Ret (strong_eq (quoted (bs "foo")) (quoted (bs "foo"))));
  assert_false (Ret (strong_eq (quoted (bs "foo")) (quoted (bs "bar"))));
  assert_false (Ret (strong_eq (bs "W/" ++ quoted (bs "foo")) (quoted (bs "foo"))));
  assert_false (Ret (strong_eq (quoted (bs "foo")) (bs "W/" ++ quoted (bs "foo"))));
  assert_false (Ret (strong_eq (bs "W/" ++ quoted (bs "foo")) (bs "W/" ++ quoted (bs "foo"))));
  assert_false (Ret (strong_eq (bs "W/" ++ quoted (bs "foo")) (bs "W/" ++ quoted (bs "bar"))))].

(** [assert_eq!(l.next(), _)] for each of the answers, then what [corrupt] is. *)
Fixpoint next_are (l : Etag.List) (answers : list (option bytes)) (corrupt : bool) : outcome unit :=
  match answers with
  | [] => assert_ (bool_decide (l_corrupt l = corrupt))
  | a :: answers =>
      let '(item, l) := next l in
      _ ← assert_ (bool_decide (item = a)); next_are l answers corrupt
  end.

Definition test_empty_list : outcome unit := next_are (List_from []) [None] false.

Definition test_nonempty_list : outcome unit :=
  next_are (List_from (quoted (bs "foo") ++ bs ", " ++ [x09] ++ bs "W/" ++ quoted (bs "bar") ++
                       bs ",W/" ++ quoted (bs "baz")))
    [Some (quoted (bs "foo")); Some (bs "W/" ++ quoted (bs "bar")); Some (bs "W/" ++ quoted (bs "baz")); None]
    false.

Definition test_comma_in_etag : outcome unit :=
  next_are (List_from (quoted (bs "foo, bar") ++ bs ", " ++ quoted (bs "baz")))
    [Some (quoted (bs "foo, bar")); Some (quoted (bs "baz")); None] false.

Definition test_corrupt_list : outcome unit :=
  next_are (List_from (quoted (bs "foo") ++ bs ", bar")) [Some (quoted (bs "foo")); None] true.

Definition ae_hdrs (value : bytes) : HeaderMap := hm_insert hm_new ACCEPT_ENCODING (from_static value).

Definition test_parse_qvalue : outcome unit := all_of [
  assert_eq (parse_qvalue (bs "0")) (Ok 0);
  assert_eq (parse_qvalue (bs "0.")) (Ok 0);
  assert_eq (parse_qvalue (bs "0.0")) (Ok 0);
  assert_eq (parse_qvalue (bs "0.00")) (Ok 0);
  assert_eq (parse_qvalue (bs "0.000")) (Ok 0);
  assert_eq (parse_qvalue (bs "0.0000")) (Err tt);
  assert_eq (parse_qvalue (bs "0.2")) (Ok 200);
  assert_eq (parse_qvalue (bs "0.23")) (Ok 230);
  assert_eq (parse_qvalue (bs "0.234")) (Ok 234);
  assert_eq (parse_qvalue (bs "1")) (Ok 1000);
  assert_eq (parse_qvalue (bs "1.")) (Ok 1000);
  assert_eq (parse_qvalue (bs "1.0")) (Ok 1000);
  assert_eq (parse_qvalue (bs "1.1")) (Err tt);
  assert_eq (parse_qvalue (bs "1.00")) (Ok 1000);
  assert_eq (parse_qvalue (bs "1.000")) (Ok 1000);
  assert_eq (parse_qvalue (bs "1.001")) (Err tt);
  assert_eq (parse_qvalue (bs "1.0000")) (Err tt);
  assert_eq (parse_qvalue (bs "2")) (Err tt)].

Definition test_should_gzip : outcome unit := all_of [
  assert_false (should_gzip hm_new);
  assert_true (should_gzip (ae_hdrs (bs "gzip")));
  assert_true (should_gzip (ae_hdrs (bs "gzip;q=0.001")));
  assert_false (should_gzip (ae_hdrs (bs "gzip;q=0")));
  assert_false (should_gzip (ae_hdrs []));
  assert_true (should_gzip (ae_hdrs (bs "*")));
  assert_false (should_gzip (ae_hdrs (bs "gzip;q=0, *")));
  assert_true (should_gzip (ae_hdrs (bs "identity=q=0, *")));
  assert_true (should_gzip (ae_hdrs (bs "identity;q=0.5, gzip;q=1.0")));
  assert_false (should_gzip (ae_hdrs (bs "identity;q=1.0, gzip;q=0.5")));
  assert_false (should_gzip (ae_hdrs (bs "*;q=0")))].

Definition header_tests : list (outcome unit) :=
  [test_resolve_ranges_rfc; test_resolve_ranges_satisfiability; test_resolve_ranges_absent_or_invalid;
   test_nonascii; test_weak_eq; test_strong_eq; test_empty_list; test_nonempty_list; test_comma_in_etag;
   test_corrupt_list; test_parse_qvalue; test_should_gzip].

Context `{!HttpLaws}.

Lemma static_text s : forallb visible_ascii s = true → to_str (from_static s) = Some s.
Proof. intros Hs. apply to_str_Some. split; [by apply as_bytes_static|done]. Qed.

(** What [parse] and [should_gzip] see of a header map. *)
Lemma parse_static s len :
  forallb visible_ascii s = true →
  parse (Some (from_static s)) len = parse (H0:=plain_http) (Some (s : @HeaderValue plain_http)) len.
Proof. intros Hs. unfold parse. rewrite static_text by done. simpl. by rewrite Hs. Qed.

Lemma should_gzip_static s :
  forallb visible_ascii s = true →
  should_gzip (ae_hdrs s) = should_gzip (H0:=plain_http) ([(bs "accept-encoding", s)] : @HeaderMap plain_http).
Proof.
  intros Hs. unfold should_gzip, ae_hdrs. rewrite get_insert, decide_True by done.
  rewrite static_text by done. simpl. by rewrite Hs.
Qed.

Lemma header_tests_pass : Forall passes header_tests.
Proof.
  unfold header_tests. repeat apply Forall_cons_2; [..|apply Forall_nil_2].
  - unfold test_resolve_ranges_rfc, parses_to. rewrite !parse_static by done. by vm_compute.
  - unfold test_resolve_ranges_satisfiability, parses_to. rewrite !parse_static by done. by vm_compute.
  - by vm_compute.
  - unfold test_nonascii. destruct (value_from_bytes_ok [xff]) as (v & -> & Hv); [done|].
    simpl unwrap. rewrite bind_Ret_l. unfold parse. by rewrite to_str_spec, Hv.
  - by vm_compute.
  - by vm_compute.
  - by vm_compute.
  - by vm_compute.
  - by vm_compute.
  - by vm_compute.
  - by vm_compute.
  - unfold test_should_gzip. rewrite !should_gzip_static by done.
    unfold should_gzip at 1. rewrite get_new. by vm_compute.
Qed.
End headers.

(** [Poll::is_pending] and [matches!(item, Poll::Ready(Some(Ok(chunk))) if chunk == data)]. *)
Definition is_pending {D E} (item : poll_item D E) : bool :=
  match item with Pending => true | Ready _ => false end.
Definition is_chunk {E} (data : bytes) (item : poll_item bytes E) : bool :=
  match item with Ready (Some (Ok chunk)) => bool_decide (chunk = data) | _ => false end.

(** ** chunker.rs *)

Section pipe_tests.
Context `{Wakers, Allocator} (noop_waker : Waker).
#[local] Existing Instance plain_buf.

(** [(w, body)]; the calls wake [noop_waker] at most. *)
Definition handle : Type := Writer * Shared BoxError.

Definition channel : outcome handle := with_chunk_size 4.

(** [assert_eq!(w.write(data).unwrap(), n)]. *)
Definition writes (data : bytes) (n : Z) (h : handle) : outcome handle :=
  '(r, w, l, _) ← writer_write data h.1 h.2;
  v ← unwrap_ok r;
  _ ← assert_ (v =? n);
  Ret (w, l).

Definition flush_unwrap (h : handle) : outcome handle :=
  '(r, w, l, _) ← writer_flush h.1 h.2;
  _ ← unwrap_ok r;
  Ret (w, l).

(** [Writer::truncate], which exists for these tests. *)
Definition truncate (w : Writer) : Writer := mk_Writer [] (buf_cap w) (cap w).

(** [drop(w)]: what is left is the body. *)
Definition drop_writer (h : handle) : outcome (Shared BoxError) :=
  '(l, _) ← writer_drop h.1 h.2; Ret l.

(** [try_concat().await.unwrap()]; to be pending for ever is not to pass. *)
Definition to_vec (body : Shared BoxError) : outcome bytes :=
  o ← drain (D:=bytes) (Pollable0:=reader_pollable noop_waker) 9 body;
  match o with
  | Some (v, Done, _) => Ret v
  | Some (_, Failed _, _) => Panic UnwrapFailed
  | None => Panic OutOfFuel
  end.

(** [body.collect().await]. *)
Fixpoint collect (fuel : nat) (body : Shared BoxError) : outcome (list (result bytes BoxError)) :=
  match fuel with
  | O => Panic OutOfFuel
  | S fuel =>
      '(item, body) ← reader_poll_next (D:=bytes) noop_waker body;
      match item with
      | Pending => collect fuel body
      | Ready None => Ret []
      | Ready (Some r) => rs ← collect fuel body; Ret (r :: rs)
      end
  end.

Definition just_drop : outcome unit :=
  h ← channel;
  _ ← assert_ (negb (is_end_stream h.2));
  body ← drop_writer h;
  _ ← assert_ (is_end_stream body);
  assert_eq (to_vec body) [].

Definition extra_poll : outcome unit :=
  '(w, body) ← channel;
  _ ← assert_ (negb (is_end_stream body));
  '(next, body) ← reader_poll_next (D:=bytes) noop_waker body;
  _ ← assert_ (is_pending next);
  '(next, body) ← reader_poll_next (D:=bytes) noop_waker body;
  _ ← assert_ (is_pending next);
  h ← writes (bs "1") 1 (w, body);
  body ← drop_writer h;
  '(next, _) ← reader_poll_next (D:=bytes) noop_waker body;
  assert_ (is_chunk (bs "1") next).

Definition small_no_flush : outcome unit :=
  h ← channel;
  '(w, l) ← writes (bs "1") 1 h;
  body ← drop_writer (truncate w, l);
  assert_eq (to_vec body) [].

Definition small_flush : outcome unit :=
  h ← channel;
  h ← writes (bs "1") 1 h;
  '(w, l) ← flush_unwrap h;
  body ← drop_writer (truncate w, l);
  assert_eq (to_vec body) (bs "1").

Definition small_drop : outcome unit :=
  h ← channel;
  h ← writes (bs "1") 1 h;
  body ← drop_writer h;
  assert_eq (to_vec body) (bs "1").

Definition chunk_write : outcome unit :=
  h ← channel;
  '(w, l) ← writes (bs "1234") 4 h;
  body ← drop_writer (truncate w, l);
  assert_eq (to_vec body) (bs "1234").

Definition chunk_double_write : outcome unit :=
  h ← channel;
  h ← writes (bs "1234") 4 h;
  h ← writes (bs "5678") 4 h;
  body ← drop_writer h;
  assert_eq (to_vec body) (bs "12345678").

Definition large_write : outcome unit :=
  h ← channel;
  h ← writes (bs "123456") 4 h;
  body ← drop_writer h;
  assert_eq (to_vec body) (bs "1234").

Definition small_large_write : outcome unit :=
  h ← channel;
  h ← writes (bs "1") 1 h;
  h ← writes (bs "2345") 3 h;
  body ← drop_writer h;
  assert_eq (to_vec body) (bs "1234").

Definition abort : outcome unit :=
  h ← channel;
  '(r, (w, l)) ← write_all (λ data h, '(r, w, l, _) ← writer_write data h.1 h.2; Ret (r, (w, l)))
                   9 (bs "12345") h;
  _ ← unwrap_ok r;
  let w := truncate w in
  let l := (writer_abort (BoxIo (IoError Other (bs "asdf"))) l).1 in
  body ← drop_writer (w, l);
  items ← collect 9 body;
  _ ← assert_ (bool_decide (length items = 1%nat));
  i ← unwrap (head items);
  _ ← unwrap_err i; Ret tt.

Definition pipe_tests : list (outcome unit) :=
  [just_drop; extra_poll; small_no_flush; small_flush; small_drop; chunk_write; chunk_double_write;
   large_write; small_large_write; abort].

End pipe_tests.

(** They rely on an allocation being exactly as large as asked for. *)
#[local] Instance exact_allocator : Allocator := λ n, n.

Lemma pipe_tests_pass `{Wakers} (noop_waker : Waker) : Forall passes (pipe_tests noop_waker).
Proof. unfold pipe_tests. repeat (apply Forall_cons_2; [by vm_compute|]). apply Forall_nil_2. Qed.

(** ** body.rs *)

Section exact_len_tests.
Context `{Buf D}.

Abbreviation exact_len := (ExactLenStream D BoxError).

(** [stream::iter(items)]. *)
Definition stream_iter (items : list bytes) : Stream D BoxError :=
  stream_of_list ((λ i, Ready (Some (Ok (from_static_slice i)))) <$> items).

(** [s.next().await]: the streams of these tests are always ready. *)
Definition next_item (s : exact_len) : outcome (option (result D BoxError) * exact_len) :=
  '(item, s) ← poll_next s;
  match item with Ready o => Ret (o, s) | Pending => Panic OutOfFuel end.

(** A chunk of [n] bytes, after which [left] are expected. *)
Definition next_frame (n left : Z) (s : exact_len) : outcome exact_len :=
  '(o, s) ← next_item s;
  r ← unwrap o;
  frame ← unwrap_ok r;
  _ ← assert_ (remaining frame =? n);
  _ ← assert_ (els_remaining s =? left);
  Ret s.

Definition next_error (e : BoxError) (s : exact_len) : outcome exact_len :=
  '(o, s) ← next_item s;
  r ← unwrap o;
  err ← unwrap_err r;
  _ ← assert_ (bool_decide (err = e));
  Ret s.

Definition next_none (s : exact_len) : outcome exact_len :=
  '(o, s) ← next_item s;
  match o with None => Ret s | Some _ => Panic AssertFailed end.

Definition expecting (n : Z) (items : list bytes) : outcome exact_len :=
  let s := ExactLenStream_new n (stream_iter items) in
  _ ← assert_ (els_remaining s =? n);
  Ret s.

Definition correct_exact_len_stream : outcome unit :=
  s ← expecting 5 [bs "h"; bs "ello"];
  s ← next_frame 1 4 s;
  s ← next_frame 4 0 s;
  s ← next_none s;
  _ ← next_none s; Ret tt.

Definition short_exact_len_stream : outcome unit :=
  s ← expecting 10 [bs "hello"];
  s ← next_frame 5 5 s;
  s ← next_error (StreamTooShortError 5) s;
  _ ← next_none s; Ret tt.

Definition long_exact_len_stream : outcome unit :=
  s ← expecting 3 [bs "h"; bs "ello"];
  s ← next_frame 1 2 s;
  s ← next_error (StreamTooLongError 2) s;
  _ ← next_none s; Ret tt.

Definition exact_len_tests : list (outcome unit) :=
  [correct_exact_len_stream; short_exact_len_stream; long_exact_len_stream].
End exact_len_tests.

Lemma exact_len_tests_pass `{BufLaws D} : Forall passes (exact_len_tests (D:=D)).
Proof.
  assert (∀ i, remaining (from_static_slice i : D) = len i) as Hr
    by (intros i; unfold remaining; by rewrite buf_bytes_static).
  unfold exact_len_tests, passes.
  repeat (apply Forall_cons_2; [do 5 (cbv -[remaining from_static_slice]; rewrite ?Hr); reflexivity|]). apply Forall_nil_2.
Qed.

(** ** file.rs *)

Section file_tests.
Context `{Http, Unix} {D : Type} `{!Buf D}.

(** The [to_bytes] of these tests, with at most [fuel] polls. *)
Definition to_bytes (fuel : nat) (s : Stream D BoxError) : outcome (result bytes BoxError) :=
  o ← drain fuel s;
  match o with
  | Some (v, Done, _) => Ret (Ok v)
  | Some (_, Failed e, _) => Ret (Err e)
  | None => Panic OutOfFuel
  end.

(** [etag1 != etag2], as bytes. *)
Definition etag_ne (e1 e2 : option HeaderValue) : bool :=
  negb (bool_decide (as_bytes <$> e1 = as_bytes <$> e2)).

(** [f1] is the file opened after the first [write_all], [f2] after the
    second. *)
Definition basic (fuel : nat) (f1 f2 : UnixFile) : outcome unit :=
  crf ← unwrap_ok (crf_new f1 hm_new);
  _ ← assert_ (4 =? entity_len (D:=D) (E:=BoxError) crf);
  etag1 ← entity_etag (D:=D) (E:=BoxError) crf;
  r ← to_bytes fuel (get_range crf (mk_range 0 4));
  v ← unwrap_ok r;
  _ ← assert_ (bool_decide (v = bs "asdf"));
  r ← to_bytes fuel (get_range crf (mk_range 1 3));
  v ← unwrap_ok r;
  _ ← assert_ (bool_decide (v = bs "sd"));
  crf ← unwrap_ok (crf_new f2 hm_new);
  _ ← assert_ (8 =? entity_len (D:=D) (E:=BoxError) crf);
  etag2 ← entity_etag (D:=D) (E:=BoxError) crf;
  assert_ (etag_ne etag1 etag2).

(** [f] is the file opened before it is truncated. *)
Definition truncate_race (fuel : nat) (f : UnixFile) : outcome unit :=
  crf ← unwrap_ok (crf_new f hm_new);
  _ ← assert_ (4 =? entity_len (D:=D) (E:=BoxError) crf);
  r ← to_bytes fuel (get_range crf (mk_range 0 4));
  e ← unwrap_err r;
  match e with
  | BoxIo e => assert_ (bool_decide (kind e = UnexpectedEof))
  | _ => Panic UnwrapFailed
  end.

(** What the operating system says of a file that was just opened. *)
Definition opened (f : UnixFile) (info : FileInfo) (size : Z) : Prop :=
  (∃ m, file_metadata f = Ok m ∧ is_file m = true ∧ file_info m = Ok info) ∧
  fi_len info = size ∧ stat_ok (file_of f info hm_new).

Lemma opened_new f info size h : opened f info size → crf_new f h = Ok (file_of f info h).
Proof.
  intros [(m & Hm & Hf & Hi) _]. unfold crf_new, new_with_metadata. rewrite Hm. simpl. rewrite Hf. simpl.
  by rewrite Hi.
Qed.

Lemma to_bytes_yields s v (o : ended BoxError) s' :
  yields s v o s' →
  ∃ n, ∀ fuel, (n <= fuel)%nat →
    to_bytes fuel s = Ret (match o with Done => Ok v | Failed e => Err e end).
Proof.
  intros [n Hn]%yields_drain. exists n. intros fuel Hf. unfold to_bytes. rewrite Hn by done. by destruct o.
Qed.

Context `{!HttpLaws, !UnixLaws, !StableFiles, !StableFilesLaws, !BufLaws D}.

(** A range of a file that can be read. *)
Lemma to_bytes_range (e : ChunkedReadFile) r :
  0 <= start r <= end_ r → end_ r <= len (file_content (crf_f e)) → reads_ok e (end_ r) →
  ∃ n, ∀ fuel, (n <= fuel)%nat →
    to_bytes fuel (get_range e r) = Ret (Ok (slice (file_content (crf_f e)) (start r) (end_ r))).
Proof.
  intros Hr Hl Hreads. assert (CHUNK_SIZE <= usize_max) as Hmem by by vm_compute.
  destruct (file_yields (D:=D) (E:=BoxError) Hmem e _ 0 r eq_refl Hr Hl)
    as (v & o & s' & [n Hn]%to_bytes_yields & _ & Hdone & Hok).
  exists n. intros fuel Hf. rewrite (Hok Hreads) in Hdone, Hn. rewrite <- Hdone by done. by apply Hn.
Qed.

Lemma basic_passes f1 f2 info1 info2 :
  opened f1 info1 4 → opened f2 info2 8 →
  file_content f1 = bs "asdf" → reads_ok (file_of f1 info1 hm_new) 4 →
  ∃ n, ∀ fuel, (n <= fuel)%nat → passes (basic fuel f1 f2).
Proof.
  intros Ho1 Ho2 Hc Hreads. pose proof Ho1 as (_ & Hl1 & Hs1). pose proof Ho2 as (_ & Hl2 & Hs2).
  set (e1 := file_of f1 info1 hm_new) in *. set (e2 := file_of f2 info2 hm_new) in *.
  assert (file_content (crf_f e1) = bs "asdf") as Hc1 by done.
  destruct (to_bytes_range e1 (mk_range 0 4)) as [n1 Hn1]; [done|by rewrite Hc1|done|].
  destruct (to_bytes_range e1 (mk_range 1 3)) as [n2 Hn2];
    [done|by rewrite Hc1|by apply (reads_ok_le _ 4); vm_compute|].
  destruct (crf_etag_print e1 Hs1) as (v1 & He1 & Hv1). destruct (crf_etag_print e2 Hs2) as (v2 & He2 & Hv2).
  exists (n1 + n2)%nat. intros fuel Hf. unfold basic. rewrite (opened_new _ _ _ _ Ho1), (opened_new _ _ _ _ Ho2).
  apply (step _ e1); [done|]. apply step_assert; [simpl; by rewrite Hl1|]. step He1.
  step (Hn1 fuel ltac:(lia)). apply (step _ (bs "asdf")); [by rewrite Hc1|]. step_assert.
  step (Hn2 fuel ltac:(lia)). apply (step _ (bs "sd")); [by rewrite Hc1|]. step_assert.
  apply (step _ e2); [done|]. apply step_assert; [simpl; by rewrite Hl2|]. step He2.
  unfold etag_ne. simpl. rewrite bool_decide_false; [done|]. intros [= Heq].
  rewrite Hv1, Hv2 in Heq. apply print_tag_inj in Heq. injection Heq as Heq.
  apply etag_text_inj in Heq as (_ & Hlen & _); [|done..]. simpl in Hlen. lia.
Qed.

Lemma truncate_race_passes f info :
  opened f info 4 → file_content f = bs "asd" → ends_at (file_of f info hm_new) 3 →
  ∃ n, ∀ fuel, (n <= fuel)%nat → passes (truncate_race fuel f).
Proof.
  intros Ho Hc Hends. pose proof Ho as (_ & Hl & Hs). set (e := file_of f info hm_new) in *.
  assert (CHUNK_SIZE <= usize_max) as Hmem by by vm_compute.
  assert (len (file_content (crf_f e)) = 3) as Hsize by (simpl; by rewrite Hc).
  destruct (short_file_yields (D:=D) (E:=BoxError) Hmem e _ 0 (mk_range 0 4) eq_refl)
    as (s' & [n Hn]%to_bytes_yields); [by rewrite Hsize|by rewrite Hsize|by rewrite Hsize|].
  exists n. intros fuel Hf. unfold truncate_race. rewrite (opened_new _ _ _ _ Ho).
  apply (step _ e); [done|]. apply step_assert; [simpl; by rewrite Hl|].
  step (Hn fuel Hf). eapply step; [reflexivity|]. done.
Qed.
End file_tests.

(** ** dir.rs *)

Section dir_tests.
Context `{Http, UnixDirs} (tmp : bytes).

(** [fsdir.get(p, &HeaderMap::new()).await] of the temporary directory. *)
Definition get_in (p : bytes) : outcome (result Node io_error) :=
  fsdir ← unwrap_ok (for_path fsdir_builder tmp);
  '(r, _) ← get fsdir p hm_new;
  Ret r.

(** It should have failed, with this kind of error and this text. *)
Definition refuses (p : bytes) (text : bytes) : outcome unit :=
  r ← get_in p;
  e ← match r with Ok _ => Panic AssertFailed | Err e => Ret e end;
  _ ← assert_ (bool_decide (kind e = InvalidInput));
  assert_ (bool_decide (message e = text)).

Definition path_with_interior_nul : outcome unit :=
  refuses (bs "foo" ++ [NUL] ++ bs "bar") (bs "path contains NUL byte").

Definition path_with_parent_dir_segment : outcome unit :=
  all_of ((λ p, refuses p (bs "path contains .. segment")) <$> [bs ".."; bs "../foo"; bs "foo/../bar"; bs "foo/.."]).

Definition absolute_path : outcome unit := refuses (bs "/etc/passwd") (bs "path is absolute").

Definition regular_file : outcome unit :=
  r ← get_in (bs "foo.txt");
  f ← unwrap_ok r;
  assert_ (metadata_len (metadata f) =? len (bs "1234")).

Definition missing_file : outcome unit :=
  r ← get_in (bs "nonexistent.txt");
  match r with
  | Ok _ => Panic AssertFailed
  | Err e => assert_ (bool_decide (kind e = NotFound))
  end.

Definition symlink_allowed_in_last_path_component : outcome unit :=
  r ← get_in (bs "foo.txt"); _ ← unwrap_ok r; Ret tt.

Definition symlink_allowed_in_earlier_path_component : outcome unit :=
  r ← get_in (bs "etc/passwd"); _ ← unwrap_ok r; Ret tt.

(** The system opens [tmp], and [p] in it. *)
Definition temp_dir (d : RawFd) : Prop := NUL ∉ tmp ∧ len tmp < PATH_MAX ∧ open_directory tmp = Ok d.
Definition holds (d : RawFd) (p : bytes) (m : UnixMetadata) : Prop :=
  ∃ f, openat d p = Ok f ∧ file_metadata f = Ok m.

Context `{!HttpLaws} (d : RawFd) (Htmp : temp_dir d).

Lemma tmp_opens : for_path fsdir_builder tmp = Ok (mk_FsDir true d).
Proof.
  destruct Htmp as (Hn & Hl & Ho). unfold for_path. rewrite fsdir_open_spec.
  by rewrite bool_decide_false, (proj2 (Z.leb_gt _ _)), Ho by done.
Qed.

(** A request without header fields: the file itself, if the path is safe. *)
Lemma get_in_is p :
  get_in p =
    v ← validate_path p;
    Ret (match v with
         | Err e => Err (IoError InvalidInput e)
         | Ok _ => get_plain (mk_FsDir true d) p
         end).
Proof.
  unfold get_in. rewrite tmp_opens. cbn [unwrap_ok]. rewrite bind_Ret_l. unfold get.
  destruct (validate_path p) as [[[]|e]|w]; [|done..]. rewrite !bind_Ret_l. unfold should_gzip.
  by rewrite get_new.
Qed.

Lemma get_in_plain p : path_safe p →
  get_in p = Ret (and_then (openat d p) (λ f, and_then (file_metadata f) (λ m, Ok (mk_Node f m true false)))).
Proof.
  intros Hp. rewrite get_in_is, (proj2 (validate_path_safe p) Hp), bind_Ret_l.
  unfold get_plain, open_file. by rewrite c_string_path by apply Hp.
Qed.

Lemma get_in_holds p m : path_safe p → holds d p m → ∃ f, get_in p = Ret (Ok (mk_Node f m true false)).
Proof. intros Hp (f & Ho & Hm). exists f. rewrite get_in_plain, Ho by done. simpl. by rewrite Hm. Qed.

Lemma refusals_pass :
  Forall passes [path_with_interior_nul; path_with_parent_dir_segment; absolute_path].
Proof.
  repeat apply Forall_cons_2; [..|apply Forall_nil_2]; unfold passes.
  - unfold path_with_interior_nul, refuses. rewrite get_in_is. by vm_compute.
  - unfold path_with_parent_dir_segment, refuses. simpl fmap. rewrite !get_in_is. by vm_compute.
  - unfold absolute_path, refuses. rewrite get_in_is. by vm_compute.
Qed.

Lemma regular_file_passes m : holds d (bs "foo.txt") m → metadata_len m = 4 → passes regular_file.
Proof.
  intros Hh Hm. destruct (get_in_holds (bs "foo.txt") m) as [f Hf]; [by apply (bool_decide_unpack _)|done|].
  unfold regular_file. step Hf. apply (step _ (mk_Node f m true false)); [done|].
  unfold metadata. simpl. by rewrite Hm.
Qed.

Lemma missing_file_passes e :
  openat d (bs "nonexistent.txt") = Err e → kind e = NotFound → passes missing_file.
Proof.
  intros Ho He. unfold missing_file. rewrite get_in_plain by by apply (bool_decide_unpack _).
  rewrite Ho. simpl. unfold passes. by rewrite He.
Qed.

Lemma symlinks_pass m1 m2 :
  holds d (bs "foo.txt") m1 → holds d (bs "etc/passwd") m2 →
  Forall passes [symlink_allowed_in_last_path_component; symlink_allowed_in_earlier_path_component].
Proof.
  intros Hh1 Hh2.
  destruct (get_in_holds (bs "foo.txt") m1) as [f1 Hf1]; [by apply (bool_decide_unpack _)|done|].
  destruct (get_in_holds (bs "etc/passwd") m2) as [f2 Hf2]; [by apply (bool_decide_unpack _)|done|].
  repeat apply Forall_cons_2; [..|apply Forall_nil_2].
  - unfold symlink_allowed_in_last_path_component. by step Hf1.
  - unfold symlink_allowed_in_earlier_path_component. by step Hf2.
Qed.
End dir_tests.

Section properties.
Context `{Wakers, HttpLaws, UnixLaws, !UnixDirs, !StableFiles, !StableFilesLaws} {D : Type} `{!Buf D, !BufLaws D}.

(** C40: every unit test of the crate passes, whatever the crates below do
    within their documentation: those of the headers, the pipe and the
    length-checked stream; those of files, however short the reads of the
    system are, if the file has the content the test wrote; and those of
    directories, if the system opens what the test created. *)
Theorem unit_tests_pass (noop_waker : Waker) :
  Forall passes (header_tests ++ pipe_tests noop_waker ++ exact_len_tests (D:=D)) ∧
  (∀ f1 f2 info1 info2,
     opened f1 info1 4 → opened f2 info2 8 →
     file_content f1 = bs "asdf" → reads_ok (file_of f1 info1 hm_new) 4 →
     ∃ n, ∀ fuel, (n <= fuel)%nat → passes (basic (D:=D) fuel f1 f2)) ∧
  (∀ f info,
     opened f info 4 → file_content f = bs "asd" → ends_at (file_of f info hm_new) 3 →
     ∃ n, ∀ fuel, (n <= fuel)%nat → passes (truncate_race (D:=D) fuel f)) ∧
  (∀ tmp d, temp_dir tmp d →
     Forall passes [path_with_interior_nul tmp; path_with_parent_dir_segment tmp; absolute_path tmp] ∧
     (∀ m, holds d (bs "foo.txt") m → metadata_len m = 4 → passes (regular_file tmp)) ∧
     (∀ e, openat d (bs "nonexistent.txt") = Err e → kind e = NotFound → passes (missing_file tmp)) ∧
     (∀ m1 m2, holds d (bs "foo.txt") m1 → holds d (bs "etc/passwd") m2 →
        Forall passes [symlink_allowed_in_last_path_component tmp;
                       symlink_allowed_in_earlier_path_component tmp])).
Proof.
  split_and!.
  - rewrite !Forall_app. split_and!; [apply header_tests_pass|apply pipe_tests_pass|apply exact_len_tests_pass].
  - intros f1 f2 info1 info2. apply basic_passes.
  - apply truncate_race_passes.
  - intros tmp d Ht. split_and!.
    + by eapply refusals_pass.
    + intros m. by apply regular_file_passes.
    + intros e. by apply missing_file_passes.
    + intros m1 m2. by apply symlinks_pass.
Qed.
End properties.

(** ** A concrete system *)

#[local] Existing Instances plain_http plain_http_laws plain_buf plain_buf_laws test_wakers.
(** A file is the length it had when it was opened, and its content. *)
#[local] Instance race_unix : Unix := {|
  UnixFile := Z * bytes;
  UnixMetadata := Z;
  off_t_max := I64_MAX;
  pread f _ n off := Ok (take (Z.to_nat n) (drop (Z.to_nat off) f.2));
  is_file _ := true;
  is_dir _ := false;
  metadata_ino _ := 7;
  metadata_len m := m;
  metadata_modified _ := Ok (5 * NANOS_PER_SEC);
  file_metadata f := Ok f.1
|}.
#[local] Instance race_unix_laws : UnixLaws.
Proof. intros f t n off b Hn [= <-]. unfold len. rewrite length_take. lia. Qed.
#[local] Instance race_content : StableFiles := λ f : Z * bytes, f.2.
#[local] Instance race_content_laws : StableFilesLaws.
Proof.
  intros f t n off b Hn Ho [= <-]. exists (drop (Z.to_nat n) (drop (Z.to_nat off) f.2)). by rewrite take_drop.
Qed.
#[local] Instance race_dirs : UnixDirs := {|
  RawFd := Z;
  PATH_MAX := 4096;
  open_directory _ := Ok 3;
  openat _ p :=
    if bool_decide (p ∈ [bs "foo.txt"; bs "etc/passwd"]) then Ok ((4, bs "1234") : UnixFile)
    else Err (IoError NotFound [])
|}.

Definition race_info (size : Z) : FileInfo := mk_FileInfo 7 size (5 * NANOS_PER_SEC).

Lemma race_opened size s : 0 <= size <= U64_MAX → opened ((size, s) : @UnixFile race_unix) (race_info size) size.
Proof.
  intros Hs. split; [by exists size|]. split; [done|]. split_and!; simpl; done || lia.
Qed.

Lemma race_reads n m s : n = len s → n <= I64_MAX → reads_ok (file_of ((m, s) : @UnixFile race_unix) (race_info m) hm_new) n.
Proof.
  intros -> Hn. split; [simpl; lia|]. intros t k off Hk Hoff. eexists. split; [reflexivity|]. simpl.
  intros Hnil%(f_equal length). rewrite length_take, length_drop in Hnil. unfold len in *. simpl in Hnil. lia.
Qed.

Lemma unit_tests_pass_witness :
  ∃ fuel,
    passes (basic (D:=bytes) fuel ((4, bs "asdf") : @UnixFile race_unix) ((8, bs "asdfjkl;") : @UnixFile race_unix)) ∧
    passes (truncate_race (D:=bytes) fuel ((4, bs "asd") : @UnixFile race_unix)) ∧
    passes (regular_file (bs "/tmp/d")) ∧ passes (missing_file (bs "/tmp/d")) ∧
    passes (symlink_allowed_in_earlier_path_component (bs "/tmp/d")).
Proof.
  destruct (unit_tests_pass (D:=bytes) (7%nat : @Waker test_wakers)) as (_ & Hbasic & Hrace & Hdir).
  destruct (Hbasic (4, bs "asdf") (8, bs "asdfjkl;") (race_info 4) (race_info 8)) as [n1 H1];
    [by apply race_opened|by apply race_opened|reflexivity|by apply race_reads|].
  destruct (Hrace (4, bs "asd") (race_info 4)) as [n2 H2]; [by apply race_opened|reflexivity|..].
  { split; [by apply race_reads|]. split; [done|]. intros t n Hn. simpl. by rewrite take_nil. }
  destruct (Hdir (bs "/tmp/d") (3 : @RawFd race_unix race_dirs)) as (_ & Hfile & Hmiss & Hlink).
  { split_and!; [by apply (bool_decide_unpack _)|reflexivity|reflexivity]. }
  assert (∀ p, p ∈ [bs "foo.txt"; bs "etc/passwd"] → holds (3 : @RawFd race_unix race_dirs) p (4 : @UnixMetadata race_unix)) as Hh.
  { intros p Hp. exists (4, bs "1234"). split; [|reflexivity]. simpl. by rewrite bool_decide_true. }
  exists (n1 + n2)%nat. split_and!.
  - apply H1. lia.
  - apply H2. lia.
  - apply (Hfile (4 : @UnixMetadata race_unix)); [by apply Hh; left|reflexivity].
  - by apply (Hmiss (IoError NotFound [])).
  - pose proof (Hlink (4 : @UnixMetadata race_unix) (4 : @UnixMetadata race_unix)
      (Hh _ ltac:(left)) (Hh _ ltac:(right; left))) as Hf.
    by apply Forall_cons in Hf as [_ Hf%Forall_singleton].
Defined.
